(** * omnii-addon: session, token and reporting logic of the gRPC connector

    A shallow embedding of
      - [omnii_connector/enrollment_store.py]  (module [EnrollmentStore]),
      - [omnii/omnii_connector/grpc_client.py] (module [GrpcClient]),
    followed by the properties of the session/authentication lifecycle
    and of the periodic reporting tasks.

    Conventions.
    - A Python value that travels through the enrollment dictionary is a
      [pyval]; a [dict] is a finite map from strings to [pyval].
    - [time.time()] returns a float; clock readings are modelled as exact
      rationals ([Q]).  The code only subtracts two readings and compares
      with a constant, or truncates a reading with [int].
    - Console output ([print]) of the client is recorded in the event log. *)

From Stdlib Require Import ZArith QArith Qround Ascii String List Lia Lqa Bool.
From stdpp Require Import base option gmap strings pretty list.

Local Open Scope Z_scope.
Local Open Scope string_scope.
Local Open Scope list_scope.

(** ** Python values *)

Module Py.

Inductive pyval :=
| PNone
| PBool (b : bool)
| PInt (n : Z)
| PStr (s : string).

#[global] Instance pyval_eq_dec : EqDecision pyval.
Proof. solve_decision. Defined.

Abbreviation dict := (gmap string pyval).

(** [bool(v)]: the truth value Python gives to [v]. *)
Definition truthy (v : pyval) : bool :=
  match v with
  | PNone => false
  | PBool b => b
  | PInt n => negb (n =? 0)%Z
  | PStr s => negb (bool_decide (s = ""))
  end.

(** [str(v)], as used by f-strings. *)
Definition py_str (v : pyval) : string :=
  match v with
  | PNone => "None"
  | PBool true => "True"
  | PBool false => "False"
  | PInt n => pretty n
  | PStr s => s
  end.

(** [d.get(k)] and [d.get(k, default)]. *)
Definition get (d : dict) (k : string) : pyval := default PNone (d !! k).
Definition get_or (d : dict) (k : string) (dflt : pyval) : pyval :=
  default dflt (d !! k).

(** [int(x)] for a float [x]: truncation towards zero. *)
Definition int_of_float (x : Q) : Z := Z.quot (Qnum x) (Z.pos (Qden x)).

End Py.
Export Py.

(** ** The credential store: [omnii_connector/enrollment_store.py] *)

Module EnrollmentStore.

(** [constants.py] *)
Definition DATA_DIR : string := "/data".
Definition CREDENTIALS_PATH : string := "/data/credentials.json".
Definition ENROLLMENT_PATH : string := "/data/enrollment.json".

(** What [json.load] finds in a file.  A document is kept in parsed
    form: [json.dump] followed by [json.load] is the identity on
    dictionaries of scalars, which is all the store ever writes. *)
Inductive json_doc :=
| JDict (d : dict)          (* a JSON object *)
| JScalar (v : pyval)       (* null, a boolean, a number, a string *)
| JList.                    (* an array *)

Inductive content :=
| Json (j : json_doc)
| NotJson.                  (* [json.load] raises *)

Record file := { f_content : content; f_mode : N }.

(** Permission bits, written in octal in the source. *)
Definition mode_0o600 : N := 6 * 64.
Definition mode_0o644 : N := 6 * 64 + 4 * 8 + 4.
Definition mode_0o666 : N := 6 * 64 + 6 * 8 + 6.
Definition mode_0o755 : N := 7 * 64 + 5 * 8 + 5.

Record filesystem := {
  fs_umask : N;
  fs_dirs : gset string;
  fs_files : gmap string file;
}.

Definition os_path_exists (p : string) (fs : filesystem) : bool :=
  bool_decide (p ∈ fs_dirs fs) || bool_decide (is_Some (fs_files fs !! p)).

Definition os_makedirs (p : string) (fs : filesystem) : filesystem :=
  {| fs_umask := fs_umask fs;
     fs_dirs := {[p]} ∪ fs_dirs fs;
     fs_files := fs_files fs |}.

(** [with open(p, "w") as f: json.dump(obj, f)]: a new file gets the
    creation mode, an existing one keeps its mode and is truncated. *)
Definition write_json (p : string) (obj : dict) (fs : filesystem) : filesystem :=
  let mode := match fs_files fs !! p with
              | Some f => f_mode f
              | None => N.ldiff mode_0o666 (fs_umask fs)
              end in
  {| fs_umask := fs_umask fs;
     fs_dirs := fs_dirs fs;
     fs_files := <[p := {| f_content := Json (JDict obj); f_mode := mode |}]> (fs_files fs) |}.

Definition os_chmod (p : string) (mode : N) (fs : filesystem) : filesystem :=
  {| fs_umask := fs_umask fs;
     fs_dirs := fs_dirs fs;
     fs_files := alter (fun f => {| f_content := f_content f; f_mode := mode |}) p (fs_files fs) |}.

(** [os.remove(p)] *)
Definition os_remove (p : string) (fs : filesystem) : filesystem :=
  {| fs_umask := fs_umask fs;
     fs_dirs := fs_dirs fs;
     fs_files := delete p (fs_files fs) |}.

Definition ensure_data_dir (fs : filesystem) : filesystem :=
  if negb (os_path_exists DATA_DIR fs) then os_makedirs DATA_DIR fs else fs.

Definition save_enrollment_data (enrollment_data : dict) (fs : filesystem) : filesystem :=
  let fs := ensure_data_dir fs in
  let fs := write_json CREDENTIALS_PATH
              {[ "instanceId" := get enrollment_data "instanceId";
                 "token" := get enrollment_data "token" ]} fs in
  let fs := os_chmod CREDENTIALS_PATH mode_0o600 fs in
  let fs := write_json ENROLLMENT_PATH
              {[ "instanceId" := get enrollment_data "instanceId";
                 "grpcServerUrl" := get enrollment_data "grpcServerUrl" ]} fs in
  os_chmod ENROLLMENT_PATH mode_0o644 fs.

(** [with open(p, "r") as f: json.load(f)]; [None] stands for any
    exception (no such file, a directory, text that is not JSON). *)
Definition read_json (p : string) (fs : filesystem) : option json_doc :=
  match fs_files fs !! p with
  | Some {| f_content := Json j |} => Some j
  | _ => None
  end.

(** Every exception raised in the body is caught and turned into
    [None]; the option monad below is that [try]/[except]. *)
Definition load_enrollment_data (fs : filesystem) : option dict :=
  if negb (os_path_exists CREDENTIALS_PATH fs) || negb (os_path_exists ENROLLMENT_PATH fs)
  then None
  else
    enrollment_metadata ← read_json ENROLLMENT_PATH fs;
    credentials ← read_json CREDENTIALS_PATH fs;
    (* [{**enrollment_metadata, ...}] needs a mapping *)
    md ← (match enrollment_metadata with JDict d => Some d | _ => None end);
    (* [credentials.get] needs a dictionary *)
    cr ← (match credentials with JDict d => Some d | _ => None end);
    let enrollment_data := <["token" := get cr "token"]> md in
    (* [enrollment_data['instanceId']] raises KeyError when absent *)
    _ ← enrollment_data !! "instanceId";
    Some enrollment_data.

End EnrollmentStore.

(** ** gRPC and protobuf vocabulary used by [grpc_client.py] *)

Module Grpc.

(** [grpc.StatusCode] *)
Inductive StatusCode :=
| OK | CANCELLED | UNKNOWN | INVALID_ARGUMENT | DEADLINE_EXCEEDED
| NOT_FOUND | ALREADY_EXISTS | PERMISSION_DENIED | RESOURCE_EXHAUSTED
| FAILED_PRECONDITION | ABORTED | OUT_OF_RANGE | UNIMPLEMENTED
| INTERNAL | UNAVAILABLE | DATA_LOSS | UNAUTHENTICATED.

#[global] Instance StatusCode_eq_dec : EqDecision StatusCode.
Proof. solve_decision. Defined.

Definition StatusCode_name (c : StatusCode) : string :=
  match c with
  | OK => "OK" | CANCELLED => "CANCELLED" | UNKNOWN => "UNKNOWN"
  | INVALID_ARGUMENT => "INVALID_ARGUMENT"
  | DEADLINE_EXCEEDED => "DEADLINE_EXCEEDED"
  | NOT_FOUND => "NOT_FOUND" | ALREADY_EXISTS => "ALREADY_EXISTS"
  | PERMISSION_DENIED => "PERMISSION_DENIED"
  | RESOURCE_EXHAUSTED => "RESOURCE_EXHAUSTED"
  | FAILED_PRECONDITION => "FAILED_PRECONDITION"
  | ABORTED => "ABORTED" | OUT_OF_RANGE => "OUT_OF_RANGE"
  | UNIMPLEMENTED => "UNIMPLEMENTED" | INTERNAL => "INTERNAL"
  | UNAVAILABLE => "UNAVAILABLE" | DATA_LOSS => "DATA_LOSS"
  | UNAUTHENTICATED => "UNAUTHENTICATED"
  end.

(** [str(code)] of an enum member. *)
Definition StatusCode_str (c : StatusCode) : string :=
  "StatusCode." +:+ StatusCode_name c.

(** Exceptions.  [RpcError] is [grpc.RpcError] with its [code()] and
    [details()]; [RuntimeError] carries its message; the remaining
    classes are raised by the Python runtime or a library, which also
    chooses their text. *)
Inductive exn :=
| RpcError (code : StatusCode) (details : option string)
| RuntimeError (msg : string)
| TypeError
| ValueError
| AttributeError
| OSError
| OtherError.

#[global] Instance exn_eq_dec : EqDecision exn.
Proof. solve_decision. Defined.

Definition is_RpcError (e : exn) : bool :=
  match e with RpcError _ _ => true | _ => false end.

(** Channels, as built by [grpc.insecure_channel] and
    [grpc.secure_channel(target, ssl_channel_credentials(root_certificates), options)]. *)
Inductive Channel :=
| insecure_channel (target : string)
| secure_channel (target : string) (root_certificates : option string)
    (options : list (string * string)).

#[global] Instance Channel_eq_dec : EqDecision Channel.
Proof. solve_decision. Defined.

(** Messages of [omnnii.proto], as far as the client touches them. *)
Record EnrollRequest := { enroll_code : string }.
Record EnrollResponse := {
  enroll_success : bool;
  enroll_instance_id : string;
  enroll_access_token : string;
  enroll_refresh_token : string;
  enroll_access_token_expires_at : Z;
  enroll_error : string;
}.

Record RefreshTokenRequest := { rtq_refresh_token : string }.
Record RefreshTokenResponse := {
  rt_success : bool;
  rt_access_token : string;
  rt_refresh_token : string;
  rt_access_token_expires_at : Z;
  rt_error : string;
}.

Record SystemInfo := {
  si_supervisor : string; si_homeassistant : string; si_hassos : string;
  si_docker : string; si_hostname : string; si_operating_system : string;
  si_machine : string; si_arch : string; si_channel : string;
  si_state : string;
}.
Record HeartbeatRequest := {
  hb_client_timestamp : Z;
  hb_system_info : option SystemInfo;
}.
Record HeartbeatResponse := { hb_alive : bool; hb_latency_ms : Z }.

Record ComponentUpdate := {
  cu_component_type : string; cu_slug : string; cu_name : string;
  cu_version : string; cu_version_latest : string;
  cu_update_available : bool;
}.
Record UpdateReport := {
  ur_generated_at : Z;
  ur_components : list ComponentUpdate;
}.
Record UpdateReportRequest := { urq_report : UpdateReport }.
Record UpdateReportResponse := { ur_accepted : bool; ur_message : string }.

Record CoreStats := {
  cs_cpu_percent : Q; cs_memory_usage : Z; cs_memory_limit : Z;
  cs_memory_percent : Q; cs_network_tx : Z; cs_network_rx : Z;
  cs_blk_read : Z; cs_blk_write : Z;
}.
Record StatsReport := { sr_generated_at : Z; sr_stats : CoreStats }.
Record StatsReportRequest := { srq_report : StatsReport }.
Record StatsReportResponse := { sr_accepted : bool; sr_message : string }.

(** The methods of [OmniiServiceStub], with their request and
    response types. *)
Inductive method := Enroll | RefreshToken | Heartbeat | ReportUpdates | ReportStats.

#[global] Instance method_eq_dec : EqDecision method.
Proof. solve_decision. Defined.

Definition request (m : method) : Type :=
  match m with
  | Enroll => EnrollRequest
  | RefreshToken => RefreshTokenRequest
  | Heartbeat => HeartbeatRequest
  | ReportUpdates => UpdateReportRequest
  | ReportStats => StatsReportRequest
  end.

Definition response (m : method) : Type :=
  match m with
  | Enroll => EnrollResponse
  | RefreshToken => RefreshTokenResponse
  | Heartbeat => HeartbeatResponse
  | ReportUpdates => UpdateReportResponse
  | ReportStats => StatsReportResponse
  end.

(** Call metadata: a list of key/value pairs. *)
Abbreviation metadata := (list (string * string)).

End Grpc.
Export Grpc.

(** ** String and byte helpers of the Python runtime *)

Module Text.

Definition LF : string := String "010"%char EmptyString.

(** [s.rstrip("/")] *)
Fixpoint rstrip_slash (s : string) : string :=
  match s with
  | EmptyString => EmptyString
  | String c r =>
      match rstrip_slash r with
      | EmptyString => if Ascii.eqb c "/"%char then EmptyString else String c EmptyString
      | r' => String c r'
      end
  end.

(** [s.rsplit(":", 1)] when it has two parts: the text before and
    after the last colon; [None] when [s] has no colon (the list has
    one element and unpacking it into two names raises ValueError). *)
Fixpoint rsplit_colon (s : string) : option (string * string) :=
  match s with
  | EmptyString => None
  | String c r =>
      match rsplit_colon r with
      | Some (h, p) => Some (String c h, p)
      | None => if Ascii.eqb c ":"%char then Some (EmptyString, r) else None
      end
  end.

(** [base64.encodebytes]: each run of 57 input bytes becomes a line of
    base64 text followed by a newline. *)
Definition b64_alphabet : string :=
  "ABCDEFGHIJKLMNOPQRSTUVWXYZabcdefghijklmnopqrstuvwxyz0123456789+/".

Definition b64_char (n : N) : ascii :=
  default "="%char (String.get (N.to_nat n) b64_alphabet).

Fixpoint b64_encode (bs : list ascii) : list ascii :=
  match bs with
  | [] => []
  | [a] =>
      let x := N_of_ascii a in
      [b64_char (x / 4); b64_char ((x mod 4) * 16); "="%char; "="%char]
  | [a; b] =>
      let x := N_of_ascii a in
      let y := N_of_ascii b in
      [b64_char (x / 4); b64_char ((x mod 4) * 16 + y / 16);
       b64_char ((y mod 16) * 4); "="%char]
  | a :: b :: c :: rest =>
      let x := N_of_ascii a in
      let y := N_of_ascii b in
      let z := N_of_ascii c in
      b64_char (x / 4) :: b64_char ((x mod 4) * 16 + y / 16)
        :: b64_char ((y mod 16) * 4 + z / 64) :: b64_char (z mod 64)
        :: b64_encode rest
  end%N.

Definition MAXBINSIZE : nat := 57.

Fixpoint b64_lines (fuel : nat) (bs : list ascii) : list ascii :=
  match fuel, bs with
  | _, [] => []
  | O, _ => []
  | S fuel', _ =>
      b64_encode (take MAXBINSIZE bs) ++ "010"%char
        :: b64_lines fuel' (drop MAXBINSIZE bs)
  end.

Definition base64_encodebytes (s : string) : string :=
  let bs := list_ascii_of_string s in
  string_of_list_ascii (b64_lines (length bs) bs).

(** DER to PEM, as [_create_channel] does it. *)
Definition pem_of_der (der_cert : string) : string :=
  ("-----BEGIN CERTIFICATE-----" +:+ LF)
    +:+ base64_encodebytes der_cert
    +:+ ("-----END CERTIFICATE-----" +:+ LF).

End Text.
Export Text.

(** ** The client: [omnii/omnii_connector/grpc_client.py] *)

Module GrpcClient.

(** [constants.py] *)
Definition HEARTBEAT_INTERVAL_SECONDS : Z := 60.
Definition UPDATE_REPORT_INTERVAL_SECONDS : Z := 3600.

(** The three periodic reports; a timer's callback is the loop of one
    of them. *)
Inductive task := HeartbeatTask | UpdateReportTask | StatsReportTask.

#[global] Instance task_eq_dec : EqDecision task.
Proof. solve_decision. Defined.

(** A [threading.Timer]: created with an interval and a callback. *)
Record Timer := {
  timer_id : nat;
  timer_interval : Q;
  timer_callback : task;
}.

(** What a stub call gives back: a response, or [grpc.RpcError]. *)
Inductive rpc_outcome (A : Type) :=
| RpcOk (a : A)
| RpcFail (code : StatusCode) (details : option string).
Arguments RpcOk {A} a.
Arguments RpcFail {A} code details.

(** Everything outside the client object.  [Env] is the state of the
    outside world (server, network, clock, supervisor, files read);
    [Store] is the state behind [enrollment_store].  [grpc_client.py]
    imports [STATS_REPORT_INTERVAL_SECONDS], [save_enrollment_data] and
    [load_enrollment_data] and calls [supervisor.get_core_stats]; their
    definitions are taken as given. *)
Record Platform := {
  Env : Type;
  Store : Type;
  STATS_REPORT_INTERVAL_SECONDS : Z;
  (** [time.time()] *)
  time_time : Env -> Q * Env;
  (** [int(s)] for a string [s]; [None] is ValueError *)
  py_int : string -> option Z;
  (** [stub.<method>(request, timeout=..., metadata=...)] on a channel *)
  stub_call : forall m : method,
      Channel -> request m -> Z -> option metadata -> Env ->
      rpc_outcome (response m) * Env;
  (** [SupervisorClient] *)
  supervisor_get_info : Env -> option dict * Env;
  supervisor_get_update_components : Env -> list dict * Env;
  supervisor_get_core_stats : Env -> option (gmap string Q) * Env;
  (** [open(path, "rb").read()] *)
  read_binary : string -> Env -> (exn + string) * Env;
  (** the unverified TLS handshake of [_create_channel]:
      [create_default_context], [create_connection((host, port), timeout=10)],
      [wrap_socket], [getpeercert(binary_form=True)] *)
  fetch_peer_cert : string -> Z -> Env -> (exn + option string) * Env;
  (** [enrollment_store] *)
  save_enrollment_data : dict -> Store -> Store;
  load_enrollment_data : Store -> option dict;
}.

(** The attributes of an [OmniiGrpcClient] object. *)
Record OmniiGrpcClient := {
  server_url : string;
  enrollment_code : string;
  enrollment_data : option dict;
  channel : option Channel;
  stub : option Channel;              (* [OmniiServiceStub(channel)] *)
  access_token : pyval;
  refresh_token : pyval;
  access_token_expires_at : pyval;
  tls_skip_verify : bool;
  tls_ca_cert : option string;
  running : bool;
  start_time : Q;
  heartbeat_timer : option Timer;
  update_report_timer : option Timer;
  stats_report_timer : option Timer;
  last_full_info_time : Q;
}.

(** Attribute assignment. *)
Definition set_enrollment_data v c :=
  {| server_url := server_url c; enrollment_code := enrollment_code c;
     enrollment_data := v; channel := channel c; stub := stub c;
     access_token := access_token c; refresh_token := refresh_token c;
     access_token_expires_at := access_token_expires_at c;
     tls_skip_verify := tls_skip_verify c; tls_ca_cert := tls_ca_cert c;
     running := running c; start_time := start_time c;
     heartbeat_timer := heartbeat_timer c;
     update_report_timer := update_report_timer c;
     stats_report_timer := stats_report_timer c;
     last_full_info_time := last_full_info_time c |}.
Definition set_channel v c :=
  {| server_url := server_url c; enrollment_code := enrollment_code c;
     enrollment_data := enrollment_data c; channel := v; stub := stub c;
     access_token := access_token c; refresh_token := refresh_token c;
     access_token_expires_at := access_token_expires_at c;
     tls_skip_verify := tls_skip_verify c; tls_ca_cert := tls_ca_cert c;
     running := running c; start_time := start_time c;
     heartbeat_timer := heartbeat_timer c;
     update_report_timer := update_report_timer c;
     stats_report_timer := stats_report_timer c;
     last_full_info_time := last_full_info_time c |}.
Definition set_stub v c :=
  {| server_url := server_url c; enrollment_code := enrollment_code c;
     enrollment_data := enrollment_data c; channel := channel c; stub := v;
     access_token := access_token c; refresh_token := refresh_token c;
     access_token_expires_at := access_token_expires_at c;
     tls_skip_verify := tls_skip_verify c; tls_ca_cert := tls_ca_cert c;
     running := running c; start_time := start_time c;
     heartbeat_timer := heartbeat_timer c;
     update_report_timer := update_report_timer c;
     stats_report_timer := stats_report_timer c;
     last_full_info_time := last_full_info_time c |}.
Definition set_access_token v c :=
  {| server_url := server_url c; enrollment_code := enrollment_code c;
     enrollment_data := enrollment_data c; channel := channel c; stub := stub c;
     access_token := v; refresh_token := refresh_token c;
     access_token_expires_at := access_token_expires_at c;
     tls_skip_verify := tls_skip_verify c; tls_ca_cert := tls_ca_cert c;
     running := running c; start_time := start_time c;
     heartbeat_timer := heartbeat_timer c;
     update_report_timer := update_report_timer c;
     stats_report_timer := stats_report_timer c;
     last_full_info_time := last_full_info_time c |}.
Definition set_refresh_token v c :=
  {| server_url := server_url c; enrollment_code := enrollment_code c;
     enrollment_data := enrollment_data c; channel := channel c; stub := stub c;
     access_token := access_token c; refresh_token := v;
     access_token_expires_at := access_token_expires_at c;
     tls_skip_verify := tls_skip_verify c; tls_ca_cert := tls_ca_cert c;
     running := running c; start_time := start_time c;
     heartbeat_timer := heartbeat_timer c;
     update_report_timer := update_report_timer c;
     stats_report_timer := stats_report_timer c;
     last_full_info_time := last_full_info_time c |}.
Definition set_access_token_expires_at v c :=
  {| server_url := server_url c; enrollment_code := enrollment_code c;
     enrollment_data := enrollment_data c; channel := channel c; stub := stub c;
     access_token := access_token c; refresh_token := refresh_token c;
     access_token_expires_at := v;
     tls_skip_verify := tls_skip_verify c; tls_ca_cert := tls_ca_cert c;
     running := running c; start_time := start_time c;
     heartbeat_timer := heartbeat_timer c;
     update_report_timer := update_report_timer c;
     stats_report_timer := stats_report_timer c;
     last_full_info_time := last_full_info_time c |}.
Definition set_running v c :=
  {| server_url := server_url c; enrollment_code := enrollment_code c;
     enrollment_data := enrollment_data c; channel := channel c; stub := stub c;
     access_token := access_token c; refresh_token := refresh_token c;
     access_token_expires_at := access_token_expires_at c;
     tls_skip_verify := tls_skip_verify c; tls_ca_cert := tls_ca_cert c;
     running := v; start_time := start_time c;
     heartbeat_timer := heartbeat_timer c;
     update_report_timer := update_report_timer c;
     stats_report_timer := stats_report_timer c;
     last_full_info_time := last_full_info_time c |}.
Definition set_heartbeat_timer v c :=
  {| server_url := server_url c; enrollment_code := enrollment_code c;
     enrollment_data := enrollment_data c; channel := channel c; stub := stub c;
     access_token := access_token c; refresh_token := refresh_token c;
     access_token_expires_at := access_token_expires_at c;
     tls_skip_verify := tls_skip_verify c; tls_ca_cert := tls_ca_cert c;
     running := running c; start_time := start_time c;
     heartbeat_timer := v;
     update_report_timer := update_report_timer c;
     stats_report_timer := stats_report_timer c;
     last_full_info_time := last_full_info_time c |}.
Definition set_update_report_timer v c :=
  {| server_url := server_url c; enrollment_code := enrollment_code c;
     enrollment_data := enrollment_data c; channel := channel c; stub := stub c;
     access_token := access_token c; refresh_token := refresh_token c;
     access_token_expires_at := access_token_expires_at c;
     tls_skip_verify := tls_skip_verify c; tls_ca_cert := tls_ca_cert c;
     running := running c; start_time := start_time c;
     heartbeat_timer := heartbeat_timer c;
     update_report_timer := v;
     stats_report_timer := stats_report_timer c;
     last_full_info_time := last_full_info_time c |}.
Definition set_stats_report_timer v c :=
  {| server_url := server_url c; enrollment_code := enrollment_code c;
     enrollment_data := enrollment_data c; channel := channel c; stub := stub c;
     access_token := access_token c; refresh_token := refresh_token c;
     access_token_expires_at := access_token_expires_at c;
     tls_skip_verify := tls_skip_verify c; tls_ca_cert := tls_ca_cert c;
     running := running c; start_time := start_time c;
     heartbeat_timer := heartbeat_timer c;
     update_report_timer := update_report_timer c;
     stats_report_timer := v;
     last_full_info_time := last_full_info_time c |}.
Definition set_last_full_info_time v c :=
  {| server_url := server_url c; enrollment_code := enrollment_code c;
     enrollment_data := enrollment_data c; channel := channel c; stub := stub c;
     access_token := access_token c; refresh_token := refresh_token c;
     access_token_expires_at := access_token_expires_at c;
     tls_skip_verify := tls_skip_verify c; tls_ca_cert := tls_ca_cert c;
     running := running c; start_time := start_time c;
     heartbeat_timer := heartbeat_timer c;
     update_report_timer := update_report_timer c;
     stats_report_timer := stats_report_timer c;
     last_full_info_time := v |}.

(** What the client does that is visible from outside: console
    output, calls on the stub, and calls on the store. *)
Inductive event :=
| EvPrint (msg : string) (exc : option exn)   (* text, then [{e}] if any *)
| EvRpc (m : method) (ch : Channel) (rq : request m) (timeout : Z)
    (md : option metadata)
| EvSave (d : dict)
| EvProbe (host : string) (port : Z)
| EvTimerStart (t : Timer)
| EvTimerCancel (t : Timer)
| EvChannelClose (ch : Channel).

Definition is_rpc (m : method) (e : event) : bool :=
  match e with
  | EvRpc m' _ _ _ _ => bool_decide (m' = m)
  | _ => false
  end.

Definition is_any_rpc (e : event) : bool :=
  match e with EvRpc _ _ _ _ _ => true | _ => false end.

Definition is_timer_start (e : event) : bool :=
  match e with EvTimerStart _ => true | _ => false end.

(** The number of calls of method [m] recorded in a log. *)
Definition rpc_count (m : method) (l : list event) : nat :=
  length (filter (fun e => is_rpc m e = true) l).

(** A call returns normally or raises. *)
Inductive outcome (A : Type) :=
| Normal (a : A)
| Raised (e : exn).
Arguments Normal {A} a.
Arguments Raised {A} e.

(** Code without effects: it returns or raises. *)
Definition obind {A B} (o : outcome A) (k : A -> outcome B) : outcome B :=
  match o with
  | Normal a => k a
  | Raised e => Raised e
  end.

Notation "'let+' x ':=' m 'in' k" := (obind m (fun x => k))
  (at level 10, x pattern, m at level 100, k at level 200).

(** A value given to a protobuf string field in a constructor:
    [None] leaves the field at its default. *)
Definition proto_string (v : pyval) : outcome string :=
  match v with
  | PStr s => Normal s
  | PNone => Normal ""
  | _ => Raised TypeError
  end.

(** [a or b] *)
Definition py_or (a b : pyval) : pyval := if truthy a then a else b.

(** [omnnii_pb2.SystemInfo(supervisor=info.get("supervisor", ""), ...)] *)
Definition make_system_info (info : dict) : outcome SystemInfo :=
  let+ supervisor := proto_string (get_or info "supervisor" (PStr "")) in
  let+ homeassistant := proto_string (get_or info "homeassistant" (PStr "")) in
  let+ hassos := proto_string (py_or (get_or info "hassos" (PStr "")) (PStr "")) in
  let+ docker := proto_string (get_or info "docker" (PStr "")) in
  let+ hostname := proto_string (get_or info "hostname" (PStr "")) in
  let+ operating_system := proto_string (get_or info "operating_system" (PStr "")) in
  let+ machine := proto_string (get_or info "machine" (PStr "")) in
  let+ arch := proto_string (get_or info "arch" (PStr "")) in
  let+ channel := proto_string (get_or info "channel" (PStr "")) in
  let+ state := proto_string (get_or info "state" (PStr "")) in
  Normal {| si_supervisor := supervisor; si_homeassistant := homeassistant;
            si_hassos := hassos; si_docker := docker; si_hostname := hostname;
            si_operating_system := operating_system; si_machine := machine;
            si_arch := arch; si_channel := channel; si_state := state |}.

(** [omnnii_pb2.ComponentUpdate(component_type=component.get(...), ...)] *)
Definition make_component_update (component : dict) : outcome ComponentUpdate :=
  let+ component_type := proto_string (get_or component "component_type" (PStr "")) in
  let+ slug := proto_string (get_or component "slug" (PStr "")) in
  let+ name := proto_string (get_or component "name" (PStr "")) in
  let+ version := proto_string (get_or component "version" (PStr "")) in
  let+ version_latest := proto_string (get_or component "version_latest" (PStr "")) in
  Normal {| cu_component_type := component_type; cu_slug := slug; cu_name := name;
            cu_version := version; cu_version_latest := version_latest;
            cu_update_available := truthy (get component "update_available") |}.

(** [for component in components: report.components.append(...)] *)
Fixpoint make_component_updates (components : list dict) : outcome (list ComponentUpdate) :=
  match components with
  | [] => Normal []
  | component :: rest =>
      let+ cu := make_component_update component in
      let+ cus := make_component_updates rest in
      Normal (cu :: cus)
  end.

(** The call of an authenticated method: it carries metadata. *)
Definition is_auth_call (e : event) : bool :=
  match e with
  | EvRpc _ _ _ _ (Some _) => true
  | _ => false
  end.

Definition auth_call_count (l : list event) : nat :=
  length (filter (fun e => is_auth_call e = true) l).

(** The requests of the [Heartbeat] calls in a log, oldest first. *)
Definition heartbeat_request_of (e : event) : option HeartbeatRequest :=
  match e with
  | EvRpc m _ rq _ _ =>
      match m return request m -> option HeartbeatRequest with
      | Heartbeat => fun r => Some r
      | _ => fun _ => None
      end rq
  | _ => None
  end.

Definition heartbeat_requests (l : list event) : list HeartbeatRequest :=
  omap heartbeat_request_of l.

(** The dictionaries handed to [save_enrollment_data], oldest first. *)
Definition saved (l : list event) : list dict :=
  omap (fun e => match e with EvSave d => Some d | _ => None end) l.

(** A client that can refresh: it has a stub and holds a refresh token. *)
Definition session_ready (c : OmniiGrpcClient) : Prop :=
  is_Some (stub c) ∧ ∃ s, refresh_token c = PStr s ∧ s ≠ "".

(** Truth value of an optional path and of optional bytes. *)
Definition nonempty (o : option string) : bool :=
  match o with
  | Some s => negb (bool_decide (s = ""))
  | None => false
  end.

(** Truth value of an optional dictionary. *)
Definition dict_truthy {V} (o : option (gmap string V)) : bool :=
  match o with
  | Some d => negb (bool_decide (d = ∅))
  | None => false
  end.

(** The attributes a token refresh may touch. *)
Definition retoken (a r x : pyval) (d : option dict) (c : OmniiGrpcClient) :
    OmniiGrpcClient :=
  set_access_token a
    (set_refresh_token r
       (set_access_token_expires_at x (set_enrollment_data d c))).

(** Events of a token refresh: the [RefreshToken] call, a save, a message. *)
Definition is_refresh_event (e : event) : bool :=
  match e with
  | EvRpc RefreshToken _ _ _ None => true
  | EvSave _ => true
  | EvPrint _ _ => true
  | _ => false
  end.

(** The metadata [_auth_metadata] builds from a client object. *)
Definition auth_metadata_of (c : OmniiGrpcClient) : metadata :=
  [("authorization", "Bearer " +:+ py_str (access_token c))].

(** The events of an authenticated call: those of a refresh, and calls
    of the method with the given request. *)
Definition call_event (m : method) (ch : Channel) (rq : request m) (timeout : Z)
    (e : event) : Prop :=
  is_refresh_event e = true ∨ ∃ md, e = EvRpc m ch rq timeout (Some md).

(** What the supervisor's answer becomes in the request. *)
Definition attachment (info : option dict) : outcome (option SystemInfo) :=
  if dict_truthy info
  then obind (make_system_info (default ∅ info)) (λ si, Normal (Some si))
  else Normal None.

(** [f"{e.code()}: {e.details()}"] *)
Definition rpc_error_text (code : StatusCode) (details : option string) : string :=
  StatusCode_str code +:+ ": " +:+ default "None" details.

(** The message [send_heartbeat] prints for an exception. *)
Definition heartbeat_failed (e : exn) : event :=
  match e with
  | RpcError code details =>
      EvPrint ("Heartbeat failed: " +:+ rpc_error_text code details) None
  | _ => EvPrint "Heartbeat failed: " (Some e)
  end.

Section Client.

Context (P : Platform).

(** The state a method call runs in: the object itself, the outside
    world, the store, the timers that are started and have neither
    fired nor been cancelled, and the log of events so far. *)
Record World := {
  self : OmniiGrpcClient;
  env : Env P;
  store : Store P;
  timers : list Timer;
  timer_seq : nat;
  log : list event;
}.

Definition M (A : Type) : Type := World -> outcome A * World.

Definition ret {A} (a : A) : M A := fun w => (Normal a, w).

Definition raise {A} (e : exn) : M A := fun w => (Raised e, w).

Definition bind {A B} (m : M A) (k : A -> M B) : M B :=
  fun w =>
    match m w with
    | (Normal a, w') => k a w'
    | (Raised e, w') => (Raised e, w')
    end.

(** [try: body except ...]: the handler says which exceptions it
    catches ([None]: not caught, the exception travels on). *)
Definition try_except {A} (body : M A) (handler : exn -> option (M A)) : M A :=
  fun w =>
    match body w with
    | (Normal a, w') => (Normal a, w')
    | (Raised e, w') =>
        match handler e with
        | Some h => h w'
        | None => (Raised e, w')
        end
    end.

Notation "'let*' x ':=' m 'in' k" := (bind m (fun x => k))
  (at level 10, x pattern, m at level 100, k at level 200).

(** Effect-free code inside a method. *)
Definition lift {A} (o : outcome A) : M A := fun w => (o, w).

Definition get_self : M OmniiGrpcClient := fun w => (Normal (self w), w).

Definition assign (f : OmniiGrpcClient -> OmniiGrpcClient) : M unit :=
  fun w => (Normal tt,
            {| self := f (self w); env := env w; store := store w;
               timers := timers w; timer_seq := timer_seq w; log := log w |}).

Definition emit (e : event) : M unit :=
  fun w => (Normal tt,
            {| self := self w; env := env w; store := store w;
               timers := timers w; timer_seq := timer_seq w;
               log := log w ++ [e] |}).

Definition print (msg : string) : M unit := emit (EvPrint msg None).
Definition print_exc (msg : string) (e : exn) : M unit := emit (EvPrint msg (Some e)).

Definition from_env {A} (op : Env P -> A * Env P) : M A :=
  fun w =>
    let '(a, e') := op (env w) in
    (Normal a,
     {| self := self w; env := e'; store := store w;
        timers := timers w; timer_seq := timer_seq w; log := log w |}).

Definition on_store (f : Store P -> Store P) : M unit :=
  fun w => (Normal tt,
            {| self := self w; env := env w; store := f (store w);
               timers := timers w; timer_seq := timer_seq w; log := log w |}).

(** A call on the stub bound to channel [ch]. *)
Definition call_stub (m : method) (ch : Channel) (rq : request m)
    (timeout : Z) (md : option metadata) : M (response m) :=
  let* _ := emit (EvRpc m ch rq timeout md) in
  let* r := from_env (stub_call P m ch rq timeout md) in
  match r with
  | RpcOk a => ret a
  | RpcFail code details => raise (RpcError code details)
  end.

Definition store_save (d : dict) : M unit :=
  let* _ := emit (EvSave d) in
  on_store (save_enrollment_data P d).

(** [t = threading.Timer(interval, callback); t.daemon = True; t.start()] *)
Definition Timer_start (interval : Q) (callback : task) : M Timer :=
  fun w =>
    let t := {| timer_id := timer_seq w; timer_interval := interval;
                timer_callback := callback |} in
    (Normal t,
     {| self := self w; env := env w; store := store w;
        timers := timers w ++ [t]; timer_seq := S (timer_seq w);
        log := log w ++ [EvTimerStart t] |}).

(** [t.cancel()]: a timer that has fired already is not affected. *)
Definition Timer_cancel (t : Timer) : M unit :=
  fun w =>
    (Normal tt,
     {| self := self w; env := env w; store := store w;
        timers := filter (fun t' => timer_id t' ≠ timer_id t) (timers w);
        timer_seq := timer_seq w;
        log := log w ++ [EvTimerCancel t] |}).

(** [int(v)] *)
Definition int_of (v : pyval) : M Z :=
  match v with
  | PInt n => ret n
  | PBool b => ret (if b then 1 else 0)
  | PStr s => match py_int P s with
              | Some n => ret n
              | None => raise ValueError
              end
  | PNone => raise TypeError
  end.

(** *** Construction and enrollment *)

(** [OmniiGrpcClient(server_url, enrollment_code, tls_skip_verify,
    tls_ca_cert)]: [__init__] reads the clock once. *)
Definition OmniiGrpcClient_init (server_url : string) (enrollment_code : string)
    (tls_skip_verify : bool) (tls_ca_cert : option string)
    (e : Env P) : OmniiGrpcClient * Env P :=
  let '(t, e') := time_time P e in
  ({| server_url := rstrip_slash server_url;
      enrollment_code := enrollment_code;
      enrollment_data := None;
      channel := None;
      stub := None;
      access_token := PNone;
      refresh_token := PNone;
      access_token_expires_at := PNone;
      tls_skip_verify := tls_skip_verify;
      tls_ca_cert := tls_ca_cert;
      running := false;
      start_time := t;
      heartbeat_timer := None;
      update_report_timer := None;
      stats_report_timer := None;
      last_full_info_time := 0 |}, e').

Definition load_existing_enrollment : M bool :=
  fun w =>
    let d := load_enrollment_data P (store w) in
    bind (assign (set_enrollment_data d))
         (fun _ => ret (bool_decide (is_Some d))) w.

Definition tofu_options : list (string * string) :=
  [ ("grpc.ssl_target_name_override", "omnii-grpc");
    ("grpc.default_authority", "omnii-grpc") ].

(** [_create_channel(server_url)].  The address arrives as a Python
    value: [connect_and_handshake] takes it from the enrollment
    dictionary. *)
Definition _create_channel (server_url : pyval) : M Channel :=
  let* c := get_self in
  let* root_certificates :=
    (if nonempty (tls_ca_cert c) then
       let* r := from_env (read_binary P (default "" (tls_ca_cert c))) in
       match r with
       | inr data => ret (Some data)
       | inl e =>
           let* _ := print_exc "Failed to read TLS CA cert: " e in
           raise e
       end
     else ret None) in
  if tls_skip_verify c then
    if negb (nonempty (tls_ca_cert c)) then
      match server_url with
      | PStr url =>
          match rsplit_colon url with
          | None => raise ValueError
          | Some (host, port_str) =>
              match py_int P port_str with
              | None => raise ValueError
              | Some port =>
                  let* _ := emit (EvProbe host port) in
                  let* r := from_env (fetch_peer_cert P host port) in
                  match r with
                  | inl e =>
                      let* _ := print_exc "Warning: Could not fetch server certificate: " e in
                      let* _ := print "Falling back to insecure channel (no TLS)" in
                      ret (insecure_channel url)
                  | inr der_cert =>
                      let* root_certificates :=
                        (if nonempty der_cert then
                           let* _ := print "TLS verification skipped: using server's certificate directly" in
                           ret (Some (pem_of_der (default "" der_cert)))
                         else ret root_certificates) in
                      ret (secure_channel url root_certificates tofu_options)
                  end
              end
          end
      | _ => raise AttributeError
      end
    else
      match server_url with
      | PStr url => ret (secure_channel url root_certificates tofu_options)
      | _ => raise TypeError
      end
  else
    match server_url with
    | PStr url => ret (secure_channel url root_certificates [])
    | _ => raise TypeError
    end.

(** [enroll()] *)
Definition enroll : M bool :=
  try_except
    (let* c := get_self in
     let* _ := print ("Enrolling with gRPC server at " +:+ server_url c +:+ "...") in
     let* channel := _create_channel (PStr (server_url c)) in
     let* response :=
       call_stub Enroll channel {| enroll_code := enrollment_code c |} 10 None in
     if enroll_success response then
       let d : dict :=
         {[ "instanceId" := PStr (enroll_instance_id response);
            "accessToken" := PStr (enroll_access_token response);
            "refreshToken" := PStr (enroll_refresh_token response);
            "accessTokenExpiresAt" := PInt (enroll_access_token_expires_at response);
            "grpcServerUrl" := PStr (server_url c) ]} in
       let* _ := assign (set_enrollment_data (Some d)) in
       let* _ := print ("Enrolled successfully. Instance ID: "
                        +:+ enroll_instance_id response) in
       let* _ := store_save d in
       ret true
     else
       let* _ := print ("Enrollment failed: " +:+ enroll_error response) in
       ret false)
    (fun e =>
       match e with
       | RpcError code details =>
           Some (let* _ := print ("gRPC Enrollment error: " +:+ rpc_error_text code details) in
                 ret false)
       | _ =>
           Some (let* _ := print_exc "Enrollment error: " e in
                 ret false)
       end).

(** *** Tokens *)

(** [_token_expired()] *)
Definition _token_expired : M bool :=
  let* c := get_self in
  if negb (truthy (access_token_expires_at c)) then ret true
  else
    let* t := from_env (time_time P) in
    let* expires := int_of (access_token_expires_at c) in
    ret (int_of_float t >=? expires - 30).

(** [_auth_metadata()] *)
Definition _auth_metadata : M metadata :=
  let* c := get_self in
  ret [("authorization", "Bearer " +:+ py_str (access_token c))].

(** [refresh_access_token()] *)
Definition refresh_access_token : M bool :=
  let* c := get_self in
  match stub c with
  | None => ret false
  | Some ch =>
      if negb (truthy (refresh_token c)) then ret false
      else
        try_except
          (let* request :=
             (match refresh_token c with
              | PStr s => ret {| rtq_refresh_token := s |}
              | _ => raise TypeError
              end) in
           let* response := call_stub RefreshToken ch request 10 None in
           if rt_success response then
             let* _ := assign (set_access_token (PStr (rt_access_token response))) in
             let* _ :=
               (if truthy (PStr (rt_refresh_token response)) then
                  assign (set_refresh_token (PStr (rt_refresh_token response)))
                else ret tt) in
             let* _ := assign (set_access_token_expires_at
                                 (PInt (rt_access_token_expires_at response))) in
             let* c := get_self in
             let* _ :=
               (match enrollment_data c with
                | Some d =>
                    let d' := <["accessToken" := access_token c]>
                                (<["refreshToken" := refresh_token c]>
                                   (<["accessTokenExpiresAt" := access_token_expires_at c]> d)) in
                    let* _ := assign (set_enrollment_data (Some d')) in
                    store_save d'
                | None => ret tt
                end) in
             ret true
           else
             let* _ := print ("Refresh token failed: " +:+ rt_error response) in
             ret false)
          (fun e =>
             match e with
             | RpcError code details =>
                 Some (let* _ := print ("Refresh token error: "
                                        +:+ rpc_error_text code details) in
                       ret false)
             | _ => None
             end)
  end.

(** [_ensure_access_token()]: [or] evaluates [_token_expired()] only
    when an access token is held. *)
Definition _ensure_access_token : M bool :=
  let* c := get_self in
  let* due :=
    (if negb (truthy (access_token c)) then ret true else _token_expired) in
  if due then refresh_access_token else ret true.

(** [_call_with_auth(rpc, request, timeout)], where [rpc] is the
    method [m] of the stub bound to channel [ch]. *)
Definition _call_with_auth (m : method) (ch : Channel) (request : request m)
    (timeout : Z) : M (response m) :=
  let* ok := _ensure_access_token in
  if negb ok then raise (RuntimeError "Access token unavailable")
  else
    let* metadata := _auth_metadata in
    try_except
      (call_stub m ch request timeout (Some metadata))
      (fun e =>
         match e with
         | RpcError code _ =>
             Some (if bool_decide (code = UNAUTHENTICATED) then
                     let* refreshed := refresh_access_token in
                     if refreshed then
                       let* metadata := _auth_metadata in
                       call_stub m ch request timeout (Some metadata)
                     else raise e
                   else raise e)
         | _ => None
         end).

(** [connect_and_handshake()] *)
Definition connect_and_handshake : M bool :=
  let* c := get_self in
  if negb (dict_truthy (enrollment_data c)) then
    let* _ := print "Not enrolled. Call enroll() first." in
    ret false
  else
    let d := default ∅ (enrollment_data c) in
    let grpc_url := get_or d "grpcServerUrl" (PStr (server_url c)) in
    let* _ := print ("Connecting to gRPC server at " +:+ py_str grpc_url +:+ "...") in
    let* ch := _create_channel grpc_url in
    let* _ := assign (set_channel (Some ch)) in
    let* _ := assign (set_stub (Some ch)) in
    let* _ := assign (set_access_token (get d "accessToken")) in
    let* _ := assign (set_refresh_token (get d "refreshToken")) in
    let* _ := assign (set_access_token_expires_at (get d "accessTokenExpiresAt")) in
    let* c := get_self in
    if negb (truthy (refresh_token c)) then
      let* _ := print "Missing refresh token. Please re-enroll." in
      ret false
    else
      let* ok := _ensure_access_token in
      if negb ok then
        let* _ := print "Failed to refresh access token." in
        ret false
      else
        let* _ := assign (set_running true) in
        ret true.

(** *** Heartbeat *)

(** The body of [send_heartbeat] inside its [try], in three parts:
    building the request (up to the two "Heartbeat sent" messages),
    the call, and the treatment of the response. *)
Definition build_heartbeat_request (include_full_info : bool) : M HeartbeatRequest :=
  let* t := from_env (time_time P) in
  let client_timestamp := int_of_float (t * 1000) in
  let* system_info :=
    (if include_full_info then
       let* supervisor_info := from_env (supervisor_get_info P) in
       let* attached :=
         (if dict_truthy supervisor_info then
            let* system_info := lift (make_system_info (default ∅ supervisor_info)) in
            ret (Some system_info)
          else ret None) in
       let* t' := from_env (time_time P) in
       let* _ := assign (set_last_full_info_time t') in
       let* _ := print "Heartbeat sent with full system info" in
       ret attached
     else
       let* _ := print "Heartbeat sent (minimal)" in
       ret None) in
  ret {| hb_client_timestamp := client_timestamp;
         hb_system_info := system_info |}.

Definition handle_heartbeat_response (response : HeartbeatResponse) : M unit :=
  if negb (hb_alive response) then
    let* _ := print "Server indicated session is not alive, reconnecting..." in
    assign (set_running false)
  else if hb_latency_ms response >? 0 then
    print ("Latency: " +:+ pretty (hb_latency_ms response) +:+ "ms")
  else ret tt.

(** The [try] statement of [send_heartbeat], entered with the stub [ch]
    that its guard found. *)
Definition send_heartbeat_body (include_full_info : bool) (ch : Channel) : M unit :=
  try_except
    (let* request := build_heartbeat_request include_full_info in
     let* response := _call_with_auth Heartbeat ch request 10 in
     handle_heartbeat_response response)
    (fun e =>
       match e with
       | RpcError code details =>
           Some (print ("Heartbeat failed: " +:+ rpc_error_text code details))
       | _ => Some (print_exc "Heartbeat failed: " e)
       end).

(** [send_heartbeat(include_full_info)] *)
Definition send_heartbeat (include_full_info : bool) : M unit :=
  let* c := get_self in
  match running c, stub c with
  | true, Some ch => send_heartbeat_body include_full_info ch
  | _, _ => ret tt
  end.

(** [_schedule_heartbeat()] *)
Definition _schedule_heartbeat : M unit :=
  let* c := get_self in
  if negb (running c) then ret tt
  else
    let* t := Timer_start (inject_Z HEARTBEAT_INTERVAL_SECONDS) HeartbeatTask in
    assign (set_heartbeat_timer (Some t)).

(** [_heartbeat_loop()] up to and including the send ... *)
Definition _heartbeat_loop_send : M bool :=
  let* c := get_self in
  if negb (running c) then ret false
  else
    let* t := from_env (time_time P) in
    let include_full_info := Qle_bool 300 (t - last_full_info_time c) in
    let* _ := send_heartbeat include_full_info in
    ret true.

(** ... and its last statement. *)
Definition _heartbeat_loop_reschedule : M unit :=
  let* c := get_self in
  if running c then _schedule_heartbeat else ret tt.

(** [_heartbeat_loop()] *)
Definition _heartbeat_loop : M unit :=
  let* entered := _heartbeat_loop_send in
  if entered then _heartbeat_loop_reschedule else ret tt.

(** *** Update report *)

(** The [try] statement of [send_update_report]. *)
Definition send_update_report_body (ch : Channel) : M unit :=
  try_except
    (let* components := from_env (supervisor_get_update_components P) in
     let* t := from_env (time_time P) in
     let* cus := lift (make_component_updates components) in
     let report := {| ur_generated_at := int_of_float t; ur_components := cus |} in
     let request := {| urq_report := report |} in
     let* response := _call_with_auth ReportUpdates ch request 15 in
     if ur_accepted response then
       print ("Update report sent (" +:+ pretty (length components)
              +:+ " components, accepted)")
     else
       print ("Update report rejected: " +:+ ur_message response))
    (fun e =>
       match e with
       | RpcError code details =>
           Some (print ("Update report failed: " +:+ rpc_error_text code details))
       | _ => Some (print_exc "Update report failed: " e)
       end).

(** [send_update_report()] *)
Definition send_update_report : M unit :=
  let* c := get_self in
  match running c, stub c with
  | true, Some ch => send_update_report_body ch
  | _, _ => ret tt
  end.

(** [_schedule_update_report()] *)
Definition _schedule_update_report : M unit :=
  let* c := get_self in
  if negb (running c) then ret tt
  else
    let* t := Timer_start (inject_Z UPDATE_REPORT_INTERVAL_SECONDS) UpdateReportTask in
    assign (set_update_report_timer (Some t)).

Definition _update_report_loop_send : M bool :=
  let* c := get_self in
  if negb (running c) then ret false
  else
    let* _ := send_update_report in
    ret true.

Definition _update_report_loop_reschedule : M unit :=
  let* c := get_self in
  if running c then _schedule_update_report else ret tt.

(** [_update_report_loop()] *)
Definition _update_report_loop : M unit :=
  let* entered := _update_report_loop_send in
  if entered then _update_report_loop_reschedule else ret tt.

(** [start_update_reporting()] *)
Definition start_update_reporting : M unit :=
  let* c := get_self in
  if negb (running c) then ret tt
  else
    let* _ := print ("Starting update reporting thread ("
                     +:+ pretty UPDATE_REPORT_INTERVAL_SECONDS
                     +:+ " second interval)...") in
    let* _ := send_update_report in
    _schedule_update_report.

(** *** Stats report *)

(** [float(stats.get(k) or 0.0)] and [int(stats.get(k) or 0)]; the
    values of the stats dictionary are numbers. *)
Definition stat_float (stats : gmap string Q) (k : string) : Q :=
  default 0%Q (stats !! k).
Definition stat_int (stats : gmap string Q) (k : string) : Z :=
  int_of_float (default 0%Q (stats !! k)).

(** The [try] statement of [send_stats_report]. *)
Definition send_stats_report_body (ch : Channel) : M unit :=
  try_except
    (let* stats := from_env (supervisor_get_core_stats P) in
     if negb (dict_truthy stats) then
       print "Core stats unavailable; skipping stats report"
     else
       let stats := default ∅ stats in
       let* t := from_env (time_time P) in
       let report :=
         {| sr_generated_at := int_of_float t;
            sr_stats :=
              {| cs_cpu_percent := stat_float stats "cpu_percent";
                 cs_memory_usage := stat_int stats "memory_usage";
                 cs_memory_limit := stat_int stats "memory_limit";
                 cs_memory_percent := stat_float stats "memory_percent";
                 cs_network_tx := stat_int stats "network_tx";
                 cs_network_rx := stat_int stats "network_rx";
                 cs_blk_read := stat_int stats "blk_read";
                 cs_blk_write := stat_int stats "blk_write" |} |} in
       let request := {| srq_report := report |} in
       let* response := _call_with_auth ReportStats ch request 10 in
       if sr_accepted response then
         print "Core stats report sent (accepted)"
       else
         print ("Core stats report rejected: " +:+ sr_message response))
    (fun e =>
       match e with
       | RpcError code details =>
           Some (print ("Core stats report failed: " +:+ rpc_error_text code details))
       | _ => Some (print_exc "Core stats report failed: " e)
       end).

(** [send_stats_report()] *)
Definition send_stats_report : M unit :=
  let* c := get_self in
  match running c, stub c with
  | true, Some ch => send_stats_report_body ch
  | _, _ => ret tt
  end.

(** [_schedule_stats_report()] *)
Definition _schedule_stats_report : M unit :=
  let* c := get_self in
  if negb (running c) then ret tt
  else
    let* t := Timer_start (inject_Z (STATS_REPORT_INTERVAL_SECONDS P)) StatsReportTask in
    assign (set_stats_report_timer (Some t)).

Definition _stats_report_loop_send : M bool :=
  let* c := get_self in
  if negb (running c) then ret false
  else
    let* _ := send_stats_report in
    ret true.

Definition _stats_report_loop_reschedule : M unit :=
  let* c := get_self in
  if running c then _schedule_stats_report else ret tt.

(** [_stats_report_loop()] *)
Definition _stats_report_loop : M unit :=
  let* entered := _stats_report_loop_send in
  if entered then _stats_report_loop_reschedule else ret tt.

(** [start_stats_reporting()] *)
Definition start_stats_reporting : M unit :=
  let* c := get_self in
  if negb (running c) then ret tt
  else
    let* _ := print ("Starting core stats reporting thread ("
                     +:+ pretty (STATS_REPORT_INTERVAL_SECONDS P)
                     +:+ " second interval)...") in
    let* _ := send_stats_report in
    _schedule_stats_report.

(** *** Start and stop *)

(** [start_heartbeat()] *)
Definition start_heartbeat : M unit :=
  let* c := get_self in
  if negb (running c) then ret tt
  else
    let* _ := print ("Starting heartbeat thread ("
                     +:+ pretty HEARTBEAT_INTERVAL_SECONDS
                     +:+ " second interval)...") in
    let* _ := send_heartbeat true in
    let* _ := _schedule_heartbeat in
    let* _ := start_update_reporting in
    start_stats_reporting.

(** [if timer: timer.cancel(); timer = None] *)
Definition cancel_handle (handle : OmniiGrpcClient -> option Timer)
    (clear : OmniiGrpcClient -> OmniiGrpcClient) : M unit :=
  let* c := get_self in
  match handle c with
  | Some t =>
      let* _ := Timer_cancel t in
      assign clear
  | None => ret tt
  end.

(** [stop()] *)
Definition stop : M unit :=
  let* _ := print "Stopping add-on..." in
  let* _ := assign (set_running false) in
  let* _ := cancel_handle heartbeat_timer (set_heartbeat_timer None) in
  let* _ := cancel_handle update_report_timer (set_update_report_timer None) in
  let* _ := cancel_handle stats_report_timer (set_stats_report_timer None) in
  let* c := get_self in
  match channel c with
  | Some ch =>
      let* _ := emit (EvChannelClose ch) in
      assign (set_channel None)
  | None => ret tt
  end.

(** *** The loop functions, by task *)

Definition loop_send (k : task) : M bool :=
  match k with
  | HeartbeatTask => _heartbeat_loop_send
  | UpdateReportTask => _update_report_loop_send
  | StatsReportTask => _stats_report_loop_send
  end.

Definition loop_reschedule (k : task) : M unit :=
  match k with
  | HeartbeatTask => _heartbeat_loop_reschedule
  | UpdateReportTask => _update_report_loop_reschedule
  | StatsReportTask => _stats_report_loop_reschedule
  end.

Definition loop (k : task) : M unit :=
  match k with
  | HeartbeatTask => _heartbeat_loop
  | UpdateReportTask => _update_report_loop
  | StatsReportTask => _stats_report_loop
  end.

Definition remove_timer (t : Timer) (w : World) : World :=
  {| self := self w; env := env w; store := store w;
     timers := filter (fun t' => timer_id t' ≠ timer_id t) (timers w);
     timer_seq := timer_seq w; log := log w |}.

(** *** Reading a log and a world *)

Definition with_self (c : OmniiGrpcClient) (w : World) : World :=
  {| self := c; env := env w; store := store w;
     timers := timers w; timer_seq := timer_seq w; log := log w |}.
Definition with_env (e : Env P) (w : World) : World :=
  {| self := self w; env := e; store := store w;
     timers := timers w; timer_seq := timer_seq w; log := log w |}.
Definition with_log (l : list event) (w : World) : World :=
  {| self := self w; env := env w; store := store w;
     timers := timers w; timer_seq := timer_seq w; log := l |}.

(** What a refresh may change: the token attributes, the outside world,
    the store; it adds refresh events to the log, among them at most one
    [RefreshToken] call. *)
Definition token_step (w w' : World) (evs : list event) : Prop :=
  ∃ a r x d e s,
    w' = {| self := retoken a r x d (self w); env := e; store := s;
            timers := timers w; timer_seq := timer_seq w;
            log := log w ++ evs |}.

(** [w'] is a later world in which the client is stopped and, since [w],
    no stub was called and no timer was started or added. *)
Definition stays_stopped (w w' : World) : Prop :=
  running (self w') = false
  ∧ filter (λ e, is_any_rpc e = true) (log w')
    = filter (λ e, is_any_rpc e = true) (log w)
  ∧ filter (λ e, is_timer_start e = true) (log w')
    = filter (λ e, is_timer_start e = true) (log w)
  ∧ timers w' ⊆ timers w.

(** [w'] is a later world; since [w] no heartbeat was sent and
    [last_full_info_time] was not assigned. *)
Definition heartbeat_frame (w w' : World) : Prop :=
  last_full_info_time (self w') = last_full_info_time (self w)
  ∧ ∃ evs, log w' = log w ++ evs ∧ heartbeat_requests evs = [].

End Client.


Arguments self {P} w.
Arguments env {P} w.
Arguments store {P} w.
Arguments timers {P} w.
Arguments timer_seq {P} w.
Arguments log {P} w.
Arguments with_self {P} c w.
Arguments with_env {P} e w.
Arguments with_log {P} l w.
Arguments token_step {P} w w' evs.
Arguments heartbeat_frame {P} w w'.
Arguments stays_stopped {P} w w'.


(** ** Vocabulary for the properties of the client *)

(** The message [enroll] prints for an exception. *)
Definition enroll_failed (e : exn) : event :=
  match e with
  | RpcError code details =>
      EvPrint ("gRPC Enrollment error: " +:+ rpc_error_text code details) None
  | _ => EvPrint "Enrollment error: " (Some e)
  end.

(** The record [enroll] keeps for a successful response. *)
Definition enrolled_record (response : EnrollResponse) (url : string) : dict :=
  {[ "instanceId" := PStr (enroll_instance_id response);
     "accessToken" := PStr (enroll_access_token response);
     "refreshToken" := PStr (enroll_refresh_token response);
     "accessTokenExpiresAt" := PInt (enroll_access_token_expires_at response);
     "grpcServerUrl" := PStr url ]}.

(** Events of building a channel: messages and the certificate probe. *)
Definition is_channel_event (e : event) : bool :=
  match e with
  | EvPrint _ _ => true
  | EvProbe _ _ => true
  | _ => false
  end.

Definition is_print (e : event) : bool :=
  match e with EvPrint _ _ => true | _ => false end.

(** The messages the two report tasks print for an exception. *)
Definition update_report_failed (e : exn) : event :=
  match e with
  | RpcError code details =>
      EvPrint ("Update report failed: " +:+ rpc_error_text code details) None
  | _ => EvPrint "Update report failed: " (Some e)
  end.

Definition stats_report_failed (e : exn) : event :=
  match e with
  | RpcError code details =>
      EvPrint ("Core stats report failed: " +:+ rpc_error_text code details) None
  | _ => EvPrint "Core stats report failed: " (Some e)
  end.

(** The requests of the [ReportUpdates] calls in a log, oldest first. *)
Definition update_request_of (e : event) : option UpdateReportRequest :=
  match e with
  | EvRpc m _ rq _ _ =>
      match m return request m -> option UpdateReportRequest with
      | ReportUpdates => fun r => Some r
      | _ => fun _ => None
      end rq
  | _ => None
  end.

Definition update_requests (l : list event) : list UpdateReportRequest :=
  omap update_request_of l.

(** The attribute that holds the timer of a task, and the interval the
    task's timer is created with. *)
Definition handle_of (k : task) (c : OmniiGrpcClient) : option Timer :=
  match k with
  | HeartbeatTask => heartbeat_timer c
  | UpdateReportTask => update_report_timer c
  | StatsReportTask => stats_report_timer c
  end.

Definition interval_of (P : Platform) (k : task) : Q :=
  match k with
  | HeartbeatTask => inject_Z HEARTBEAT_INTERVAL_SECONDS
  | UpdateReportTask => inject_Z UPDATE_REPORT_INTERVAL_SECONDS
  | StatsReportTask => inject_Z (STATS_REPORT_INTERVAL_SECONDS P)
  end.

(** The timer a task starts in world [w]. *)
Definition next_timer {P : Platform} (k : task) (w : World P) : Timer :=
  {| timer_id := timer_seq w; timer_interval := interval_of P k;
     timer_callback := k |}.

(** What a send may change: the token attributes, [last_full_info_time]
    and [running] (which becomes [run]); the outside world and the
    store; the log grows by [evs].  Timers and their handles stay. *)
Definition send_step {P : Platform} (run : bool) (w w' : World P)
    (evs : list event) : Prop :=
  ∃ a r x d lf e s,
    w' = {| self := set_running run
                      (set_last_full_info_time lf (retoken a r x d (self w)));
            env := e; store := s;
            timers := timers w; timer_seq := timer_seq w;
            log := log w ++ evs |}.

(** What starting a task leaves behind on a running client: one more
    pending timer, kept in the task's handle. *)
Definition started {P : Platform} (k : task) (w w' : World P) : Prop :=
  timers w' = timers w ++ [next_timer k w]
  ∧ timer_seq w' = S (timer_seq w)
  ∧ handle_of k (self w') = Some (next_timer k w)
  ∧ (∀ k', k' ≠ k → handle_of k' (self w') = handle_of k' (self w))
  ∧ running (self w') = true.

(** The timers a client holds in its three handles. *)
Definition held (c : OmniiGrpcClient) : list Timer :=
  omap (fun k => handle_of k c) [HeartbeatTask; UpdateReportTask; StatsReportTask].

(** [t] is none of the timers [hs]: [cancel] of these leaves it pending. *)
Definition survives (hs : list Timer) (t : Timer) : Prop :=
  Forall (fun h => timer_id t ≠ timer_id h) hs.

(** The number of pending timers of a task. *)
Definition pending {P : Platform} (k : task) (w : World P) : nat :=
  length (filter (fun t => timer_callback t = k) (timers w)).

(** ** The threads of the running client

    Every timer that fires runs its callback in a thread of its own,
    beside the main thread, and nothing in the client is locked.  A
    thread is followed here from one access of the shared client
    object to the next: every test of [running], every use of a timer
    handle and every [Timer.start()] is a step of its own, between
    which the other threads may run.  One step stands for more than
    one access in a single place: the [try] statement of a send
    function, from after its guard to its end. *)

(** What a send function sends. *)
Inductive report := Beat (include_full_info : bool) | Updates | Stats.

(** The functions a thread calls, and the [if] statements of [stop]. *)
Inductive routine :=
| SendCode (r : report)       (* send_heartbeat(f), send_update_report(), send_stats_report() *)
| ScheduleCode (k : task)     (* _schedule_heartbeat(), _schedule_update_report(), ... *)
| RescheduleCode (k : task)   (* if self.running: self._schedule_...() *)
| StartUpdateCode             (* start_update_reporting() *)
| StartStatsCode              (* start_stats_reporting() *)
| CancelCode (k : task)       (* if self.x_timer: self.x_timer.cancel(); self.x_timer = None *)
| CloseCode.                  (* if self.channel: self.channel.close(); self.channel = None *)

(** The steps of a thread. *)
Inductive op :=
| IfNotRunningReturn               (* if not self.running: return *)
| IncludeFullInfo                  (* include_full_info = (time.time() - self.last_full_info_time) >= 300;
                                      self.send_heartbeat(include_full_info=include_full_info) *)
| SendGuard (r : report)           (* if not self.running or not self.stub: return *)
| SendBody (r : report) (ch : Channel)   (* try: ... except ...: ... *)
| TimerCreate (k : task)           (* self.x_timer = threading.Timer(interval, self._x_loop) *)
| TimerDaemon (k : task)           (* self.x_timer.daemon = True *)
| TimerStart (k : task)            (* self.x_timer.start() *)
| Say (msg : string)               (* print(msg) *)
| RunningFalse                     (* self.running = False *)
| IfNoHandleReturn (k : task)      (* if self.x_timer: *)
| HandleCancel (k : task)          (* self.x_timer.cancel() *)
| HandleClear (k : task)           (* self.x_timer = None *)
| IfNoChannelReturn                (* if self.channel: *)
| ChannelClose                     (* self.channel.close() *)
| ChannelClear                     (* self.channel = None *)
| Call (c : routine).

Definition report_of (k : task) : report :=
  match k with
  | HeartbeatTask => Beat false
  | UpdateReportTask => Updates
  | StatsReportTask => Stats
  end.

Definition set_handle (k : task) (v : option Timer) (c : OmniiGrpcClient) :
    OmniiGrpcClient :=
  match k with
  | HeartbeatTask => set_heartbeat_timer v c
  | UpdateReportTask => set_update_report_timer v c
  | StatsReportTask => set_stats_report_timer v c
  end.

(** Whether [start()] or [cancel()] has been called on a timer. *)
Definition started_before (t : Timer) (l : list event) : bool :=
  existsb (fun e => match e with
                    | EvTimerStart t' => bool_decide (timer_id t' = timer_id t)
                    | _ => false
                    end) l.

Definition cancelled_before (t : Timer) (l : list event) : bool :=
  existsb (fun e => match e with
                    | EvTimerCancel t' => bool_decide (timer_id t' = timer_id t)
                    | _ => false
                    end) l.

Section Threads.

Context (P : Platform).

Definition code_of (c : routine) : list op :=
  match c with
  | SendCode r => [SendGuard r]
  | ScheduleCode k => [IfNotRunningReturn; TimerCreate k; TimerDaemon k; TimerStart k]
  | RescheduleCode k => [IfNotRunningReturn; Call (ScheduleCode k)]
  | StartUpdateCode =>
      [IfNotRunningReturn;
       Say ("Starting update reporting thread ("
            +:+ pretty UPDATE_REPORT_INTERVAL_SECONDS +:+ " second interval)...");
       Call (SendCode Updates);
       Call (ScheduleCode UpdateReportTask)]
  | StartStatsCode =>
      [IfNotRunningReturn;
       Say ("Starting core stats reporting thread ("
            +:+ pretty (STATS_REPORT_INTERVAL_SECONDS P) +:+ " second interval)...");
       Call (SendCode Stats);
       Call (ScheduleCode StatsReportTask)]
  | CancelCode k => [IfNoHandleReturn k; HandleCancel k; HandleClear k]
  | CloseCode => [IfNoChannelReturn; ChannelClose; ChannelClear]
  end.

(** [_heartbeat_loop()], [_update_report_loop()], [_stats_report_loop()] *)
Definition loop_code (k : task) : list op :=
  match k with
  | HeartbeatTask =>
      [IfNotRunningReturn; IncludeFullInfo; Call (RescheduleCode HeartbeatTask)]
  | _ =>
      [IfNotRunningReturn; Call (SendCode (report_of k)); Call (RescheduleCode k)]
  end.

(** [start_heartbeat()] *)
Definition start_heartbeat_code : list op :=
  [IfNotRunningReturn;
   Say ("Starting heartbeat thread ("
        +:+ pretty HEARTBEAT_INTERVAL_SECONDS +:+ " second interval)...");
   Call (SendCode (Beat true));
   Call (ScheduleCode HeartbeatTask);
   Call StartUpdateCode;
   Call StartStatsCode].

(** [stop()] *)
Definition stop_code : list op :=
  [Say "Stopping add-on...";
   RunningFalse;
   Call (CancelCode HeartbeatTask);
   Call (CancelCode UpdateReportTask);
   Call (CancelCode StatsReportTask);
   Call CloseCode].

(** The [try] statement of a send function. *)
Definition send_body (r : report) (ch : Channel) : M P unit :=
  match r with
  | Beat include_full_info => send_heartbeat_body P include_full_info ch
  | Updates => send_update_report_body P ch
  | Stats => send_stats_report_body P ch
  end.

(** A thread: the blocks it is in, innermost first, each with the steps
    it has still to take.  [return] leaves the innermost block.  A
    thread with no block left has ended. *)
Definition thread := list (list op).

(** One step [o] of a thread that has [rest] to do in its block and
    [outer] around it.  An exception nobody catches ends the thread. *)
Definition run_op (o : op) (rest : list op) (outer : thread) (w : World P) :
    thread * World P :=
  let next := rest :: outer in
  match o with
  | IfNotRunningReturn =>
      if running (self w) then (next, w) else (outer, w)
  | IncludeFullInfo =>
      let '(t, e) := time_time P (env w) in
      let include_full_info := Qle_bool 300 (t - last_full_info_time (self w)) in
      ((Call (SendCode (Beat include_full_info)) :: rest) :: outer, with_env e w)
  | SendGuard r =>
      match running (self w), stub (self w) with
      | true, Some ch => ((SendBody r ch :: rest) :: outer, w)
      | _, _ => (outer, w)
      end
  | SendBody r ch =>
      match send_body r ch w with
      | (Normal _, w') => (next, w')
      | (Raised _, w') => ([], w')
      end
  | TimerCreate k =>
      (next,
       {| self := set_handle k (Some (next_timer k w)) (self w);
          env := env w; store := store w; timers := timers w;
          timer_seq := S (timer_seq w); log := log w |})
  | TimerDaemon k =>
      match handle_of k (self w) with
      | Some _ => (next, w)
      | None => ([], w)                          (* AttributeError *)
      end
  | TimerStart k =>
      match handle_of k (self w) with
      | Some t =>
          if started_before t (log w) then ([], w)   (* RuntimeError *)
          else
            (next,
             {| self := self w; env := env w; store := store w;
                timers := if cancelled_before t (log w) then timers w
                          else timers w ++ [t];
                timer_seq := timer_seq w;
                log := log w ++ [EvTimerStart t] |})
      | None => ([], w)                          (* AttributeError *)
      end
  | Say msg => (next, (print P msg w).2)
  | RunningFalse => (next, with_self (set_running false (self w)) w)
  | IfNoHandleReturn k =>
      match handle_of k (self w) with
      | Some _ => (next, w)
      | None => (outer, w)
      end
  | HandleCancel k =>
      match handle_of k (self w) with
      | Some t => (next, (Timer_cancel P t w).2)
      | None => ([], w)                          (* AttributeError *)
      end
  | HandleClear k => (next, with_self (set_handle k None (self w)) w)
  | IfNoChannelReturn =>
      match channel (self w) with
      | Some _ => (next, w)
      | None => (outer, w)
      end
  | ChannelClose =>
      match channel (self w) with
      | Some ch => (next, (emit P (EvChannelClose ch) w).2)
      | None => ([], w)                          (* AttributeError *)
      end
  | ChannelClear => (next, with_self (set_channel None (self w)) w)
  | Call c => (code_of c :: next, w)
  end.

(** The next step of a thread, if it has not ended. *)
Definition run_thread (th : thread) (w : World P) : option (thread * World P) :=
  match th with
  | [] => None
  | [] :: outer => Some (outer, w)
  | (o :: rest) :: outer => Some (run_op o rest outer w)
  end.

(** The process: the world and its threads.  A pending timer fires and
    its callback starts in a new thread; a thread takes its next step;
    the main thread enters [stop()]. *)
Record config := {
  world : World P;
  threads : list thread;
}.

Inductive step : config -> config -> Prop :=
| step_fire (cfg : config) (t : Timer) :
    t ∈ timers (world cfg) ->
    step cfg {| world := remove_timer P t (world cfg);
                threads := threads cfg ++ [[loop_code (timer_callback t)]] |}
| step_run (cfg : config) (i : nat) (th th' : thread) (w' : World P) :
    threads cfg !! i = Some th ->
    run_thread th (world cfg) = Some (th', w') ->
    step cfg {| world := w'; threads := <[i := th']> (threads cfg) |}
| step_stop (cfg : config) :
    step cfg {| world := world cfg; threads := threads cfg ++ [[stop_code]] |}.

Inductive steps : config -> config -> Prop :=
| steps_refl cfg : steps cfg cfg
| steps_cons cfg1 cfg2 cfg3 : step cfg1 cfg2 -> steps cfg2 cfg3 -> steps cfg1 cfg3.

(** A thread left alone for [n] steps. *)
Fixpoint run_alone (n : nat) (th : thread) (w : World P) : thread * World P :=
  match n with
  | O => (th, w)
  | S n' =>
      match run_thread th w with
      | Some (th', w') => run_alone n' th' w'
      | None => (th, w)
      end
  end.

(** The methods, by what they send and by task. *)
Definition send (r : report) : M P unit :=
  match r with
  | Beat include_full_info => send_heartbeat P include_full_info
  | Updates => send_update_report P
  | Stats => send_stats_report P
  end.

(** [_schedule_heartbeat()], [_schedule_update_report()],
    [_schedule_stats_report()] *)
Definition schedule (k : task) : M P unit :=
  match k with
  | HeartbeatTask => _schedule_heartbeat P
  | UpdateReportTask => _schedule_update_report P
  | StatsReportTask => _schedule_stats_report P
  end.

(** [start_update_reporting()] and [start_stats_reporting()] *)
Definition start_reporting (k : task) : M P unit :=
  match k with
  | HeartbeatTask => ret P tt
  | UpdateReportTask => start_update_reporting P
  | StatsReportTask => start_stats_reporting P
  end.

Definition start_code (k : task) : routine :=
  match k with
  | StatsReportTask => StartStatsCode
  | _ => StartUpdateCode
  end.

(** [th] left alone comes to [th'] in at most [n] steps. *)
Definition reaches (n : nat) (th : thread) (w : World P) (th' : thread)
    (w' : World P) : Prop :=
  ∃ j, (j ≤ n)%nat ∧ run_alone j th w = (th', w').

(** In a stopped client a block runs no further than its next test of
    [running].  [armed f b] counts, among the steps of [b] before that
    test, those that [f] counts; a call counts for nothing: the
    functions called test [running] first, and the blocks of [stop]
    neither send nor start a timer. *)
Fixpoint armed (f : op -> nat) (b : list op) : nat :=
  match b with
  | [] => 0
  | IfNotRunningReturn :: _ => 0
  | SendGuard _ :: _ => 0
  | o :: rest => f o + armed f rest
  end.

Definition sends (o : op) : nat :=
  match o with SendBody _ _ => 1 | _ => 0 end.

Definition starts (o : op) : nat :=
  match o with TimerStart _ => 1 | _ => 0 end.

Definition armed_thread (f : op -> nat) (th : thread) : nat :=
  sum_list_with (armed f) th.

(** The number of [start()] calls on timers in a log. *)
Definition timer_starts (l : list event) : nat :=
  length (filter (fun e => is_timer_start e = true) l).

(** The sends and the timer starts that the threads of a stopped client
    have still to make: those they were committed to when [running]
    became false. *)
Definition armed_sends (cfg : config) : nat :=
  sum_list_with (armed_thread sends) (threads cfg).

Definition armed_starts (cfg : config) : nat :=
  sum_list_with (armed_thread starts) (threads cfg).

(** The timers of task [k] that a thread may still start: its
    [TimerStart k] steps, and those of the functions it has still to
    call. *)
Definition ahead_code (k : task) (c : routine) : nat :=
  match c with
  | ScheduleCode k' => if bool_decide (k' = k) then 1 else 0
  | RescheduleCode k' => if bool_decide (k' = k) then 1 else 0
  | StartUpdateCode => if bool_decide (UpdateReportTask = k) then 1 else 0
  | StartStatsCode => if bool_decide (StatsReportTask = k) then 1 else 0
  | _ => 0
  end.

Definition ahead_op (k : task) (o : op) : nat :=
  match o with
  | TimerStart k' => if bool_decide (k' = k) then 1 else 0
  | Call c => ahead_code k c
  | _ => 0
  end.

Definition ahead_thread (k : task) (th : thread) : nat :=
  sum_list_with (sum_list_with (ahead_op k)) th.

Definition ahead (k : task) (cfg : config) : nat :=
  sum_list_with (ahead_thread k) (threads cfg).

(** Every handle holds a timer of its own task, or none. *)
Definition tidy (c : OmniiGrpcClient) : Prop :=
  forall k t, handle_of k c = Some t -> timer_callback t = k.

(** Every handle holds a timer of its task, and each task has at most
    one timer that is pending or may still be started. *)
Definition in_order (cfg : config) : Prop :=
  tidy (self (world cfg))
  /\ forall k, (pending k (world cfg) + ahead k cfg <= 1)%nat.

(** No timer has been started or cancelled that is yet to be created. *)
Definition fresh_log (w : World P) : Prop :=
  forall t, (timer_seq w <= timer_id t)%nat ->
            started_before t (log w) = false /\ cancelled_before t (log w) = false.

(** From a stopped client on: [running] stays false; the threads make
    no send and no timer start but those they were committed to, so
    that what is armed only shrinks, no more timers are started (or
    pending) than were armed, and stub calls are made only while an
    armed send is used up. *)
Definition winds_down (cfg cfg' : config) : Prop :=
  running (self (world cfg')) = false
  ∧ (armed_sends cfg' ≤ armed_sends cfg)%nat
  ∧ (armed_starts cfg' ≤ armed_starts cfg)%nat
  ∧ (timer_starts (log (world cfg')) + armed_starts cfg'
     ≤ timer_starts (log (world cfg)) + armed_starts cfg)%nat
  ∧ (length (timers (world cfg')) + armed_starts cfg'
     ≤ length (timers (world cfg)) + armed_starts cfg)%nat
  ∧ (armed_sends cfg' = armed_sends cfg →
     filter (fun e => is_any_rpc e = true) (log (world cfg'))
     = filter (fun e => is_any_rpc e = true) (log (world cfg)))
  ∧ (armed_starts cfg = 0%nat → timers (world cfg') ⊆ timers (world cfg)).

(** A schedule: which timer fires (by its place among the pending
    ones), which thread takes a step, when [stop()] is entered. *)
Inductive move := Fire (j : nat) | Run (i : nat) | Stop.

Definition play_move (m : move) (cfg : config) : option config :=
  match m with
  | Fire j =>
      match timers (world cfg) !! j with
      | Some t =>
          Some {| world := remove_timer P t (world cfg);
                  threads := threads cfg ++ [[loop_code (timer_callback t)]] |}
      | None => None
      end
  | Run i =>
      match threads cfg !! i with
      | Some th =>
          match run_thread th (world cfg) with
          | Some (th', w') => Some {| world := w'; threads := <[i := th']> (threads cfg) |}
          | None => None
          end
      | None => None
      end
  | Stop => Some {| world := world cfg; threads := threads cfg ++ [[stop_code]] |}
  end.

Fixpoint play (ms : list move) (cfg : config) : option config :=
  match ms with
  | [] => Some cfg
  | m :: rest =>
      match play_move m cfg with
      | Some cfg' => play rest cfg'
      | None => None
      end
  end.

End Threads.

Arguments world {P} c.
Arguments threads {P} c.
Arguments armed_sends {P} cfg.
Arguments armed_starts {P} cfg.
Arguments winds_down {P} cfg cfg'.
Arguments ahead {P} k cfg.
Arguments in_order {P} cfg.
Arguments fresh_log {P} w.
Arguments reaches {P} n th w th' w'.

(** ** A scripted platform, for running the client on examples *)

Module Script.

Record outside := {
  clock : list Q;                                       (* readings to come *)
  refresh_replies : list (rpc_outcome RefreshTokenResponse);
  heartbeat_replies : list (rpc_outcome HeartbeatResponse);
  info : option dict;
  peer_cert : exn + option string;
}.

Definition tick (e : outside) : Q * outside :=
  match clock e with
  | [] => (0%Q, e)
  | t :: r =>
      (t, {| clock := r; refresh_replies := refresh_replies e;
             heartbeat_replies := heartbeat_replies e; info := info e;
             peer_cert := peer_cert e |})
  end.

Definition next_refresh (e : outside) : rpc_outcome RefreshTokenResponse * outside :=
  match refresh_replies e with
  | [] => (RpcFail UNAVAILABLE None, e)
  | r :: rest =>
      (r, {| clock := clock e; refresh_replies := rest;
             heartbeat_replies := heartbeat_replies e; info := info e;
             peer_cert := peer_cert e |})
  end.

Definition next_heartbeat (e : outside) : rpc_outcome HeartbeatResponse * outside :=
  match heartbeat_replies e with
  | [] => (RpcFail UNAVAILABLE None, e)
  | r :: rest =>
      (r, {| clock := clock e; refresh_replies := refresh_replies e;
             heartbeat_replies := rest; info := info e;
             peer_cert := peer_cert e |})
  end.

Definition call (m : method) (_ : Channel) (_ : request m) (_ : Z)
    (_ : option metadata) (e : outside) : rpc_outcome (response m) * outside :=
  match m return rpc_outcome (response m) * outside with
  | RefreshToken => next_refresh e
  | Heartbeat => next_heartbeat e
  | Enroll => (RpcFail UNAVAILABLE None, e)
  | ReportUpdates => (RpcFail UNAVAILABLE None, e)
  | ReportStats => (RpcFail UNAVAILABLE None, e)
  end.

(** Decimal digits only. *)
Fixpoint digits (acc : Z) (s : string) : option Z :=
  match s with
  | EmptyString => Some acc
  | String c r =>
      let n := Z.of_N (N_of_ascii c) - 48 in
      if ((0 <=? n) && (n <=? 9))%Z then digits (10 * acc + n) r else None
  end.

Definition parse_int (s : string) : option Z :=
  match s with
  | EmptyString => None
  | _ => digits 0 s
  end.

Definition platform : Platform :=
  {| Env := outside;
     Store := EnrollmentStore.filesystem;
     STATS_REPORT_INTERVAL_SECONDS := 300;
     time_time := tick;
     py_int := parse_int;
     stub_call := call;
     supervisor_get_info := fun e => (info e, e);
     supervisor_get_update_components := fun e => ([], e);
     supervisor_get_core_stats := fun e => (None, e);
     read_binary := fun _ e => (inl OSError, e);
     fetch_peer_cert := fun _ _ e => (peer_cert e, e);
     save_enrollment_data := EnrollmentStore.save_enrollment_data;
     load_enrollment_data := EnrollmentStore.load_enrollment_data |}.

Definition empty_fs : EnrollmentStore.filesystem :=
  {| EnrollmentStore.fs_umask := 18;
     EnrollmentStore.fs_dirs := ∅;
     EnrollmentStore.fs_files := ∅ |}.

(** A connected client holding the given tokens. *)
Definition client (access refresh expires : pyval)
    (record : option dict) (last_full : Q) : OmniiGrpcClient :=
  {| server_url := "10.0.0.1:50051";
     enrollment_code := "code";
     enrollment_data := record;
     channel := Some (insecure_channel "10.0.0.1:50051");
     stub := Some (insecure_channel "10.0.0.1:50051");
     access_token := access;
     refresh_token := refresh;
     access_token_expires_at := expires;
     tls_skip_verify := false;
     tls_ca_cert := None;
     running := true;
     start_time := 0;
     heartbeat_timer := None;
     update_report_timer := None;
     stats_report_timer := None;
     last_full_info_time := last_full |}.

Definition start (c : OmniiGrpcClient) (e : outside) : World platform :=
  Build_World platform c e empty_fs [] 0 [].

(** Replies and worlds used in the examples. *)
Definition granted (access refresh : string) (expires : Z) :
    rpc_outcome RefreshTokenResponse :=
  RpcOk {| rt_success := true; rt_access_token := access;
           rt_refresh_token := refresh;
           rt_access_token_expires_at := expires; rt_error := "" |}.

Definition denied (why : string) : rpc_outcome RefreshTokenResponse :=
  RpcOk {| rt_success := false; rt_access_token := "";
           rt_refresh_token := ""; rt_access_token_expires_at := 0;
           rt_error := why |}.

Definition alive (a : bool) : rpc_outcome HeartbeatResponse :=
  RpcOk {| hb_alive := a; hb_latency_ms := 12 |}.

Definition scene (clock : list Q)
    (refresh_replies : list (rpc_outcome RefreshTokenResponse))
    (heartbeat_replies : list (rpc_outcome HeartbeatResponse))
    (info : option dict) : outside :=
  {| clock := clock; refresh_replies := refresh_replies;
     heartbeat_replies := heartbeat_replies; info := info;
     peer_cert := inl OSError |}.

Definition record0 : dict :=
  {[ "instanceId" := PStr "inst-1";
     "accessToken" := PStr "A1";
     "refreshToken" := PStr "R1";
     "accessTokenExpiresAt" := PInt 3600;
     "grpcServerUrl" := PStr "10.0.0.1:50051" ]}.

(** A connected client with tokens A1/R1 expiring at 3600. *)
Definition client0 : OmniiGrpcClient :=
  client (PStr "A1") (PStr "R1") (PInt 3600) (Some record0) 0.

(** The server grants a new access token and sends no refresh token. *)
Definition world_granted : World platform :=
  start client0 (scene [] [granted "A2" "" 7200] [] None).


(** The server refuses the refresh token. *)
Definition world_denied : World platform :=
  start client0 (scene [] [denied "revoked"] [] None).

(** Tokens A1/R1 expiring at 3600, looked at when the clock says [t]. *)
Definition world_at (t : Q) : World platform :=
  start client0 (scene [t] [granted "A2" "" 7200] [] None).

(** The server rejects every authenticated call, and grants refreshes. *)
Definition world_always_rejected : World platform :=
  start client0
    (scene [100%Q] [granted "A2" "" 7200]
       [RpcFail UNAUTHENTICATED None; RpcFail UNAUTHENTICATED (Some "again")] None).

Definition ping : HeartbeatRequest :=
  {| hb_client_timestamp := 100000; hb_system_info := None |}.

(** A client configured with [tls_skip_verify] and no CA file, before it
    connects, and an endpoint whose handshake ends as [cert] says. *)
Definition tofu_client : OmniiGrpcClient :=
  {| server_url := "10.0.0.1:50051";
     enrollment_code := "code";
     enrollment_data := Some record0;
     channel := None;
     stub := None;
     access_token := PNone;
     refresh_token := PNone;
     access_token_expires_at := PNone;
     tls_skip_verify := true;
     tls_ca_cert := None;
     running := false;
     start_time := 0;
     heartbeat_timer := None;
     update_report_timer := None;
     stats_report_timer := None;
     last_full_info_time := 0 |}.

Definition world_tofu (cert : exn + option string) : World platform :=
  start tofu_client
    {| clock := []; refresh_replies := []; heartbeat_replies := [];
       info := None; peer_cert := cert |}.

(** A record loaded without a refresh token, in a client that has not
    connected yet. *)
Definition record_without_refresh_token : dict :=
  {[ "instanceId" := PStr "inst-1";
     "token" := PStr "legacy";
     "grpcServerUrl" := PStr "10.0.0.1:50051" ]}.

Definition world_unconnected (record : dict) : World platform :=
  start
    {| server_url := "10.0.0.1:50051";
       enrollment_code := "code";
       enrollment_data := Some record;
       channel := None;
       stub := None;
       access_token := PNone;
       refresh_token := PNone;
       access_token_expires_at := PNone;
       tls_skip_verify := false;
       tls_ca_cert := None;
       running := false;
       start_time := 0;
       heartbeat_timer := None;
       update_report_timer := None;
       stats_report_timer := None;
       last_full_info_time := 0 |}
    (scene [100%Q] [granted "A2" "" 7200] [] None).

(** The server answers the heartbeat with [alive = false]. *)
Definition world_session_ended : World platform :=
  start client0 (scene [100%Q; 100%Q] [] [alive false] None).

(** What the supervisor says about the host. *)
Definition info0 : dict :=
  {[ "supervisor" := PStr "2024.01.0";
     "homeassistant" := PStr "2024.1.5";
     "hassos" := PNone;
     "hostname" := PStr "homeassistant";
     "arch" := PStr "aarch64" ]}.

(** A running client whose access token is good for a long time, with
    the given [last_full_info_time]; the clock gives the readings
    [clock], the server answers every heartbeat with [alive = true]. *)
Definition world_beating (last_full : Q) (clock : list Q) : World platform :=
  start (client (PStr "A1") (PStr "R1") (PInt 1000000) (Some record0) last_full)
    (scene clock [] [alive true; alive true; alive true] (Some info0)).

(** The scenario of the specification: the client starts at time 1000
    with [last_full_info_time = 0], its timer fires 100 seconds later,
    and again 305 seconds after the start. *)
Definition cadence_scenario : World platform :=
  let w0 := world_beating 0
              [1000; 1000; 1000; 1000; 1000;
               1100; 1100; 1100;
               1305; 1305; 1305; 1305]%Q in
  let w1 := (start_heartbeat platform w0).2 in
  let w2 := (_heartbeat_loop platform w1).2 in
  (_heartbeat_loop platform w2).2.

(** The supervisor gives a number where a version string belongs; the
    last heartbeat with full info was at time 0 and the clock says
    1000. *)
Definition world_odd_info : World platform :=
  start (client (PStr "A1") (PStr "R1") (PInt 1000000) (Some record0) 0)
    (scene [1000; 1000; 1000]%Q [] [alive true; alive true]
       (Some {[ "supervisor" := PInt 5 ]})).

(** The supervisor is not reachable, and the server is down. *)
Definition world_unreachable : World platform :=
  start (client (PStr "A1") (PStr "R1") (PInt 1000000) (Some record0) 0)
    (scene [1000; 1000; 1000]%Q [] [] None).

End Script.

(** ** A platform on which every call succeeds *)

Module Steady.

(** What the server answers. *)
Definition reply (m : method) : response m :=
  match m return response m with
  | Enroll =>
      {| enroll_success := true; enroll_instance_id := "inst-1";
         enroll_access_token := "A1"; enroll_refresh_token := "R1";
         enroll_access_token_expires_at := 1000000; enroll_error := "" |}
  | RefreshToken =>
      {| rt_success := true; rt_access_token := "A2"; rt_refresh_token := "";
         rt_access_token_expires_at := 1000000; rt_error := "" |}
  | Heartbeat => {| hb_alive := true; hb_latency_ms := 0 |}
  | ReportUpdates => {| ur_accepted := true; ur_message := "" |}
  | ReportStats => {| sr_accepted := true; sr_message := "" |}
  end.

(** The clock stands at 1000; the supervisor knows the host and one
    component; files can be read and the endpoint presents a
    certificate. *)
Definition platform : Platform :=
  {| Env := unit;
     Store := EnrollmentStore.filesystem;
     STATS_REPORT_INTERVAL_SECONDS := 300;
     time_time := fun e => (1000%Q, e);
     py_int := Script.parse_int;
     stub_call := fun m _ _ _ _ e => (RpcOk (reply m), e);
     supervisor_get_info := fun e => (Some Script.info0, e);
     supervisor_get_update_components :=
       fun e => ([ {[ "component_type" := PStr "core"; "version" := PStr "2024.1.5";
                      "update_available" := PBool true ]} ], e);
     supervisor_get_core_stats := fun e => (Some {[ "cpu_percent" := 1.5%Q ]}, e);
     read_binary := fun _ e => (inr "CA", e);
     fetch_peer_cert := fun _ _ e => (inr (Some "abc"), e);
     save_enrollment_data := EnrollmentStore.save_enrollment_data;
     load_enrollment_data := EnrollmentStore.load_enrollment_data |}.

(** A client as [__init__] makes it, with the given TLS options. *)
Definition fresh (skip : bool) (ca : option string) : World platform :=
  Build_World platform
    (OmniiGrpcClient_init platform "10.0.0.1:50051/" "code" skip ca tt).1
    tt Script.empty_fs [] 0 [].

End Steady.

Module Late.
Import Script.

Definition t_heartbeat : Timer :=
  {| timer_id := 0; timer_interval := 60; timer_callback := HeartbeatTask |}.
Definition t_update : Timer :=
  {| timer_id := 1; timer_interval := 3600; timer_callback := UpdateReportTask |}.

(** An hour into a session: the heartbeat timer and the update report
    timer are both due, and the server will answer the next heartbeat
    with [alive = false]. *)
Definition world_both_due : World platform :=
  Build_World platform
    (set_heartbeat_timer (Some t_heartbeat)
       (set_update_report_timer (Some t_update)
          (client (PStr "A1") (PStr "R1") (PInt 1000000) (Some record0) 3540)))
    (scene [3600; 3600; 3600; 3600; 3600]%Q [] [alive false] None)
    empty_fs [t_heartbeat; t_update] 2
    [EvTimerStart t_heartbeat; EvTimerStart t_update].

Definition both_due : config platform :=
  {| world := world_both_due; threads := [] |}.

(** The update report callback runs up to the creation of its next
    timer; then the heartbeat callback runs and gets its answer. *)
Definition until_the_answer : list move :=
  [Fire 1] ++ replicate 9 (Run 0) ++ [Fire 0] ++ replicate 5 (Run 1).

(** The update report callback goes on: timer, daemon flag, start. *)
Definition after_the_answer : list move := [Run 0; Run 0; Run 0].

Definition at_the_answer : config platform :=
  default both_due (play platform until_the_answer both_due).

Definition rescheduled : config platform :=
  default at_the_answer (play platform after_the_answer at_the_answer).

(** A client that is connected and about to be started, with a server
    that answers every heartbeat. *)
Definition starting : config platform :=
  {| world := world_beating 0 [1000; 1000; 1000; 1000; 1000; 1060; 1060; 1060]%Q;
     threads := [[start_heartbeat_code]] |}.

(** The main thread has started the heartbeat timer and is about to
    send its first update report when that timer fires; the callback
    runs to its end. *)
Definition heartbeat_during_start : list move :=
  replicate 14 (Run 0) ++ [Fire 0] ++ replicate 16 (Run 1).

Definition underway : config platform :=
  default starting (play platform heartbeat_during_start starting).

(** The update report callback has passed its tests of [running] and
    is about to create its next timer; the client is running. *)
Definition before_stop : config platform :=
  default both_due (play platform ([Fire 1] ++ replicate 9 (Run 0)) both_due).

(** [stop()] runs to its end, and then the callback goes on. *)
Definition stopped : config platform :=
  {| world := (stop platform (world before_stop)).2; threads := threads before_stop |}.

Definition after_stop : config platform :=
  default stopped (play platform after_the_answer stopped).

End Late.

End GrpcClient.

(** ** The supervisor API: [omnii_connector/supervisor_api.py] *)

Module SupervisorApi.

(** [constants.py] *)
Definition SUPERVISOR_URL : string := "http://supervisor".

(** What [response.json()] returns, and what the methods build from
    it.  A dictionary is an association list; a key is looked up from
    the front. *)
#[warnings="-register-all"]
Inductive value :=
| VNone
| VBool (b : bool)
| VInt (n : Z)
| VFloat (x : Q)
| VStr (s : string)
| VList (l : list value)
| VDict (items : list (string * value)).

(** [bool(v)] *)
Definition truth (v : value) : bool :=
  match v with
  | VNone => false
  | VBool b => b
  | VInt n => negb (n =? 0)%Z
  | VFloat x => negb (Qeq_bool x 0)
  | VStr s => negb (bool_decide (s = ""))
  | VList l => match l with [] => false | _ => true end
  | VDict items => match items with [] => false | _ => true end
  end.

Fixpoint lookup_key (k : string) (items : list (string * value)) : option value :=
  match items with
  | [] => None
  | (k', v) :: rest => if bool_decide (k' = k) then Some v else lookup_key k rest
  end.

(** Exceptions: [requests.RequestException] with its text, and those
    the Python runtime raises. *)
Inductive error :=
| RequestException (text : string)
| AttributeError
| TypeError
| OtherError (name : string).

(** [v.get(k, dflt)]: only a dictionary has [get]. *)
Definition get (v : value) (k : string) (dflt : value) : error + value :=
  match v with
  | VDict items => inr (default dflt (lookup_key k items))
  | _ => inl AttributeError
  end.

(** [v == "ok"] *)
Definition is_ok (v : value) : bool :=
  match v with
  | VStr s => bool_decide (s = "ok")
  | _ => false
  end.

(** [for x in v]: what the loop runs over. *)
Definition iterate (v : value) : error + list value :=
  match v with
  | VList l => inr l
  | VDict items => inr (map (fun kv => VStr kv.1) items)
  | VStr s => inr (map (fun c => VStr (String c EmptyString)) (list_ascii_of_string s))
  | _ => inl TypeError
  end.

(** A response of [requests]: [raise_for_status()] raises for an error
    status, [json()] returns the parsed body or raises. *)
Record Response := {
  status_error : option string;
  json : error + value;
}.

(** The network: [requests.get] and [requests.post] with their URL,
    headers and timeout. *)
Record Http := {
  Net : Type;
  requests_get : string -> list (string * string) -> Z -> Net -> (error + Response) * Net;
  requests_post : string -> list (string * string) -> Z -> Net -> (error + Response) * Net;
}.

(** Console output (a text, followed by the value or the exception an
    f-string interpolates), and the requests made. *)
Inductive event :=
| Print (text : string)
| PrintValue (text : string) (v : value)
| PrintError (text : string) (e : error)
| Get (url : string) (headers : list (string * string)) (timeout : Z)
| Post (url : string) (headers : list (string * string)) (timeout : Z).

Definition is_request (e : event) : bool :=
  match e with
  | Get _ _ _ => true
  | Post _ _ _ => true
  | _ => false
  end.

(** [SupervisorClient]: its only attribute is the token. *)
Record SupervisorClient := { _token : string }.

Section Api.

Context (H : Http).

Record state := { net : Net H; out : list event }.

Definition R (A : Type) : Type := state -> (error + A) * state.

Definition ret {A} (a : A) : R A := fun s => (inr a, s).
Definition raise {A} (e : error) : R A := fun s => (inl e, s).
Definition bind {A B} (m : R A) (k : A -> R B) : R B :=
  fun s =>
    match m s with
    | (inr a, s') => k a s'
    | (inl e, s') => (inl e, s')
    end.

Notation "'let!' x ':=' m 'in' k" := (bind m (fun x => k))
  (at level 10, x pattern, m at level 100, k at level 200).

Definition lift {A} (r : error + A) : R A := fun s => (r, s).

Definition emit (e : event) : R unit :=
  fun s => (inr tt, {| net := net s; out := out s ++ [e] |}).

Definition http_get (url : string) (headers : list (string * string)) (timeout : Z) :
    R Response :=
  fun s =>
    let '(r, n') := requests_get H url headers timeout (net s) in
    (r, {| net := n'; out := out s ++ [Get url headers timeout] |}).

Definition http_post (url : string) (headers : list (string * string)) (timeout : Z) :
    R Response :=
  fun s =>
    let '(r, n') := requests_post H url headers timeout (net s) in
    (r, {| net := n'; out := out s ++ [Post url headers timeout] |}).

(** [response.raise_for_status()]: an HTTPError is a RequestException. *)
Definition raise_for_status (response : Response) : R unit :=
  match status_error response with
  | Some text => raise (RequestException text)
  | None => ret tt
  end.

(** [try: body except requests.RequestException as e: handler(e)] *)
Definition try_request {A} (body : R A) (handler : error -> R A) : R A :=
  fun s =>
    match body s with
    | (inl (RequestException text), s') => handler (RequestException text) s'
    | r => r
    end.

(** [_headers()] *)
Definition _headers (self : SupervisorClient) : list (string * string) :=
  [("Authorization", "Bearer " +:+ _token self)].

(** [_get_data(path)] *)
Definition _get_data (self : SupervisorClient) (path : string) : R value :=
  if bool_decide (_token self = "") then
    let! _ := emit (Print "Warning: SUPERVISOR_TOKEN not set, skipping supervisor API call") in
    ret VNone
  else
    try_request
      (let! response := http_get (SUPERVISOR_URL +:+ path) (_headers self) 10 in
       let! _ := raise_for_status response in
       let! data := lift (json response) in
       let! result := lift (get data "result" VNone) in
       if is_ok result then lift (get data "data" (VDict []))
       else
         let! message := lift (get data "message" (VStr "Unknown error")) in
         let! _ := emit (PrintValue ("Supervisor API error for " +:+ path +:+ ": ") message) in
         ret VNone)
      (fun e =>
         let! _ := emit (PrintError ("Failed to fetch " +:+ path +:+ " from supervisor: ") e) in
         ret VNone).

(** [get_info()], [get_core_info()], [get_os_info()] *)
Definition get_info (self : SupervisorClient) : R value := _get_data self "/info".
Definition get_core_info (self : SupervisorClient) : R value := _get_data self "/core/info".
Definition get_os_info (self : SupervisorClient) : R value := _get_data self "/os/info".

(** [get_available_updates()] *)
Definition get_available_updates (self : SupervisorClient) : R value :=
  if bool_decide (_token self = "") then
    let! _ := emit (Print "Warning: SUPERVISOR_TOKEN not set, skipping available updates") in
    ret (VList [])
  else
    try_request
      (let! response := http_get (SUPERVISOR_URL +:+ "/available_updates") (_headers self) 10 in
       let! _ := raise_for_status response in
       let! data := lift (json response) in
       let! result := lift (get data "result" VNone) in
       if is_ok result then
         let! d := lift (get data "data" (VDict [])) in
         lift (get d "available_updates" (VList []))
       else
         let! message := lift (get data "message" (VStr "Unknown error")) in
         let! _ := emit (PrintValue "Available updates error: " message) in
         ret (VList []))
      (fun e =>
         let! _ := emit (PrintError "Failed to fetch available updates: " e) in
         ret (VList [])).

(** [get_addons()] *)
Definition get_addons (self : SupervisorClient) : R value :=
  let! data := _get_data self "/addons" in
  if negb (truth data) then ret (VList [])
  else lift (get data "addons" (VList [])).

(** One entry of the list [get_update_components] builds. *)
Definition component (component_type : string) (slug name version version_latest : value)
    (update_available : value) : value :=
  VDict [ ("component_type", VStr component_type);
          ("slug", slug);
          ("name", name);
          ("version", version);
          ("version_latest", version_latest);
          ("update_available", VBool (truth update_available)) ].

(** [{"component_type": kind, "slug": "", "name": name, "version":
    info.get("version", ""), ...}] *)
Definition system_component (kind name : string) (info : value) : error + value :=
  match get info "version" (VStr ""),
        get info "version_latest" (VStr ""),
        get info "update_available" VNone with
  | inr version, inr version_latest, inr update_available =>
      inr (component kind (VStr "") (VStr name) version version_latest update_available)
  | inl e, _, _ => inl e
  | _, inl e, _ => inl e
  | _, _, inl e => inl e
  end.

Definition addon_component (addon : value) : error + value :=
  match get addon "slug" (VStr ""), get addon "name" (VStr ""),
        get addon "version" (VStr ""), get addon "version_latest" (VStr ""),
        get addon "update_available" VNone with
  | inr slug, inr name, inr version, inr version_latest, inr update_available =>
      inr (component "addon" slug name version version_latest update_available)
  | inl e, _, _, _, _ => inl e
  | _, inl e, _, _, _ => inl e
  | _, _, inl e, _, _ => inl e
  | _, _, _, inl e, _ => inl e
  | _, _, _, _, inl e => inl e
  end.

(** [for addon in addons: components.append({...})] *)
Fixpoint addon_components (addons : list value) : error + list value :=
  match addons with
  | [] => inr []
  | addon :: rest =>
      match addon_component addon with
      | inl e => inl e
      | inr c =>
          match addon_components rest with
          | inl e => inl e
          | inr cs => inr (c :: cs)
          end
      end
  end.

(** [if info: components.append({...})] *)
Definition system_components (kind name : string) (info : value) : R (list value) :=
  if truth info then
    let! c := lift (system_component kind name info) in
    ret [c]
  else ret [].

(** [get_update_components()] *)
Definition get_update_components (self : SupervisorClient) : R (list value) :=
  let! supervisor_info := _get_data self "/supervisor/info" in
  let! c1 := system_components "supervisor" "Supervisor" supervisor_info in
  let! core_info := get_core_info self in
  let! c2 := system_components "core" "Home Assistant Core" core_info in
  let! os_info := get_os_info self in
  let! c3 := system_components "os" "Home Assistant OS" os_info in
  let! addons := get_addons self in
  let! addons := lift (iterate addons) in
  let! c4 := lift (addon_components addons) in
  ret (c1 ++ c2 ++ c3 ++ c4).

(** [reload_updates()] *)
Definition reload_updates (self : SupervisorClient) : R bool :=
  if bool_decide (_token self = "") then
    let! _ := emit (Print "Warning: SUPERVISOR_TOKEN not set, cannot reload updates") in
    ret false
  else
    try_request
      (let! response := http_post (SUPERVISOR_URL +:+ "/reload_updates") (_headers self) 30 in
       let! _ := raise_for_status response in
       let! data := lift (json response) in
       let! result := lift (get data "result" VNone) in
       ret (is_ok result))
      (fun e =>
         let! _ := emit (PrintError "Failed to reload updates: " e) in
         ret false).

(** The dictionary [trigger_update] returns. *)
Definition outcome_dict (success : bool) (error message : value) : value :=
  VDict [ ("success", VBool success); ("error", error); ("message", message) ].

(** [str(e)] for a RequestException. *)
Definition error_text (e : error) : string :=
  match e with
  | RequestException text => text
  | AttributeError => "AttributeError"
  | TypeError => "TypeError"
  | OtherError name => name
  end.

(** The URL [trigger_update] posts to, or the error it reports without
    a request. *)
Definition update_url (update_type addon_slug : string) : string + string :=
  if bool_decide (update_type = "core") then inr (SUPERVISOR_URL +:+ "/core/update")
  else if bool_decide (update_type = "os") then inr (SUPERVISOR_URL +:+ "/os/update")
  else if bool_decide (update_type = "supervisor") then
    inr (SUPERVISOR_URL +:+ "/supervisor/update")
  else if bool_decide (update_type = "addon") then
    if bool_decide (addon_slug = "") then inl "addon_slug required for addon updates"
    else inr (SUPERVISOR_URL +:+ "/addons/" +:+ addon_slug +:+ "/update")
  else inl ("Unknown update type: " +:+ update_type).

(** [trigger_update(update_type, addon_slug)] *)
Definition trigger_update (self : SupervisorClient) (update_type addon_slug : string) :
    R value :=
  if bool_decide (_token self = "") then
    ret (outcome_dict false (VStr "SUPERVISOR_TOKEN not set") (VStr ""))
  else
    try_request
      (match update_url update_type addon_slug with
       | inl error => ret (outcome_dict false (VStr error) (VStr ""))
       | inr url =>
           let! _ := emit (Print ("Triggering update: " +:+ update_type +:+ " (slug: "
                                  +:+ (if bool_decide (addon_slug = "") then "N/A"
                                       else addon_slug) +:+ ")")) in
           let! response := http_post url (_headers self) 60 in
           let! _ := raise_for_status response in
           let! data := lift (json response) in
           let! result := lift (get data "result" VNone) in
           if is_ok result then
             ret (outcome_dict true (VStr "")
                    (VStr ("Update triggered for " +:+ update_type)))
           else
             let! message := lift (get data "message" (VStr "Unknown error")) in
             ret (outcome_dict false message (VStr ""))
       end)
      (fun e => ret (outcome_dict false (VStr (error_text e)) (VStr ""))).

End Api.

Arguments net {H} s.
Arguments out {H} s.

(** A supervisor that answers every request with [{"result": "ok",
    "data": {"version": "1", "addons": []}}]. *)
Definition agreeable : Http :=
  {| Net := unit;
     requests_get := fun _ _ _ n =>
       (inr {| status_error := None;
               json := inr (VDict [ ("result", VStr "ok");
                                    ("data", VDict [ ("version", VStr "1");
                                                     ("addons", VList []) ]) ]) |}, n);
     requests_post := fun _ _ _ n =>
       (inr {| status_error := None;
               json := inr (VDict [ ("result", VStr "ok") ]) |}, n) |}.

End SupervisorApi.


(** ** The add-on options: [omnii/omnii_connector/config.py] *)

Module Config.
Import EnrollmentStore.

(** [constants.py] *)
Definition OPTIONS_PATH : string := "/data/options.json".

(** What a call of [load_config] ends in: the configuration it
    returns, or [sys.exit(status)]. *)
Inductive ending :=
| Returned (config : dict)
| Exited (status : Z).

(** [config.setdefault(k, v)] *)
Definition setdefault (k : string) (v : pyval) (config : dict) : dict :=
  match config !! k with
  | Some _ => config
  | None => <[k := v]> config
  end.

(** [', '.join(fields)] *)
Fixpoint join_comma (fields : list string) : string :=
  match fields with
  | [] => ""
  | [f] => f
  | f :: rest => f +:+ ", " +:+ join_comma rest
  end.

Definition required_fields : list string := ["server_url"; "enrollment_code"].

(** [load_config()]: the text it prints and how it ends.  The options
    file is read from the file system of the store; [json.load] and
    [config.get] raise for a file that is not JSON and for a document
    that is not an object, and [except Exception] turns that into
    [sys.exit(1)].  The message for an exception ends with the
    exception's own text. *)
Definition load_config (fs : filesystem) : list string * ending :=
  if negb (os_path_exists OPTIONS_PATH fs) then
    (["Configuration file not found at " +:+ OPTIONS_PATH], Exited 1)
  else
    match read_json OPTIONS_PATH fs with
    | Some (JDict config) =>
        let missing_fields :=
          filter (fun field => truthy (get config field) = false) required_fields in
        match missing_fields with
        | [] =>
            let config := setdefault "grpc_tls_skip_verify" (PBool false) config in
            let config := setdefault "grpc_tls_ca_cert" (PStr "") config in
            ([], Returned config)
        | _ =>
            (["Missing required configuration fields: " +:+ join_comma missing_fields],
             Exited 1)
        end
    | _ => (["Error loading configuration: "], Exited 1)
    end.

End Config.

(** ** The session client: [omnii_connector/grpc_client.py] *)

(** The client of the package [omnii_connector] keeps one token and
    opens a session with [Handshake].  Its enrollment path is modelled
    here, on the file system of the enrollment store. *)
Module SessionClient.
Import EnrollmentStore.

(** The messages of the enrollment path. *)
Record EnrollRequest := { rq_code : string }.
Record EnrollResponse := {
  rs_success : bool;
  rs_instance_id : string;
  rs_token : string;
  rs_error : string;
}.
Record HandshakeRequest := { hq_addon_id : string; hq_token : string }.
Record HandshakeResponse := { hs_status : string; hs_session_id : string }.

(** The callbacks of the two timers. *)
Inductive loop := HeartbeatLoop | UpdateReportLoop.
Record Timer := { t_interval : Q; t_callback : loop }.

(** Everything outside the client: the clock, the token of the
    supervisor and the two methods of the stub used here. *)
Record Server := {
  Net : Type;
  time_time : Net -> Q * Net;
  SUPERVISOR_TOKEN : string;
  stub_Enroll : Channel -> EnrollRequest -> Z -> Net ->
                GrpcClient.rpc_outcome EnrollResponse * Net;
  stub_Handshake : Channel -> HandshakeRequest -> Z -> Net ->
                   GrpcClient.rpc_outcome HandshakeResponse * Net;
}.

(** The attributes of an [OmniiGrpcClient] object. *)
Record OmniiGrpcClient := {
  server_url : string;
  enrollment_code : string;
  enrollment_data : option dict;
  channel : option Channel;
  stub : option Channel;
  session_id : option string;
  running : bool;
  start_time : Q;
  heartbeat_timer : option Timer;
  update_report_timer : option Timer;
  last_full_info_time : Q;
  supervisor : SupervisorApi.SupervisorClient;
}.

Definition set_enrollment_data v c :=
  {| server_url := server_url c; enrollment_code := enrollment_code c;
     enrollment_data := v; channel := channel c; stub := stub c;
     session_id := session_id c; running := running c;
     start_time := start_time c; heartbeat_timer := heartbeat_timer c;
     update_report_timer := update_report_timer c;
     last_full_info_time := last_full_info_time c;
     supervisor := supervisor c |}.

Definition set_channel v c :=
  {| server_url := server_url c; enrollment_code := enrollment_code c;
     enrollment_data := enrollment_data c; channel := v; stub := stub c;
     session_id := session_id c; running := running c;
     start_time := start_time c; heartbeat_timer := heartbeat_timer c;
     update_report_timer := update_report_timer c;
     last_full_info_time := last_full_info_time c;
     supervisor := supervisor c |}.

Definition set_stub v c :=
  {| server_url := server_url c; enrollment_code := enrollment_code c;
     enrollment_data := enrollment_data c; channel := channel c; stub := v;
     session_id := session_id c; running := running c;
     start_time := start_time c; heartbeat_timer := heartbeat_timer c;
     update_report_timer := update_report_timer c;
     last_full_info_time := last_full_info_time c;
     supervisor := supervisor c |}.

Definition set_session_id v c :=
  {| server_url := server_url c; enrollment_code := enrollment_code c;
     enrollment_data := enrollment_data c; channel := channel c; stub := stub c;
     session_id := v; running := running c;
     start_time := start_time c; heartbeat_timer := heartbeat_timer c;
     update_report_timer := update_report_timer c;
     last_full_info_time := last_full_info_time c;
     supervisor := supervisor c |}.

Definition set_running v c :=
  {| server_url := server_url c; enrollment_code := enrollment_code c;
     enrollment_data := enrollment_data c; channel := channel c; stub := stub c;
     session_id := session_id c; running := v;
     start_time := start_time c; heartbeat_timer := heartbeat_timer c;
     update_report_timer := update_report_timer c;
     last_full_info_time := last_full_info_time c;
     supervisor := supervisor c |}.

(** Console output and the calls on the stub. *)
Inductive event :=
| Print (text : string)
| EnrollCall (ch : Channel) (rq : EnrollRequest) (timeout : Z)
| HandshakeCall (ch : Channel) (rq : HandshakeRequest) (timeout : Z).

Definition is_call (e : event) : bool :=
  match e with
  | Print _ => false
  | _ => true
  end.

(** [s[:16]] *)
Definition first16 (s : string) : string := String.substring 0 16 s.

Section Client.

Context (S : Server).

(** The client object, the outside world, the files of the store and
    what has been observed so far. *)
Record World := {
  self : OmniiGrpcClient;
  net : Net S;
  files : filesystem;
  out : list event;
}.

Definition print (text : string) (w : World) : World :=
  {| self := self w; net := net w; files := files w; out := out w ++ [Print text] |}.

Definition assign (f : OmniiGrpcClient -> OmniiGrpcClient) (w : World) : World :=
  {| self := f (self w); net := net w; files := files w; out := out w |}.

Definition on_files (f : filesystem -> filesystem) (w : World) : World :=
  {| self := self w; net := net w; files := f (files w); out := out w |}.

(** [stub.Enroll(request, timeout=...)] and [stub.Handshake(...)]: a
    response, or [grpc.RpcError]. *)
Definition call_Enroll (ch : Channel) (rq : EnrollRequest) (timeout : Z) (w : World) :
    GrpcClient.rpc_outcome EnrollResponse * World :=
  let '(r, n) := stub_Enroll S ch rq timeout (net w) in
  (r, {| self := self w; net := n; files := files w;
         out := out w ++ [EnrollCall ch rq timeout] |}).

Definition call_Handshake (ch : Channel) (rq : HandshakeRequest) (timeout : Z)
    (w : World) : GrpcClient.rpc_outcome HandshakeResponse * World :=
  let '(r, n) := stub_Handshake S ch rq timeout (net w) in
  (r, {| self := self w; net := n; files := files w;
         out := out w ++ [HandshakeCall ch rq timeout] |}).

(** [OmniiGrpcClient(server_url, enrollment_code)] *)
Definition OmniiGrpcClient_init (server_url enrollment_code : string) (n : Net S) :
    OmniiGrpcClient * Net S :=
  let '(now, n) := time_time S n in
  ({| server_url := rstrip_slash server_url;
      enrollment_code := enrollment_code;
      enrollment_data := None;
      channel := None;
      stub := None;
      session_id := None;
      running := false;
      start_time := now;
      heartbeat_timer := None;
      update_report_timer := None;
      last_full_info_time := 0;
      supervisor := {| SupervisorApi._token := SUPERVISOR_TOKEN S |} |}, n).

(** [load_existing_enrollment()] *)
Definition load_existing_enrollment (w : World) : bool * World :=
  let d := load_enrollment_data (files w) in
  let w := assign (set_enrollment_data d) w in
  (bool_decide (is_Some (enrollment_data (self w))), w).

(** [_create_channel()] *)
Definition _create_channel (w : World) : Channel :=
  insecure_channel (server_url (self w)).

(** [enroll()]: the two [except] clauses are the last branch; nothing
    else in the body raises, so the method always returns. *)
Definition enroll (w : World) : bool * World :=
  let w := print ("Enrolling with gRPC server at " +:+ server_url (self w) +:+ "...") w in
  let channel := _create_channel w in
  match call_Enroll channel {| rq_code := enrollment_code (self w) |} 10 w with
  | (GrpcClient.RpcOk response, w) =>
      if rs_success response then
        let w := assign (set_enrollment_data
                           (Some {[ "instanceId" := PStr (rs_instance_id response);
                                    "token" := PStr (rs_token response);
                                    "grpcServerUrl" := PStr (server_url (self w)) ]})) w in
        let w := print ("Enrolled successfully. Instance ID: "
                        +:+ rs_instance_id response) w in
        let w := on_files (save_enrollment_data
                             (default ∅ (enrollment_data (self w)))) w in
        (true, w)
      else
        (false, print ("Enrollment failed: " +:+ rs_error response) w)
  | (GrpcClient.RpcFail code details, w) =>
      (false, print ("gRPC Enrollment error: "
                     +:+ GrpcClient.rpc_error_text code details) w)
  end.

(** [connect_and_handshake()].  The record may come from the files of
    the store, so its values are Python values: a target or a field
    that is not a string raises, outside the reach of
    [except grpc.RpcError]. *)
Definition connect_and_handshake (w : World) : GrpcClient.outcome bool * World :=
  if negb (GrpcClient.dict_truthy (enrollment_data (self w))) then
    (GrpcClient.Normal false, print "Not enrolled. Call enroll() first." w)
  else
    let d := default ∅ (enrollment_data (self w)) in
    let grpc_url := get_or d "grpcServerUrl" (PStr (server_url (self w))) in
    let w := print ("Connecting to gRPC server at " +:+ py_str grpc_url +:+ "...") w in
    match grpc_url with
    | PStr target =>
        let w := assign (set_channel (Some (insecure_channel target))) w in
        let w := assign (set_stub (channel (self w))) w in
        let instance_id := get_or d "instanceId" (PStr "unknown") in
        let token := get_or d "token" (PStr "") in
        match GrpcClient.proto_string instance_id, GrpcClient.proto_string token with
        | GrpcClient.Normal addon_id, GrpcClient.Normal token =>
            match call_Handshake (insecure_channel target)
                    {| hq_addon_id := addon_id; hq_token := token |} 10 w with
            | (GrpcClient.RpcOk response, w) =>
                if bool_decide (hs_status response = "ok") then
                  let w := assign (set_session_id (Some (hs_session_id response))) w in
                  let w := print ("Handshake completed. Session ID: "
                                  +:+ first16 (hs_session_id response) +:+ "...") w in
                  let w := assign (set_running true) w in
                  (GrpcClient.Normal true, w)
                else
                  (GrpcClient.Normal false,
                   print ("Handshake failed: " +:+ hs_status response) w)
            | (GrpcClient.RpcFail code details, w) =>
                (GrpcClient.Normal false,
                 print ("gRPC Handshake failed: "
                        +:+ GrpcClient.rpc_error_text code details) w)
            end
        | GrpcClient.Raised e, _ => (GrpcClient.Raised e, w)
        | _, GrpcClient.Raised e => (GrpcClient.Raised e, w)
        end
    | _ => (GrpcClient.Raised TypeError, w)
    end.

End Client.

Arguments self {S} w.
Arguments net {S} w.
Arguments files {S} w.
Arguments out {S} w.

(** A server that accepts every code and every handshake, and a client
    about to enroll with it on an empty disk. *)
Definition welcoming : Server :=
  {| Net := unit;
     time_time := fun n => (0%Q, n);
     SUPERVISOR_TOKEN := "";
     stub_Enroll := fun _ _ _ n =>
       (GrpcClient.RpcOk {| rs_success := true; rs_instance_id := "i-1";
                            rs_token := "t-1"; rs_error := "" |}, n);
     stub_Handshake := fun _ _ _ n =>
       (GrpcClient.RpcOk {| hs_status := "ok"; hs_session_id := "s-1" |}, n) |}.

Definition newcomer (server_url : string) : World welcoming :=
  Build_World welcoming
    (OmniiGrpcClient_init welcoming server_url "code" tt).1
    tt
    {| fs_umask := 18; fs_dirs := ∅; fs_files := ∅ |}
    [].

End SessionClient.

(** * Properties *)

(** ** The credential store *)

Module StoreFacts.
Import EnrollmentStore.

Section Saved.

Variables (record : dict) (fs : filesystem).

Let fs' := save_enrollment_data record fs.

Lemma saved_credentials :
  ∃ mode, fs_files fs' !! CREDENTIALS_PATH =
    Some {| f_content := Json (JDict {[ "instanceId" := get record "instanceId";
                                        "token" := get record "token" ]});
            f_mode := mode |} ∧ mode = mode_0o600.
Proof.
  eexists. subst fs'. unfold save_enrollment_data, os_chmod, write_json. simpl.
  rewrite lookup_alter_ne by done.
  rewrite lookup_insert_ne by done.
  rewrite lookup_alter_eq, lookup_insert_eq. simpl. done.
Qed.

Lemma saved_metadata :
  ∃ mode, fs_files fs' !! ENROLLMENT_PATH =
    Some {| f_content := Json (JDict {[ "instanceId" := get record "instanceId";
                                        "grpcServerUrl" := get record "grpcServerUrl" ]});
            f_mode := mode |} ∧ mode = mode_0o644.
Proof.
  eexists. subst fs'. unfold save_enrollment_data, os_chmod, write_json. simpl.
  rewrite lookup_alter_eq, lookup_insert_eq. simpl. done.
Qed.

Lemma load_after_save :
  load_enrollment_data fs' =
    Some {[ "instanceId" := get record "instanceId";
            "grpcServerUrl" := get record "grpcServerUrl";
            "token" := get record "token" ]}.
Proof.
  destruct saved_credentials as (m1 & Hc & _).
  destruct saved_metadata as (m2 & Hm & _).
  unfold load_enrollment_data, os_path_exists, read_json.
  rewrite Hc, Hm. simpl.
  rewrite !orb_true_r. simpl.
  generalize (get record "instanceId") (get record "token")
             (get record "grpcServerUrl"); intros a b c.
  unfold get. simplify_map_eq. reflexivity.
Qed.

End Saved.

Lemma load_without_credentials (fs : filesystem) :
  load_enrollment_data (os_remove CREDENTIALS_PATH fs) = None.
Proof.
  assert (Hc : read_json CREDENTIALS_PATH (os_remove CREDENTIALS_PATH fs) = None).
  { unfold read_json, os_remove. simpl. by rewrite lookup_delete_eq. }
  unfold load_enrollment_data. rewrite Hc.
  destruct (_ || _); [done|].
  by destruct (read_json ENROLLMENT_PATH _).
Qed.


End StoreFacts.

Import EnrollmentStore.

(** C7. Saving a record and loading it again gives a record with the
    same [instanceId] and the same server address ([grpcServerUrl]);
    and once the credentials file has been removed, loading gives
    [None] (it does not raise). *)
Theorem C7_save_load_roundtrip (record : dict) (fs : filesystem) :
  (∃ loaded,
      load_enrollment_data (save_enrollment_data record fs) = Some loaded
      ∧ get loaded "instanceId" = get record "instanceId"
      ∧ get loaded "grpcServerUrl" = get record "grpcServerUrl")
  ∧ load_enrollment_data
      (os_remove CREDENTIALS_PATH (save_enrollment_data record fs)) = None
  ∧ load_enrollment_data (os_remove CREDENTIALS_PATH fs) = None.
Proof.
  split; [|split; apply StoreFacts.load_without_credentials].
  eexists. split; [apply StoreFacts.load_after_save|].
  generalize (get record "instanceId") (get record "token")
             (get record "grpcServerUrl"); intros a b c.
  unfold get. by simplify_map_eq.
Qed.

(** ** The client *)

Module ClientFacts.
Import GrpcClient.

(** *** Running the monad *)

Ltac munfold :=
  unfold call_stub, store_save, print, print_exc in *;
  unfold bind, ret, raise, lift, try_except, get_self, assign, emit, from_env,
    on_store in *.

(** Case analysis on the outcome of the next stub call. *)
Ltac destruct_call resp code details e' H :=
  match goal with
  | |- context [stub_call ?p ?m ?ch ?rq ?t ?md ?e] =>
      destruct (stub_call p m ch rq t md e) as [[resp|code details] e'] eqn:H;
      simpl
  end.


Section Facts.

Context (P : Platform).

Implicit Types (w : World P) (c : OmniiGrpcClient) (l evs : list event).

(** *** Counting in logs *)

Lemma rpc_count_app m l1 l2 :
  rpc_count m (l1 ++ l2) = (rpc_count m l1 + rpc_count m l2)%nat.
Proof. unfold rpc_count. by rewrite filter_app, length_app. Qed.

Lemma auth_call_count_app l1 l2 :
  auth_call_count (l1 ++ l2) = (auth_call_count l1 + auth_call_count l2)%nat.
Proof. unfold auth_call_count. by rewrite filter_app, length_app. Qed.

Lemma heartbeat_requests_app l1 l2 :
  heartbeat_requests (l1 ++ l2) = heartbeat_requests l1 ++ heartbeat_requests l2.
Proof. unfold heartbeat_requests. apply omap_app. Qed.

Lemma refresh_events_no_auth_call evs :
  Forall (λ e, is_refresh_event e = true) evs → auth_call_count evs = 0%nat.
Proof.
  unfold auth_call_count. induction 1 as [|e evs He _ IH]; [done|].
  rewrite filter_cons. destruct e as [| [] ? ? ? [] | | | | |]; simpl in *; try done.
Qed.

Lemma refresh_events_no_heartbeat evs :
  Forall (λ e, is_refresh_event e = true) evs → heartbeat_requests evs = [].
Proof.
  unfold heartbeat_requests. induction 1 as [|e evs He _ IH]; [done|].
  destruct e as [| [] ? ? ? [] | | | | |]; simpl in *; try done.
Qed.

Lemma refresh_events_no_timer evs :
  Forall (λ e, is_refresh_event e = true) evs →
  filter (λ e, is_timer_start e = true) evs = [].
Proof.
  induction 1 as [|e evs He _ IH]; [done|].
  rewrite filter_cons. destruct e as [| [] ? ? ? [] | | | | |]; simpl in *; try done.
Qed.

Lemma world_eta w :
  w = {| self := self w; env := env w; store := store w; timers := timers w;
         timer_seq := timer_seq w; log := log w |}.
Proof. by destruct w. Qed.

Lemma retoken_id c :
  retoken (access_token c) (refresh_token c) (access_token_expires_at c)
    (enrollment_data c) c = c.
Proof. by destruct c. Qed.

(** *** [refresh_access_token] *)

Lemma token_step_refl w : token_step w w [].
Proof.
  exists (access_token (self w)), (refresh_token (self w)),
    (access_token_expires_at (self w)), (enrollment_data (self w)),
    (env w), (store w).
  rewrite retoken_id, app_nil_r. apply world_eta.
Qed.

Lemma token_step_trans w1 w2 w3 evs1 evs2 :
  token_step w1 w2 evs1 → token_step w2 w3 evs2 → token_step w1 w3 (evs1 ++ evs2).
Proof.
  intros (a & r & x & d & e & s & ->) (a' & r' & x' & d' & e' & s' & ->).
  exists a', r', x', d', e', s'. simpl. by rewrite app_assoc.
Qed.

Ltac nothing_happened :=
  exists []; split; [apply token_step_refl|split; [constructor|vm_compute; lia]].

Lemma refresh_token_step w :
  ∃ evs, token_step w (refresh_access_token P w).2 evs
         ∧ Forall (λ e, is_refresh_event e = true) evs
         ∧ (rpc_count RefreshToken evs ≤ 1)%nat.
Proof.
  unfold refresh_access_token. munfold. simpl.
  destruct (stub (self w)) as [ch|] eqn:Hstub;
    [|nothing_happened].
  destruct (truthy (refresh_token (self w))) eqn:Htr; simpl;
    [|nothing_happened].
  destruct (refresh_token (self w)) as [| |?|s] eqn:Hrt; simpl;
    try (nothing_happened).
  destruct_call resp code details e' Hcall.
  - destruct (rt_success resp) eqn:Hs; simpl.
    + destruct (bool_decide (rt_refresh_token resp = "")) eqn:Hnew; simpl;
        destruct (enrollment_data (self w)) as [d|] eqn:Hd; simpl;
        eexists;
        (split; [do 6 eexists; unfold retoken; simpl; rewrite <- ?app_assoc;
                 reflexivity|]);
        (split; [repeat constructor|vm_compute; lia]).
    + eexists. split; [|split].
      * exists (access_token (self w)), (refresh_token (self w)),
          (access_token_expires_at (self w)), (enrollment_data (self w)), e', (store w).
        rewrite retoken_id. rewrite <- app_assoc. reflexivity.
      * repeat constructor.
      * vm_compute; lia.
  - eexists. split; [|split].
    + exists (access_token (self w)), (refresh_token (self w)),
        (access_token_expires_at (self w)), (enrollment_data (self w)), e', (store w).
      rewrite retoken_id. rewrite <- app_assoc. reflexivity.
    + repeat constructor.
    + vm_compute; lia.
Qed.

(** The outcome of [refresh_access_token], case by case. *)



Section RefreshCall.

Variables (w : World P) (ch : Channel) (s : string).
Hypothesis Hstub : stub (self w) = Some ch.
Hypothesis Htoken : refresh_token (self w) = PStr s.
Hypothesis Hnonempty : s ≠ "".

Let call := EvRpc RefreshToken ch {| rtq_refresh_token := s |} 10 None.

Lemma refresh_rpc_error code details e' :
  stub_call P RefreshToken ch {| rtq_refresh_token := s |} 10 None (env w)
    = (RpcFail code details, e') →
  refresh_access_token P w =
    (Normal false,
     with_log (log w ++ [call; EvPrint ("Refresh token error: "
                                        +:+ rpc_error_text code details) None])
       (with_env e' w)).
Proof.
  intros Hc. unfold refresh_access_token. munfold. simpl.
  rewrite Hstub, Htoken. simpl. rewrite bool_decide_eq_false_2 by done. simpl.
  rewrite Hc. simpl. unfold with_log, with_env. simpl. by rewrite <- app_assoc.
Qed.

Lemma refresh_rejected resp e' :
  stub_call P RefreshToken ch {| rtq_refresh_token := s |} 10 None (env w)
    = (RpcOk resp, e') →
  rt_success resp = false →
  refresh_access_token P w =
    (Normal false,
     with_log (log w ++ [call; EvPrint ("Refresh token failed: " +:+ rt_error resp) None])
       (with_env e' w)).
Proof.
  intros Hc Hr. unfold refresh_access_token. munfold. simpl.
  rewrite Hstub, Htoken. simpl. rewrite bool_decide_eq_false_2 by done. simpl.
  rewrite Hc. simpl. rewrite Hr. simpl.
  unfold with_log, with_env. simpl. by rewrite <- app_assoc.
Qed.

Lemma refresh_accepted resp e' :
  stub_call P RefreshToken ch {| rtq_refresh_token := s |} 10 None (env w)
    = (RpcOk resp, e') →
  rt_success resp = true →
  let a := PStr (rt_access_token resp) in
  let r := if bool_decide (rt_refresh_token resp = "")
           then PStr s else PStr (rt_refresh_token resp) in
  let x := PInt (rt_access_token_expires_at resp) in
  refresh_access_token P w =
    (Normal true,
     match enrollment_data (self w) with
     | Some d =>
         let d' := <["accessToken" := a]>
                     (<["refreshToken" := r]> (<["accessTokenExpiresAt" := x]> d)) in
         {| self := retoken a r x (Some d') (self w); env := e';
            store := save_enrollment_data P d' (store w);
            timers := timers w; timer_seq := timer_seq w;
            log := log w ++ [call; EvSave d'] |}
     | None =>
         {| self := retoken a r x None (self w); env := e'; store := store w;
            timers := timers w; timer_seq := timer_seq w;
            log := log w ++ [call] |}
     end).
Proof.
  intros Hc Hr. unfold refresh_access_token. munfold. simpl.
  rewrite Hstub, Htoken. simpl. rewrite bool_decide_eq_false_2 by done. simpl.
  rewrite Hc. simpl. rewrite Hr. simpl.
  destruct (bool_decide (rt_refresh_token resp = "")) eqn:Hnew; simpl;
    rewrite ?Htoken;
    destruct (enrollment_data (self w)) as [d|] eqn:Hd; simpl;
    unfold retoken, set_access_token, set_refresh_token,
      set_access_token_expires_at, set_enrollment_data; simpl;
    rewrite ?Htoken, ?Hd; rewrite <- ?app_assoc; reflexivity.
Qed.

Lemma refresh_accepted_fields resp e' :
  stub_call P RefreshToken ch {| rtq_refresh_token := s |} 10 None (env w)
    = (RpcOk resp, e') →
  rt_success resp = true →
  let w' := (refresh_access_token P w).2 in
  let a := PStr (rt_access_token resp) in
  let r := if bool_decide (rt_refresh_token resp = "")
           then PStr s else PStr (rt_refresh_token resp) in
  let x := PInt (rt_access_token_expires_at resp) in
  let d' d := <["accessToken" := a]>
                (<["refreshToken" := r]> (<["accessTokenExpiresAt" := x]> d)) in
  (refresh_access_token P w).1 = Normal true
  ∧ access_token (self w') = a
  ∧ refresh_token (self w') = r
  ∧ access_token_expires_at (self w') = x
  ∧ enrollment_data (self w') = d' <$> enrollment_data (self w)
  ∧ store w' = match enrollment_data (self w) with
               | Some d => save_enrollment_data P (d' d) (store w)
               | None => store w
               end
  ∧ saved (log w') = saved (log w) ++ match enrollment_data (self w) with
                                      | Some d => [d' d]
                                      | None => []
                                      end.
Proof.
  intros Hc Hr. cbv zeta. rewrite (refresh_accepted resp e' Hc Hr).
  destruct (enrollment_data (self w)) as [d|] eqn:Hd; simpl;
    unfold saved; rewrite omap_app; simpl; rewrite ?app_nil_r; done.
Qed.

End RefreshCall.

(** With a stub and a refresh token at hand, a refresh makes exactly one
    [RefreshToken] call, whatever the server answers. *)
Lemma refresh_calls_once w ch s :
  stub (self w) = Some ch → refresh_token (self w) = PStr s → s ≠ "" →
  rpc_count RefreshToken (log (refresh_access_token P w).2)
    = S (rpc_count RefreshToken (log w)).
Proof.
  intros Hstub Htok Hs.
  destruct (stub_call P RefreshToken ch {| rtq_refresh_token := s |} 10 None (env w))
    as [[resp|code details] e'] eqn:Hcall.
  - destruct (rt_success resp) eqn:Hok.
    + rewrite (refresh_accepted w ch s Hstub Htok Hs resp e' Hcall Hok).
      destruct (enrollment_data (self w)); simpl; rewrite rpc_count_app;
        vm_compute rpc_count at 2; lia.
    + rewrite (refresh_rejected w ch s Hstub Htok Hs resp e' Hcall Hok).
      simpl. rewrite rpc_count_app. vm_compute rpc_count at 2. lia.
  - rewrite (refresh_rpc_error w ch s Hstub Htok Hs code details e' Hcall).
    simpl. rewrite rpc_count_app. vm_compute rpc_count at 2. lia.
Qed.

(** *** [_ensure_access_token] *)

Lemma ensure_without_access_token w :
  truthy (access_token (self w)) = false →
  _ensure_access_token P w = refresh_access_token P w.
Proof.
  intros H. unfold _ensure_access_token. munfold. simpl. by rewrite H.
Qed.

Lemma ensure_without_expiry w :
  truthy (access_token (self w)) = true →
  truthy (access_token_expires_at (self w)) = false →
  _ensure_access_token P w = refresh_access_token P w.
Proof.
  intros H1 H2. unfold _ensure_access_token, _token_expired. munfold. simpl.
  rewrite H1. simpl. by rewrite H2.
Qed.

Lemma ensure_with_expiry w e :
  truthy (access_token (self w)) = true →
  access_token_expires_at (self w) = PInt e → e ≠ 0 →
  let t := (time_time P (env w)).1 in
  let w1 := with_env (time_time P (env w)).2 w in
  _ensure_access_token P w =
    if int_of_float t >=? e - 30 then refresh_access_token P w1
    else (Normal true, w1).
Proof.
  intros H1 H2 He. unfold _ensure_access_token, _token_expired. munfold. simpl.
  rewrite H1. simpl. rewrite H2. simpl.
  rewrite (proj2 (Z.eqb_neq e 0) He). simpl.
  destruct (time_time P (env w)) as [t e1]. simpl.
  unfold int_of. munfold. simpl.
  by destruct (int_of_float t >=? e - 30).
Qed.

Lemma with_env_token_step w e : token_step w (with_env e w) [].
Proof.
  exists (access_token (self w)), (refresh_token (self w)),
    (access_token_expires_at (self w)), (enrollment_data (self w)), e, (store w).
  rewrite retoken_id, app_nil_r. by destruct w.
Qed.

Lemma ensure_token_step w :
  ∃ evs, token_step w (_ensure_access_token P w).2 evs
         ∧ Forall (λ e, is_refresh_event e = true) evs
         ∧ (rpc_count RefreshToken evs ≤ 1)%nat.
Proof.
  destruct (truthy (access_token (self w))) eqn:Hacc.
  2:{ rewrite ensure_without_access_token by done. apply refresh_token_step. }
  destruct (truthy (access_token_expires_at (self w))) eqn:Hexp.
  2:{ rewrite ensure_without_expiry by done. apply refresh_token_step. }
  unfold _ensure_access_token, _token_expired. munfold. simpl.
  rewrite Hacc. simpl. rewrite Hexp. simpl.
  destruct (time_time P (env w)) as [t e1] eqn:Ht. simpl.
  set (w1 := {| self := self w; env := e1; store := store w; timers := timers w;
                timer_seq := timer_seq w; log := log w |}).
  assert (H1 : token_step w w1 []) by apply (with_env_token_step w e1).
  assert (Hdone : ∃ evs, token_step w w1 evs
                         ∧ Forall (λ e, is_refresh_event e = true) evs
                         ∧ (rpc_count RefreshToken evs ≤ 1)%nat).
  { exists []. split; [done|]. split; [constructor|vm_compute; lia]. }
  assert (Hgo : ∃ evs, token_step w (refresh_access_token P w1).2 evs
                       ∧ Forall (λ e, is_refresh_event e = true) evs
                       ∧ (rpc_count RefreshToken evs ≤ 1)%nat).
  { destruct (refresh_token_step w1) as (evs & Hs & Hf & Hc).
    exists evs. split; [|done]. apply (token_step_trans w w1 _ [] evs H1 Hs). }
  unfold int_of. munfold.
  destruct (access_token_expires_at (self w)) as [|b|n|s]; simpl; try done.
  - by destruct (_ >=? _).
  - by destruct (_ >=? _).
  - destruct (py_int P s); simpl; [|done]. by destruct (_ >=? _).
Qed.

(** *** [_call_with_auth] *)

(** The function, written out on worlds. *)
Lemma call_with_auth_eq w m ch (rq : request m) timeout :
  _call_with_auth P m ch rq timeout w =
    match _ensure_access_token P w with
    | (Raised e, w1) => (Raised e, w1)
    | (Normal false, w1) => (Raised (RuntimeError "Access token unavailable"), w1)
    | (Normal true, w1) =>
        let md1 := Some (auth_metadata_of (self w1)) in
        let w1' := with_log (log w1 ++ [EvRpc m ch rq timeout md1]) w1 in
        match stub_call P m ch rq timeout md1 (env w1) with
        | (RpcOk a, e2) => (Normal a, with_env e2 w1')
        | (RpcFail code details, e2) =>
            let w2 := with_env e2 w1' in
            if bool_decide (code = UNAUTHENTICATED) then
              match refresh_access_token P w2 with
              | (Normal true, w3) =>
                  let md2 := Some (auth_metadata_of (self w3)) in
                  let w3' := with_log (log w3 ++ [EvRpc m ch rq timeout md2]) w3 in
                  match stub_call P m ch rq timeout md2 (env w3) with
                  | (RpcOk a, e4) => (Normal a, with_env e4 w3')
                  | (RpcFail c d, e4) => (Raised (RpcError c d), with_env e4 w3')
                  end
              | (Normal false, w3) => (Raised (RpcError code details), w3)
              | (Raised e, w3) => (Raised e, w3)
              end
            else (Raised (RpcError code details), w2)
        end
    end.
Proof.
  unfold _call_with_auth, _auth_metadata, auth_metadata_of. munfold. simpl.
  destruct (_ensure_access_token P w) as [[[|]|e] w1]; simpl; try done.
  destruct (stub_call P m ch rq timeout _ (env w1)) as [[a|code details] e2];
    simpl; [done|].
  destruct (bool_decide (code = UNAUTHENTICATED)); simpl; [|done].
  destruct (refresh_access_token P _) as [[[|]|e] w3]; simpl; try done.
  by destruct (stub_call P m ch rq timeout _ (env w3)) as [[a|c d] e4].
Qed.

Lemma token_step_log w w' evs : token_step w w' evs → log w' = log w ++ evs.
Proof. by intros (a & r & x & d & e & s & ->). Qed.

Lemma auth_call_count_one m ch (rq : request m) timeout md :
  auth_call_count [EvRpc m ch rq timeout (Some md)] = 1%nat.
Proof. reflexivity. Qed.

(** *** [_create_channel] and [connect_and_handshake] *)

(** Building a channel leaves the client object, the store and the
    timers alone, and makes no call on a stub. *)
Lemma create_channel_frame url w :
  let w1 := (_create_channel P url w).2 in
  self w1 = self w ∧ store w1 = store w ∧ timers w1 = timers w
  ∧ ∃ evs, log w1 = log w ++ evs
           ∧ filter (λ e, is_any_rpc e = true) evs = [].
Proof.
  unfold _create_channel. munfold. simpl.
  destruct (nonempty (tls_ca_cert (self w))); simpl.
  - destruct (read_binary P _ (env w)) as [[e|data] e1]; simpl.
    { repeat split; try done. by eexists. }
    destruct (tls_skip_verify (self w)); simpl;
      destruct url; simpl; repeat split; try done; exists []; by rewrite app_nil_r.
  - destruct (tls_skip_verify (self w)); simpl.
    2:{ destruct url; simpl; repeat split; try done; exists []; by rewrite app_nil_r. }
    destruct url as [| | |u]; simpl;
      try (repeat split; try done; exists []; by rewrite app_nil_r).
    destruct (rsplit_colon u) as [[host port_str]|]; simpl;
      [|repeat split; try done; exists []; by rewrite app_nil_r].
    destruct (py_int P port_str) as [port|]; simpl;
      [|repeat split; try done; exists []; by rewrite app_nil_r].
    destruct (fetch_peer_cert P host port (env w)) as [[e|der] e1]; simpl.
    + repeat split; try done. eexists. by rewrite <- !app_assoc.
    + destruct (nonempty der); simpl; repeat split; try done;
        eexists; by rewrite <- ?app_assoc.
Qed.

Lemma connect_not_enrolled w :
  dict_truthy (enrollment_data (self w)) = false →
  connect_and_handshake P w =
    (Normal false,
     with_log (log w ++ [EvPrint "Not enrolled. Call enroll() first." None]) w).
Proof.
  intros H. unfold connect_and_handshake. munfold. simpl. by rewrite H.
Qed.

(** The function, written out on worlds, for a client that holds a
    record. *)
Lemma connect_eq w d :
  enrollment_data (self w) = Some d → d ≠ ∅ →
  let grpc_url := get_or d "grpcServerUrl" (PStr (server_url (self w))) in
  let w0 := with_log (log w ++ [EvPrint ("Connecting to gRPC server at "
                                         +:+ py_str grpc_url +:+ "...") None]) w in
  connect_and_handshake P w =
    match _create_channel P grpc_url w0 with
    | (Raised e, w1) => (Raised e, w1)
    | (Normal ch, w1) =>
        let w2 :=
          with_self
            (set_access_token_expires_at (get d "accessTokenExpiresAt")
               (set_refresh_token (get d "refreshToken")
                  (set_access_token (get d "accessToken")
                     (set_stub (Some ch) (set_channel (Some ch) (self w1))))))
            w1 in
        if negb (truthy (get d "refreshToken")) then
          (Normal false,
           with_log (log w2 ++ [EvPrint "Missing refresh token. Please re-enroll." None]) w2)
        else
          match _ensure_access_token P w2 with
          | (Raised e, w3) => (Raised e, w3)
          | (Normal false, w3) =>
              (Normal false,
               with_log (log w3 ++ [EvPrint "Failed to refresh access token." None]) w3)
          | (Normal true, w3) =>
              (Normal true, with_self (set_running true (self w3)) w3)
          end
    end.
Proof.
  intros Hd Hne. unfold connect_and_handshake. munfold. simpl.
  rewrite Hd. simpl. rewrite bool_decide_eq_false_2 by done. simpl.
  unfold with_log. simpl.
  destruct (_create_channel P _ _) as [[ch|e] w1]; simpl; [|done].
  destruct (truthy (get d "refreshToken")); simpl; [|done].
  unfold with_self. simpl.
  by destruct (_ensure_access_token P _) as [[[|]|e] w3].
Qed.

Lemma token_step_running w w' evs :
  token_step w w' evs → running (self w') = running (self w).
Proof. by intros (a & r & x & d & e & s & ->). Qed.

Lemma refresh_event_call_event m ch (rq : request m) timeout evs :
  Forall (λ e, is_refresh_event e = true) evs →
  Forall (call_event m ch rq timeout) evs.
Proof.
  intros H. eapply Forall_impl; [exact H|]. intros e He. by left.
Qed.

Lemma token_step_snoc w w1 evs ev e :
  token_step w w1 evs →
  token_step w (with_env e (with_log (log w1 ++ [ev]) w1)) (evs ++ [ev]).
Proof.
  intros (a & r & x & d & e0 & s & ->).
  exists a, r, x, d, e, s. unfold with_env, with_log. simpl.
  by rewrite app_assoc.
Qed.

Lemma call_with_auth_step w m ch (rq : request m) timeout :
  ∃ evs, token_step w (_call_with_auth P m ch rq timeout w).2 evs
         ∧ Forall (call_event m ch rq timeout) evs.
Proof.
  rewrite call_with_auth_eq.
  destruct (ensure_token_step w) as (evs0 & Hs0 & Hf0 & _).
  apply (refresh_event_call_event m ch rq timeout) in Hf0.
  destruct (_ensure_access_token P w) as [[[|]|e] w1]; simpl in *;
    try (by exists evs0).
  set (ev1 := EvRpc m ch rq timeout (Some (auth_metadata_of (self w1)))).
  assert (Hev1 : call_event m ch rq timeout ev1) by (right; by eexists).
  destruct (stub_call P m ch rq timeout _ (env w1)) as [[a|code details] e2];
    simpl.
  { exists (evs0 ++ [ev1]). split; [by apply token_step_snoc|].
    apply Forall_app. split; [done|]. by constructor. }
  pose proof (token_step_snoc w w1 evs0 ev1 e2 Hs0) as Hs2.
  assert (Hf2 : Forall (call_event m ch rq timeout) (evs0 ++ [ev1])).
  { apply Forall_app. split; [done|]. by constructor. }
  destruct (bool_decide (code = UNAUTHENTICATED)); simpl; [|by eexists].
  match goal with
  | |- context [refresh_access_token P ?w2] =>
      destruct (refresh_token_step w2) as (evs & Hs & Hf & _);
      pose proof (token_step_trans _ _ _ _ _ Hs2 Hs) as Hs3;
      destruct (refresh_access_token P w2) as [[[|]|e] w3]
  end; simpl in *.
  2,3: eexists; split; [exact Hs3|];
       apply Forall_app; split; [done|];
       by apply refresh_event_call_event.
  assert (Hf3 : Forall (call_event m ch rq timeout) ((evs0 ++ [ev1]) ++ evs)).
  { apply Forall_app. split; [done|]. by apply refresh_event_call_event. }
  set (ev2 := EvRpc m ch rq timeout (Some (auth_metadata_of (self w3)))).
  assert (Hev2 : call_event m ch rq timeout ev2) by (right; by eexists).
  destruct (stub_call P m ch rq timeout _ (env w3)) as [[a|c d] e4]; simpl;
    (eexists; split; [by apply token_step_snoc|];
     apply Forall_app; split; [done|]; by constructor).
Qed.

Lemma refresh_event_no_heartbeat e :
  is_refresh_event e = true → heartbeat_request_of e = None.
Proof. by destruct e as [| [] ? ? ? [] | | | | |]. Qed.

Lemma heartbeat_call_events ch (rq : HeartbeatRequest) timeout evs :
  Forall (call_event Heartbeat ch rq timeout) evs →
  Forall (λ rq', rq' = rq) (heartbeat_requests evs).
Proof.
  unfold heartbeat_requests. induction 1 as [|e evs He _ IH]; [constructor|].
  simpl. destruct He as [He|[md ->]].
  - by rewrite refresh_event_no_heartbeat.
  - simpl. by constructor.
Qed.

Lemma other_call_events m ch (rq : request m) timeout evs :
  m ≠ Heartbeat →
  Forall (call_event m ch rq timeout) evs → heartbeat_requests evs = [].
Proof.
  intros Hm. unfold heartbeat_requests. induction 1 as [|e evs He _ IH]; [done|].
  simpl. destruct He as [He|[md ->]].
  - by rewrite refresh_event_no_heartbeat.
  - simpl. by destruct m.
Qed.

Lemma call_events_no_timer m ch (rq : request m) timeout evs :
  Forall (call_event m ch rq timeout) evs →
  filter (λ e, is_timer_start e = true) evs = [].
Proof.
  induction 1 as [|e evs He _ IH]; [done|].
  rewrite filter_cons. destruct He as [He|[md ->]]; simpl.
  - by destruct e as [| [] ? ? ? [] | | | | |].
  - done.
Qed.

(** *** [send_heartbeat] *)

Lemma build_minimal w :
  build_heartbeat_request P false w =
    (Normal {| hb_client_timestamp := int_of_float ((time_time P (env w)).1 * 1000);
               hb_system_info := None |},
     with_log (log w ++ [EvPrint "Heartbeat sent (minimal)" None])
       (with_env (time_time P (env w)).2 w)).
Proof.
  unfold build_heartbeat_request. munfold. simpl.
  by destruct (time_time P (env w)) as [t e1].
Qed.

Lemma build_full w :
  let t0 := (time_time P (env w)).1 in
  let e1 := (time_time P (env w)).2 in
  let info := (supervisor_get_info P e1).1 in
  let e2 := (supervisor_get_info P e1).2 in
  let t1 := (time_time P e2).1 in
  let e3 := (time_time P e2).2 in
  build_heartbeat_request P true w =
    match attachment info with
    | Normal attached =>
        (Normal {| hb_client_timestamp := int_of_float (t0 * 1000);
                   hb_system_info := attached |},
         {| self := set_last_full_info_time t1 (self w); env := e3;
            store := store w; timers := timers w; timer_seq := timer_seq w;
            log := log w ++ [EvPrint "Heartbeat sent with full system info" None] |})
    | Raised e => (Raised e, with_env e2 w)
    end.
Proof.
  unfold build_heartbeat_request, attachment. munfold. simpl.
  destruct (time_time P (env w)) as [t0 e1]. simpl.
  destruct (supervisor_get_info P e1) as [info e2]. simpl.
  destruct (dict_truthy info); simpl.
  - destruct (make_system_info (default ∅ info)) as [si|e]; simpl; [|done].
    by destruct (time_time P e2) as [t1 e3].
  - by destruct (time_time P e2) as [t1 e3].
Qed.

Lemma handle_heartbeat_response_eq resp w :
  handle_heartbeat_response P resp w =
    (Normal tt,
     if negb (hb_alive resp) then
       with_self (set_running false (self w))
         (with_log (log w ++ [EvPrint "Server indicated session is not alive, reconnecting..." None]) w)
     else if hb_latency_ms resp >? 0 then
       with_log (log w ++ [EvPrint ("Latency: " +:+ pretty (hb_latency_ms resp) +:+ "ms") None]) w
     else w).
Proof.
  unfold handle_heartbeat_response. munfold. simpl.
  destruct (hb_alive resp); simpl; [|done].
  by destruct (hb_latency_ms resp >? 0).
Qed.

(** The function, written out on worlds, for a running client with a
    stub. *)
Lemma send_heartbeat_eq include w ch :
  running (self w) = true → stub (self w) = Some ch →
  send_heartbeat P include w =
    match build_heartbeat_request P include w with
    | (Raised e, w1) => (Normal tt, with_log (log w1 ++ [heartbeat_failed e]) w1)
    | (Normal rq, w1) =>
        match _call_with_auth P Heartbeat ch rq 10 w1 with
        | (Raised e, w2) => (Normal tt, with_log (log w2 ++ [heartbeat_failed e]) w2)
        | (Normal resp, w2) => handle_heartbeat_response P resp w2
        end
    end.
Proof.
  intros Hrun Hstub. unfold send_heartbeat, send_heartbeat_body.
  unfold bind at 1. unfold get_self. simpl. rewrite Hrun, Hstub.
  unfold try_except, bind.
  destruct (build_heartbeat_request P include w) as [[rq|e] w1]; simpl.
  - destruct (_call_with_auth P Heartbeat ch rq 10 w1) as [[resp|e] w2]; simpl.
    + rewrite handle_heartbeat_response_eq. done.
    + by destruct e.
  - by destruct e.
Qed.

Lemma send_heartbeat_idle include w :
  running (self w) = false ∨ stub (self w) = None →
  send_heartbeat P include w = (Normal tt, w).
Proof.
  intros H. unfold send_heartbeat, send_heartbeat_body. munfold. simpl.
  destruct (running (self w)), (stub (self w)); try done; by destruct H.
Qed.

(** Once the request is built, the rest of [send_heartbeat] sends that
    request and no other, starts no timer, and leaves
    [last_full_info_time] alone. *)
Lemma send_heartbeat_after_build include w ch rq w1 :
  running (self w) = true → stub (self w) = Some ch →
  build_heartbeat_request P include w = (Normal rq, w1) →
  let w' := (send_heartbeat P include w).2 in
  last_full_info_time (self w') = last_full_info_time (self w1)
  ∧ timers w' = timers w1
  ∧ ∃ evs, log w' = log w1 ++ evs
           ∧ Forall (λ rq', rq' = rq) (heartbeat_requests evs)
           ∧ filter (λ e, is_timer_start e = true) evs = [].
Proof.
  intros Hrun Hstub Hbuild. rewrite (send_heartbeat_eq include w ch Hrun Hstub).
  rewrite Hbuild.
  destruct (call_with_auth_step w1 Heartbeat ch rq 10) as (evs & Hs & Hf).
  pose proof (heartbeat_call_events ch rq 10 evs Hf) as Hrq.
  pose proof (call_events_no_timer Heartbeat ch rq 10 evs Hf) as Hti.
  destruct Hs as (a & r & x & d & e & s & Hw2).
  destruct (_call_with_auth P Heartbeat ch rq 10 w1) as [[resp|ex] w2];
    simpl in Hw2; subst w2.
  - rewrite handle_heartbeat_response_eq. simpl.
    destruct (hb_alive resp); simpl; [destruct (hb_latency_ms resp >? 0); simpl|].
    + repeat split. eexists. split; [by rewrite <- app_assoc|].
      rewrite heartbeat_requests_app, filter_app, Hti. simpl.
      split; [by rewrite app_nil_r|done].
    + repeat split. by exists evs.
    + repeat split. eexists. split; [by rewrite <- app_assoc|].
      rewrite heartbeat_requests_app, filter_app, Hti. simpl.
      split; [by rewrite app_nil_r|done].
  - simpl. repeat split. eexists. split; [by rewrite <- app_assoc|].
    rewrite heartbeat_requests_app, filter_app, Hti.
    destruct ex; simpl; (split; [by rewrite app_nil_r|done]).
Qed.

(** *** A stopped client *)

Lemma loop_send_stopped k w :
  running (self w) = false → loop_send P k w = (Normal false, w).
Proof.
  intros H. destruct k; simpl;
    unfold _heartbeat_loop_send, _update_report_loop_send, _stats_report_loop_send;
    munfold; simpl; by rewrite H.
Qed.

Lemma loop_reschedule_stopped k w :
  running (self w) = false → loop_reschedule P k w = (Normal tt, w).
Proof.
  intros H. destruct k; simpl;
    unfold _heartbeat_loop_reschedule, _update_report_loop_reschedule,
      _stats_report_loop_reschedule;
    munfold; simpl; by rewrite H.
Qed.

Lemma loop_stopped k w :
  running (self w) = false → loop P k w = (Normal tt, w).
Proof.
  intros H. destruct k; simpl;
    unfold _heartbeat_loop, _update_report_loop, _stats_report_loop, bind.
  - pose proof (loop_send_stopped HeartbeatTask w H) as Hs. simpl in Hs.
    by rewrite Hs.
  - pose proof (loop_send_stopped UpdateReportTask w H) as Hs. simpl in Hs.
    by rewrite Hs.
  - pose proof (loop_send_stopped StatsReportTask w H) as Hs. simpl in Hs.
    by rewrite Hs.
Qed.

Lemma stays_stopped_refl w : running (self w) = false → stays_stopped w w.
Proof. intros H. by repeat split. Qed.

Lemma stays_stopped_trans w1 w2 w3 :
  stays_stopped w1 w2 → stays_stopped w2 w3 → stays_stopped w1 w3.
Proof.
  intros (_ & Hr1 & Ht1 & Hs1) (Hrun & Hr2 & Ht2 & Hs2).
  split; [done|]. split; [congruence|]. split; [congruence|]. set_solver.
Qed.

Lemma filter_timers_subseteq (t : Timer) (ts : list Timer) :
  filter (λ t', timer_id t' ≠ timer_id t) ts ⊆ ts.
Proof. intros x Hx. apply list_elem_of_filter in Hx. tauto. Qed.

Lemma cancel_handle_stopped handle clear w :
  running (self w) = false →
  (∀ c, running (clear c) = running c) →
  ∃ w', cancel_handle P handle clear w = (Normal tt, w') ∧ stays_stopped w w'.
Proof.
  intros Hrun Hclear. unfold cancel_handle, Timer_cancel. munfold. simpl.
  destruct (handle (self w)) as [t|]; simpl.
  - eexists. split; [reflexivity|]. repeat split; simpl.
    + by rewrite Hclear.
    + rewrite filter_app. simpl. by rewrite app_nil_r.
    + rewrite filter_app. simpl. by rewrite app_nil_r.
    + apply filter_timers_subseteq.
  - eexists. split; [reflexivity|]. by apply stays_stopped_refl.
Qed.

(** [stop] returns, and leaves a stopped client. *)
Lemma stop_stops w :
  ∃ w', stop P w = (Normal tt, w')
        ∧ running (self w') = false
        ∧ filter (λ e, is_any_rpc e = true) (log w')
          = filter (λ e, is_any_rpc e = true) (log w)
        ∧ filter (λ e, is_timer_start e = true) (log w')
          = filter (λ e, is_timer_start e = true) (log w)
        ∧ timers w' ⊆ timers w.
Proof.
  unfold stop.
  set (w0 := {| self := set_running false (self w); env := env w; store := store w;
                timers := timers w; timer_seq := timer_seq w;
                log := log w ++ [EvPrint "Stopping add-on..." None] |}).
  assert (H0 : stays_stopped w0 w0) by (by apply stays_stopped_refl).
  destruct (cancel_handle_stopped heartbeat_timer (set_heartbeat_timer None) w0)
    as (w1 & E1 & H1); [done|done|].
  destruct (cancel_handle_stopped update_report_timer (set_update_report_timer None) w1)
    as (w2 & E2 & H2); [apply H1|done|].
  destruct (cancel_handle_stopped stats_report_timer (set_stats_report_timer None) w2)
    as (w3 & E3 & H3); [apply H2|done|].
  pose proof (stays_stopped_trans _ _ _ (stays_stopped_trans _ _ _ H1 H2) H3)
    as (Hrun & Hrpc & Htim & Hsub).
  unfold bind at 1. unfold print, emit at 1. simpl.
  unfold bind at 1. unfold assign at 1. simpl. fold w0.
  unfold bind at 1. rewrite E1.
  unfold bind at 1. rewrite E2.
  unfold bind at 1. rewrite E3.
  munfold. simpl.
  assert (Hw0r : filter (λ e, is_any_rpc e = true) (log w0)
                 = filter (λ e, is_any_rpc e = true) (log w)).
  { unfold w0. simpl. rewrite filter_app. simpl. by rewrite app_nil_r. }
  assert (Hw0t : filter (λ e, is_timer_start e = true) (log w0)
                 = filter (λ e, is_timer_start e = true) (log w)).
  { unfold w0. simpl. rewrite filter_app. simpl. by rewrite app_nil_r. }
  destruct (channel (self w3)) as [ch|]; simpl.
  - eexists. split; [reflexivity|]. simpl. split; [done|].
    rewrite !filter_app. simpl. rewrite !app_nil_r.
    split; [congruence|]. split; [congruence|]. done.
  - eexists. split; [reflexivity|]. split; [done|].
    split; [congruence|]. split; [congruence|]. done.
Qed.

(** *** What the other tasks leave alone *)

Lemma heartbeat_frame_refl w : heartbeat_frame w w.
Proof. split; [done|]. exists []. by rewrite app_nil_r. Qed.

Lemma heartbeat_frame_trans w1 w2 w3 :
  heartbeat_frame w1 w2 → heartbeat_frame w2 w3 → heartbeat_frame w1 w3.
Proof.
  intros (H1 & evs1 & Hl1 & Hh1) (H2 & evs2 & Hl2 & Hh2).
  split; [congruence|]. exists (evs1 ++ evs2).
  rewrite Hl2, Hl1, app_assoc. split; [done|].
  by rewrite heartbeat_requests_app, Hh1, Hh2.
Qed.

Lemma token_step_heartbeat_frame w w' evs :
  token_step w w' evs → heartbeat_requests evs = [] → heartbeat_frame w w'.
Proof.
  intros (a & r & x & d & e & s & ->) Hh. split; [done|]. by exists evs.
Qed.

Lemma heartbeat_frame_print w w' msg exc :
  heartbeat_frame w w' →
  heartbeat_frame w (with_log (log w' ++ [EvPrint msg exc]) w').
Proof.
  intros (H1 & evs1 & Hl1 & Hh1). split; [done|].
  exists (evs1 ++ [EvPrint msg exc]). simpl. rewrite Hl1, app_assoc.
  split; [done|]. by rewrite heartbeat_requests_app, Hh1.
Qed.

Lemma heartbeat_frame_env w e : heartbeat_frame w (with_env e w).
Proof. split; [done|]. exists []. simpl. by rewrite app_nil_r. Qed.

Lemma call_with_auth_heartbeat_frame w m ch (rq : request m) timeout :
  m ≠ Heartbeat →
  heartbeat_frame w (_call_with_auth P m ch rq timeout w).2.
Proof.
  intros Hm. destruct (call_with_auth_step w m ch rq timeout) as (evs & Hs & Hf).
  apply (token_step_heartbeat_frame _ _ _ Hs).
  by apply (other_call_events m ch rq timeout).
Qed.

Lemma send_update_report_frame w :
  heartbeat_frame w (send_update_report P w).2.
Proof.
  unfold send_update_report, send_update_report_body. unfold bind at 1. unfold get_self. simpl.
  destruct (running (self w)); [|apply heartbeat_frame_refl].
  destruct (stub (self w)) as [ch|]; [|apply heartbeat_frame_refl].
  unfold try_except, bind, from_env, lift. simpl.
  destruct (supervisor_get_update_components P (env w)) as [components e1]. simpl.
  destruct (time_time P e1) as [t e2]. simpl.
  set (w2 := {| self := self w; env := e2; store := store w; timers := timers w;
                timer_seq := timer_seq w; log := log w |}).
  assert (H2 : heartbeat_frame w w2) by apply (heartbeat_frame_env w e2).
  destruct (make_component_updates components) as [cus|e]; simpl.
  2:{ destruct e; unfold print, print_exc, emit; simpl;
        by apply (heartbeat_frame_print w w2). }
  match goal with
  | |- context [_call_with_auth P ReportUpdates ch ?rq 15 w2] =>
      pose proof (call_with_auth_heartbeat_frame w2 ReportUpdates ch rq 15
                    ltac:(discriminate)) as H3;
      destruct (_call_with_auth P ReportUpdates ch rq 15 w2) as [[resp|e] w3]
  end; simpl in *.
  - pose proof (heartbeat_frame_trans _ _ _ H2 H3) as H.
    destruct (ur_accepted resp); unfold print, emit; simpl;
      by apply (heartbeat_frame_print w w3).
  - pose proof (heartbeat_frame_trans _ _ _ H2 H3) as H.
    destruct e; unfold print, print_exc, emit; simpl;
      by apply (heartbeat_frame_print w w3).
Qed.

Lemma send_stats_report_frame w :
  heartbeat_frame w (send_stats_report P w).2.
Proof.
  unfold send_stats_report, send_stats_report_body. unfold bind at 1. unfold get_self. simpl.
  destruct (running (self w)); [|apply heartbeat_frame_refl].
  destruct (stub (self w)) as [ch|]; [|apply heartbeat_frame_refl].
  unfold try_except, bind, from_env. simpl.
  destruct (supervisor_get_core_stats P (env w)) as [stats e1]. simpl.
  set (w1 := {| self := self w; env := e1; store := store w; timers := timers w;
                timer_seq := timer_seq w; log := log w |}).
  assert (H1 : heartbeat_frame w w1) by apply (heartbeat_frame_env w e1).
  destruct (dict_truthy stats); simpl.
  2:{ unfold print, emit. simpl. by apply (heartbeat_frame_print w w1). }
  destruct (time_time P e1) as [t e2]. simpl.
  set (w2 := {| self := self w; env := e2; store := store w; timers := timers w;
                timer_seq := timer_seq w; log := log w |}).
  assert (H2 : heartbeat_frame w w2) by apply (heartbeat_frame_env w e2).
  match goal with
  | |- context [_call_with_auth P ReportStats ch ?rq 10 w2] =>
      pose proof (call_with_auth_heartbeat_frame w2 ReportStats ch rq 10
                    ltac:(discriminate)) as H3;
      destruct (_call_with_auth P ReportStats ch rq 10 w2) as [[resp|e] w3]
  end; simpl in *.
  - pose proof (heartbeat_frame_trans _ _ _ H2 H3) as H.
    destruct (sr_accepted resp); unfold print, emit; simpl;
      by apply (heartbeat_frame_print w w3).
  - pose proof (heartbeat_frame_trans _ _ _ H2 H3) as H.
    destruct e; unfold print, print_exc, emit; simpl;
      by apply (heartbeat_frame_print w w3).
Qed.

Lemma schedule_frame w :
  heartbeat_frame w (_schedule_heartbeat P w).2
  ∧ heartbeat_frame w (_schedule_update_report P w).2
  ∧ heartbeat_frame w (_schedule_stats_report P w).2.
Proof.
  unfold _schedule_heartbeat, _schedule_update_report, _schedule_stats_report,
    Timer_start.
  munfold. simpl.
  destruct (running (self w)); simpl.
  - split; [|split]; (split; [done|]); eexists; (split; [reflexivity|done]).
  - split; [|split]; apply heartbeat_frame_refl.
Qed.

Lemma start_update_reporting_frame w :
  heartbeat_frame w (start_update_reporting P w).2.
Proof.
  unfold start_update_reporting. unfold bind at 1. unfold get_self. simpl.
  destruct (running (self w)); [|apply heartbeat_frame_refl]. simpl.
  unfold bind, print, emit. simpl.
  match goal with
  | |- context [send_update_report P ?w0] =>
      assert (H0 : heartbeat_frame w w0)
        by (apply (heartbeat_frame_print w w); apply heartbeat_frame_refl);
      pose proof (send_update_report_frame w0) as H1;
      destruct (send_update_report P w0) as [[[]|e] w1]
  end; simpl in *.
  - apply (heartbeat_frame_trans _ _ _ (heartbeat_frame_trans _ _ _ H0 H1)).
    apply schedule_frame.
  - apply (heartbeat_frame_trans _ _ _ H0 H1).
Qed.

Lemma start_stats_reporting_frame w :
  heartbeat_frame w (start_stats_reporting P w).2.
Proof.
  unfold start_stats_reporting. unfold bind at 1. unfold get_self. simpl.
  destruct (running (self w)); [|apply heartbeat_frame_refl]. simpl.
  unfold bind, print, emit. simpl.
  match goal with
  | |- context [send_stats_report P ?w0] =>
      assert (H0 : heartbeat_frame w w0)
        by (apply (heartbeat_frame_print w w); apply heartbeat_frame_refl);
      pose proof (send_stats_report_frame w0) as H1;
      destruct (send_stats_report P w0) as [[[]|e] w1]
  end; simpl in *.
  - apply (heartbeat_frame_trans _ _ _ (heartbeat_frame_trans _ _ _ H0 H1)).
    apply schedule_frame.
  - apply (heartbeat_frame_trans _ _ _ H0 H1).
Qed.

(** *** The heartbeats of one firing *)

Lemma call_with_auth_first_call w m ch (rq : request m) timeout w1 :
  _ensure_access_token P w = (Normal true, w1) →
  ∃ evs evs',
    log (_call_with_auth P m ch rq timeout w).2
      = log w ++ evs ++ EvRpc m ch rq timeout (Some (auth_metadata_of (self w1))) :: evs'.
Proof.
  intros Hens. rewrite call_with_auth_eq.
  destruct (ensure_token_step w) as (evs0 & Hs0 & _).
  rewrite Hens in *. simpl in Hs0. apply token_step_log in Hs0.
  exists evs0. simpl.
  destruct (stub_call P m ch rq timeout _ (env w1)) as [[a|code details] e2];
    simpl.
  { exists []. by rewrite Hs0, <- app_assoc. }
  destruct (bool_decide (code = UNAUTHENTICATED)); simpl.
  2:{ exists []. by rewrite Hs0, <- app_assoc. }
  match goal with
  | |- context [refresh_access_token P ?w2] =>
      destruct (refresh_token_step w2) as (evs & Hs & _);
      apply token_step_log in Hs;
      destruct (refresh_access_token P w2) as [[[|]|e] w3]
  end; simpl in *.
  - destruct (stub_call P m ch rq timeout _ (env w3)) as [[a|c d] e4]; simpl;
      eexists; rewrite Hs, Hs0, <- !app_assoc; simpl; reflexivity.
  - exists evs. by rewrite Hs, Hs0, <- !app_assoc.
  - exists evs. by rewrite Hs, Hs0, <- !app_assoc.
Qed.

Lemma build_log include w :
  ∃ evs, log (build_heartbeat_request P include w).2 = log w ++ evs
         ∧ heartbeat_requests evs = []
         ∧ filter (λ e, is_any_rpc e = true) evs = [].
Proof.
  destruct include.
  - rewrite build_full. cbv zeta.
    destruct (attachment _); simpl.
    + by eexists.
    + exists []. by rewrite app_nil_r.
  - rewrite build_minimal. simpl. by eexists.
Qed.

(** The heartbeats of [send_heartbeat] once its request is built: all
    carry that request; there is one at least if the token check
    passes. *)
Lemma heartbeat_sent include w ch rq w1 :
  running (self w) = true → stub (self w) = Some ch →
  build_heartbeat_request P include w = (Normal rq, w1) →
  let w' := (send_heartbeat P include w).2 in
  last_full_info_time (self w') = last_full_info_time (self w1)
  ∧ ∃ rqs, heartbeat_requests (log w') = heartbeat_requests (log w) ++ rqs
           ∧ Forall (λ rq', rq' = rq) rqs
           ∧ ((_ensure_access_token P w1).1 = Normal true → rq ∈ rqs).
Proof.
  intros Hrun Hstub Hbuild w'.
  destruct (send_heartbeat_after_build include w ch rq w1 Hrun Hstub Hbuild)
    as (Hlast & _ & evs & Hlog & Hall & _).
  fold w' in Hlast, Hlog. split; [done|].
  destruct (build_log include w) as (evs0 & Hlog0 & Hnone & _).
  rewrite Hbuild in Hlog0. simpl in Hlog0.
  exists (heartbeat_requests evs).
  rewrite Hlog, Hlog0, !heartbeat_requests_app, Hnone, app_nil_r.
  split; [done|]. split; [done|].
  intros Hens.
  destruct (_ensure_access_token P w1) as [r1 w1'] eqn:E. simpl in Hens. subst r1.
  destruct (call_with_auth_first_call w1 Heartbeat ch rq 10 w1' E)
    as (evs1 & evs2 & Hcall).
  (* the call's log is a prefix of the final log *)
  assert (Hprefix : ∃ tail, log w' = log (_call_with_auth P Heartbeat ch rq 10 w1).2 ++ tail).
  { subst w'. rewrite (send_heartbeat_eq include w ch Hrun Hstub), Hbuild.
    destruct (_call_with_auth P Heartbeat ch rq 10 w1) as [[resp|ex] w2]; simpl.
    - rewrite handle_heartbeat_response_eq. simpl.
      destruct (hb_alive resp); simpl;
        [destruct (hb_latency_ms resp >? 0); simpl|];
        (by eexists) || (exists []; by rewrite app_nil_r).
    - by eexists. }
  destruct Hprefix as (tail & Htail).
  rewrite Hcall, Hlog in Htail.
  rewrite <- !app_assoc in Htail. apply app_inv_head in Htail. subst evs.
  rewrite !heartbeat_requests_app. simpl. set_solver.
Qed.

Lemma heartbeat_frame_requests w w' :
  heartbeat_frame w w' →
  last_full_info_time (self w') = last_full_info_time (self w)
  ∧ heartbeat_requests (log w') = heartbeat_requests (log w).
Proof.
  intros (H & evs & Hl & Hh). split; [done|].
  by rewrite Hl, heartbeat_requests_app, Hh, app_nil_r.
Qed.

(** [start_heartbeat] sends its heartbeat with [include_full_info=True];
    what it does afterwards sends no heartbeat. *)
Lemma start_heartbeat_frame w :
  running (self w) = true →
  let w0 := with_log (log w ++ [EvPrint ("Starting heartbeat thread ("
                                         +:+ pretty HEARTBEAT_INTERVAL_SECONDS
                                         +:+ " second interval)...") None]) w in
  heartbeat_frame (send_heartbeat P true w0).2 (start_heartbeat P w).2.
Proof.
  intros Hrun. cbv zeta. unfold start_heartbeat, with_log.
  unfold bind at 1. unfold get_self. simpl.
  rewrite Hrun. simpl. unfold bind at 1. unfold print, emit at 1. simpl.
  unfold bind.
  match goal with
  | |- context [send_heartbeat P true ?x] =>
      destruct (send_heartbeat P true x) as [[[]|e] w1]
  end; simpl; [|apply heartbeat_frame_refl].
  pose proof (schedule_frame w1) as (H1 & _).
  destruct (_schedule_heartbeat P w1) as [[[]|e] w2]; simpl in *; [|done].
  pose proof (start_update_reporting_frame w2) as H2.
  destruct (start_update_reporting P w2) as [[[]|e] w3]; simpl in *.
  - pose proof (start_stats_reporting_frame w3) as H3.
    apply (heartbeat_frame_trans _ _ _ (heartbeat_frame_trans _ _ _ H1 H2) H3).
  - apply (heartbeat_frame_trans _ _ _ H1 H2).
Qed.

(** [_heartbeat_loop] reads the clock, decides, sends; rescheduling
    sends no heartbeat. *)
Lemma heartbeat_loop_frame w :
  running (self w) = true →
  let t := (time_time P (env w)).1 in
  let w0 := with_env (time_time P (env w)).2 w in
  heartbeat_frame
    (send_heartbeat P (Qle_bool 300 (t - last_full_info_time (self w))) w0).2
    (_heartbeat_loop P w).2.
Proof.
  intros Hrun. simpl.
  unfold _heartbeat_loop, _heartbeat_loop_send, _heartbeat_loop_reschedule.
  unfold bind at 1. unfold bind at 1. unfold get_self at 1. simpl.
  rewrite Hrun. simpl. unfold bind at 1. unfold from_env at 1.
  destruct (time_time P (env w)) as [t e1]. simpl.
  unfold bind at 1. unfold with_env. simpl.
  match goal with
  | |- context [send_heartbeat P ?i ?w0] =>
      destruct (send_heartbeat P i w0) as [[[]|e] w1]
  end; simpl; [|apply heartbeat_frame_refl].
  unfold ret, bind, get_self. simpl.
  destruct (running (self w1)); [|apply heartbeat_frame_refl].
  apply schedule_frame.
Qed.

Section OneHeartbeat.

Variables (w : World P) (ch : Channel).
Hypothesis Hrun : running (self w) = true.
Hypothesis Hstub : stub (self w) = Some ch.

(** A heartbeat sent without full info: the request has the client
    timestamp only. *)
Lemma send_minimal :
  let rq := {| hb_client_timestamp := int_of_float ((time_time P (env w)).1 * 1000);
               hb_system_info := None |} in
  let w1 := (build_heartbeat_request P false w).2 in
  let w' := (send_heartbeat P false w).2 in
  last_full_info_time (self w') = last_full_info_time (self w)
  ∧ ∃ rqs, heartbeat_requests (log w') = heartbeat_requests (log w) ++ rqs
           ∧ Forall (λ rq', rq' = rq) rqs
           ∧ ((_ensure_access_token P w1).1 = Normal true → rq ∈ rqs).
Proof.
  cbv zeta.
  destruct (heartbeat_sent false w ch _ _ Hrun Hstub (build_minimal w))
    as (Hlast & rqs & H1 & H2 & H3).
  split; [by rewrite Hlast|]. exists rqs. rewrite build_minimal. done.
Qed.

(** A heartbeat sent with full info, when building the payload does not
    raise: the request carries what the supervisor gave, and
    [last_full_info_time] is the clock reading taken before the call. *)
Lemma send_full attached :
  let e1 := (time_time P (env w)).2 in
  let info := (supervisor_get_info P e1).1 in
  let e2 := (supervisor_get_info P e1).2 in
  attachment info = Normal attached →
  let rq := {| hb_client_timestamp := int_of_float ((time_time P (env w)).1 * 1000);
               hb_system_info := attached |} in
  let w1 := (build_heartbeat_request P true w).2 in
  let w' := (send_heartbeat P true w).2 in
  build_heartbeat_request P true w = (Normal rq, w1)
  ∧ last_full_info_time (self w1) = (time_time P e2).1
  ∧ last_full_info_time (self w') = (time_time P e2).1
  ∧ ∃ rqs, heartbeat_requests (log w') = heartbeat_requests (log w) ++ rqs
           ∧ Forall (λ rq', rq' = rq) rqs
           ∧ ((_ensure_access_token P w1).1 = Normal true → rq ∈ rqs).
Proof.
  cbv zeta. intros Hatt.
  pose proof (build_full w) as Hb. cbv zeta in Hb. rewrite Hatt in Hb.
  destruct (heartbeat_sent true w ch _ _ Hrun Hstub Hb)
    as (Hlast & rqs & H1 & H2 & H3).
  rewrite Hb in *. simpl in *.
  split; [done|]. split; [done|]. split; [done|]. by exists rqs.
Qed.

End OneHeartbeat.

(** A firing of the heartbeat timer less than 300 seconds after
    [last_full_info_time]. *)
Lemma loop_minimal w ch :
  running (self w) = true → stub (self w) = Some ch →
  let t := (time_time P (env w)).1 in
  let w0 := with_env (time_time P (env w)).2 w in
  (t - last_full_info_time (self w) < 300)%Q →
  let w' := (_heartbeat_loop P w).2 in
  last_full_info_time (self w') = last_full_info_time (self w)
  ∧ ∃ rqs, heartbeat_requests (log w') = heartbeat_requests (log w) ++ rqs
           ∧ Forall (λ rq, hb_system_info rq = None) rqs
           ∧ ((_ensure_access_token P (build_heartbeat_request P false w0).2).1
                = Normal true → rqs ≠ []).
Proof.
  intros Hrun Hstub t w0 Hlt w'.
  pose proof (heartbeat_loop_frame w Hrun) as Hframe. cbv zeta in Hframe.
  fold t w0 w' in Hframe.
  assert (Hinc : Qle_bool 300 (t - last_full_info_time (self w)) = false).
  { destruct (Qle_bool 300 _) eqn:E; [|done].
    apply Qle_bool_iff in E. by apply Qlt_not_le in Hlt. }
  rewrite Hinc in Hframe.
  apply heartbeat_frame_requests in Hframe. destruct Hframe as (Hl & Hh).
  destruct (send_minimal w0 ch Hrun Hstub) as (Hl0 & rqs & Hh0 & Hall & Hin).
  split; [by rewrite Hl, Hl0|].
  exists rqs. rewrite Hh, Hh0. split; [done|]. split.
  - eapply Forall_impl; [exact Hall|]. by intros y ->.
  - intros Hens Hnil. specialize (Hin Hens). rewrite Hnil in Hin. set_solver.
Qed.

(** A firing 300 seconds or more after [last_full_info_time], when the
    supervisor supplies system info. *)
Lemma loop_full w ch si :
  running (self w) = true → stub (self w) = Some ch →
  let t := (time_time P (env w)).1 in
  let w0 := with_env (time_time P (env w)).2 w in
  (300 <= t - last_full_info_time (self w))%Q →
  let e1 := (time_time P (env w0)).2 in
  attachment (supervisor_get_info P e1).1 = Normal (Some si) →
  let w' := (_heartbeat_loop P w).2 in
  last_full_info_time (self w') = (time_time P (supervisor_get_info P e1).2).1
  ∧ ∃ rqs, heartbeat_requests (log w') = heartbeat_requests (log w) ++ rqs
           ∧ Forall (λ rq, hb_system_info rq = Some si) rqs
           ∧ ((_ensure_access_token P (build_heartbeat_request P true w0).2).1
                = Normal true → rqs ≠ []).
Proof.
  intros Hrun Hstub t w0 Hle e1 Hatt w'.
  pose proof (heartbeat_loop_frame w Hrun) as Hframe. cbv zeta in Hframe.
  fold t w0 w' in Hframe.
  rewrite (proj2 (Qle_bool_iff _ _) Hle) in Hframe.
  apply heartbeat_frame_requests in Hframe. destruct Hframe as (Hl & Hh).
  destruct (send_full w0 ch Hrun Hstub (Some si) Hatt)
    as (_ & _ & Hl0 & rqs & Hh0 & Hall & Hin).
  split; [by rewrite Hl, Hl0|].
  exists rqs. rewrite Hh, Hh0. split; [done|]. split.
  - eapply Forall_impl; [exact Hall|]. by intros y ->.
  - intros Hens Hnil. specialize (Hin Hens). rewrite Hnil in Hin. set_solver.
Qed.

(** The heartbeat of [start_heartbeat], when the supervisor supplies
    system info. *)
Lemma start_full w ch si :
  running (self w) = true → stub (self w) = Some ch →
  let w0 := with_log (log w ++ [EvPrint ("Starting heartbeat thread ("
                                         +:+ pretty HEARTBEAT_INTERVAL_SECONDS
                                         +:+ " second interval)...") None]) w in
  let e1 := (time_time P (env w)).2 in
  attachment (supervisor_get_info P e1).1 = Normal (Some si) →
  let w' := (start_heartbeat P w).2 in
  last_full_info_time (self w') = (time_time P (supervisor_get_info P e1).2).1
  ∧ ∃ rqs, heartbeat_requests (log w') = heartbeat_requests (log w) ++ rqs
           ∧ Forall (λ rq, hb_system_info rq = Some si) rqs
           ∧ ((_ensure_access_token P (build_heartbeat_request P true w0).2).1
                = Normal true → rqs ≠ []).
Proof.
  intros Hrun Hstub w0 e1 Hatt w'.
  pose proof (start_heartbeat_frame w Hrun) as Hframe. cbv zeta in Hframe.
  fold w0 w' in Hframe.
  apply heartbeat_frame_requests in Hframe. destruct Hframe as (Hl & Hh).
  destruct (send_full w0 ch Hrun Hstub (Some si) Hatt)
    as (_ & _ & Hl0 & rqs & Hh0 & Hall & Hin).
  split; [by rewrite Hl, Hl0|].
  exists rqs. rewrite Hh, Hh0. split.
  - unfold w0. simpl. rewrite heartbeat_requests_app. simpl.
    by rewrite app_nil_r.
  - split.
    + eapply Forall_impl; [exact Hall|]. by intros y ->.
    + intros Hens Hnil. specialize (Hin Hens). rewrite Hnil in Hin. set_solver.
Qed.

(** *** The session invariant

    [connect_and_handshake] returns [True] only with a stub and a
    refresh token in place, and neither a refresh, nor the token check,
    nor an authenticated call takes them away. *)

Lemma refresh_keeps_session w :
  session_ready (self w) → session_ready (self (refresh_access_token P w).2).
Proof.
  intros ([ch Hstub] & s & Htok & Hs).
  destruct (stub_call P RefreshToken ch {| rtq_refresh_token := s |} 10 None (env w))
    as [[resp|code details] e'] eqn:Hcall.
  - destruct (rt_success resp) eqn:Hok.
    + destruct (refresh_accepted_fields w ch s Hstub Htok Hs resp e' Hcall Hok)
        as (_ & _ & Hr & _).
      split.
      * rewrite (refresh_accepted w ch s Hstub Htok Hs resp e' Hcall Hok).
        destruct (enrollment_data (self w)); simpl; by rewrite Hstub.
      * rewrite Hr. destruct (bool_decide (rt_refresh_token resp = "")) eqn:Hb.
        -- by exists s.
        -- apply bool_decide_eq_false in Hb. by eexists.
    + rewrite (refresh_rejected w ch s Hstub Htok Hs resp e' Hcall Hok). simpl.
      split; [by rewrite Hstub|by exists s].
  - rewrite (refresh_rpc_error w ch s Hstub Htok Hs code details e' Hcall). simpl.
    split; [by rewrite Hstub|by exists s].
Qed.

Lemma ensure_keeps_session w :
  session_ready (self w) → session_ready (self (_ensure_access_token P w).2).
Proof.
  intros Hready.
  destruct (truthy (access_token (self w))) eqn:Hacc.
  2:{ rewrite ensure_without_access_token by done. by apply refresh_keeps_session. }
  destruct (truthy (access_token_expires_at (self w))) eqn:Hexp.
  2:{ rewrite ensure_without_expiry by done. by apply refresh_keeps_session. }
  unfold _ensure_access_token, _token_expired. munfold. simpl.
  rewrite Hacc. simpl. rewrite Hexp. simpl.
  destruct (time_time P (env w)) as [t e1] eqn:Ht. simpl.
  set (w1 := {| self := self w; env := e1; store := store w; timers := timers w;
                timer_seq := timer_seq w; log := log w |}).
  assert (H1 : session_ready (self (refresh_access_token P w1).2))
    by (by apply refresh_keeps_session).
  unfold int_of. munfold.
  destruct (access_token_expires_at (self w)) as [|b|n|s]; simpl; try done.
  - by destruct (_ >=? _).
  - by destruct (_ >=? _).
  - destruct (py_int P s); simpl; [|done]. by destruct (_ >=? _).
Qed.

Lemma call_with_auth_keeps_session w m ch (rq : request m) timeout :
  session_ready (self w) →
  session_ready (self (_call_with_auth P m ch rq timeout w).2).
Proof.
  intros Hready. rewrite call_with_auth_eq.
  pose proof (ensure_keeps_session w Hready) as H1.
  destruct (_ensure_access_token P w) as [[[|]|e] w1]; simpl in *; try done.
  destruct (stub_call P m ch rq timeout _ (env w1)) as [[a|code details] e2];
    simpl; [done|].
  destruct (bool_decide (code = UNAUTHENTICATED)); simpl; [|done].
  match goal with
  | |- context [refresh_access_token P ?w2] =>
      pose proof (refresh_keeps_session w2 H1) as H2;
      destruct (refresh_access_token P w2) as [[[|]|e] w3]
  end; simpl in *; try done.
  by destruct (stub_call P m ch rq timeout _ (env w3)) as [[a|c d] e4].
Qed.

Lemma connect_establishes_session w d s w' :
  enrollment_data (self w) = Some d → d ≠ ∅ →
  get d "refreshToken" = PStr s →
  connect_and_handshake P w = (Normal true, w') →
  session_ready (self w') ∧ running (self w') = true.
Proof.
  intros Hd Hne Hs. rewrite (connect_eq w d Hd Hne). cbv zeta.
  destruct (_create_channel P _ _) as [[ch|e] w1]; [|done].
  rewrite Hs.
  destruct (truthy (PStr s)) eqn:Htr; simpl; [|done].
  match goal with
  | |- context [_ensure_access_token P ?w2] =>
      assert (H2 : session_ready (self w2));
      [|pose proof (ensure_keeps_session w2 H2) as H3;
        destruct (_ensure_access_token P w2) as [[[|]|e] w3]]
  end; try done.
  - split; [by eexists|]. exists s. split; [done|].
    intros ->. done.
  - intros [= <-]. done.
Qed.

(** *** The sends and the callbacks always return

    Every exception raised while sending is caught at the end of the
    send, so a callback returns normally in every world. *)

Lemma send_heartbeat_returns include w :
  (send_heartbeat P include w).1 = Normal tt.
Proof.
  destruct (running (self w)) eqn:Hrun;
    [|by rewrite send_heartbeat_idle by auto].
  destruct (stub (self w)) as [ch|] eqn:Hstub;
    [|by rewrite send_heartbeat_idle by auto].
  rewrite (send_heartbeat_eq include w ch Hrun Hstub).
  destruct (build_heartbeat_request P include w) as [[rq|e] w1]; [|done].
  destruct (_call_with_auth P Heartbeat ch rq 10 w1) as [[resp|e] w2]; [|done].
  by rewrite handle_heartbeat_response_eq.
Qed.

Lemma send_update_report_returns w :
  (send_update_report P w).1 = Normal tt.
Proof.
  unfold send_update_report, send_update_report_body. unfold bind at 1. unfold get_self. simpl.
  destruct (running (self w)); [|done].
  destruct (stub (self w)) as [ch|]; [|done].
  unfold try_except, bind, from_env, lift. simpl.
  destruct (supervisor_get_update_components P (env w)) as [components e1]. simpl.
  destruct (time_time P e1) as [t e2]. simpl.
  destruct (make_component_updates components) as [cus|e]; simpl;
    [|by destruct e].
  destruct (_call_with_auth P ReportUpdates ch _ 15 _) as [[resp|e] w3]; simpl.
  - by destruct (ur_accepted resp).
  - by destruct e.
Qed.

Lemma send_stats_report_returns w :
  (send_stats_report P w).1 = Normal tt.
Proof.
  unfold send_stats_report, send_stats_report_body. unfold bind at 1. unfold get_self. simpl.
  destruct (running (self w)); [|done].
  destruct (stub (self w)) as [ch|]; [|done].
  unfold try_except, bind, from_env. simpl.
  destruct (supervisor_get_core_stats P (env w)) as [stats e1]. simpl.
  destruct (dict_truthy stats); simpl; [|done].
  destruct (time_time P e1) as [t e2]. simpl.
  destruct (_call_with_auth P ReportStats ch _ 10 _) as [[resp|e] w3]; simpl.
  - by destruct (sr_accepted resp).
  - by destruct e.
Qed.

Lemma loop_send_returns k w : ∃ entered, (loop_send P k w).1 = Normal entered.
Proof.
  destruct k; simpl;
    unfold _heartbeat_loop_send, _update_report_loop_send, _stats_report_loop_send;
    unfold bind at 1; unfold get_self; simpl;
    (destruct (running (self w)); simpl; [|by eexists]).
  - unfold bind, from_env. destruct (time_time P (env w)) as [t e1]. simpl.
    match goal with
    | |- context [send_heartbeat P ?i ?w0] =>
        pose proof (send_heartbeat_returns i w0) as H;
        destruct (send_heartbeat P i w0) as [r w1]
    end.
    simpl in H. subst r. by eexists.
  - unfold bind. pose proof (send_update_report_returns w) as H.
    destruct (send_update_report P w) as [r w1]. simpl in H. subst r. by eexists.
  - unfold bind. pose proof (send_stats_report_returns w) as H.
    destruct (send_stats_report P w) as [r w1]. simpl in H. subst r. by eexists.
Qed.

Lemma loop_reschedule_returns k w : (loop_reschedule P k w).1 = Normal tt.
Proof.
  destruct k; simpl;
    unfold _heartbeat_loop_reschedule, _update_report_loop_reschedule,
      _stats_report_loop_reschedule, _schedule_heartbeat,
      _schedule_update_report, _schedule_stats_report, Timer_start;
    munfold; simpl; destruct (running (self w)) eqn:E; simpl; rewrite ?E; done.
Qed.

End Facts.

End ClientFacts.

Import GrpcClient.






(** C9. When a successful refresh response carries an empty refresh
    token, the refresh token held before stays; a non-empty one replaces
    it.  Either way the refresh token held afterwards is not empty, and
    it is the one written into the enrollment record. *)
Theorem C9_empty_refresh_token_keeps_old (P : Platform) (w : World P)
    (ch : Channel) (s : string) (resp : RefreshTokenResponse) (e' : Env P) :
  stub (self w) = Some ch → refresh_token (self w) = PStr s → s ≠ "" →
  stub_call P RefreshToken ch {| rtq_refresh_token := s |} 10 None (env w)
    = (RpcOk resp, e') →
  rt_success resp = true →
  let w' := (refresh_access_token P w).2 in
  (rt_refresh_token resp = "" → refresh_token (self w') = refresh_token (self w))
  ∧ (rt_refresh_token resp ≠ "" →
     refresh_token (self w') = PStr (rt_refresh_token resp))
  ∧ truthy (refresh_token (self w')) = true
  ∧ (∀ d, enrollment_data (self w) = Some d →
       ∃ d', enrollment_data (self w') = Some d'
             ∧ d' !! "refreshToken" = Some (refresh_token (self w'))).
Proof.
  intros Hstub Htok Hs Hcall Hok w'. subst w'.
  destruct (ClientFacts.refresh_accepted_fields P w ch s Hstub Htok Hs resp e' Hcall Hok)
    as (_ & _ & Hr & _ & Hd & _).
  rewrite Hr, Hd, Htok. split; [|split; [|split]].
  - intros ->. done.
  - intros Hne. by rewrite bool_decide_eq_false_2.
  - destruct (bool_decide (rt_refresh_token resp = "")) eqn:Hb; simpl.
    + by rewrite bool_decide_eq_false_2.
    + apply bool_decide_eq_false in Hb. by rewrite bool_decide_eq_false_2.
  - intros d ->. simpl. eexists. split; [reflexivity|].
    rewrite lookup_insert_ne by done. by rewrite lookup_insert_eq.
Qed.

(** C9 at work: the response of the server has no refresh token, and R1
    stays. *)
Lemma C9_witness :
  refresh_token (self (refresh_access_token Script.platform Script.world_granted).2)
    = PStr "R1".
Proof.
  refine (proj1 (C9_empty_refresh_token_keeps_old Script.platform
                   Script.world_granted (insecure_channel "10.0.0.1:50051") "R1"
                   {| rt_success := true; rt_access_token := "A2";
                      rt_refresh_token := "";
                      rt_access_token_expires_at := 7200; rt_error := "" |}
                   (Script.scene [] [] [] None)
                   eq_refl eq_refl _ eq_refl eq_refl) eq_refl).
  discriminate.
Defined.

(** C1. For a client with an expiry time [e] on record and the clock
    past the epoch, say that a refresh is due when no access token is
    held or the time is at or past [e - 30].  When a refresh is due,
    [_ensure_access_token] is [refresh_access_token] (run after the
    clock has been read, if it was read); when none is due, it returns
    [True] and changes nothing in the client, the store and the log.
    For a client with a stub and a refresh token, it makes a
    [RefreshToken] call if and only if a refresh is due. *)
Theorem C1_refresh_iff_missing_or_expiring (P : Platform) (w : World P) (e : Z) :
  access_token_expires_at (self w) = PInt e →
  let now := int_of_float (time_time P (env w)).1 in
  0 <= now →
  let r := (_ensure_access_token P w).1 in
  let w' := (_ensure_access_token P w).2 in
  let due := truthy (access_token (self w)) = false ∨ now >= e - 30 in
  (due →
     ∃ w1, (w1 = w ∨ w1 = with_env (time_time P (env w)).2 w)
           ∧ _ensure_access_token P w = refresh_access_token P w1)
  ∧ (¬ due →
     r = Normal true ∧ self w' = self w ∧ store w' = store w ∧ log w' = log w)
  ∧ (session_ready (self w) →
     (rpc_count RefreshToken (log w') = S (rpc_count RefreshToken (log w)) ↔ due)).
Proof.
  intros Hexp now Hnow r w' due. subst r w'.
  assert (Hrefresh : due →
            ∃ w1, (w1 = w ∨ w1 = with_env (time_time P (env w)).2 w)
                  ∧ _ensure_access_token P w = refresh_access_token P w1).
  { intros Hdue.
    destruct (truthy (access_token (self w))) eqn:Hacc.
    2:{ exists w. split; [by left|].
        by apply ClientFacts.ensure_without_access_token. }
    destruct Hdue as [|Hdue]; [done|].
    destruct (decide (e = 0)) as [->|He].
    { exists w. split; [by left|].
      apply ClientFacts.ensure_without_expiry; [done|by rewrite Hexp]. }
    eexists. split; [by right|].
    rewrite (ClientFacts.ensure_with_expiry P w e Hacc Hexp He).
    fold now. by rewrite (proj2 (Z.geb_le _ _)) by lia. }
  assert (Hkeep : ¬ due →
            _ensure_access_token P w
              = (Normal true, with_env (time_time P (env w)).2 w)).
  { intros Hdue.
    destruct (truthy (access_token (self w))) eqn:Hacc;
      [|destruct Hdue; by left].
    assert (He : e ≠ 0) by (intros ->; apply Hdue; right; lia).
    rewrite (ClientFacts.ensure_with_expiry P w e Hacc Hexp He).
    fold now. destruct (now >=? e - 30) eqn:Hcmp; [|done].
    destruct Hdue. right. apply Z.geb_le in Hcmp. lia. }
  split; [exact Hrefresh|]. split.
  - intros Hdue. by rewrite (Hkeep Hdue).
  - intros ([ch Hstub] & rt & Htok & Hrt). split.
    + intros Hcount. destruct (decide (truthy (access_token (self w)) = false));
        [by left|].
      destruct (decide (now >= e - 30)); [by right|].
      rewrite Hkeep in Hcount; [simpl in Hcount; lia|]. by intros [|].
    + intros Hdue. destruct (Hrefresh Hdue) as (w1 & Hw1 & ->).
      rewrite (ClientFacts.refresh_calls_once P w1 ch rt);
        by destruct Hw1 as [-> | ->].
Qed.

(** C1 at work, on the scenario of the specification: tokens issued with
    expiry 3600; at time 3569 nothing is refreshed. *)
Lemma C1_witness :
  (_ensure_access_token Script.platform (Script.world_at 3569)).1 = Normal true
  ∧ log (_ensure_access_token Script.platform (Script.world_at 3569)).2 = [].
Proof.
  destruct (C1_refresh_iff_missing_or_expiring Script.platform
              (Script.world_at 3569) 3600 eq_refl ltac:(by vm_compute))
    as (_ & Hkeep & _).
  destruct Hkeep as (Hr & _ & _ & Hl).
  - intros [H|H]; [discriminate H|]. by vm_compute in H.
  - split; [exact Hr|exact Hl].
Defined.

(** The same scenario at time 3571: one [RefreshToken] call. *)
Example refresh_at_3571 :
  rpc_count RefreshToken
    (log (_ensure_access_token Script.platform (Script.world_at 3571)).2) = 1%nat.
Proof. reflexivity. Qed.

(** C2. [_call_with_auth] makes the call at most twice.  When the token
    check passes and the first attempt fails with UNAUTHENTICATED,
    [refresh_access_token] runs once (it makes at most one [RefreshToken]
    call, and exactly one when a stub and a refresh token are at hand);
    if it returns [True] the call is made once more and its result,
    response or RPC error, is the result; if it returns [False] the first
    RPC error is raised and the call is not repeated.  Nothing follows
    in the log.  When the first attempt ends otherwise, there is neither
    a refresh nor a second attempt.  This holds on every platform, so
    for every behaviour of the server. *)
Theorem C2_single_refresh_and_retry (P : Platform) (m : method) (ch : Channel)
    (rq : request m) (timeout : Z) (w : World P) :
  let r := (_call_with_auth P m ch rq timeout w).1 in
  let w' := (_call_with_auth P m ch rq timeout w).2 in
  (auth_call_count (log w') ≤ auth_call_count (log w) + 2)%nat
  ∧ ∀ w1 res e2,
      _ensure_access_token P w = (Normal true, w1) →
      let md1 := Some (auth_metadata_of (self w1)) in
      stub_call P m ch rq timeout md1 (env w1) = (res, e2) →
      let w2 := with_env e2 (with_log (log w1 ++ [EvRpc m ch rq timeout md1]) w1) in
      match res with
      | RpcFail UNAUTHENTICATED details =>
          let refreshed := (refresh_access_token P w2).1 in
          let w3 := (refresh_access_token P w2).2 in
          ∃ evs tail,
            log w3 = log w2 ++ evs
            ∧ log w' = log w3 ++ tail
            ∧ Forall (λ e, is_refresh_event e = true) evs
            ∧ (rpc_count RefreshToken evs ≤ 1)%nat
            ∧ (∀ sch s, stub (self w1) = Some sch →
                        refresh_token (self w1) = PStr s → s ≠ "" →
                        rpc_count RefreshToken evs = 1%nat)
            ∧ match refreshed with
              | Normal true =>
                  let md2 := Some (auth_metadata_of (self w3)) in
                  tail = [EvRpc m ch rq timeout md2]
                  ∧ r = match (stub_call P m ch rq timeout md2 (env w3)).1 with
                        | RpcOk a => Normal a
                        | RpcFail c d => Raised (RpcError c d)
                        end
              | Normal false =>
                  tail = [] ∧ r = Raised (RpcError UNAUTHENTICATED details)
              | Raised e => tail = [] ∧ r = Raised e
              end
      | RpcFail code details =>
          w' = w2 ∧ r = Raised (RpcError code details)
      | RpcOk a => w' = w2 ∧ r = Normal a
      end.
Proof.
  intros r w'. subst r w'. rewrite ClientFacts.call_with_auth_eq. split.
  - destruct (ClientFacts.ensure_token_step P w) as (evs0 & Hs0 & Hf0 & _).
    apply ClientFacts.token_step_log in Hs0.
    apply ClientFacts.refresh_events_no_auth_call in Hf0.
    destruct (_ensure_access_token P w) as [[[|]|e] w1]; simpl in *;
      try (rewrite Hs0, ClientFacts.auth_call_count_app, Hf0; lia).
    destruct (stub_call P m ch rq timeout _ (env w1)) as [[a|code details] e2];
      simpl.
    { rewrite Hs0, !ClientFacts.auth_call_count_app, Hf0.
      rewrite ClientFacts.auth_call_count_one. lia. }
    destruct (bool_decide (code = UNAUTHENTICATED)); simpl.
    2:{ rewrite Hs0, !ClientFacts.auth_call_count_app, Hf0.
        rewrite ClientFacts.auth_call_count_one. lia. }
    match goal with
    | |- context [refresh_access_token P ?w2] =>
        destruct (ClientFacts.refresh_token_step P w2) as (evs & Hs & Hf & _);
        apply ClientFacts.token_step_log in Hs;
        apply ClientFacts.refresh_events_no_auth_call in Hf;
        destruct (refresh_access_token P w2) as [[[|]|e] w3]
    end; simpl in *;
      try (rewrite Hs, Hs0, !ClientFacts.auth_call_count_app, Hf0, Hf;
           rewrite ClientFacts.auth_call_count_one; lia).
    destruct (stub_call P m ch rq timeout _ (env w3)) as [[a|c d] e4]; simpl;
      rewrite Hs, Hs0, !ClientFacts.auth_call_count_app, Hf0, Hf;
      rewrite !ClientFacts.auth_call_count_one; lia.
  - intros w1 res e2 Hens md1 Hcall w2. rewrite Hens. simpl.
    subst md1 w2. rewrite Hcall.
    destruct res as [a|code details]; [done|].
    destruct code;
      try (rewrite bool_decide_eq_false_2 by discriminate; simpl; done).
    rewrite bool_decide_eq_true_2 by done.
    match goal with
    | |- context [refresh_access_token P ?w] => set (w2 := w)
    end.
    destruct (ClientFacts.refresh_token_step P w2) as (evs & Hs & Hf & Hc).
    apply ClientFacts.token_step_log in Hs.
    exists evs.
    assert (Hone : ∀ sch s, stub (self w1) = Some sch →
                     refresh_token (self w1) = PStr s → s ≠ "" →
                     rpc_count RefreshToken evs = 1%nat).
    { intros sch s Hstub Htok Hne.
      pose proof (ClientFacts.refresh_calls_once P w2 sch s Hstub Htok Hne) as H1.
      rewrite Hs, ClientFacts.rpc_count_app in H1. lia. }
    destruct (refresh_access_token P w2) as [[[|]|e] w3]; simpl in *.
    + eexists. split; [done|]. split; [|split; [done|split; [done|split; [done|]]]].
      * destruct (stub_call P m ch rq timeout _ (env w3)) as [[a|c d] e4];
          simpl; reflexivity.
      * split; [done|].
        by destruct (stub_call P m ch rq timeout _ (env w3)) as [[a|c d] e4].
    + exists []. rewrite app_nil_r. done.
    + exists []. rewrite app_nil_r. done.
Qed.

(** C2 at work: a server that answers UNAUTHENTICATED to every call.
    The second RPC error is what the caller gets. *)
Lemma C2_witness :
  (_call_with_auth Script.platform Heartbeat (insecure_channel "10.0.0.1:50051")
     Script.ping 10 Script.world_always_rejected).1
  = Raised (RpcError UNAUTHENTICATED (Some "again")).
Proof.
  destruct (C2_single_refresh_and_retry Script.platform Heartbeat
              (insecure_channel "10.0.0.1:50051") Script.ping 10
              Script.world_always_rejected) as [_ H].
  specialize (H (_ensure_access_token Script.platform Script.world_always_rejected).2
                (RpcFail UNAUTHENTICATED None)
                (Script.scene [] [Script.granted "A2" "" 7200]
                   [RpcFail UNAUTHENTICATED (Some "again")] None)
                eq_refl eq_refl).
  cbv beta iota zeta in H.
  destruct H as (evs & tail & _ & _ & _ & _ & _ & H).
  remember (_call_with_auth Script.platform Heartbeat
              (insecure_channel "10.0.0.1:50051") Script.ping 10
              Script.world_always_rejected).1 as r eqn:Hr.
  clear Hr. vm_compute in H. exact (proj2 H).
Defined.

(** C5. With [tls_skip_verify] set and no CA file, for an address
    [host:port]: when the unverified handshake yields a certificate, the
    channel is a secure channel whose only root certificate is that
    certificate in PEM form, with the target name and authority
    overridden to "omnii-grpc"; when the handshake raises, whatever the
    exception, [_create_channel] returns an insecure channel to the same
    address, after printing two warnings, and does not raise. *)
Theorem C5_trust_on_first_use (P : Platform) (w : World P)
    (url host port_str : string) (port : Z) :
  tls_skip_verify (self w) = true →
  nonempty (tls_ca_cert (self w)) = false →
  rsplit_colon url = Some (host, port_str) →
  py_int P port_str = Some port →
  let r := (_create_channel P (PStr url) w).1 in
  let w' := (_create_channel P (PStr url) w).2 in
  match (fetch_peer_cert P host port (env w)).1 with
  | inr der_cert =>
      r = Normal (secure_channel url
                    (if nonempty der_cert
                     then Some (pem_of_der (default "" der_cert)) else None)
                    [ ("grpc.ssl_target_name_override", "omnii-grpc");
                      ("grpc.default_authority", "omnii-grpc") ])
  | inl e =>
      r = Normal (insecure_channel url)
      ∧ log w' = log w ++
          [ EvProbe host port;
            EvPrint "Warning: Could not fetch server certificate: " (Some e);
            EvPrint "Falling back to insecure channel (no TLS)" None ]
  end.
Proof.
  intros Hskip Hca Hsplit Hport r w'. subst r w'.
  unfold _create_channel. ClientFacts.munfold. simpl.
  rewrite Hca, Hskip. simpl. rewrite Hsplit, Hport. simpl.
  destruct (fetch_peer_cert P host port (env w)) as [[e|der_cert] e1]. simpl.
  - split; [done|]. by rewrite <- !app_assoc.
  - simpl. by destruct (nonempty der_cert).
Qed.

(** C5 at work: the endpoint presents the certificate bytes "abc"; the
    handshake with another endpoint fails. *)
Lemma C5_witness :
  (_create_channel Script.platform (PStr "10.0.0.1:50051")
     (Script.world_tofu (inr (Some "abc")))).1
  = Normal (secure_channel "10.0.0.1:50051" (Some (pem_of_der "abc")) tofu_options)
  ∧ (_create_channel Script.platform (PStr "10.0.0.1:50051")
       (Script.world_tofu (inl OSError))).1
    = Normal (insecure_channel "10.0.0.1:50051").
Proof.
  split.
  - exact (C5_trust_on_first_use Script.platform (Script.world_tofu (inr (Some "abc")))
             "10.0.0.1:50051" "10.0.0.1" "50051" 50051
             eq_refl eq_refl eq_refl eq_refl).
  - exact (proj1 (C5_trust_on_first_use Script.platform
                    (Script.world_tofu (inl OSError))
                    "10.0.0.1:50051" "10.0.0.1" "50051" 50051
                    eq_refl eq_refl eq_refl eq_refl)).
Defined.

(** C8. Let [d] be the enrollment record the client holds (empty if it
    holds none).  When [d] has no refresh token (absent, null or empty),
    [connect_and_handshake] does not return [True], leaves [running] as
    it was and calls no stub; unless building the channel raises, it
    returns [False], and for a non-empty record its last message is the
    one about the missing refresh token.  It returns [True] only if the
    record has a refresh token and [_ensure_access_token] returned
    [True], and then [running] is set; with a channel built, a refresh
    token and a successful token check it does return [True].  Whenever
    it does not return [True], [running] is unchanged. *)
Theorem C8_connect_requires_refresh_token (P : Platform) (w : World P) :
  let d := default ∅ (enrollment_data (self w)) in
  let r := (connect_and_handshake P w).1 in
  let w' := (connect_and_handshake P w).2 in
  let grpc_url := get_or d "grpcServerUrl" (PStr (server_url (self w))) in
  let w0 := with_log (log w ++ [EvPrint ("Connecting to gRPC server at "
                                         +:+ py_str grpc_url +:+ "...") None]) w in
  let connected ch w1 :=
    with_self
      (set_access_token_expires_at (get d "accessTokenExpiresAt")
         (set_refresh_token (get d "refreshToken")
            (set_access_token (get d "accessToken")
               (set_stub (Some ch) (set_channel (Some ch) (self w1))))))
      w1 in
  (truthy (get d "refreshToken") = false →
     r ≠ Normal true
     ∧ running (self w') = running (self w)
     ∧ filter (λ e, is_any_rpc e = true) (log w')
       = filter (λ e, is_any_rpc e = true) (log w)
     ∧ ((∀ e, r ≠ Raised e) →
        r = Normal false
        ∧ (d ≠ ∅ →
           last (log w')
           = Some (EvPrint "Missing refresh token. Please re-enroll." None))))
  ∧ (r = Normal true →
     truthy (get d "refreshToken") = true
     ∧ running (self w') = true
     ∧ ∃ ch w1 w3,
         _create_channel P grpc_url w0 = (Normal ch, w1)
         ∧ _ensure_access_token P (connected ch w1) = (Normal true, w3)
         ∧ w' = with_self (set_running true (self w3)) w3)
  ∧ (∀ ch w1 w3,
       d ≠ ∅ →
       _create_channel P grpc_url w0 = (Normal ch, w1) →
       truthy (get d "refreshToken") = true →
       _ensure_access_token P (connected ch w1) = (Normal true, w3) →
       r = Normal true)
  ∧ (r ≠ Normal true → running (self w') = running (self w)).
Proof.
  intros d r w' grpc_url w0 connected. subst r w'.
  destruct (decide (d = ∅)) as [Hempty|Hne].
  { assert (Hnone : dict_truthy (enrollment_data (self w)) = false).
    { subst d. destruct (enrollment_data (self w)) as [d0|]; [|done].
      simpl in *. by rewrite bool_decide_eq_true_2. }
    rewrite (ClientFacts.connect_not_enrolled P w Hnone). simpl.
    split; [|split; [done|split; [done|done]]].
    intros _. split; [done|]. split; [done|].
    split; [by rewrite filter_app, app_nil_r|]. done. }
  assert (Hd : enrollment_data (self w) = Some d).
  { subst d. destruct (enrollment_data (self w)); [done|]. by destruct Hne. }
  rewrite (ClientFacts.connect_eq P w d Hd Hne). fold grpc_url w0. cbv zeta.
  destruct (ClientFacts.create_channel_frame P grpc_url w0)
    as (Hself & _ & _ & evs & Hlog & Hnorpc).
  assert (Hrpc : filter (λ e, is_any_rpc e = true) (log (_create_channel P grpc_url w0).2)
                 = filter (λ e, is_any_rpc e = true) (log w)).
  { rewrite Hlog. unfold w0. simpl. rewrite !filter_app, Hnorpc.
    by rewrite !app_nil_r. }
  destruct (_create_channel P grpc_url w0) as [[ch|e] w1] eqn:Hch; simpl in *.
  2:{ split; [|split; [|split]].
      - intros _. split; [done|]. split; [by rewrite Hself|]. split; [done|].
        intros H. by destruct (H e).
      - done.
      - intros ch' w1' w3' _ [=].
      - intros _. by rewrite Hself. }
  fold (connected ch w1).
  destruct (truthy (get d "refreshToken")) eqn:Htok; simpl.
  2:{ split; [|split; [|split]].
      - intros _. split; [done|]. split; [by rewrite Hself|].
        split; [by rewrite filter_app, Hrpc, app_nil_r|].
        intros _. split; [done|]. intros _. by rewrite last_snoc.
      - done.
      - done.
      - intros _. by rewrite Hself. }
  destruct (ClientFacts.ensure_token_step P (connected ch w1)) as (evs' & Hstep & _).
  apply ClientFacts.token_step_running in Hstep.
  destruct (_ensure_access_token P (connected ch w1)) as [[[|]|e] w3] eqn:Hens;
    simpl in *.
  - split; [done|]. split; [|split].
    + intros _. split; [done|]. split; [done|]. by exists ch, w1, w3.
    + done.
    + by intros [].
  - split; [done|]. split; [done|]. split.
    + intros ch' w1' w3' _ [= <- <-] _ H. congruence.
    + intros _. by rewrite Hstep, Hself.
  - split; [done|]. split; [done|]. split.
    + intros ch' w1' w3' _ [= <- <-] _ H. congruence.
    + intros _. by rewrite Hstep, Hself.
Qed.

(** C8 at work: a record without refresh token; the client does not
    start running. *)
Lemma C8_witness :
  (connect_and_handshake Script.platform
     (Script.world_unconnected Script.record_without_refresh_token)).1 = Normal false
  ∧ running (self (connect_and_handshake Script.platform
       (Script.world_unconnected Script.record_without_refresh_token)).2) = false.
Proof.
  destruct (C8_connect_requires_refresh_token Script.platform
              (Script.world_unconnected Script.record_without_refresh_token))
    as [Hmissing _].
  destruct (Hmissing eq_refl) as (_ & Hrun & _ & Hret).
  split; [|exact Hrun].
  apply Hret. intros e. by vm_compute.
Defined.

(** A record with a refresh token and no access token: the client
    refreshes and runs. *)
Example connect_with_refresh_token :
  (connect_and_handshake Script.platform
     (Script.world_unconnected
        {[ "instanceId" := PStr "inst-1"; "refreshToken" := PStr "R1";
           "grpcServerUrl" := PStr "10.0.0.1:50051" ]})).1 = Normal true.
Proof. reflexivity. Qed.

(** C6. For a running client with a stub, when the supervisor supplies
    system info:
    - the heartbeat that [start_heartbeat] sends carries the system
      info, and [last_full_info_time] becomes the clock reading taken
      when the request was built;
    - a firing of the heartbeat timer less than 300 seconds after
      [last_full_info_time] sends a request with the client timestamp
      and no system info, and leaves [last_full_info_time] as it is;
    - a firing 300 seconds or more after [last_full_info_time] (any
      firing from time 300 on, when [last_full_info_time] is 0) sends
      a request that carries the system info, and sets
      [last_full_info_time] to the clock reading taken then.
    In each case a heartbeat is sent as soon as the token check passes. *)
Theorem C6_heartbeat_cadence (P : Platform) (w : World P) (ch : Channel) :
  running (self w) = true → stub (self w) = Some ch →
  (let w0 := with_log (log w ++ [EvPrint ("Starting heartbeat thread ("
                                          +:+ pretty HEARTBEAT_INTERVAL_SECONDS
                                          +:+ " second interval)...") None]) w in
   let e1 := (time_time P (env w)).2 in
   let w' := (start_heartbeat P w).2 in
   ∀ si, attachment (supervisor_get_info P e1).1 = Normal (Some si) →
     last_full_info_time (self w') = (time_time P (supervisor_get_info P e1).2).1
     ∧ ∃ rqs, heartbeat_requests (log w') = heartbeat_requests (log w) ++ rqs
              ∧ Forall (λ rq, hb_system_info rq = Some si) rqs
              ∧ ((_ensure_access_token P (build_heartbeat_request P true w0).2).1
                   = Normal true → rqs ≠ []))
  ∧ (let t := (time_time P (env w)).1 in
     let w0 := with_env (time_time P (env w)).2 w in
     let elapsed := (t - last_full_info_time (self w))%Q in
     let w' := (_heartbeat_loop P w).2 in
     ((elapsed < 300)%Q →
        last_full_info_time (self w') = last_full_info_time (self w)
        ∧ ∃ rqs, heartbeat_requests (log w') = heartbeat_requests (log w) ++ rqs
                 ∧ Forall (λ rq, hb_system_info rq = None) rqs
                 ∧ ((_ensure_access_token P (build_heartbeat_request P false w0).2).1
                      = Normal true → rqs ≠ []))
     ∧ ((300 <= elapsed)%Q →
        let e1 := (time_time P (env w0)).2 in
        ∀ si, attachment (supervisor_get_info P e1).1 = Normal (Some si) →
          last_full_info_time (self w') = (time_time P (supervisor_get_info P e1).2).1
          ∧ ∃ rqs, heartbeat_requests (log w') = heartbeat_requests (log w) ++ rqs
                   ∧ Forall (λ rq, hb_system_info rq = Some si) rqs
                   ∧ ((_ensure_access_token P (build_heartbeat_request P true w0).2).1
                        = Normal true → rqs ≠ []))).
Proof.
  intros Hrun Hstub. split; [|split].
  - intros w0 e1 w' si Hatt. by apply (ClientFacts.start_full P w ch si).
  - intros Hlt. by apply (ClientFacts.loop_minimal P w ch).
  - intros Hle e1 si Hatt. by apply (ClientFacts.loop_full P w ch si).
Qed.

(** C6 at work: full info was sent at time 1000; the timer fires at
    1100. *)
Lemma C6_witness :
  last_full_info_time
    (self (_heartbeat_loop Script.platform
             (Script.world_beating 1000 [1100; 1100; 1100]%Q)).2) = 1000%Q
  ∧ ∃ rqs,
      heartbeat_requests
        (log (_heartbeat_loop Script.platform
                (Script.world_beating 1000 [1100; 1100; 1100]%Q)).2) = [] ++ rqs
      ∧ Forall (λ rq, hb_system_info rq = None) rqs.
Proof.
  destruct (C6_heartbeat_cadence Script.platform
              (Script.world_beating 1000 [1100; 1100; 1100]%Q)
              (insecure_channel "10.0.0.1:50051") eq_refl eq_refl)
    as (_ & Hminimal & _).
  destruct (Hminimal eq_refl) as (Hlast & rqs & Hrqs & Hall & _).
  split; [exact Hlast|]. exists rqs. split; [exact Hrqs|exact Hall].
Defined.

(** The scenario of the specification, run: the first heartbeat and the
    third carry system info, the second does not. *)
Example cadence_of_the_scenario :
  map (λ rq, bool_decide (is_Some (hb_system_info rq)))
    (heartbeat_requests (log Script.cadence_scenario)) = [true; false; true]
  ∧ last_full_info_time (self Script.cadence_scenario) = 1305%Q.
Proof. by vm_compute. Qed.

(** Building the payload raises nothing but [TypeError]. *)
Lemma proto_string_type_error (v : pyval) (e : exn) :
  proto_string v = Raised e → e = TypeError.
Proof. destruct v; simpl; congruence. Qed.

Lemma make_system_info_raises (info : dict) (e : exn) :
  make_system_info info = Raised e → e = TypeError.
Proof.
  unfold make_system_info.
  repeat match goal with
         | |- obind ?o _ = _ → _ =>
             let H := fresh "H" in
             destruct o eqn:H; simpl;
             [|intros [= <-]; by apply (proto_string_type_error _ _ H)]
         end.
  done.
Qed.

(** C10. For a running client with a stub, in a heartbeat that is to
    carry full info.  When building the payload does not raise, whether
    the supervisor gave system info or not: [last_full_info_time] is
    set to the clock reading taken after the supervisor was asked, in
    the part of [send_heartbeat] that builds the request, when no stub
    has been called yet; the call is made from the world so obtained,
    and whatever it does, response or exception, [last_full_info_time]
    still has that value at the end.  Hence a firing of the timer less
    than 300 seconds after that reading sends no system info and leaves
    [last_full_info_time] alone.  When building the payload raises (the
    supervisor gave a value that is neither a string nor null, a
    [TypeError]): [send_heartbeat] prints the failure and returns,
    [last_full_info_time] keeps the value it had, and no stub is
    called. *)
Theorem C10_full_info_time_reset_unless_building_raises (P : Platform) (w : World P)
    (ch : Channel) :
  running (self w) = true → stub (self w) = Some ch →
  let e1 := (time_time P (env w)).2 in
  let e2 := (supervisor_get_info P e1).2 in
  let t1 := (time_time P e2).1 in
  let w1 := (build_heartbeat_request P true w).2 in
  let w' := (send_heartbeat P true w).2 in
  (∀ attached : option SystemInfo,
     attachment (supervisor_get_info P e1).1 = Normal attached →
     let rq := {| hb_client_timestamp := int_of_float ((time_time P (env w)).1 * 1000);
                  hb_system_info := attached |} in
     build_heartbeat_request P true w = (Normal rq, w1)
     ∧ last_full_info_time (self w1) = t1
     ∧ filter (λ e, is_any_rpc e = true) (log w1)
       = filter (λ e, is_any_rpc e = true) (log w)
     ∧ send_heartbeat P true w =
         match _call_with_auth P Heartbeat ch rq 10 w1 with
         | (Raised e, w2) => (Normal tt, with_log (log w2 ++ [heartbeat_failed e]) w2)
         | (Normal resp, w2) => handle_heartbeat_response P resp w2
         end
     ∧ last_full_info_time (self w') = t1
     ∧ ∀ (w2 : World P) (ch2 : Channel),
         running (self w2) = true → stub (self w2) = Some ch2 →
         last_full_info_time (self w2) = t1 →
         ((time_time P (env w2)).1 - t1 < 300)%Q →
         let w3 := (_heartbeat_loop P w2).2 in
         last_full_info_time (self w3) = t1
         ∧ ∃ rqs, heartbeat_requests (log w3) = heartbeat_requests (log w2) ++ rqs
                  ∧ Forall (λ rq, hb_system_info rq = None) rqs)
  ∧ (∀ e : exn,
       attachment (supervisor_get_info P e1).1 = Raised e →
       e = TypeError
       ∧ send_heartbeat P true w
         = (Normal tt, with_log (log w ++ [EvPrint "Heartbeat failed: " (Some TypeError)])
                         (with_env e2 w))
       ∧ last_full_info_time (self w') = last_full_info_time (self w)
       ∧ filter (λ e, is_any_rpc e = true) (log w')
         = filter (λ e, is_any_rpc e = true) (log w)).
Proof.
  intros Hrun Hstub e1 e2 t1 w1 w'. split.
  - intros attached Hatt rq.
    destruct (ClientFacts.send_full P w ch Hrun Hstub attached Hatt)
      as (Hbuild & Hreset & Hlast & _).
    split; [exact Hbuild|]. split; [exact Hreset|]. split; [|split; [|split]].
    + destruct (ClientFacts.build_log P true w) as (evs & Hlog & _ & Hnone).
      fold w1 in Hlog. by rewrite Hlog, filter_app, Hnone, app_nil_r.
    + rewrite (ClientFacts.send_heartbeat_eq P true w ch Hrun Hstub).
      by rewrite Hbuild.
    + exact Hlast.
    + intros w2 ch2 Hrun2 Hstub2 Hlast2 Hlt w3.
      destruct (ClientFacts.loop_minimal P w2 ch2 Hrun2 Hstub2)
        as (Hl & rqs & Hh & Hall & _).
      { by rewrite Hlast2. }
      subst w3. split; [by rewrite Hl|]. by exists rqs.
  - intros e Hatt.
    assert (He : e = TypeError).
    { unfold attachment in Hatt.
      destruct (dict_truthy _); [|done].
      destruct (make_system_info _) as [si|e'] eqn:Hsi; [done|].
      simpl in Hatt. injection Hatt as <-.
      by apply (make_system_info_raises _ _ Hsi). }
    subst e. split; [done|].
    assert (Hsend : send_heartbeat P true w
                    = (Normal tt,
                       with_log (log w ++ [EvPrint "Heartbeat failed: " (Some TypeError)])
                         (with_env e2 w))).
    { rewrite (ClientFacts.send_heartbeat_eq P true w ch Hrun Hstub).
      pose proof (ClientFacts.build_full P w) as Hb. cbv zeta in Hb.
      fold e1 in Hb. rewrite Hatt in Hb. by rewrite Hb. }
    split; [exact Hsend|]. subst w'. rewrite Hsend. simpl.
    split; [done|]. by rewrite filter_app, app_nil_r.
Qed.

(** C10 at work: the supervisor gives nothing and the heartbeat call
    fails; [last_full_info_time] is 1000 all the same. *)
Lemma C10_witness :
  last_full_info_time (self (send_heartbeat Script.platform true
                               Script.world_unreachable).2) = 1000%Q.
Proof.
  destruct (C10_full_info_time_reset_unless_building_raises Script.platform
              Script.world_unreachable (insecure_channel "10.0.0.1:50051")
              eq_refl eq_refl)
    as (Hbuilt & _).
  destruct (Hbuilt None eq_refl) as (_ & _ & _ & _ & Hlast & _).
  exact Hlast.
Defined.

(** C10 refuted: the heartbeat timer fires 1000 seconds after the last
    heartbeat with full info, so full info is due; the supervisor
    gives the number 5 as its version, building the payload raises,
    and after the firing [last_full_info_time] is still 0, not 1000;
    nothing was sent, and the next timer is started. *)
Lemma C10_no_reset_when_building_raises :
  running (self Script.world_odd_info) = true
  ∧ Qle_bool 300 ((time_time Script.platform (env Script.world_odd_info)).1
                  - last_full_info_time (self Script.world_odd_info)) = true
  ∧ last_full_info_time (self (_heartbeat_loop Script.platform Script.world_odd_info).2)
    = 0%Q
  ∧ log (_heartbeat_loop Script.platform Script.world_odd_info).2
    = [EvPrint "Heartbeat failed: " (Some TypeError);
       EvTimerStart {| timer_id := 0; timer_interval := 60;
                       timer_callback := HeartbeatTask |}]
  ∧ heartbeat_requests (log (_heartbeat_loop Script.platform Script.world_odd_info).2)
    = [].
Proof. by vm_compute. Qed.

(** * Further properties *)

(** ** The credential store, continued *)

Module StoreMore.
Import EnrollmentStore.

Lemma filesystem_eq (a b : filesystem) :
  fs_umask a = fs_umask b → fs_dirs a = fs_dirs b → fs_files a = fs_files b → a = b.
Proof. destruct a, b; simpl; by intros -> -> ->. Qed.

Lemma data_dir_exists_after_save (record : dict) (fs : filesystem) :
  os_path_exists DATA_DIR (save_enrollment_data record fs) = true.
Proof.
  unfold save_enrollment_data, os_chmod, write_json, os_path_exists. simpl.
  unfold ensure_data_dir.
  destruct (os_path_exists DATA_DIR fs) eqn:Hex; simpl.
  - unfold os_path_exists in Hex. apply orb_true_iff in Hex as [Hd|Hf].
    + by rewrite Hd.
    + apply orb_true_iff. right. apply bool_decide_eq_true.
      apply bool_decide_eq_true in Hf.
      rewrite lookup_alter_ne, lookup_insert_ne, lookup_alter_ne, lookup_insert_ne by done.
      done.
  - apply orb_true_iff. left. apply bool_decide_eq_true. set_solver.
Qed.

Lemma save_files (record : dict) (fs : filesystem) (p : string) :
  fs_files (save_enrollment_data record fs) !! p =
    if bool_decide (p = ENROLLMENT_PATH) then
      Some {| f_content := Json (JDict {[ "instanceId" := get record "instanceId";
                                          "grpcServerUrl" := get record "grpcServerUrl" ]});
              f_mode := mode_0o644 |}
    else if bool_decide (p = CREDENTIALS_PATH) then
      Some {| f_content := Json (JDict {[ "instanceId" := get record "instanceId";
                                          "token" := get record "token" ]});
              f_mode := mode_0o600 |}
    else fs_files fs !! p.
Proof.
  unfold save_enrollment_data, os_chmod, write_json. simpl.
  case_bool_decide as H1; [subst p|case_bool_decide as H2; [subst p|]].
  - by rewrite lookup_alter_eq, lookup_insert_eq.
  - rewrite lookup_alter_ne, lookup_insert_ne by done.
    by rewrite lookup_alter_eq, lookup_insert_eq.
  - rewrite lookup_alter_ne, lookup_insert_ne, lookup_alter_ne, lookup_insert_ne by done.
    unfold ensure_data_dir. by destruct (negb _).
Qed.

Lemma save_dirs (record : dict) (fs : filesystem) :
  fs_dirs (save_enrollment_data record fs) = fs_dirs (ensure_data_dir fs).
Proof. done. Qed.

Lemma save_umask (record : dict) (fs : filesystem) :
  fs_umask (save_enrollment_data record fs) = fs_umask fs.
Proof.
  unfold save_enrollment_data, os_chmod, write_json, ensure_data_dir. simpl.
  by destruct (negb _).
Qed.

End StoreMore.

(** X3. A save overwrites all that an earlier save wrote: saving [r1]
    and then [r2] leaves the file system as saving [r2] alone does.  In
    particular saving is idempotent. *)
Theorem store_last_save_wins (r1 r2 : dict) (fs : filesystem) :
  EnrollmentStore.save_enrollment_data r2 (EnrollmentStore.save_enrollment_data r1 fs) = EnrollmentStore.save_enrollment_data r2 fs.
Proof.
  apply StoreMore.filesystem_eq.
  - by rewrite !StoreMore.save_umask.
  - rewrite !StoreMore.save_dirs. unfold ensure_data_dir at 1.
    by rewrite StoreMore.data_dir_exists_after_save.
  - apply map_eq. intros p. rewrite !StoreMore.save_files.
    by repeat case_bool_decide.
Qed.

(** X1. Loading after a save gives exactly three keys, [instanceId],
    [grpcServerUrl] and [token], each with the value the saved record
    had ([None] for a key the record lacked); the token comes back,
    every other key of the record is dropped. *)
Theorem store_roundtrip_exact (record : dict) (fs : filesystem) :
  EnrollmentStore.load_enrollment_data (EnrollmentStore.save_enrollment_data record fs)
  = Some {[ "instanceId" := get record "instanceId";
            "grpcServerUrl" := get record "grpcServerUrl";
            "token" := get record "token" ]}.
Proof. apply StoreFacts.load_after_save. Qed.

(** X2. After a save, whatever the umask and whatever was there
    before: the credentials file holds [instanceId] and [token] and has
    mode 0o600; the enrollment file holds [instanceId] and
    [grpcServerUrl] and has mode 0o644; and [/data] exists. *)
Theorem store_saved_files (record : dict) (fs : filesystem) :
  let fs' := EnrollmentStore.save_enrollment_data record fs in
  fs_files fs' !! CREDENTIALS_PATH
    = Some {| f_content := Json (JDict {[ "instanceId" := get record "instanceId";
                                          "token" := get record "token" ]});
              f_mode := mode_0o600 |}
  ∧ fs_files fs' !! ENROLLMENT_PATH
    = Some {| f_content := Json (JDict {[ "instanceId" := get record "instanceId";
                                          "grpcServerUrl" := get record "grpcServerUrl" ]});
              f_mode := mode_0o644 |}
  ∧ os_path_exists DATA_DIR fs' = true.
Proof.
  intros fs'. subst fs'. rewrite !StoreMore.save_files. simpl.
  split; [done|]. split; [done|]. apply StoreMore.data_dir_exists_after_save.
Qed.

(** X4. A save touches its two files only: every other path holds what
    it held, the umask stays, no directory disappears and none but
    [/data] appears. *)
Theorem store_save_leaves_other_files (record : dict) (fs : filesystem) (p : string) :
  p ≠ CREDENTIALS_PATH → p ≠ ENROLLMENT_PATH →
  let fs' := EnrollmentStore.save_enrollment_data record fs in
  fs_files fs' !! p = fs_files fs !! p
  ∧ fs_umask fs' = fs_umask fs
  ∧ fs_dirs fs ⊆ fs_dirs fs'
  ∧ fs_dirs fs' ⊆ {[DATA_DIR]} ∪ fs_dirs fs.
Proof.
  intros H1 H2 fs'. subst fs'. rewrite StoreMore.save_files, StoreMore.save_umask.
  rewrite !bool_decide_eq_false_2 by done.
  split; [done|]. split; [done|]. rewrite StoreMore.save_dirs.
  unfold ensure_data_dir. destruct (negb _); simpl; set_solver.
Qed.

(** X4 at work: the add-on options next to the two files. *)
Lemma store_save_leaves_other_files_witness :
  fs_files (EnrollmentStore.save_enrollment_data Script.record0
              {| fs_umask := 18; fs_dirs := ∅;
                 fs_files := {[ "/data/options.json" :=
                                  {| f_content := NotJson; f_mode := mode_0o644 |} ]} |})
    !! "/data/options.json"
  = Some {| f_content := NotJson; f_mode := mode_0o644 |}.
Proof.
  refine (proj1 (store_save_leaves_other_files Script.record0 _
                   "/data/options.json" _ _)); by vm_compute.
Defined.

(** X5. [load_enrollment_data] returns a record exactly when both files
    hold a JSON object and the object of the enrollment file has the key
    [instanceId]; the record is that object with [token] set to the
    token of the credentials file ([None] if it has none).  So a [token]
    in the enrollment file is overridden and an [instanceId] in the
    credentials file is ignored.  In every other case the result is
    [None]. *)
Theorem store_load_some_iff (fs : filesystem) (d : dict) :
  EnrollmentStore.load_enrollment_data fs = Some d ↔
  ∃ md cr m1 m2,
    fs_files fs !! ENROLLMENT_PATH = Some {| f_content := Json (JDict md); f_mode := m1 |}
    ∧ fs_files fs !! CREDENTIALS_PATH = Some {| f_content := Json (JDict cr); f_mode := m2 |}
    ∧ is_Some (md !! "instanceId")
    ∧ d = <["token" := get cr "token"]> md.
Proof.
  unfold EnrollmentStore.load_enrollment_data, os_path_exists, read_json. split.
  - destruct (negb _ || negb _); [done|].
    destruct (fs_files fs !! ENROLLMENT_PATH) as [[[[md| |]|] m1]|];
      destruct (fs_files fs !! CREDENTIALS_PATH) as [[[[cr| |]|] m2]|];
      simpl; try done.
    destruct (_ !! "instanceId") eqn:Hid; [|done]. simpl.
    intros [= <-]. exists md, cr, m1, m2.
    split; [done|]. split; [done|]. split; [|done].
    rewrite lookup_insert_ne in Hid by done. by eexists.
  - intros (md & cr & m1 & m2 & -> & -> & [v Hid] & ->). simpl.
    rewrite !orb_true_r. simpl.
    rewrite lookup_insert_ne by done. by rewrite Hid.
Qed.


(** ** The address and the channel *)

Module TextFacts.

Lemma append_empty (t : string) : "" +:+ t = t.
Proof. reflexivity. Qed.

Lemma append_String (c : ascii) (r t : string) : String c r +:+ t = String c (r +:+ t).
Proof. reflexivity. Qed.

Lemma rstrip_slash_split (s : string) :
  ∃ t, s = rstrip_slash s +:+ t
       ∧ Forall (λ a, a = "/"%char) (list_ascii_of_string t).
Proof.
  induction s as [|c r (t & Ht & Hall)]; [by exists ""|].
  simpl. destruct (rstrip_slash r) as [|c' r'] eqn:Hr.
  - rewrite append_empty in Ht. subst t. destruct (Ascii.eqb c "/") eqn:Hc.
    + apply Ascii.eqb_eq in Hc. subst c. exists (String "/" r). split; [done|].
      by constructor.
    + by exists r.
  - exists t. split; [|done]. rewrite append_String. by rewrite <- Ht.
Qed.

Lemma rstrip_slash_end (s r : string) : rstrip_slash s ≠ r +:+ "/".
Proof.
  revert r. induction s as [|c s IH]; intros r.
  - by destruct r.
  - simpl. destruct (rstrip_slash s) as [|c' r'] eqn:Hr.
    + destruct (Ascii.eqb c "/") eqn:Hc; [by destruct r|].
      apply Ascii.eqb_neq in Hc.
      destruct r as [|a [|b r]]; rewrite ?append_String, ?append_empty; congruence.
    + destruct r as [|a r]; rewrite ?append_String, ?append_empty; [congruence|].
      intros [= -> H]. by apply (IH r).
Qed.

Lemma rsplit_colon_some (s host port_str : string) :
  rsplit_colon s = Some (host, port_str) →
  s = host +:+ ":" +:+ port_str
  ∧ Forall (λ a, a ≠ ":"%char) (list_ascii_of_string port_str).
Proof.
  revert host. induction s as [|c r IH]; intros host; [done|].
  simpl. destruct (rsplit_colon r) as [[h p]|] eqn:Hr.
  - intros [= <- <-]. destruct (IH h eq_refl) as [-> Hall]. done.
  - destruct (Ascii.eqb c ":") eqn:Hc; [|done].
    apply Ascii.eqb_eq in Hc. intros [= <- <-]. split; [by subst c|].
    clear IH. induction r as [|a r IH]; [constructor|].
    simpl in Hr. destruct (rsplit_colon r) as [[h p]|]; [done|].
    destruct (Ascii.eqb a ":") eqn:Ha; [done|].
    apply Ascii.eqb_neq in Ha. constructor; [done|]. by apply IH.
Qed.

Lemma rsplit_colon_none (s : string) :
  rsplit_colon s = None ↔ Forall (λ a, a ≠ ":"%char) (list_ascii_of_string s).
Proof.
  induction s as [|c r IH]; simpl; [by split; [constructor|]|].
  destruct (rsplit_colon r) as [[h p]|].
  - split; [done|]. intros H. apply Forall_cons in H as [_ H].
    by apply IH in H.
  - destruct (Ascii.eqb c ":") eqn:Hc.
    + apply Ascii.eqb_eq in Hc. split; [done|].
      intros H. apply Forall_cons in H as [H _]. done.
    + apply Ascii.eqb_neq in Hc. split; [|done]. intros _.
      constructor; [done|]. by apply IH.
Qed.

End TextFacts.

(** X6. The address a new client keeps is the given one without its
    trailing slashes: the two differ by a run of slashes at the end, the
    kept address does not end in a slash, and it is empty exactly when
    the given one consists of slashes only. *)
Theorem init_strips_trailing_slashes (P : Platform) (url code : string)
    (skip : bool) (ca : option string) (e : Env P) :
  let c := (OmniiGrpcClient_init P url code skip ca e).1 in
  (∃ t, url = server_url c +:+ t
        ∧ Forall (λ a, a = "/"%char) (list_ascii_of_string t))
  ∧ (∀ r, server_url c ≠ r +:+ "/")
  ∧ (server_url c = "" ↔ Forall (λ a, a = "/"%char) (list_ascii_of_string url)).
Proof.
  intros c. assert (Hc : server_url c = rstrip_slash url).
  { subst c. unfold OmniiGrpcClient_init. by destruct (time_time P e). }
  rewrite Hc. split; [apply TextFacts.rstrip_slash_split|].
  split; [intros r; apply TextFacts.rstrip_slash_end|].
  destruct (TextFacts.rstrip_slash_split url) as (t & Ht & Hall). split.
  - intros H0. rewrite H0, TextFacts.append_empty in Ht. by subst t.
  - intros Hurl. destruct (rstrip_slash url) as [|a r] eqn:Hr; [done|].
    exfalso. clear Ht Hall t c Hc.
    revert a r Hr. induction url as [|b u IH]; intros a r; [done|].
    apply Forall_cons in Hurl as [-> Hu]. simpl.
    destruct (rstrip_slash u) as [|a' r'] eqn:Hru; [done|].
    by destruct (IH Hu a' r').
Qed.

(** X7. [_create_channel] returns an insecure channel only if
    [tls_skip_verify] is set, no CA file is configured, and the
    handshake with the host and port of the address raised.  Every other
    channel it returns is a secure channel to the given address, whose
    name override options are present exactly when [tls_skip_verify] is
    set. *)
Theorem insecure_only_after_failed_probe (P : Platform) (w : World P)
    (url : pyval) (ch : Channel) :
  (_create_channel P url w).1 = Normal ch →
  match ch with
  | insecure_channel target =>
      url = PStr target
      ∧ tls_skip_verify (self w) = true
      ∧ nonempty (tls_ca_cert (self w)) = false
      ∧ ∃ host port_str port e,
          rsplit_colon target = Some (host, port_str)
          ∧ py_int P port_str = Some port
          ∧ (fetch_peer_cert P host port (env w)).1 = inl e
  | secure_channel target roots options =>
      url = PStr target
      ∧ options = (if tls_skip_verify (self w) then tofu_options else [])
  end.
Proof.
  unfold _create_channel. ClientFacts.munfold. simpl.
  destruct (nonempty (tls_ca_cert (self w))) eqn:Hca; simpl.
  - destruct (read_binary P _ (env w)) as [[e|data] e1]; simpl; [done|].
    destruct (tls_skip_verify (self w)); simpl;
      destruct url; simpl; try done; by intros [= <-].
  - destruct (tls_skip_verify (self w)) eqn:Hskip; simpl.
    2:{ destruct url; simpl; try done. by intros [= <-]. }
    destruct url as [| | |target]; simpl; try done.
    destruct (rsplit_colon target) as [[host port_str]|] eqn:Hsplit; simpl; [|done].
    destruct (py_int P port_str) as [port|] eqn:Hport; simpl; [|done].
    destruct (fetch_peer_cert P host port (env w)) as [[e|der] e1] eqn:Hfetch; simpl.
    + intros [= <-]. do 3 (split; [done|]). exists host, port_str, port, e.
      by rewrite Hfetch.
    + destruct (nonempty der); simpl; by intros [= <-].
Qed.

(** X7 at work: the handshake with the endpoint fails, and the channel
    is insecure. *)
Lemma insecure_only_after_failed_probe_witness :
  tls_skip_verify (self (Script.world_tofu (inl OSError))) = true
  ∧ nonempty (tls_ca_cert (self (Script.world_tofu (inl OSError)))) = false.
Proof.
  pose proof (insecure_only_after_failed_probe Script.platform
                (Script.world_tofu (inl OSError)) (PStr "10.0.0.1:50051")
                (insecure_channel "10.0.0.1:50051") eq_refl) as H.
  simpl in H. destruct H as (_ & Hskip & Hca & _).
  split; [exact Hskip|exact Hca].
Defined.




(** X8. With a CA file configured, [_create_channel] reads the file
    and nothing else: if reading raises, it prints a message and raises
    the same exception; otherwise the channel is a secure channel whose
    root certificates are the bytes read, with the name override options
    exactly when [tls_skip_verify] is set.  The endpoint is not
    probed. *)
Theorem ca_file_is_the_only_root (P : Platform) (w : World P) (url : pyval)
    (path : string) :
  tls_ca_cert (self w) = Some path → path ≠ "" →
  let read := read_binary P path (env w) in
  _create_channel P url w =
    match read.1 with
    | inl e =>
        (Raised e,
         with_log (log w ++ [EvPrint "Failed to read TLS CA cert: " (Some e)])
           (with_env read.2 w))
    | inr data =>
        match url with
        | PStr target =>
            (Normal (secure_channel target (Some data)
                       (if tls_skip_verify (self w) then tofu_options else [])),
             with_env read.2 w)
        | _ => (Raised TypeError, with_env read.2 w)
        end
    end.
Proof.
  intros Hca Hne read. subst read.
  unfold _create_channel. ClientFacts.munfold. simpl.
  rewrite Hca. simpl. rewrite bool_decide_eq_false_2 by done. simpl.
  destruct (read_binary P path (env w)) as [[e|data] e1]; simpl; [done|].
  destruct (tls_skip_verify (self w)); simpl; by destruct url.
Qed.

(** X8 at work: the CA file holds the bytes "CA". *)
Lemma ca_file_is_the_only_root_witness :
  _create_channel Steady.platform (PStr "10.0.0.1:50051")
    (Steady.fresh true (Some "/ssl/ca.pem"))
  = (Normal (secure_channel "10.0.0.1:50051" (Some "CA") tofu_options),
     Steady.fresh true (Some "/ssl/ca.pem")).
Proof.
  exact (ca_file_is_the_only_root Steady.platform
           (Steady.fresh true (Some "/ssl/ca.pem")) (PStr "10.0.0.1:50051")
           "/ssl/ca.pem" eq_refl ltac:(discriminate)).
Defined.


(** X9. With [tls_skip_verify] set and no CA file: either the address
    has no colon, or the text after its last colon is not a number,
    and then [_create_channel] raises ValueError and leaves everything
    as it was; or the endpoint probed is the host before the last colon
    and the port after it, the first thing logged, and a channel is
    returned. *)
Theorem probe_address (P : Platform) (w : World P) (target : string) :
  tls_skip_verify (self w) = true → nonempty (tls_ca_cert (self w)) = false →
  _create_channel P (PStr target) w = (Raised ValueError, w)
  ∨ ∃ host port_str port ch evs,
      target = host +:+ ":" +:+ port_str
      ∧ Forall (λ a, a ≠ ":"%char) (list_ascii_of_string port_str)
      ∧ py_int P port_str = Some port
      ∧ (_create_channel P (PStr target) w).1 = Normal ch
      ∧ log (_create_channel P (PStr target) w).2 = log w ++ EvProbe host port :: evs.
Proof.
  intros Hskip Hca.
  unfold _create_channel. ClientFacts.munfold. simpl.
  rewrite Hca, Hskip. simpl.
  destruct (rsplit_colon target) as [[host port_str]|] eqn:Hsplit; simpl; [|by left].
  destruct (py_int P port_str) as [port|] eqn:Hport; simpl; [|by left].
  right. apply TextFacts.rsplit_colon_some in Hsplit as [Ht Hall].
  exists host, port_str, port.
  destruct (fetch_peer_cert P host port (env w)) as [[e|der] e1]; simpl.
  - eexists _, _. do 4 (split; [done|]). by rewrite <- !app_assoc.
  - destruct (nonempty der); simpl.
    + eexists _, _. do 4 (split; [done|]). by rewrite <- !app_assoc.
    + eexists _, []. by do 4 (split; [done|]).
Qed.

(** X9 at work: an address without a port. *)
Lemma probe_address_witness :
  _create_channel Script.platform (PStr "omnii.local")
    (Script.world_tofu (inr None))
  = (Raised ValueError, Script.world_tofu (inr None)).
Proof.
  destruct (probe_address Script.platform (Script.world_tofu (inr None))
              "omnii.local" eq_refl eq_refl) as [H|H]; [exact H|].
  exfalso. destruct H as (? & ? & ? & ? & ? & _ & _ & _ & H & _). discriminate H.
Defined.


(** ** Enrollment *)

Module EnrollFacts.
Section Facts.
Context (P : Platform).
Implicit Types (w : World P).

Lemma enroll_eq w :
  let url := server_url (self w) in
  let rq := {| enroll_code := enrollment_code (self w) |} in
  let w0 := with_log (log w ++ [EvPrint ("Enrolling with gRPC server at "
                                         +:+ url +:+ "...") None]) w in
  enroll P w =
    match _create_channel P (PStr url) w0 with
    | (Raised e, w1) => (Normal false, with_log (log w1 ++ [enroll_failed e]) w1)
    | (Normal ch, w1) =>
        let w2 := with_log (log w1 ++ [EvRpc Enroll ch rq 10 None]) w1 in
        match stub_call P Enroll ch rq 10 None (env w1) with
        | (RpcFail code details, e2) =>
            (Normal false,
             with_log (log w2 ++ [enroll_failed (RpcError code details)]) (with_env e2 w2))
        | (RpcOk response, e2) =>
            if enroll_success response then
              let d := enrolled_record response url in
              (Normal true,
               {| self := set_enrollment_data (Some d) (self w1); env := e2;
                  store := save_enrollment_data P d (store w1);
                  timers := timers w1; timer_seq := timer_seq w1;
                  log := log w2 ++ [EvPrint ("Enrolled successfully. Instance ID: "
                                             +:+ enroll_instance_id response) None;
                                    EvSave d] |})
            else
              (Normal false,
               with_log (log w2 ++ [EvPrint ("Enrollment failed: "
                                             +:+ enroll_error response) None])
                 (with_env e2 w2))
        end
    end.
Proof.
  intros url rq w0. subst url rq w0.
  destruct (ClientFacts.create_channel_frame P (PStr (server_url (self w)))
              (with_log (log w ++ [EvPrint ("Enrolling with gRPC server at "
                                            +:+ server_url (self w) +:+ "...") None]) w))
    as (Hself & _).
  unfold enroll. ClientFacts.munfold. simpl.
  unfold with_log in *. simpl in *.
  destruct (_create_channel P _ _) as [[ch|e] w1]; simpl in *.
  2:{ by destruct e. }
  destruct (stub_call P Enroll ch _ 10 None (env w1)) as [[resp|code details] e2];
    simpl; [|done].
  destruct (enroll_success resp); simpl; [|done].
  unfold enrolled_record. rewrite Hself. by rewrite <- !app_assoc.
Qed.

Lemma enroll_failed_print e : ∃ msg exc, enroll_failed e = EvPrint msg exc.
Proof. destruct e; by eexists _, _. Qed.

Lemma auth_call_count_print msg exc : auth_call_count [EvPrint msg exc] = 0%nat.
Proof. done. Qed.

Lemma auth_call_count_plain m ch (rq : request m) timeout :
  auth_call_count [EvRpc m ch rq timeout None] = 0%nat.
Proof. done. Qed.

Lemma auth_call_count_save d : auth_call_count [EvSave d] = 0%nat.
Proof. done. Qed.

Lemma rpc_count_print m msg exc : rpc_count m [EvPrint msg exc] = 0%nat.
Proof. done. Qed.

Lemma rpc_count_save m d : rpc_count m [EvSave d] = 0%nat.
Proof. done. Qed.

Lemma rpc_count_rpc m m' ch (rq : request m') timeout md :
  rpc_count m [EvRpc m' ch rq timeout md] = if bool_decide (m' = m) then 1%nat else 0%nat.
Proof.
  unfold rpc_count. rewrite filter_cons. simpl.
  destruct (decide (m' = m)) as [Hm|Hm].
  - rewrite !bool_decide_eq_true_2 by done. by rewrite decide_True.
  - rewrite !bool_decide_eq_false_2 by done. by rewrite decide_False.
Qed.

Lemma saved_app l1 l2 : saved (l1 ++ l2) = saved l1 ++ saved l2.
Proof. apply omap_app. Qed.

Lemma create_channel_events url w :
  let w1 := (_create_channel P url w).2 in
  self w1 = self w ∧ store w1 = store w ∧ timers w1 = timers w
  ∧ timer_seq w1 = timer_seq w
  ∧ ∃ evs, log w1 = log w ++ evs ∧ Forall (λ e, is_channel_event e = true) evs.
Proof.
  unfold _create_channel. ClientFacts.munfold. simpl.
  repeat (match goal with
          | |- context [match ?x with _ => _ end] =>
              lazymatch x with
              | context [match _ with _ => _ end] => fail
              | _ => destruct x eqn:?
              end
          | |- context [if ?x then _ else _] =>
              lazymatch x with
              | context [match _ with _ => _ end] => fail
              | context [if _ then _ else _] => fail
              | _ => destruct x eqn:?
              end
          end; simpl);
    (do 4 (split; [done|]));
    rewrite <- ?app_assoc; simpl;
    first [ by exists []; rewrite app_nil_r
          | eexists; split; [reflexivity|]; by repeat constructor ].
Qed.

Lemma channel_events_counts evs :
  Forall (λ e, is_channel_event e = true) evs →
  saved evs = [] ∧ auth_call_count evs = 0%nat
  ∧ ∀ m, rpc_count m evs = 0%nat.
Proof.
  unfold saved, auth_call_count, rpc_count.
  induction 1 as [|e evs He _ (IH1 & IH2 & IH3)]; [done|].
  by destruct e.
Qed.

End Facts.
End EnrollFacts.

(** X10. [enroll] returns a boolean whatever happens: it does not
    raise.  Of the client object it changes [enrollment_data] at most;
    it leaves the timers alone, calls [Enroll] at most once and no
    other method, and makes no authenticated call. *)
Theorem enroll_never_raises (P : Platform) (w : World P) :
  let w' := (enroll P w).2 in
  (∃ b, (enroll P w).1 = Normal b)
  ∧ self w' = set_enrollment_data (enrollment_data (self w')) (self w)
  ∧ timers w' = timers w
  ∧ auth_call_count (log w') = auth_call_count (log w)
  ∧ (∀ m, m ≠ Enroll → rpc_count m (log w') = rpc_count m (log w))
  ∧ (rpc_count Enroll (log w') ≤ S (rpc_count Enroll (log w)))%nat.
Proof.
  intros w'. subst w'. rewrite EnrollFacts.enroll_eq.
  match goal with
  | |- context [_create_channel P ?u ?w0] =>
      destruct (EnrollFacts.create_channel_events P u w0)
        as (Hself & _ & Htimers & _ & evs & Hlog & Hevs);
      destruct (_create_channel P u w0) as [[ch|e] w1]
  end; simpl in *;
    apply EnrollFacts.channel_events_counts in Hevs as (_ & Hauth & Hrpc).
  2:{ destruct (EnrollFacts.enroll_failed_print e) as (msg & exc & ->).
      split; [by eexists|]. rewrite Hself, Htimers, Hlog.
      split; [by destruct (self w)|]. split; [done|].
      rewrite !ClientFacts.auth_call_count_app, Hauth.
      rewrite !EnrollFacts.auth_call_count_print.
      split; [lia|]. split.
      - intros m _. rewrite !ClientFacts.rpc_count_app, Hrpc.
        rewrite !EnrollFacts.rpc_count_print. lia.
      - rewrite !ClientFacts.rpc_count_app, Hrpc.
        rewrite !EnrollFacts.rpc_count_print. lia. }
  assert (Hcount :
    ∀ tail, auth_call_count tail = 0%nat → (∀ m, rpc_count m tail = 0%nat) →
      let l := (log w1 ++ [EvRpc Enroll ch {| enroll_code := enrollment_code (self w) |}
                             10 None]) ++ tail in
      auth_call_count l = auth_call_count (log w)
      ∧ (∀ m, m ≠ Enroll → rpc_count m l = rpc_count m (log w))
      ∧ (rpc_count Enroll l ≤ S (rpc_count Enroll (log w)))%nat).
  { intros tail Ha Hr l. subst l. rewrite Hlog.
    rewrite !ClientFacts.auth_call_count_app, Hauth, Ha.
    rewrite EnrollFacts.auth_call_count_print, EnrollFacts.auth_call_count_plain.
    split; [lia|]. split.
    - intros m Hm. rewrite !ClientFacts.rpc_count_app, Hrpc, Hr.
      rewrite EnrollFacts.rpc_count_print, EnrollFacts.rpc_count_rpc.
      rewrite bool_decide_eq_false_2 by done. lia.
    - rewrite !ClientFacts.rpc_count_app, !Hrpc, Hr.
      rewrite EnrollFacts.rpc_count_print, EnrollFacts.rpc_count_rpc.
      rewrite bool_decide_eq_true_2 by done. lia. }
  destruct (stub_call P Enroll ch _ 10 None (env w1)) as [[resp|code details] e2];
    simpl; [destruct (enroll_success resp)|]; simpl;
    (split; [by eexists|]); rewrite Hself, Htimers;
    (split; [by destruct (self w)|]); (split; [done|]);
    by apply Hcount.
Qed.

(** X11. With a store whose save does not raise, [enroll] returns
    [True] exactly when the channel could be built and the server
    answered with [success].  Then the client holds the record made of
    the response and its own address, and that record has been given to
    the store, once.  In every other case the client object, the store
    and the saved records are as before. *)
Theorem enroll_commits_on_success (P : Platform) (w : World P) :
  let url := server_url (self w) in
  let rq := {| enroll_code := enrollment_code (self w) |} in
  let w0 := with_log (log w ++ [EvPrint ("Enrolling with gRPC server at "
                                         +:+ url +:+ "...") None]) w in
  let r := (enroll P w).1 in
  let w' := (enroll P w).2 in
  let accepted ch w1 resp :=
    _create_channel P (PStr url) w0 = (Normal ch, w1)
    ∧ (stub_call P Enroll ch rq 10 None (env w1)).1 = RpcOk resp
    ∧ enroll_success resp = true in
  (∀ ch w1 resp, accepted ch w1 resp →
     let d := enrolled_record resp url in
     r = Normal true
     ∧ enrollment_data (self w') = Some d
     ∧ store w' = save_enrollment_data P d (store w)
     ∧ saved (log w') = saved (log w) ++ [d])
  ∧ (r = Normal true → ∃ ch w1 resp, accepted ch w1 resp)
  ∧ (r ≠ Normal true →
     self w' = self w ∧ store w' = store w ∧ saved (log w') = saved (log w)).
Proof.
  intros url rq w0 r w' accepted. subst r w' accepted.
  rewrite EnrollFacts.enroll_eq. fold url rq w0.
  destruct (EnrollFacts.create_channel_events P (PStr url) w0)
    as (Hself & Hstore & _ & _ & evs & Hlog & Hevs).
  apply EnrollFacts.channel_events_counts in Hevs as (Hsaved & _ & _).
  assert (Hs1 : saved (log (_create_channel P (PStr url) w0).2) = saved (log w)).
  { rewrite Hlog. unfold w0. simpl. rewrite !EnrollFacts.saved_app, Hsaved. simpl.
    by rewrite !app_nil_r. }
  destruct (_create_channel P (PStr url) w0) as [[ch|e] w1]; simpl in *.
  2:{ destruct (EnrollFacts.enroll_failed_print e) as (msg & exc & ->).
      split; [by intros ch w1' resp ([=] & _)|]. split; [done|]. intros _.
      rewrite EnrollFacts.saved_app, Hs1. simpl. by rewrite app_nil_r. }
  destruct (stub_call P Enroll ch rq 10 None (env w1)) as [[resp|code details] e2]
    eqn:Hreply; simpl; [destruct (enroll_success resp) eqn:Hok|]; simpl.
  - split; [|split; [|done]].
    + intros ch' w1' resp' ([= <- <-] & Hcall & _).
      rewrite Hreply in Hcall. injection Hcall as <-. rewrite Hstore.
      do 3 (split; [done|]). rewrite !EnrollFacts.saved_app, Hs1. simpl.
      by rewrite app_nil_r.
    + intros _. exists ch, w1, resp. by rewrite Hreply.
  - split; [|split; [done|]].
    + intros ch' w1' resp' ([= <- <-] & Hcall & Hok').
      rewrite Hreply in Hcall. injection Hcall as <-. congruence.
    + intros _. rewrite !EnrollFacts.saved_app, Hs1. simpl. by rewrite !app_nil_r.
  - split; [|split; [done|]].
    + intros ch' w1' resp' ([= <- <-] & Hcall & _).
      rewrite Hreply in Hcall. done.
    + intros _. rewrite !EnrollFacts.saved_app, Hs1. simpl. by rewrite !app_nil_r.
Qed.

Lemma enrolled_record_lookup (resp : EnrollResponse) (url : string) :
  let d := enrolled_record resp url in
  d ≠ ∅
  ∧ get d "instanceId" = PStr (enroll_instance_id resp)
  ∧ get d "accessToken" = PStr (enroll_access_token resp)
  ∧ get d "refreshToken" = PStr (enroll_refresh_token resp)
  ∧ get d "accessTokenExpiresAt" = PInt (enroll_access_token_expires_at resp)
  ∧ ∀ dflt, get_or d "grpcServerUrl" dflt = PStr url.
Proof.
  unfold enrolled_record, get, get_or. split.
  - intros H. apply (f_equal (λ m : dict, m !! "instanceId")) in H.
    by rewrite lookup_insert_eq in H.
  - by simplify_map_eq.
Qed.

(** X12. What [enroll] stores is what [connect_and_handshake] reads.
    After an enrollment that returned [True], [connect_and_handshake]
    builds the channel to the client's own address, takes the access
    token, the refresh token and the expiry of the enrollment response,
    returns [False] with the message about the missing refresh token
    if the response had none, and otherwise returns what the token check
    gives. *)
Theorem connect_after_enroll (P : Platform) (w we : World P) :
  enroll P w = (Normal true, we) →
  let url := server_url (self w) in
  let wc0 := with_log (log we ++ [EvPrint ("Connecting to gRPC server at "
                                           +:+ url +:+ "...") None]) we in
  ∃ ch0 w1 resp,
    (stub_call P Enroll ch0 {| enroll_code := enrollment_code (self w) |} 10 None
       (env w1)).1 = RpcOk resp
    ∧ enrollment_data (self we) = Some (enrolled_record resp url)
    ∧ connect_and_handshake P we =
        match _create_channel P (PStr url) wc0 with
        | (Raised e, w2) => (Raised e, w2)
        | (Normal ch, w2) =>
            let w3 :=
              with_self
                (set_access_token_expires_at (PInt (enroll_access_token_expires_at resp))
                   (set_refresh_token (PStr (enroll_refresh_token resp))
                      (set_access_token (PStr (enroll_access_token resp))
                         (set_stub (Some ch) (set_channel (Some ch) (self w2))))))
                w2 in
            if bool_decide (enroll_refresh_token resp = "") then
              (Normal false,
               with_log (log w3 ++ [EvPrint "Missing refresh token. Please re-enroll." None]) w3)
            else
              match _ensure_access_token P w3 with
              | (Raised e, w4) => (Raised e, w4)
              | (Normal false, w4) =>
                  (Normal false,
                   with_log (log w4 ++ [EvPrint "Failed to refresh access token." None]) w4)
              | (Normal true, w4) =>
                  (Normal true, with_self (set_running true (self w4)) w4)
              end
        end.
Proof.
  intros Henroll url wc0.
  pose proof (EnrollFacts.enroll_eq P w) as Heq. cbv zeta in Heq. fold url in Heq.
  rewrite Henroll in Heq.
  match type of Heq with
  | context [_create_channel P ?u ?w0] =>
      destruct (EnrollFacts.create_channel_events P u w0) as (Hself & _);
      destruct (_create_channel P u w0) as [[ch0|e] w1]; [|done]
  end. simpl in Hself.
  destruct (stub_call P Enroll ch0 _ 10 None (env w1)) as [[resp|code details] e2]
    eqn:Hreply; [|done].
  destruct (enroll_success resp); [|done].
  injection Heq as Hwe. exists ch0, w1, resp.
  rewrite Hreply. split; [done|].
  assert (Hd : enrollment_data (self we) = Some (enrolled_record resp url))
    by by subst we.
  assert (Hurl : server_url (self we) = url).
  { subst we. simpl. by rewrite Hself. }
  split; [done|].
  destruct (enrolled_record_lookup resp url) as (Hne & _ & Ha & Hr & Hx & Hu).
  rewrite (ClientFacts.connect_eq P we _ Hd Hne).
  rewrite Hu, Ha, Hr, Hx. change (py_str (PStr url)) with url. fold wc0.
  destruct (_create_channel P (PStr url) wc0) as [[ch|e] w2]; [|done].
  cbv zeta. simpl. by rewrite negb_involutive.
Qed.

(** X12 at work: enrollment on a server that accepts the code. *)
Lemma connect_after_enroll_witness :
  ∃ resp,
    enrollment_data (self (enroll Steady.platform (Steady.fresh false None)).2)
    = Some (enrolled_record resp "10.0.0.1:50051").
Proof.
  destruct (connect_after_enroll Steady.platform (Steady.fresh false None)
              (enroll Steady.platform (Steady.fresh false None)).2 eq_refl)
    as (ch0 & w1 & resp & _ & Hd & _).
  exists resp. exact Hd.
Defined.



(** ** What a send changes *)

Module SendFacts.
Section Facts.
Context (P : Platform).
Implicit Types (w : World P) (c : OmniiGrpcClient) (evs : list event).

Lemma token_send_step w w' evs :
  token_step w w' evs → send_step (running (self w)) w w' evs.
Proof.
  intros (a & r & x & d & e & s & ->).
  exists a, r, x, d, (last_full_info_time (self w)), e, s. by destruct (self w).
Qed.

Lemma send_step_refl w : send_step (running (self w)) w w [].
Proof. apply token_send_step, ClientFacts.token_step_refl. Qed.

Lemma send_step_trans run1 run2 w1 w2 w3 evs1 evs2 :
  send_step run1 w1 w2 evs1 → send_step run2 w2 w3 evs2 →
  send_step run2 w1 w3 (evs1 ++ evs2).
Proof.
  intros (a & r & x & d & lf & e & s & ->) (a' & r' & x' & d' & lf' & e' & s' & ->).
  exists a', r', x', d', lf', e', s'. simpl. by rewrite app_assoc.
Qed.

Lemma send_step_print run w w' evs msg exc :
  send_step run w w' evs →
  send_step run w (with_log (log w' ++ [EvPrint msg exc]) w') (evs ++ [EvPrint msg exc]).
Proof.
  intros (a & r & x & d & lf & e & s & ->).
  exists a, r, x, d, lf, e, s. unfold with_log. simpl. by rewrite app_assoc.
Qed.

Lemma send_step_fields run w w' evs :
  send_step run w w' evs →
  running (self w') = run
  ∧ timers w' = timers w ∧ timer_seq w' = timer_seq w
  ∧ (∀ k, handle_of k (self w') = handle_of k (self w))
  ∧ stub (self w') = stub (self w) ∧ channel (self w') = channel (self w)
  ∧ log w' = log w ++ evs.
Proof.
  intros (a & r & x & d & lf & e & s & ->). simpl.
  do 3 (split; [done|]). split; [by intros []|done].
Qed.

(** A response handed back by [_call_with_auth] is one the stub gave. *)
Lemma call_with_auth_response w m ch (rq : request m) timeout resp w' :
  _call_with_auth P m ch rq timeout w = (Normal resp, w') →
  ∃ md e e', stub_call P m ch rq timeout md e = (RpcOk resp, e').
Proof.
  rewrite ClientFacts.call_with_auth_eq.
  destruct (_ensure_access_token P w) as [[[|]|e] w1]; try done.
  cbv zeta.
  destruct (stub_call P m ch rq timeout _ (env w1)) as [[a|code details] e2] eqn:H1.
  { intros [= <- _]. by eexists _, _, _. }
  destruct (bool_decide (code = UNAUTHENTICATED)); [|done].
  destruct (refresh_access_token P _) as [[[|]|e] w3]; try done.
  destruct (stub_call P m ch rq timeout _ (env w3)) as [[a|c d] e4] eqn:H2; [|done].
  intros [= <- _]. by eexists _, _, _.
Qed.

Lemma build_send_step include w :
  ∃ evs, send_step (running (self w)) w (build_heartbeat_request P include w).2 evs
         ∧ Forall (λ e, is_print e = true) evs.
Proof.
  destruct include.
  - pose proof (ClientFacts.build_full P w) as H. cbv zeta in H. rewrite H.
    destruct (attachment _) as [att|e]; simpl.
    + exists [EvPrint "Heartbeat sent with full system info" None].
      split; [|by repeat constructor].
      match goal with
      | |- send_step _ _ {| self := set_last_full_info_time ?t _; env := ?e |} _ =>
          exists (access_token (self w)), (refresh_token (self w)),
            (access_token_expires_at (self w)), (enrollment_data (self w)),
            t, e, (store w)
      end.
      by destruct (self w).
    + exists []. split; [|constructor].
      apply token_send_step, ClientFacts.with_env_token_step.
  - rewrite ClientFacts.build_minimal. simpl.
    exists ([] ++ [EvPrint "Heartbeat sent (minimal)" None]).
    split; [|by repeat constructor].
    apply (send_step_print _ w (with_env _ w) []).
    apply token_send_step, ClientFacts.with_env_token_step.
Qed.

Lemma print_call_event m ch (rq : request m) timeout evs :
  Forall (λ e, is_print e = true) evs → Forall (call_event m ch rq timeout) evs.
Proof.
  intros H. eapply Forall_impl; [exact H|]. intros [] He; try done. by left.
Qed.

Lemma heartbeat_failed_print e : ∃ msg exc, heartbeat_failed e = EvPrint msg exc.
Proof. destruct e; by eexists _, _. Qed.

Lemma send_step_stop w w' evs msg :
  send_step (running (self w)) w w' evs →
  send_step false w
    (with_self (set_running false (self (with_log (log w' ++ [EvPrint msg None]) w')))
       (with_log (log w' ++ [EvPrint msg None]) w'))
    (evs ++ [EvPrint msg None]).
Proof.
  intros (a & r & x & d & lf & e & s & ->).
  exists a, r, x, d, lf, e, s. unfold with_log, with_self. simpl.
  by rewrite app_assoc.
Qed.

(** One heartbeat: what it changes and what it logs. *)
Lemma send_heartbeat_step include w :
  ∃ run evs ch rq,
    send_step run w (send_heartbeat P include w).2 evs
    ∧ (run = running (self w) ∨ run = false)
    ∧ (run ≠ running (self w) →
       ∃ ch rq timeout md e resp e',
         stub_call P Heartbeat ch rq timeout md e = (RpcOk resp, e')
         ∧ hb_alive resp = false)
    ∧ Forall (call_event Heartbeat ch rq 10) evs.
Proof.
  set (rq0 := {| hb_client_timestamp := 0; hb_system_info := None |}).
  destruct (running (self w)) eqn:Hrun.
  2:{ rewrite ClientFacts.send_heartbeat_idle by auto.
      exists false, [], (insecure_channel ""), rq0. rewrite <- Hrun.
      split; [apply send_step_refl|]. split; [by left|]. split; [done|].
      constructor. }
  destruct (stub (self w)) as [ch|] eqn:Hstub.
  2:{ rewrite ClientFacts.send_heartbeat_idle by auto.
      exists true, [], (insecure_channel ""), rq0. rewrite <- Hrun.
      split; [apply send_step_refl|]. split; [by left|]. split; [done|].
      constructor. }
  rewrite (ClientFacts.send_heartbeat_eq P include w ch Hrun Hstub).
  destruct (build_send_step include w) as (evs0 & Hs0 & Hp0).
  rewrite Hrun in Hs0.
  destruct (build_heartbeat_request P include w) as [[rq|e] w1]; simpl in Hs0.
  2:{ destruct (heartbeat_failed_print e) as (msg & exc & ->).
      exists true, (evs0 ++ [EvPrint msg exc]), ch, rq0.
      split; [by apply send_step_print|]. split; [by left|]. split; [done|].
      apply print_call_event, Forall_app. split; [done|]. by repeat constructor. }
  destruct (ClientFacts.call_with_auth_step P w1 Heartbeat ch rq 10)
    as (evs1 & Hs1 & Hc1).
  apply token_send_step in Hs1.
  destruct (send_step_fields _ _ _ _ Hs0) as (Hrun1 & _). rewrite Hrun1 in Hs1.
  pose proof (send_step_trans _ _ _ _ _ _ _ Hs0 Hs1) as Hs.
  assert (Hc : Forall (call_event Heartbeat ch rq 10) (evs0 ++ evs1)).
  { apply Forall_app. split; [by apply print_call_event|done]. }
  destruct (_call_with_auth P Heartbeat ch rq 10 w1) as [[resp|e] w2] eqn:Hcall;
    simpl in Hs.
  2:{ destruct (heartbeat_failed_print e) as (msg & exc & ->).
      exists true, ((evs0 ++ evs1) ++ [EvPrint msg exc]), ch, rq.
      split; [by apply send_step_print|]. split; [by left|]. split; [done|].
      apply Forall_app. split; [done|]. by repeat constructor. }
  rewrite ClientFacts.handle_heartbeat_response_eq.
  destruct (hb_alive resp) eqn:Halive; simpl.
  - destruct (hb_latency_ms resp >? 0).
    + eexists true, _, ch, rq. split; [by apply send_step_print|].
      split; [by left|]. split; [done|]. apply Forall_app.
      split; [done|]. by repeat constructor.
    + exists true, (evs0 ++ evs1), ch, rq.
      split; [done|]. split; [by left|]. by split.
  - eexists false, _, ch, rq. split.
    { apply (send_step_stop w w2). by rewrite Hrun. }
    split; [by right|]. split.
    + intros _. apply call_with_auth_response in Hcall
        as (md & e & e' & Hreply).
      by exists ch, rq, 10, md, e, resp, e'.
    + apply Forall_app. split; [done|]. by repeat constructor.
Qed.

(** [send_update_report], for a running client with a stub. *)
Lemma send_update_report_eq w ch :
  running (self w) = true → stub (self w) = Some ch →
  let components := (supervisor_get_update_components P (env w)).1 in
  let e1 := (supervisor_get_update_components P (env w)).2 in
  let t := (time_time P e1).1 in
  let w2 := with_env (time_time P e1).2 w in
  send_update_report P w =
    match make_component_updates components with
    | Raised e => (Normal tt, with_log (log w2 ++ [update_report_failed e]) w2)
    | Normal cus =>
        let rq := {| urq_report := {| ur_generated_at := int_of_float t;
                                      ur_components := cus |} |} in
        match _call_with_auth P ReportUpdates ch rq 15 w2 with
        | (Raised e, w3) =>
            (Normal tt, with_log (log w3 ++ [update_report_failed e]) w3)
        | (Normal resp, w3) =>
            (Normal tt,
             with_log
               (log w3 ++
                  [EvPrint (if ur_accepted resp
                            then "Update report sent (" +:+ pretty (length components)
                                 +:+ " components, accepted)"
                            else "Update report rejected: " +:+ ur_message resp) None])
               w3)
        end
    end.
Proof.
  intros Hrun Hstub components e1 t w2. subst components e1 t w2.
  unfold send_update_report, send_update_report_body. unfold bind at 1. unfold get_self. simpl.
  rewrite Hrun, Hstub.
  unfold try_except, bind, from_env, lift. simpl.
  destruct (supervisor_get_update_components P (env w)) as [components e1]. simpl.
  destruct (time_time P e1) as [t e2]. simpl.
  destruct (make_component_updates components) as [cus|e]; simpl.
  2:{ by destruct e. }
  unfold with_env. simpl.
  destruct (_call_with_auth P ReportUpdates ch _ 15 _) as [[resp|e] w3]; simpl.
  - by destruct (ur_accepted resp).
  - by destruct e.
Qed.

(** [send_stats_report], for a running client with a stub. *)
Lemma send_stats_report_eq w ch :
  running (self w) = true → stub (self w) = Some ch →
  let stats := (supervisor_get_core_stats P (env w)).1 in
  let e1 := (supervisor_get_core_stats P (env w)).2 in
  let w1 := with_env e1 w in
  let t := (time_time P e1).1 in
  let w2 := with_env (time_time P e1).2 w in
  send_stats_report P w =
    if negb (dict_truthy stats) then
      (Normal tt,
       with_log (log w1 ++ [EvPrint "Core stats unavailable; skipping stats report" None]) w1)
    else
      let stats := default ∅ stats in
      let rq :=
        {| srq_report :=
             {| sr_generated_at := int_of_float t;
                sr_stats :=
                  {| cs_cpu_percent := stat_float stats "cpu_percent";
                     cs_memory_usage := stat_int stats "memory_usage";
                     cs_memory_limit := stat_int stats "memory_limit";
                     cs_memory_percent := stat_float stats "memory_percent";
                     cs_network_tx := stat_int stats "network_tx";
                     cs_network_rx := stat_int stats "network_rx";
                     cs_blk_read := stat_int stats "blk_read";
                     cs_blk_write := stat_int stats "blk_write" |} |} |} in
      match _call_with_auth P ReportStats ch rq 10 w2 with
      | (Raised e, w3) =>
          (Normal tt, with_log (log w3 ++ [stats_report_failed e]) w3)
      | (Normal resp, w3) =>
          (Normal tt,
           with_log
             (log w3 ++
                [EvPrint (if sr_accepted resp
                          then "Core stats report sent (accepted)"
                          else "Core stats report rejected: " +:+ sr_message resp) None])
             w3)
      end.
Proof.
  intros Hrun Hstub stats e1 w1 t w2. subst stats e1 w1 t w2.
  unfold send_stats_report, send_stats_report_body. unfold bind at 1. unfold get_self. simpl.
  rewrite Hrun, Hstub.
  unfold try_except, bind, from_env. simpl.
  destruct (supervisor_get_core_stats P (env w)) as [stats e1]. simpl.
  destruct (dict_truthy stats); simpl; [|done].
  destruct (time_time P e1) as [t e2]. simpl.
  unfold with_env. simpl.
  destruct (_call_with_auth P ReportStats ch _ 10 _) as [[resp|e] w3]; simpl.
  - by destruct (sr_accepted resp).
  - by destruct e.
Qed.

Lemma send_report_idle w :
  running (self w) = false ∨ stub (self w) = None →
  send_update_report P w = (Normal tt, w) ∧ send_stats_report P w = (Normal tt, w).
Proof.
  intros H. split.
  - unfold send_update_report, send_update_report_body. unfold bind at 1. unfold get_self. simpl.
    destruct H as [-> | ->]; [done|]. by destruct (running (self w)).
  - unfold send_stats_report, send_stats_report_body. unfold bind at 1. unfold get_self. simpl.
    destruct H as [-> | ->]; [done|]. by destruct (running (self w)).
Qed.

Lemma token_step_print w w' evs msg exc :
  token_step w w' evs →
  token_step w (with_log (log w' ++ [EvPrint msg exc]) w') (evs ++ [EvPrint msg exc]).
Proof.
  intros (a & r & x & d & e & s & ->).
  exists a, r, x, d, e, s. unfold with_log. simpl. by rewrite app_assoc.
Qed.

Lemma update_report_failed_print e : ∃ msg exc, update_report_failed e = EvPrint msg exc.
Proof. destruct e; by eexists _, _. Qed.

Lemma stats_report_failed_print e : ∃ msg exc, stats_report_failed e = EvPrint msg exc.
Proof. destruct e; by eexists _, _. Qed.

(** A report changes the token attributes only. *)
Lemma send_update_report_step w :
  ∃ evs ch rq, token_step w (send_update_report P w).2 evs
               ∧ Forall (call_event ReportUpdates ch rq 15) evs.
Proof.
  set (rq0 := {| urq_report := {| ur_generated_at := 0; ur_components := [] |} |}).
  destruct (running (self w)) eqn:Hrun.
  2:{ rewrite (proj1 (send_report_idle w (or_introl Hrun))).
      exists [], (insecure_channel ""), rq0.
      split; [apply ClientFacts.token_step_refl|constructor]. }
  destruct (stub (self w)) as [ch|] eqn:Hstub.
  2:{ rewrite (proj1 (send_report_idle w (or_intror Hstub))).
      exists [], (insecure_channel ""), rq0.
      split; [apply ClientFacts.token_step_refl|constructor]. }
  pose proof (send_update_report_eq w ch Hrun Hstub) as Heq. cbv zeta in Heq.
  rewrite Heq. clear Heq.
  set (w2 := with_env _ w).
  assert (H2 : token_step w w2 []) by apply ClientFacts.with_env_token_step.
  destruct (make_component_updates _) as [cus|e].
  2:{ destruct (update_report_failed_print e) as (msg & exc & ->).
      eexists _, ch, rq0. split; [by apply token_step_print|].
      by repeat constructor. }
  cbv zeta.
  match goal with
  | |- context [_call_with_auth P ReportUpdates ch ?rq 15 w2] =>
      destruct (ClientFacts.call_with_auth_step P w2 ReportUpdates ch rq 15)
        as (evs & Hs & Hc);
      set (request := rq) in *
  end.
  pose proof (ClientFacts.token_step_trans P _ _ _ _ _ H2 Hs) as H3. simpl in H3.
  destruct (_call_with_auth P ReportUpdates ch request 15 w2) as [[resp|e] w3];
    simpl in *.
  - eexists _, ch, request. split; [by apply token_step_print|].
    apply Forall_app. split; [done|]. by repeat constructor.
  - destruct (update_report_failed_print e) as (msg & exc & ->).
    eexists _, ch, request. split; [by apply token_step_print|].
    apply Forall_app. split; [done|]. by repeat constructor.
Qed.

Lemma send_stats_report_step w :
  ∃ evs ch rq, token_step w (send_stats_report P w).2 evs
               ∧ Forall (call_event ReportStats ch rq 10) evs.
Proof.
  set (rq0 := {| srq_report :=
                   {| sr_generated_at := 0;
                      sr_stats := {| cs_cpu_percent := 0; cs_memory_usage := 0;
                                     cs_memory_limit := 0; cs_memory_percent := 0;
                                     cs_network_tx := 0; cs_network_rx := 0;
                                     cs_blk_read := 0; cs_blk_write := 0 |} |} |}).
  destruct (running (self w)) eqn:Hrun.
  2:{ rewrite (proj2 (send_report_idle w (or_introl Hrun))).
      exists [], (insecure_channel ""), rq0.
      split; [apply ClientFacts.token_step_refl|constructor]. }
  destruct (stub (self w)) as [ch|] eqn:Hstub.
  2:{ rewrite (proj2 (send_report_idle w (or_intror Hstub))).
      exists [], (insecure_channel ""), rq0.
      split; [apply ClientFacts.token_step_refl|constructor]. }
  pose proof (send_stats_report_eq w ch Hrun Hstub) as Heq. cbv zeta in Heq.
  rewrite Heq. clear Heq.
  destruct (negb (dict_truthy _)).
  { eexists _, ch, rq0. split.
    - apply token_step_print. apply ClientFacts.with_env_token_step.
    - by repeat constructor. }
  set (w2 := with_env (time_time P _).2 w).
  assert (H2 : token_step w w2 []) by apply ClientFacts.with_env_token_step.
  match goal with
  | |- context [_call_with_auth P ReportStats ch ?rq 10 w2] =>
      destruct (ClientFacts.call_with_auth_step P w2 ReportStats ch rq 10)
        as (evs & Hs & Hc);
      set (request := rq) in *
  end.
  pose proof (ClientFacts.token_step_trans P _ _ _ _ _ H2 Hs) as H3. simpl in H3.
  destruct (_call_with_auth P ReportStats ch request 10 w2) as [[resp|e] w3];
    simpl in *.
  - eexists _, ch, request. split; [by apply token_step_print|].
    apply Forall_app. split; [done|]. by repeat constructor.
  - destruct (stats_report_failed_print e) as (msg & exc & ->).
    eexists _, ch, request. split; [by apply token_step_print|].
    apply Forall_app. split; [done|]. by repeat constructor.
Qed.

End Facts.
End SendFacts.

Module AnswerFacts.
Section Facts.
Context (P : Platform).

(** A response handed back by [_call_with_auth] answers the call that
    is last in the log: the world had [w0] before that call, reached
    from [w] by refresh events and at most one rejected call. *)
Lemma call_with_auth_answer (w : World P) m ch (rq : request m) timeout resp w' :
  _call_with_auth P m ch rq timeout w = (Normal resp, w') →
  ∃ (w0 : World P) md,
    stub_call P m ch rq timeout (Some md) (env w0) = (RpcOk resp, env w')
    ∧ log w' = log w0 ++ [EvRpc m ch rq timeout (Some md)]
    ∧ self w' = self w0
    ∧ ∃ evs, log w0 = log w ++ evs.
Proof.
  rewrite ClientFacts.call_with_auth_eq.
  destruct (ClientFacts.ensure_token_step P w) as (evs0 & Hs0 & _).
  destruct (_ensure_access_token P w) as [[[|]|e] w1]; try done.
  cbv zeta. simpl in Hs0.
  destruct Hs0 as (a0 & r0 & x0 & d0 & e0 & s0 & Hw1).
  assert (Hl1 : log w1 = log w ++ evs0) by (by rewrite Hw1).
  destruct (stub_call P m ch rq timeout _ (env w1)) as [[a|code details] e2] eqn:H1.
  { intros [= <- <-]. exists w1, (auth_metadata_of (self w1)). simpl.
    split; [done|]. split; [done|]. split; [done|]. by exists evs0. }
  destruct (bool_decide (code = UNAUTHENTICATED)); [|done].
  match goal with
  | |- context [refresh_access_token P ?w2] =>
      destruct (ClientFacts.refresh_token_step P w2) as (evs2 & Hs2 & _);
      destruct (refresh_access_token P w2) as [[[|]|e] w3]; try done
  end.
  simpl in Hs2. destruct Hs2 as (a2 & r2 & x2 & d2 & e2' & s2 & Hw3).
  destruct (stub_call P m ch rq timeout _ (env w3)) as [[a|c d] e4] eqn:H2; [|done].
  intros [= <- <-]. exists w3, (auth_metadata_of (self w3)). simpl.
  split; [done|]. split; [done|]. split; [done|].
  rewrite Hw3. simpl. rewrite Hl1. rewrite <- !app_assoc. by eexists.
Qed.

Lemma build_running include (w : World P) :
  running (self (build_heartbeat_request P include w).2) = running (self w).
Proof.
  destruct include.
  - pose proof (ClientFacts.build_full P w) as H. cbv zeta in H. rewrite H.
    by destruct (attachment _).
  - by rewrite ClientFacts.build_minimal.
Qed.

Lemma call_running (w : World P) m ch (rq : request m) timeout :
  running (self (_call_with_auth P m ch rq timeout w).2) = running (self w).
Proof.
  destruct (ClientFacts.call_with_auth_step P w m ch rq timeout) as (evs & Hs & _).
  by apply ClientFacts.token_step_running in Hs.
Qed.

(** [running] after a heartbeat of a running client with a stub. *)
Lemma running_after_heartbeat include (w : World P) ch :
  running (self w) = true → stub (self w) = Some ch →
  running (self (send_heartbeat P include w).2)
  = match build_heartbeat_request P include w with
    | (Normal rq, w1) =>
        match _call_with_auth P Heartbeat ch rq 10 w1 with
        | (Normal resp, _) => hb_alive resp
        | (Raised _, _) => true
        end
    | (Raised _, _) => true
    end.
Proof.
  intros Hrun Hstub. rewrite (ClientFacts.send_heartbeat_eq P include w ch Hrun Hstub).
  pose proof (build_running include w) as Hb.
  destruct (build_heartbeat_request P include w) as [[rq|e] w1]; simpl in *.
  2:{ by rewrite Hb. }
  pose proof (call_running w1 Heartbeat ch rq 10) as Hc.
  destruct (_call_with_auth P Heartbeat ch rq 10 w1) as [[resp|e] w2]; simpl in *.
  2:{ by rewrite Hc, Hb. }
  rewrite ClientFacts.handle_heartbeat_response_eq. simpl.
  destruct (hb_alive resp); simpl; [|done].
  destruct (hb_latency_ms resp >? 0); simpl; by rewrite Hc, Hb.
Qed.

End Facts.
End AnswerFacts.

(** X14. [send_heartbeat] leaves the client stopped exactly when it was
    stopped before or when, in this very call, the request was built
    and [_call_with_auth] handed back a response with [alive = false];
    that response is what the stub answered to the [Heartbeat] call
    that is then last in the log.  For a running client, a heartbeat
    that fails (building the request raises, or the call raises: RPC
    error, no token) and a heartbeat answered with [alive = true] leave
    the client running.  [send_heartbeat] never touches the timers,
    their handles, the stub or the channel. *)
Theorem only_the_server_ends_the_session (P : Platform) (include : bool)
    (w : World P) :
  let w' := (send_heartbeat P include w).2 in
  (running (self w') = false ↔
     running (self w) = false
     ∨ ∃ ch rq w1 resp w2,
         stub (self w) = Some ch
         ∧ build_heartbeat_request P include w = (Normal rq, w1)
         ∧ _call_with_auth P Heartbeat ch rq 10 w1 = (Normal resp, w2)
         ∧ hb_alive resp = false)
  ∧ (∀ ch rq (w1 : World P) resp w2,
       _call_with_auth P Heartbeat ch rq 10 w1 = (Normal resp, w2) →
       ∃ (w0 : World P) md,
         stub_call P Heartbeat ch rq 10 (Some md) (env w0) = (RpcOk resp, env w2)
         ∧ log w2 = log w0 ++ [EvRpc Heartbeat ch rq 10 (Some md)]
         ∧ ∃ evs, log w0 = log w1 ++ evs)
  ∧ (running (self w) = true →
       (stub (self w) = None → running (self w') = true)
       ∧ (∀ e w1, build_heartbeat_request P include w = (Raised e, w1) →
                  running (self w') = true)
       ∧ (∀ ch rq w1 e w2,
            stub (self w) = Some ch →
            build_heartbeat_request P include w = (Normal rq, w1) →
            _call_with_auth P Heartbeat ch rq 10 w1 = (Raised e, w2) →
            running (self w') = true)
       ∧ (∀ ch rq w1 resp w2,
            stub (self w) = Some ch →
            build_heartbeat_request P include w = (Normal rq, w1) →
            _call_with_auth P Heartbeat ch rq 10 w1 = (Normal resp, w2) →
            hb_alive resp = true →
            running (self w') = true))
  ∧ timers w' = timers w
  ∧ (∀ k, handle_of k (self w') = handle_of k (self w))
  ∧ stub (self w') = stub (self w)
  ∧ channel (self w') = channel (self w).
Proof.
  intros w'.
  assert (Hframe : timers w' = timers w
                   ∧ (∀ k, handle_of k (self w') = handle_of k (self w))
                   ∧ stub (self w') = stub (self w)
                   ∧ channel (self w') = channel (self w)).
  { subst w'.
    destruct (SendFacts.send_heartbeat_step P include w)
      as (run & evs & ch0 & rq0 & Hs & _).
    by apply SendFacts.send_step_fields in Hs as (_ & Ht & _ & Hh & Hst & Hch & _). }
  split; [|split; [|split; [|exact Hframe]]].
  - destruct (running (self w)) eqn:Hrun.
    2:{ subst w'. rewrite ClientFacts.send_heartbeat_idle by auto.
        simpl. rewrite Hrun. split; auto. }
    destruct (stub (self w)) as [ch|] eqn:Hstub.
    2:{ subst w'. rewrite ClientFacts.send_heartbeat_idle by auto.
        simpl. rewrite Hrun. split; [done|].
        intros [?|(ch & rq & w1 & resp & w2 & ? & _)]; done. }
    subst w'. rewrite (AnswerFacts.running_after_heartbeat P include w ch Hrun Hstub).
    destruct (build_heartbeat_request P include w) as [[rq|e] w1].
    2:{ split; [done|]. intros [?|(ch' & rq & w1' & resp & w2 & _ & ? & _)]; done. }
    destruct (_call_with_auth P Heartbeat ch rq 10 w1) as [[resp|e] w2] eqn:Hcall.
    2:{ split; [done|].
        intros [?|(ch' & rq' & w1' & resp & w2' & [= <-] & [= <- <-] & Hc & _)]; [done|].
        rewrite Hcall in Hc. done. }
    split.
    + intros Halive. right. by exists ch, rq, w1, resp, w2.
    + intros [?|(ch' & rq' & w1' & resp' & w2' & [= <-] & [= <- <-] & Hc & Ha)]; [done|].
      rewrite Hcall in Hc. by injection Hc as <- <-.
  - intros ch rq w1 resp w2 Hcall.
    destruct (AnswerFacts.call_with_auth_answer P w1 Heartbeat ch rq 10 resp w2 Hcall)
      as (w0 & md & H1 & H2 & _ & H3).
    by exists w0, md.
  - intros Hrun. split; [|split; [|split]].
    + intros Hstub. subst w'. rewrite ClientFacts.send_heartbeat_idle by auto. done.
    + intros e w1 Hb. destruct (stub (self w)) as [ch|] eqn:Hstub.
      2:{ subst w'. rewrite ClientFacts.send_heartbeat_idle by auto. done. }
      subst w'. rewrite (AnswerFacts.running_after_heartbeat P include w ch Hrun Hstub).
      by rewrite Hb.
    + intros ch rq w1 e w2 Hstub Hb Hc.
      subst w'. rewrite (AnswerFacts.running_after_heartbeat P include w ch Hrun Hstub).
      by rewrite Hb, Hc.
    + intros ch rq w1 resp w2 Hstub Hb Hc Ha.
      subst w'. rewrite (AnswerFacts.running_after_heartbeat P include w ch Hrun Hstub).
      by rewrite Hb, Hc.
Qed.

(** X18. [send_update_report] and [send_stats_report] change the token
    attributes of the client at most: [running] and
    [last_full_info_time] stay, no timer is started or removed, and no
    [Heartbeat] call is made. *)
Theorem reports_change_tokens_only (P : Platform) (w : World P) :
  let kept (w' : World P) :=
    (∃ a r x d, self w' = retoken a r x d (self w))
    ∧ running (self w') = running (self w)
    ∧ last_full_info_time (self w') = last_full_info_time (self w)
    ∧ timers w' = timers w
    ∧ heartbeat_requests (log w') = heartbeat_requests (log w)
    ∧ filter (λ e, is_timer_start e = true) (log w')
      = filter (λ e, is_timer_start e = true) (log w) in
  kept (send_update_report P w).2 ∧ kept (send_stats_report P w).2.
Proof.
  assert (Hkept : ∀ w' evs m ch (rq : request m) timeout,
            m ≠ Heartbeat →
            token_step w w' evs →
            Forall (call_event m ch rq timeout) evs →
            (∃ a r x d, self w' = retoken a r x d (self w))
            ∧ running (self w') = running (self w)
            ∧ last_full_info_time (self w') = last_full_info_time (self w)
            ∧ timers w' = timers w
            ∧ heartbeat_requests (log w') = heartbeat_requests (log w)
            ∧ filter (λ e, is_timer_start e = true) (log w')
              = filter (λ e, is_timer_start e = true) (log w)).
  { intros w' evs m ch rq timeout Hm Hs Hc.
    pose proof (ClientFacts.other_call_events m ch rq timeout evs Hm Hc) as Hh.
    pose proof (ClientFacts.call_events_no_timer m ch rq timeout evs Hc) as Ht.
    destruct Hs as (a & r & x & d & e & s & ->). simpl.
    split; [by exists a, r, x, d|]. do 3 (split; [done|]).
    rewrite ClientFacts.heartbeat_requests_app, Hh, filter_app, Ht.
    by rewrite !app_nil_r. }
  intros kept. subst kept. split.
  - destruct (SendFacts.send_update_report_step P w) as (evs & ch & rq & Hs & Hc).
    by apply (Hkept _ evs ReportUpdates ch rq 15).
  - destruct (SendFacts.send_stats_report_step P w) as (evs & ch & rq & Hs & Hc).
    by apply (Hkept _ evs ReportStats ch rq 10).
Qed.

Module ReportFacts.

Lemma make_component_updates_Forall2 (components : list dict) (cus : list ComponentUpdate) :
  make_component_updates components = Normal cus ↔
  Forall2 (λ c cu, make_component_update c = Normal cu) components cus.
Proof.
  revert cus. induction components as [|c cs IH]; intros cus; simpl.
  - split; [intros [= <-]; constructor|by intros ->%Forall2_nil_inv_l].
  - destruct (make_component_update c) as [cu|e] eqn:Hc; simpl.
    + destruct (make_component_updates cs) as [cus'|e] eqn:Hcs; simpl.
      * split.
        -- intros [= <-]. constructor; [done|]. by apply IH.
        -- intros (cu' & cus'' & Hcu & Hrest & ->)%Forall2_cons_inv_l.
           apply IH in Hrest. congruence.
      * split; [done|].
        intros (cu' & cus'' & Hcu & Hrest & ->)%Forall2_cons_inv_l.
        by apply IH in Hrest.
    + split; [done|].
      intros (cu' & cus'' & Hcu & Hrest & ->)%Forall2_cons_inv_l. congruence.
Qed.

Lemma proto_string_raises (v : pyval) (e : exn) :
  proto_string v = Raised e → e = TypeError.
Proof. destruct v; simpl; congruence. Qed.

Lemma make_component_update_raises (c : dict) (e : exn) :
  make_component_update c = Raised e → e = TypeError.
Proof.
  unfold make_component_update.
  repeat (match goal with
          | |- context [proto_string ?v] =>
              let H := fresh in
              destruct (proto_string v) eqn:H; simpl;
              [|apply proto_string_raises in H; congruence]
          end).
  done.
Qed.

Lemma make_component_updates_raises (cs : list dict) (e : exn) :
  make_component_updates cs = Raised e → e = TypeError.
Proof.
  induction cs as [|c cs IH]; simpl; [done|].
  destruct (make_component_update c) as [cu|e'] eqn:Hc; simpl.
  - destruct (make_component_updates cs); simpl; [done|]. intros [= <-]. by apply IH.
  - intros [= <-]. by apply make_component_update_raises in Hc.
Qed.

Lemma update_requests_app l1 l2 :
  update_requests (l1 ++ l2) = update_requests l1 ++ update_requests l2.
Proof. apply omap_app. Qed.

Lemma update_call_events ch (rq : UpdateReportRequest) timeout evs :
  Forall (call_event ReportUpdates ch rq timeout) evs →
  Forall (λ rq', rq' = rq) (update_requests evs).
Proof.
  unfold update_requests. induction 1 as [|e evs He _ IH]; [constructor|].
  simpl. destruct He as [He|[md ->]].
  - by destruct e as [| [] ? ? ? [] | | | | |].
  - simpl. by constructor.
Qed.

End ReportFacts.

(** X13. When the token check of [_call_with_auth] does not return
    [True], the method is not called: the world is the one the token
    check left, no authenticated call has been added to the log, and
    the result is RuntimeError("Access token unavailable"), or the
    exception of the token check if it raised. *)
Theorem no_call_without_token (P : Platform) (m : method) (ch : Channel)
    (rq : request m) (timeout : Z) (w : World P) :
  (_ensure_access_token P w).1 ≠ Normal true →
  let r := (_call_with_auth P m ch rq timeout w).1 in
  let w' := (_call_with_auth P m ch rq timeout w).2 in
  w' = (_ensure_access_token P w).2
  ∧ r = match (_ensure_access_token P w).1 with
        | Normal _ => Raised (RuntimeError "Access token unavailable")
        | Raised e => Raised e
        end
  ∧ auth_call_count (log w') = auth_call_count (log w).
Proof.
  intros Hens r w'. subst r w'. rewrite ClientFacts.call_with_auth_eq.
  destruct (ClientFacts.ensure_token_step P w) as (evs & Hs & Hf & _).
  apply ClientFacts.token_step_log in Hs.
  apply ClientFacts.refresh_events_no_auth_call in Hf.
  destruct (_ensure_access_token P w) as [[[|]|e] w1]; simpl in *; [done|..];
    (split; [done|]); (split; [done|]);
    rewrite Hs, ClientFacts.auth_call_count_app, Hf; lia.
Qed.

(** X13 at work: no access token is held and the server refuses the
    refresh token. *)
Lemma no_call_without_token_witness :
  (_call_with_auth Script.platform Heartbeat (insecure_channel "10.0.0.1:50051")
     Script.ping 10
     (Script.start (Script.client PNone (PStr "R1") PNone None 0)
        (Script.scene [] [Script.denied "revoked"] [] None))).1
  = Raised (RuntimeError "Access token unavailable").
Proof.
  refine (proj1 (proj2 (no_call_without_token Script.platform Heartbeat
                          (insecure_channel "10.0.0.1:50051") Script.ping 10
                          (Script.start (Script.client PNone (PStr "R1") PNone None 0)
                             (Script.scene [] [Script.denied "revoked"] [] None))
                          _))).
  by vm_compute.
Defined.


(** X16. When the supervisor has no core stats (none, or an empty
    dictionary), [send_stats_report] prints one message and returns:
    no stub is called, not even for a token refresh, and the client
    object is unchanged. *)
Theorem no_stats_no_report (P : Platform) (w : World P) (ch : Channel) :
  running (self w) = true → stub (self w) = Some ch →
  dict_truthy (supervisor_get_core_stats P (env w)).1 = false →
  send_stats_report P w =
    (Normal tt,
     with_log (log w ++ [EvPrint "Core stats unavailable; skipping stats report" None])
       (with_env (supervisor_get_core_stats P (env w)).2 w)).
Proof.
  intros Hrun Hstub Hnone.
  pose proof (SendFacts.send_stats_report_eq P w ch Hrun Hstub) as Heq.
  cbv zeta in Heq. by rewrite Hnone in Heq.
Qed.

(** X16 at work: the supervisor of the scripted platform has no stats. *)
Lemma no_stats_no_report_witness :
  log (send_stats_report Script.platform
         (Script.world_beating 1000 [1100]%Q)).2
  = [EvPrint "Core stats unavailable; skipping stats report" None].
Proof.
  by rewrite (no_stats_no_report Script.platform
                (Script.world_beating 1000 [1100]%Q)
                (insecure_channel "10.0.0.1:50051") eq_refl eq_refl eq_refl).
Defined.


(** X17. For a running client with a stub, [send_update_report] either
    cannot convert some component (a field that is neither a string nor
    [None]), and then it calls no stub and prints the TypeError; or
    every [ReportUpdates] request it sends carries the time of the
    report and one entry per component of the supervisor's list, in the
    same order, also when the list is empty; one request is sent as soon
    as the token check passes. *)
Theorem update_report_payload (P : Platform) (w : World P) (ch : Channel) :
  running (self w) = true → stub (self w) = Some ch →
  let components := (supervisor_get_update_components P (env w)).1 in
  let e1 := (supervisor_get_update_components P (env w)).2 in
  let t := (time_time P e1).1 in
  let w2 := with_env (time_time P e1).2 w in
  let w' := (send_update_report P w).2 in
  match make_component_updates components with
  | Raised e =>
      e = TypeError
      ∧ w' = with_log (log w ++ [EvPrint "Update report failed: " (Some TypeError)]) w2
  | Normal cus =>
      Forall2 (λ c cu, make_component_update c = Normal cu) components cus
      ∧ ∃ rqs,
          update_requests (log w') = update_requests (log w) ++ rqs
          ∧ Forall (λ rq, rq = {| urq_report :=
                                    {| ur_generated_at := int_of_float t;
                                       ur_components := cus |} |}) rqs
          ∧ ((_ensure_access_token P w2).1 = Normal true → rqs ≠ [])
  end.
Proof.
  intros Hrun Hstub components e1 t w2 w'. subst w'.
  pose proof (SendFacts.send_update_report_eq P w ch Hrun Hstub) as Heq.
  cbv zeta in Heq. fold components e1 t w2 in Heq. rewrite Heq. clear Heq.
  destruct (make_component_updates components) as [cus|e] eqn:Hcus.
  2:{ apply ReportFacts.make_component_updates_raises in Hcus. by subst e. }
  split; [by apply ReportFacts.make_component_updates_Forall2|].
  set (rq := {| urq_report := {| ur_generated_at := int_of_float t;
                                 ur_components := cus |} |}).
  destruct (ClientFacts.call_with_auth_step P w2 ReportUpdates ch rq 15)
    as (evs & Hs & Hc).
  apply ClientFacts.token_step_log in Hs.
  pose proof (ReportFacts.update_call_events ch rq 15 evs Hc) as Hall.
  assert (Hfirst : (_ensure_access_token P w2).1 = Normal true →
                   update_requests evs ≠ []).
  { intros Hens.
    destruct (_ensure_access_token P w2) as [r1 w3] eqn:Hens'. simpl in Hens.
    subst r1.
    destruct (ClientFacts.call_with_auth_first_call P w2 ReportUpdates ch rq 15 w3 Hens')
      as (evs1 & evs2 & Hlog).
    rewrite Hs in Hlog. apply app_inv_head in Hlog. rewrite Hlog.
    rewrite ReportFacts.update_requests_app. simpl.
    by destruct (update_requests evs1). }
  exists (update_requests evs).
  destruct (_call_with_auth P ReportUpdates ch rq 15 w2) as [[resp|e] w3];
    simpl in *; rewrite Hs; unfold w2; simpl;
    rewrite !ReportFacts.update_requests_app; simpl.
  - by rewrite app_nil_r.
  - destruct e; simpl; by rewrite app_nil_r.
Qed.

(** X17 at work: the supervisor of the scripted platform lists no
    component; the report that is sent has none. *)
Lemma update_report_payload_witness :
  ∃ rqs,
    update_requests (log (send_update_report Script.platform
                            (Script.world_beating 1000 [1100]%Q)).2) = [] ++ rqs
    ∧ Forall (λ rq, ur_components (urq_report rq) = []) rqs.
Proof.
  pose proof (update_report_payload Script.platform
                (Script.world_beating 1000 [1100]%Q)
                (insecure_channel "10.0.0.1:50051") eq_refl eq_refl) as H.
  cbv zeta in H.
  match type of H with
  | context [make_component_updates ?l] =>
      change (make_component_updates l) with (Normal (@nil ComponentUpdate)) in H
  end.
  destruct H as (_ & rqs & Hlog & Hall & _).
  exists rqs. split; [exact Hlog|].
  eapply Forall_impl; [exact Hall|]. by intros rq ->.
Defined.



(** ** Firing, starting and stopping *)

Module LoopFacts.
Section Facts.
Context (P : Platform).
Implicit Types (w : World P) (c : OmniiGrpcClient) (evs : list event) (k : task).

Lemma send_step_env run w w' evs e :
  send_step run w w' evs → send_step run (with_env e w) w' evs.
Proof.
  intros (a & r & x & d & lf & e' & s & ->). by exists a, r, x, d, lf, e', s.
Qed.

(** The send of a firing, on a running client. *)
Lemma loop_send_running k w :
  running (self w) = true →
  ∃ w1 run evs,
    loop_send P k w = (Normal true, w1)
    ∧ send_step run w w1 evs
    ∧ (k ≠ HeartbeatTask → run = true)
    ∧ filter (λ e, is_timer_start e = true) evs = [].
Proof.
  intros Hrun. destruct k; simpl.
  - unfold _heartbeat_loop_send. unfold bind at 1. unfold get_self. simpl.
    rewrite Hrun. simpl. unfold bind at 1. unfold from_env.
    destruct (time_time P (env w)) as [t e1]. simpl.
    set (w0 := {| self := self w; env := e1 |}).
    set (include := Qle_bool 300 (t - last_full_info_time (self w))).
    unfold bind.
    pose proof (ClientFacts.send_heartbeat_returns P include w0) as Hret.
    destruct (SendFacts.send_heartbeat_step P include w0)
      as (run & evs & ch & rq & Hs & _ & _ & Hc).
    destruct (send_heartbeat P include w0) as [r w1]. simpl in *. subst r.
    exists w1, run, evs. split; [done|]. split; [|split; [done|]].
    + destruct Hs as (a & r & x & d & lf & e' & s & ->).
      by exists a, r, x, d, lf, e', s.
    + by apply (ClientFacts.call_events_no_timer Heartbeat ch rq 10).
  - unfold _update_report_loop_send. unfold bind at 1. unfold get_self. simpl.
    rewrite Hrun. simpl. unfold bind.
    pose proof (ClientFacts.send_update_report_returns P w) as Hret.
    destruct (SendFacts.send_update_report_step P w) as (evs & ch & rq & Hs & Hc).
    destruct (send_update_report P w) as [r w1]. simpl in *. subst r.
    exists w1, true, evs. split; [done|]. split; [|split; [done|]].
    + rewrite <- Hrun. by apply SendFacts.token_send_step.
    + by apply (ClientFacts.call_events_no_timer ReportUpdates ch rq 15).
  - unfold _stats_report_loop_send. unfold bind at 1. unfold get_self. simpl.
    rewrite Hrun. simpl. unfold bind.
    pose proof (ClientFacts.send_stats_report_returns P w) as Hret.
    destruct (SendFacts.send_stats_report_step P w) as (evs & ch & rq & Hs & Hc).
    destruct (send_stats_report P w) as [r w1]. simpl in *. subst r.
    exists w1, true, evs. split; [done|]. split; [|split; [done|]].
    + rewrite <- Hrun. by apply SendFacts.token_send_step.
    + by apply (ClientFacts.call_events_no_timer ReportStats ch rq 10).
Qed.

(** The last statement of a firing, on a running client: one timer of
    the same task is started and kept in the task's handle. *)
Lemma loop_reschedule_running k w :
  running (self w) = true →
  ∃ w',
    loop_reschedule P k w = (Normal tt, w')
    ∧ timers w' = timers w ++ [next_timer k w]
    ∧ timer_seq w' = S (timer_seq w)
    ∧ handle_of k (self w') = Some (next_timer k w)
    ∧ (∀ k', k' ≠ k → handle_of k' (self w') = handle_of k' (self w))
    ∧ running (self w') = true
    ∧ stub (self w') = stub (self w) ∧ channel (self w') = channel (self w)
    ∧ log w' = log w ++ [EvTimerStart (next_timer k w)].
Proof.
  intros Hrun. destruct k; simpl;
    unfold _heartbeat_loop_reschedule, _update_report_loop_reschedule,
      _stats_report_loop_reschedule, _schedule_heartbeat, _schedule_update_report,
      _schedule_stats_report, Timer_start;
    ClientFacts.munfold; simpl; rewrite Hrun; simpl; rewrite ?Hrun; simpl;
    eexists; (split; [reflexivity|]); simpl;
    (do 3 (split; [done|])); (split; [by intros []|done]).
Qed.

Lemma loop_eq k w :
  loop P k w =
    match loop_send P k w with
    | (Normal true, w1) => loop_reschedule P k w1
    | (Normal false, w1) => (Normal tt, w1)
    | (Raised e, w1) => (Raised e, w1)
    end.
Proof.
  destruct k; simpl;
    unfold _heartbeat_loop, _update_report_loop, _stats_report_loop;
    unfold bind at 1;
    by match goal with |- context [?f P w] =>
         destruct (f P w) as [[[|]|e] w1] end.
Qed.

Lemma schedule_running w :
  running (self w) = true →
  _schedule_heartbeat P w = loop_reschedule P HeartbeatTask w
  ∧ _schedule_update_report P w = loop_reschedule P UpdateReportTask w
  ∧ _schedule_stats_report P w = loop_reschedule P StatsReportTask w.
Proof.
  intros Hrun. simpl.
  unfold _heartbeat_loop_reschedule, _update_report_loop_reschedule,
    _stats_report_loop_reschedule.
  split; [|split]; unfold bind, get_self; simpl; by rewrite Hrun.
Qed.

Lemma schedule_stopped w :
  running (self w) = false →
  _schedule_heartbeat P w = (Normal tt, w)
  ∧ _schedule_update_report P w = (Normal tt, w)
  ∧ _schedule_stats_report P w = (Normal tt, w).
Proof.
  intros Hrun.
  unfold _schedule_heartbeat, _schedule_update_report, _schedule_stats_report.
  unfold bind, get_self. simpl. by rewrite Hrun.
Qed.

Lemma start_reporting_stopped w :
  running (self w) = false →
  start_update_reporting P w = (Normal tt, w)
  ∧ start_stats_reporting P w = (Normal tt, w).
Proof.
  intros Hrun. unfold start_update_reporting, start_stats_reporting.
  unfold bind, get_self. simpl. by rewrite Hrun.
Qed.

Lemma token_step_then_schedule k w w1 evs :
  running (self w) = true → token_step w w1 evs →
  ∃ w', loop_reschedule P k w1 = (Normal tt, w') ∧ started k w w'.
Proof.
  intros Hrun Hs. apply SendFacts.token_send_step in Hs.
  apply SendFacts.send_step_fields in Hs as (Hr1 & Ht1 & Hseq1 & Hh1 & _).
  rewrite Hrun in Hr1.
  destruct (loop_reschedule_running k w1 Hr1)
    as (w2 & -> & Ht2 & Hseq2 & Hh2 & Hh2' & Hr2 & _).
  exists w2. split; [done|]. unfold started, next_timer in *.
  rewrite Ht2, Hseq2, Hh2, Ht1, Hseq1. do 3 (split; [done|]).
  split; [|done]. intros k' Hk'. by rewrite Hh2', Hh1.
Qed.

Lemma start_update_reporting_running w :
  running (self w) = true →
  ∃ w', start_update_reporting P w = (Normal tt, w') ∧ started UpdateReportTask w w'.
Proof.
  intros Hrun. unfold start_update_reporting. unfold bind at 1. unfold get_self.
  simpl. rewrite Hrun. simpl. unfold bind at 1. unfold print, emit. simpl.
  set (w0 := {| self := self w; log := log w ++ [_] |}).
  assert (H0 : token_step w w0 [EvPrint ("Starting update reporting thread ("
                 +:+ pretty UPDATE_REPORT_INTERVAL_SECONDS
                 +:+ " second interval)...") None]).
  { apply (SendFacts.token_step_print P w w []), ClientFacts.token_step_refl. }
  unfold bind.
  pose proof (ClientFacts.send_update_report_returns P w0) as Hret.
  destruct (SendFacts.send_update_report_step P w0) as (evs & ch & rq & Hs & _).
  destruct (send_update_report P w0) as [r w1]. simpl in *. subst r.
  pose proof (ClientFacts.token_step_trans P _ _ _ _ _ H0 Hs) as H1.
  assert (Hr1 : running (self w1) = true).
  { by rewrite (ClientFacts.token_step_running P _ _ _ H1). }
  rewrite (proj1 (proj2 (schedule_running w1 Hr1))).
  by apply (token_step_then_schedule UpdateReportTask w w1 _ Hrun H1).
Qed.

Lemma start_stats_reporting_running w :
  running (self w) = true →
  ∃ w', start_stats_reporting P w = (Normal tt, w') ∧ started StatsReportTask w w'.
Proof.
  intros Hrun. unfold start_stats_reporting. unfold bind at 1. unfold get_self.
  simpl. rewrite Hrun. simpl. unfold bind at 1. unfold print, emit. simpl.
  set (w0 := {| self := self w; log := log w ++ [_] |}).
  assert (H0 : token_step w w0 [EvPrint ("Starting core stats reporting thread ("
                 +:+ pretty (STATS_REPORT_INTERVAL_SECONDS P)
                 +:+ " second interval)...") None]).
  { apply (SendFacts.token_step_print P w w []), ClientFacts.token_step_refl. }
  unfold bind.
  pose proof (ClientFacts.send_stats_report_returns P w0) as Hret.
  destruct (SendFacts.send_stats_report_step P w0) as (evs & ch & rq & Hs & _).
  destruct (send_stats_report P w0) as [r w1]. simpl in *. subst r.
  pose proof (ClientFacts.token_step_trans P _ _ _ _ _ H0 Hs) as H1.
  assert (Hr1 : running (self w1) = true).
  { by rewrite (ClientFacts.token_step_running P _ _ _ H1). }
  rewrite (proj2 (proj2 (schedule_running w1 Hr1))).
  by apply (token_step_then_schedule StatsReportTask w w1 _ Hrun H1).
Qed.

(** [start_heartbeat], on a running client. *)
Lemma start_heartbeat_eq w :
  running (self w) = true →
  let w0 := with_log (log w ++ [EvPrint ("Starting heartbeat thread ("
                                         +:+ pretty HEARTBEAT_INTERVAL_SECONDS
                                         +:+ " second interval)...") None]) w in
  let w1 := (send_heartbeat P true w0).2 in
  start_heartbeat P w =
    if running (self w1) then
      match loop_reschedule P HeartbeatTask w1 with
      | (Normal _, w2) =>
          match start_update_reporting P w2 with
          | (Normal _, w3) => start_stats_reporting P w3
          | (Raised e, w3) => (Raised e, w3)
          end
      | (Raised e, w2) => (Raised e, w2)
      end
    else (Normal tt, w1).
Proof.
  intros Hrun w0 w1. subst w1.
  pose proof (ClientFacts.send_heartbeat_returns P true w0) as Hret.
  destruct (send_heartbeat P true w0) as [r w1] eqn:Hsend. simpl in *. subst r.
  unfold start_heartbeat. unfold bind at 1. unfold get_self. simpl.
  rewrite Hrun. simpl. unfold bind at 1. unfold print, emit. simpl.
  unfold w0, with_log in Hsend. simpl in Hsend. unfold bind at 1. rewrite Hsend.
  destruct (running (self w1)) eqn:Hr1.
  - unfold bind. by rewrite (proj1 (schedule_running w1 Hr1)).
  - unfold bind. rewrite (proj1 (schedule_stopped w1 Hr1)).
    rewrite (proj1 (start_reporting_stopped w1 Hr1)).
    by rewrite (proj2 (start_reporting_stopped w1 Hr1)).
Qed.

Lemma start_heartbeat_stopped w :
  running (self w) = false → start_heartbeat P w = (Normal tt, w).
Proof.
  intros Hrun. unfold start_heartbeat. unfold bind, get_self. simpl.
  by rewrite Hrun.
Qed.

(** [start_heartbeat] on a running client whose first heartbeat leaves
    it running: three timers are started, one per task. *)
Lemma start_heartbeat_running w :
  running (self w) = true →
  let w0 := with_log (log w ++ [EvPrint ("Starting heartbeat thread ("
                                         +:+ pretty HEARTBEAT_INTERVAL_SECONDS
                                         +:+ " second interval)...") None]) w in
  running (self (send_heartbeat P true w0).2) = true →
  let w' := (start_heartbeat P w).2 in
  let n := timer_seq w in
  let t1 := {| timer_id := n;
               timer_interval := inject_Z HEARTBEAT_INTERVAL_SECONDS;
               timer_callback := HeartbeatTask |} in
  let t2 := {| timer_id := S n;
               timer_interval := inject_Z UPDATE_REPORT_INTERVAL_SECONDS;
               timer_callback := UpdateReportTask |} in
  let t3 := {| timer_id := S (S n);
               timer_interval := inject_Z (STATS_REPORT_INTERVAL_SECONDS P);
               timer_callback := StatsReportTask |} in
  (start_heartbeat P w).1 = Normal tt
  ∧ running (self w') = true
  ∧ timers w' = timers w ++ [t1; t2; t3]
  ∧ heartbeat_timer (self w') = Some t1
  ∧ update_report_timer (self w') = Some t2
  ∧ stats_report_timer (self w') = Some t3.
Proof.
  intros Hrun w0 Hr1 w' n t1 t2 t3. subst w'.
  pose proof (start_heartbeat_eq w Hrun) as Heq. cbv zeta in Heq.
  fold w0 in Heq. rewrite Hr1 in Heq. rewrite Heq. clear Heq.
  destruct (SendFacts.send_heartbeat_step P true w0)
    as (run & evs & ch & rq & Hs & _).
  apply SendFacts.send_step_fields in Hs as (_ & Ht1 & Hseq1 & _).
  set (w1 := (send_heartbeat P true w0).2) in *.
  destruct (token_step_then_schedule HeartbeatTask w1 w1 []
              Hr1 (ClientFacts.token_step_refl P w1))
    as (w2 & -> & Ht2 & Hseq2 & Hh2 & _ & Hr2).
  destruct (start_update_reporting_running w2 Hr2)
    as (w3 & -> & Ht3 & Hseq3 & Hh3 & Hh3' & Hr3).
  destruct (start_stats_reporting_running w3 Hr3)
    as (w4 & -> & Ht4 & Hseq4 & Hh4 & Hh4' & Hr4).
  simpl. split; [done|]. split; [done|].
  unfold next_timer in *. simpl in *.
  rewrite Ht4, Ht3, Ht2, Ht1, Hseq3, Hseq2, Hseq1 in *. simpl.
  split; [by rewrite <- !app_assoc|].
  pose proof (Hh4' HeartbeatTask ltac:(done)) as H1.
  pose proof (Hh4' UpdateReportTask ltac:(done)) as H2.
  pose proof (Hh3' HeartbeatTask ltac:(done)) as H3.
  simpl in *. rewrite H1, H3, Hh2, H2, Hh3, Hh4. done.
Qed.

Lemma call_events_rpc_count m ch (rq : request m) timeout (other : method) evs :
  other ≠ m → other ≠ RefreshToken →
  Forall (call_event m ch rq timeout) evs → rpc_count other evs = 0%nat.
Proof.
  intros Hm Hr. unfold rpc_count. induction 1 as [|e evs He _ IH]; [done|].
  rewrite filter_cons. destruct He as [He|[md ->]].
  - destruct e as [| m' ? ? ? md | | | | |]; try done.
    destruct m', md; try done. simpl.
    rewrite bool_decide_eq_false_2 by done. by rewrite decide_False.
  - simpl. rewrite bool_decide_eq_false_2 by done. by rewrite decide_False.
Qed.

End Facts.
End LoopFacts.

(** X15. A firing of a task's timer on a running client returns
    normally.  If the client is still running afterwards, exactly one
    timer has been added to the pending ones: a timer of the same task
    with the task's interval, kept in the task's handle; the other
    handles are unchanged.  If the client is no longer running, no timer
    has been added.  The update and stats tasks never stop the
    client. *)
Theorem firing_schedules_one_successor (P : Platform) (k : task) (w : World P) :
  running (self w) = true →
  let w' := (loop P k w).2 in
  let t := next_timer k w in
  (loop P k w).1 = Normal tt
  ∧ (k ≠ HeartbeatTask → running (self w') = true)
  ∧ (running (self w') = true →
     timers w' = timers w ++ [t]
     ∧ handle_of k (self w') = Some t
     ∧ ∀ k', k' ≠ k → handle_of k' (self w') = handle_of k' (self w))
  ∧ (running (self w') = false →
     timers w' = timers w
     ∧ ∀ k', handle_of k' (self w') = handle_of k' (self w)).
Proof.
  intros Hrun w' t. subst w' t. rewrite LoopFacts.loop_eq.
  destruct (LoopFacts.loop_send_running P k w Hrun)
    as (w1 & run & evs & -> & Hs & Hother & _).
  apply SendFacts.send_step_fields in Hs as (Hr1 & Ht1 & Hseq1 & Hh1 & _).
  destruct run.
  - destruct (LoopFacts.loop_reschedule_running P k w1 Hr1)
      as (w2 & -> & Ht2 & _ & Hh2 & Hh2' & Hr2 & _).
    simpl. split; [done|]. split; [done|]. split; [|congruence].
    intros _. unfold next_timer in *. rewrite Ht2, Hh2, Ht1, Hseq1.
    do 2 (split; [done|]). intros k' Hk'. by rewrite Hh2', Hh1.
  - rewrite (ClientFacts.loop_reschedule_stopped P k w1 Hr1). simpl.
    split; [done|]. split; [by intros Hk; specialize (Hother Hk)|].
    split; [congruence|]. done.
Qed.

(** X15 at work: the heartbeat timer fires on a server that answers. *)
Lemma firing_schedules_one_successor_witness :
  (loop Script.platform HeartbeatTask
     (Script.world_beating 1000 [1100; 1100; 1100]%Q)).1 = Normal tt.
Proof.
  exact (proj1 (firing_schedules_one_successor Script.platform HeartbeatTask
                  (Script.world_beating 1000 [1100; 1100; 1100]%Q) eq_refl)).
Defined.


(** X19. When the first heartbeat of [start_heartbeat] leaves the
    client stopped (the server ended the session), [start_heartbeat]
    ends there: no timer is started, and no update report and no stats
    report is sent. *)
Theorem start_with_ended_session (P : Platform) (w : World P) :
  running (self w) = true →
  let w0 := with_log (log w ++ [EvPrint ("Starting heartbeat thread ("
                                         +:+ pretty HEARTBEAT_INTERVAL_SECONDS
                                         +:+ " second interval)...") None]) w in
  let w1 := (send_heartbeat P true w0).2 in
  running (self w1) = false →
  start_heartbeat P w = (Normal tt, w1)
  ∧ timers w1 = timers w
  ∧ filter (λ e, is_timer_start e = true) (log w1)
    = filter (λ e, is_timer_start e = true) (log w)
  ∧ rpc_count ReportUpdates (log w1) = rpc_count ReportUpdates (log w)
  ∧ rpc_count ReportStats (log w1) = rpc_count ReportStats (log w).
Proof.
  intros Hrun w0 w1 Hstopped.
  pose proof (LoopFacts.start_heartbeat_eq P w Hrun) as Heq. cbv zeta in Heq.
  fold w0 w1 in Heq. rewrite Hstopped in Heq. split; [done|].
  destruct (SendFacts.send_heartbeat_step P true w0)
    as (run & evs & ch & rq & Hs & _ & _ & Hc).
  apply SendFacts.send_step_fields in Hs as (_ & Ht & _ & _ & _ & _ & Hlog).
  fold w1 in Ht, Hlog. rewrite Ht, Hlog. unfold w0. simpl. split; [done|].
  rewrite !filter_app, !ClientFacts.rpc_count_app.
  rewrite (ClientFacts.call_events_no_timer Heartbeat ch rq 10 evs Hc).
  rewrite !(LoopFacts.call_events_rpc_count Heartbeat ch rq 10 _ evs) by done.
  simpl. rewrite !app_nil_r. split; [done|]. unfold rpc_count. simpl. lia.
Qed.

(** X19 at work: the server ends the session in its first answer. *)
Lemma start_with_ended_session_witness :
  start_heartbeat Script.platform Script.world_session_ended
  = (Normal tt,
     (send_heartbeat Script.platform true
        (with_log [EvPrint ("Starting heartbeat thread ("
                            +:+ pretty HEARTBEAT_INTERVAL_SECONDS
                            +:+ " second interval)...") None]
           Script.world_session_ended)).2).
Proof.
  exact (proj1 (start_with_ended_session Script.platform Script.world_session_ended
                  eq_refl eq_refl)).
Defined.


(** X20. When the first heartbeat of [start_heartbeat] leaves the
    client running, [start_heartbeat] returns with the client running
    and three more timers pending, in this order: the heartbeat timer
    (60 s), the update report timer (3600 s) and the stats report timer;
    each is kept in its handle. *)
Theorem start_leaves_three_timers (P : Platform) (w : World P) :
  running (self w) = true →
  let w0 := with_log (log w ++ [EvPrint ("Starting heartbeat thread ("
                                         +:+ pretty HEARTBEAT_INTERVAL_SECONDS
                                         +:+ " second interval)...") None]) w in
  running (self (send_heartbeat P true w0).2) = true →
  let w' := (start_heartbeat P w).2 in
  let n := timer_seq w in
  let t1 := {| timer_id := n;
               timer_interval := inject_Z HEARTBEAT_INTERVAL_SECONDS;
               timer_callback := HeartbeatTask |} in
  let t2 := {| timer_id := S n;
               timer_interval := inject_Z UPDATE_REPORT_INTERVAL_SECONDS;
               timer_callback := UpdateReportTask |} in
  let t3 := {| timer_id := S (S n);
               timer_interval := inject_Z (STATS_REPORT_INTERVAL_SECONDS P);
               timer_callback := StatsReportTask |} in
  (start_heartbeat P w).1 = Normal tt
  ∧ running (self w') = true
  ∧ timers w' = timers w ++ [t1; t2; t3]
  ∧ heartbeat_timer (self w') = Some t1
  ∧ update_report_timer (self w') = Some t2
  ∧ stats_report_timer (self w') = Some t3.
Proof. apply LoopFacts.start_heartbeat_running. Qed.

(** X20 at work: a server that answers every heartbeat. *)
Lemma start_leaves_three_timers_witness :
  length (timers (start_heartbeat Script.platform
                    (Script.world_beating 0 [1000; 1000; 1000]%Q)).2) = 3%nat.
Proof.
  destruct (start_leaves_three_timers Script.platform
              (Script.world_beating 0 [1000; 1000; 1000]%Q) eq_refl eq_refl)
    as (_ & _ & Ht & _).
  by rewrite Ht.
Defined.


Module StopFacts.
Section Facts.
Context (P : Platform).
Implicit Types (w : World P) (c : OmniiGrpcClient) (evs : list event) (k : task).

Lemma cancel_handle_eq handle clear w :
  cancel_handle P handle clear w =
    match handle (self w) with
    | Some t =>
        (Normal tt,
         {| self := clear (self w); env := env w; store := store w;
            timers := filter (λ t', timer_id t' ≠ timer_id t) (timers w);
            timer_seq := timer_seq w; log := log w ++ [EvTimerCancel t] |})
    | None => (Normal tt, w)
    end.
Proof.
  unfold cancel_handle, Timer_cancel. ClientFacts.munfold. simpl.
  by destruct (handle (self w)).
Qed.

(** [stop()], step by step. *)
Lemma stop_eq w :
  let c0 := set_running false (self w) in
  let cancel (h : option Timer) (ts : list Timer) :=
    match h with
    | Some t => filter (λ t', timer_id t' ≠ timer_id t) ts
    | None => ts
    end in
  let note {A} (h : option A) (ev : A → event) : list event :=
    match h with Some a => [ev a] | None => [] end in
  stop P w =
    (Normal tt,
     {| self := set_channel None
                  (set_stats_report_timer None
                     (set_update_report_timer None (set_heartbeat_timer None c0)));
        env := env w; store := store w;
        timers := cancel (stats_report_timer (self w))
                    (cancel (update_report_timer (self w))
                       (cancel (heartbeat_timer (self w)) (timers w)));
        timer_seq := timer_seq w;
        log := log w ++ [EvPrint "Stopping add-on..." None]
                 ++ note (heartbeat_timer (self w)) EvTimerCancel
                 ++ note (update_report_timer (self w)) EvTimerCancel
                 ++ note (stats_report_timer (self w)) EvTimerCancel
                 ++ note (channel (self w)) EvChannelClose |}).
Proof.
  unfold stop. unfold bind at 1. unfold print, emit. simpl.
  unfold bind at 1. unfold assign. simpl.
  unfold bind at 1. rewrite cancel_handle_eq. simpl.
  destruct (heartbeat_timer (self w)) as [t1|] eqn:H1; simpl;
    unfold bind at 1; rewrite cancel_handle_eq; simpl;
    destruct (update_report_timer (self w)) as [t2|] eqn:H2; simpl;
    unfold bind at 1; rewrite cancel_handle_eq; simpl;
    destruct (stats_report_timer (self w)) as [t3|] eqn:H3; simpl;
    ClientFacts.munfold; simpl;
    destruct (channel (self w)) as [ch|] eqn:Hch; simpl;
    rewrite <- ?app_assoc; simpl; rewrite ?app_nil_r;
    f_equal; f_equal; destruct (self w); simpl in *; by subst.
Qed.

Lemma stop_timers w t :
  t ∈ timers (stop P w).2 ↔ t ∈ timers w ∧ survives (held (self w)) t.
Proof.
  rewrite stop_eq. simpl. unfold survives, held. simpl.
  destruct (heartbeat_timer (self w)) as [t1|],
           (update_report_timer (self w)) as [t2|],
           (stats_report_timer (self w)) as [t3|]; simpl;
    rewrite ?list_elem_of_filter, ?Forall_cons, ?Forall_nil; tauto.
Qed.

Lemma stop_log w :
  ∃ evs, log (stop P w).2 = log w ++ evs
         ∧ filter (λ e, is_any_rpc e = true) evs = []
         ∧ filter (λ e, is_timer_start e = true) evs = [].
Proof.
  rewrite stop_eq. simpl. eexists. split; [reflexivity|].
  by destruct (heartbeat_timer (self w)), (update_report_timer (self w)),
       (stats_report_timer (self w)), (channel (self w)).
Qed.

End Facts.
End StopFacts.

(** X21. [stop] returns normally and leaves the client stopped, with
    its three timer handles and its channel cleared; the stub is kept.
    The timers still pending are those that none of the handles held.
    No stub is called; the channel, if there was one, is closed last.
    A second [stop] prints its message and changes nothing else. *)
Theorem stop_effect (P : Platform) (w : World P) :
  let w' := (stop P w).2 in
  (stop P w).1 = Normal tt
  ∧ running (self w') = false
  ∧ (∀ k, handle_of k (self w') = None)
  ∧ channel (self w') = None
  ∧ stub (self w') = stub (self w)
  ∧ (∀ t, t ∈ timers w' ↔ t ∈ timers w ∧ survives (held (self w)) t)
  ∧ filter (λ e, is_any_rpc e = true) (log w')
    = filter (λ e, is_any_rpc e = true) (log w)
  ∧ (∀ ch, channel (self w) = Some ch → last (log w') = Some (EvChannelClose ch))
  ∧ stop P w' = (Normal tt, with_log (log w' ++ [EvPrint "Stopping add-on..." None]) w').
Proof.
  intros w'.
  split; [by rewrite StopFacts.stop_eq|].
  split; [by subst w'; rewrite StopFacts.stop_eq|].
  split; [by subst w'; rewrite StopFacts.stop_eq; intros []|].
  split; [by subst w'; rewrite StopFacts.stop_eq|].
  split; [by subst w'; rewrite StopFacts.stop_eq|].
  split; [intros t; apply StopFacts.stop_timers|].
  split.
  { destruct (StopFacts.stop_log P w) as (evs & Hlog & Hrpc & _).
    subst w'. rewrite Hlog, filter_app, Hrpc. by rewrite app_nil_r. }
  split.
  { intros ch Hch. subst w'. rewrite StopFacts.stop_eq. simpl. rewrite Hch.
    rewrite last_app.
    by destruct (heartbeat_timer (self w)), (update_report_timer (self w)),
         (stats_report_timer (self w)). }
  rewrite (StopFacts.stop_eq P w'). subst w'. rewrite StopFacts.stop_eq. simpl.
  unfold with_log. simpl. done.
Qed.


(** ** The threads of the client *)

(** ** The threads *)

Module ThreadFacts.
Section Facts.
Context (P : Platform).
Implicit Types (w : World P) (th : thread) (cfg : config P).

(** *** The [try] statements *)

Lemma send_heartbeat_body_eq include ch w :
  send_heartbeat_body P include ch w =
    match build_heartbeat_request P include w with
    | (Raised e, w1) => (Normal tt, with_log (log w1 ++ [heartbeat_failed e]) w1)
    | (Normal rq, w1) =>
        match _call_with_auth P Heartbeat ch rq 10 w1 with
        | (Raised e, w2) => (Normal tt, with_log (log w2 ++ [heartbeat_failed e]) w2)
        | (Normal resp, w2) => handle_heartbeat_response P resp w2
        end
    end.
Proof.
  unfold send_heartbeat_body, try_except, bind.
  destruct (build_heartbeat_request P include w) as [[rq|e] w1]; simpl.
  - destruct (_call_with_auth P Heartbeat ch rq 10 w1) as [[resp|e] w2]; simpl.
    + by rewrite ClientFacts.handle_heartbeat_response_eq.
    + by destruct e.
  - by destruct e.
Qed.

(** Under its guard a send function is its [try] statement. *)
Lemma send_heartbeat_guarded include ch w :
  running (self w) = true → stub (self w) = Some ch →
  send_heartbeat P include w = send_heartbeat_body P include ch w.
Proof.
  intros Hrun Hstub. unfold send_heartbeat. unfold bind at 1. unfold get_self.
  simpl. by rewrite Hrun, Hstub.
Qed.

Lemma send_update_report_guarded ch w :
  running (self w) = true → stub (self w) = Some ch →
  send_update_report P w = send_update_report_body P ch w.
Proof.
  intros Hrun Hstub. unfold send_update_report. unfold bind at 1. unfold get_self.
  simpl. by rewrite Hrun, Hstub.
Qed.

Lemma send_stats_report_guarded ch w :
  running (self w) = true → stub (self w) = Some ch →
  send_stats_report P w = send_stats_report_body P ch w.
Proof.
  intros Hrun Hstub. unfold send_stats_report. unfold bind at 1. unfold get_self.
  simpl. by rewrite Hrun, Hstub.
Qed.

(** What the [try] statement of a heartbeat changes, whatever [running]
    is when it is entered. *)
Lemma send_heartbeat_body_step include ch w :
  ∃ run evs rq,
    (send_heartbeat_body P include ch w).1 = Normal tt
    ∧ send_step run w (send_heartbeat_body P include ch w).2 evs
    ∧ (run = running (self w) ∨ run = false)
    ∧ Forall (call_event Heartbeat ch rq 10) evs.
Proof.
  set (rq0 := {| hb_client_timestamp := 0; hb_system_info := None |}).
  rewrite send_heartbeat_body_eq.
  destruct (SendFacts.build_send_step P include w) as (evs0 & Hs0 & Hp0).
  destruct (build_heartbeat_request P include w) as [[rq|e] w1]; simpl in Hs0.
  2:{ destruct (SendFacts.heartbeat_failed_print e) as (msg & exc & ->).
      exists (running (self w)), (evs0 ++ [EvPrint msg exc]), rq0.
      split; [done|]. split; [by apply SendFacts.send_step_print|].
      split; [by left|].
      apply SendFacts.print_call_event, Forall_app. split; [done|].
      by repeat constructor. }
  destruct (ClientFacts.call_with_auth_step P w1 Heartbeat ch rq 10)
    as (evs1 & Hs1 & Hc1).
  apply SendFacts.token_send_step in Hs1.
  destruct (SendFacts.send_step_fields _ _ _ _ _ Hs0) as (Hrun1 & _).
  rewrite Hrun1 in Hs1.
  pose proof (SendFacts.send_step_trans _ _ _ _ _ _ _ _ Hs0 Hs1) as Hs.
  assert (Hc : Forall (call_event Heartbeat ch rq 10) (evs0 ++ evs1)).
  { apply Forall_app. split; [by apply SendFacts.print_call_event|done]. }
  destruct (_call_with_auth P Heartbeat ch rq 10 w1) as [[resp|e] w2] eqn:Hcall;
    simpl in Hs.
  2:{ destruct (SendFacts.heartbeat_failed_print e) as (msg & exc & ->).
      exists (running (self w)), ((evs0 ++ evs1) ++ [EvPrint msg exc]), rq.
      split; [done|]. split; [by apply SendFacts.send_step_print|].
      split; [by left|].
      apply Forall_app. split; [done|]. by repeat constructor. }
  rewrite ClientFacts.handle_heartbeat_response_eq.
  destruct (hb_alive resp) eqn:Halive; simpl.
  - destruct (hb_latency_ms resp >? 0).
    + eexists (running (self w)), _, rq. split; [done|].
      split; [by apply SendFacts.send_step_print|].
      split; [by left|]. apply Forall_app.
      split; [done|]. by repeat constructor.
    + exists (running (self w)), (evs0 ++ evs1), rq.
      split; [done|]. split; [done|]. split; [by left|done].
  - eexists false, _, rq. split; [done|]. split.
    { by apply (SendFacts.send_step_stop P w w2). }
    split; [by right|].
    apply Forall_app. split; [done|]. by repeat constructor.
Qed.

Lemma send_update_report_body_step ch w :
  ∃ evs rq,
    (send_update_report_body P ch w).1 = Normal tt
    ∧ token_step w (send_update_report_body P ch w).2 evs
    ∧ Forall (call_event ReportUpdates ch rq 15) evs.
Proof.
  set (rq0 := {| urq_report := {| ur_generated_at := 0; ur_components := [] |} |}).
  unfold send_update_report_body, try_except, bind, from_env, lift. simpl.
  destruct (supervisor_get_update_components P (env w)) as [components e1]. simpl.
  destruct (time_time P e1) as [t e2]. simpl.
  match goal with
  | |- context [_call_with_auth P ReportUpdates ch _ 15 ?w0] => set (w2 := w0)
  end.
  assert (H2 : token_step w w2 []) by apply (ClientFacts.with_env_token_step P w e2).
  destruct (make_component_updates components) as [cus|e]; simpl.
  2:{ exists [update_report_failed e], rq0.
      destruct (SendFacts.update_report_failed_print e) as (msg & exc & Hmsg).
      split; [by destruct e|]. split.
      - rewrite Hmsg.
        replace ((_ : outcome unit * World P).2)
          with (with_log (log w2 ++ [EvPrint msg exc]) w2).
        + by apply (SendFacts.token_step_print P w w2 []).
        + destruct e; simpl in *; unfold print, print_exc, emit; simpl;
            by injection Hmsg as <- <-.
      - rewrite Hmsg. by repeat constructor. }
  match goal with
  | |- context [_call_with_auth P ReportUpdates ch ?rq 15 w2] =>
      destruct (ClientFacts.call_with_auth_step P w2 ReportUpdates ch rq 15)
        as (evs & Hs & Hc);
      set (request := rq) in *
  end.
  pose proof (ClientFacts.token_step_trans P _ _ _ _ _ H2 Hs) as H3. simpl in H3.
  destruct (_call_with_auth P ReportUpdates ch request 15 w2) as [[resp|e] w3];
    simpl in *.
  - eexists _, request. split; [by destruct (ur_accepted resp)|]. split.
    + replace ((_ : outcome unit * World P).2)
        with (with_log (log w3 ++
                [EvPrint (if ur_accepted resp
                          then "Update report sent (" +:+ pretty (length components)
                               +:+ " components, accepted)"
                          else "Update report rejected: " +:+ ur_message resp) None]) w3)
        by (by destruct (ur_accepted resp)).
      by apply SendFacts.token_step_print.
    + apply Forall_app. split; [done|]. by repeat constructor.
  - destruct (SendFacts.update_report_failed_print e) as (msg & exc & Hmsg).
    eexists _, request. split; [by destruct e|]. split.
    + replace ((_ : outcome unit * World P).2)
        with (with_log (log w3 ++ [EvPrint msg exc]) w3).
      * by apply SendFacts.token_step_print.
      * destruct e; simpl in *; unfold print, print_exc, emit; simpl;
          by injection Hmsg as <- <-.
    + apply Forall_app. split; [done|]. by repeat constructor.
Qed.

Lemma send_stats_report_body_step ch w :
  ∃ evs rq,
    (send_stats_report_body P ch w).1 = Normal tt
    ∧ token_step w (send_stats_report_body P ch w).2 evs
    ∧ Forall (call_event ReportStats ch rq 10) evs.
Proof.
  set (rq0 := {| srq_report :=
                   {| sr_generated_at := 0;
                      sr_stats := {| cs_cpu_percent := 0; cs_memory_usage := 0;
                                     cs_memory_limit := 0; cs_memory_percent := 0;
                                     cs_network_tx := 0; cs_network_rx := 0;
                                     cs_blk_read := 0; cs_blk_write := 0 |} |} |}).
  unfold send_stats_report_body, try_except, bind, from_env. simpl.
  destruct (supervisor_get_core_stats P (env w)) as [stats e1]. simpl.
  destruct (dict_truthy stats); simpl.
  2:{ exists ([] ++ [EvPrint "Core stats unavailable; skipping stats report" None]), rq0.
      split; [done|]. split.
      - apply (SendFacts.token_step_print P w (with_env e1 w) []).
        apply (ClientFacts.with_env_token_step P w e1).
      - by repeat constructor. }
  destruct (time_time P e1) as [t e2]. simpl.
  match goal with
  | |- context [_call_with_auth P ReportStats ch ?rq 10 ?w0] =>
      set (w2 := w0);
      destruct (ClientFacts.call_with_auth_step P w2 ReportStats ch rq 10)
        as (evs & Hs & Hc);
      set (request := rq) in *
  end.
  assert (H2 : token_step w w2 []) by apply (ClientFacts.with_env_token_step P w e2).
  pose proof (ClientFacts.token_step_trans P _ _ _ _ _ H2 Hs) as H3. simpl in H3.
  destruct (_call_with_auth P ReportStats ch request 10 w2) as [[resp|e] w3];
    simpl in *.
  - eexists _, request. split; [by destruct (sr_accepted resp)|]. split.
    + replace ((_ : outcome unit * World P).2)
        with (with_log (log w3 ++
                [EvPrint (if sr_accepted resp
                          then "Core stats report sent (accepted)"
                          else "Core stats report rejected: " +:+ sr_message resp) None]) w3)
        by (by destruct (sr_accepted resp)).
      by apply SendFacts.token_step_print.
    + apply Forall_app. split; [done|]. by repeat constructor.
  - destruct (SendFacts.stats_report_failed_print e) as (msg & exc & Hmsg).
    eexists _, request. split; [by destruct e|]. split.
    + replace ((_ : outcome unit * World P).2)
        with (with_log (log w3 ++ [EvPrint msg exc]) w3).
      * by apply SendFacts.token_step_print.
      * destruct e; simpl in *; unfold print, print_exc, emit; simpl;
          by injection Hmsg as <- <-.
    + apply Forall_app. split; [done|]. by repeat constructor.
Qed.

(** The [try] statement of a send function returns; it changes the
    token attributes, [last_full_info_time] and, from true to false
    only, [running]; what it adds to the log are messages, token
    refreshes and calls of its own method. *)
Lemma send_body_step r ch w :
  ∃ run evs m (rq : request m) timeout,
    (send_body P r ch w).1 = Normal tt
    ∧ send_step run w (send_body P r ch w).2 evs
    ∧ (run = running (self w) ∨ run = false)
    ∧ Forall (call_event m ch rq timeout) evs.
Proof.
  destruct r as [include| |]; simpl.
  - destruct (send_heartbeat_body_step include ch w) as (run & evs & rq & H1 & H2 & H3 & H4).
    by exists run, evs, Heartbeat, rq, 10.
  - destruct (send_update_report_body_step ch w) as (evs & rq & H1 & H2 & H3).
    exists (running (self w)), evs, ReportUpdates, rq, 15.
    split; [done|]. split; [by apply SendFacts.token_send_step|]. split; [by left|done].
  - destruct (send_stats_report_body_step ch w) as (evs & rq & H1 & H2 & H3).
    exists (running (self w)), evs, ReportStats, rq, 10.
    split; [done|]. split; [by apply SendFacts.token_send_step|]. split; [by left|done].
Qed.

Lemma call_events_no_cancel m ch (rq : request m) timeout evs t :
  Forall (call_event m ch rq timeout) evs →
  started_before t evs = false ∧ cancelled_before t evs = false.
Proof.
  induction 1 as [|e evs He _ [IH1 IH2]]; [done|]. simpl.
  rewrite IH1, IH2.
  destruct He as [He|[md ->]]; [|done].
  by destruct e as [| [] ? ? ? [] | | | | |].
Qed.

Lemma send_body_facts r ch w :
  let w' := (send_body P r ch w).2 in
  (send_body P r ch w).1 = Normal tt
  ∧ (running (self w') = running (self w) ∨ running (self w') = false)
  ∧ timers w' = timers w
  ∧ timer_seq w' = timer_seq w
  ∧ (∀ k, handle_of k (self w') = handle_of k (self w))
  ∧ ∃ evs, log w' = log w ++ evs
           ∧ filter (λ e, is_timer_start e = true) evs = []
           ∧ ∀ t, started_before t evs = false ∧ cancelled_before t evs = false.
Proof.
  intros w'. subst w'.
  destruct (send_body_step r ch w) as (run & evs & m & rq & timeout & Hret & Hs & Hrun & Hc).
  apply SendFacts.send_step_fields in Hs as (Hr & Ht & Hq & Hh & _ & _ & Hlog).
  split; [done|]. split; [rewrite Hr; tauto|]. do 3 (split; [done|]).
  exists evs. split; [done|]. split.
  - by apply (ClientFacts.call_events_no_timer m ch rq timeout).
  - intros t. by apply (call_events_no_cancel m ch rq timeout).
Qed.

End Facts.
End ThreadFacts.

Module SettleFacts.
Section Facts.
Context (P : Platform).
Implicit Types (w : World P) (th : thread) (cfg : config P).

Lemma sum_insert {A} (g : A → nat) (l : list A) (i : nat) (x y : A) :
  l !! i = Some x →
  (sum_list_with g (<[i := y]> l) + g x = sum_list_with g l + g y)%nat.
Proof.
  revert i. induction l as [|a l IH]; intros [|i] H; simpl in *; try done.
  - injection H as ->. lia.
  - specialize (IH i H). lia.
Qed.

Lemma sum_snoc {A} (g : A → nat) (l : list A) (x : A) :
  sum_list_with g (l ++ [x]) = (sum_list_with g l + g x)%nat.
Proof. rewrite sum_list_with_app. simpl. lia. Qed.

Lemma armed_code (c : routine) :
  armed sends (code_of P c) = 0%nat ∧ armed starts (code_of P c) = 0%nat.
Proof. by destruct c. Qed.

Lemma armed_loop_code (k : task) :
  armed_thread sends [loop_code k] = 0%nat ∧ armed_thread starts [loop_code k] = 0%nat.
Proof. by destruct k. Qed.

Lemma running_set_handle k v c : running (set_handle k v c) = running c.
Proof. by destruct k. Qed.

Ltac settled :=
  repeat split; simpl; rewrite ?running_set_handle; try done; try lia;
  try (intros; lia).

(** One step of a thread in a stopped client. *)
Lemma run_op_stopped o rest outer w :
  running (self w) = false →
  let th := (o :: rest) :: outer in
  let th' := (run_op P o rest outer w).1 in
  let w' := (run_op P o rest outer w).2 in
  running (self w') = false
  ∧ (armed_thread sends th' ≤ armed_thread sends th)%nat
  ∧ (armed_thread starts th' ≤ armed_thread starts th)%nat
  ∧ (timer_starts (log w') + armed_thread starts th'
     ≤ timer_starts (log w) + armed_thread starts th)%nat
  ∧ (length (timers w') + armed_thread starts th'
     ≤ length (timers w) + armed_thread starts th)%nat
  ∧ (armed_thread sends th' = armed_thread sends th →
     filter (λ e, is_any_rpc e = true) (log w')
     = filter (λ e, is_any_rpc e = true) (log w))
  ∧ (armed_thread starts th = 0%nat → timers w' ⊆ timers w).
Proof.
  intros Hrun th th' w'. subst th th' w'. unfold timer_starts, armed_thread.
  destruct o; simpl; rewrite ?Hrun; simpl.
  - (* IfNotRunningReturn *) settled.
  - (* IncludeFullInfo *)
    destruct (time_time P (env w)) as [t e]. settled.
  - (* SendGuard *) settled.
  - (* SendBody *)
    destruct (ThreadFacts.send_body_facts P r ch w)
      as (Hret & Hr & Ht & _ & _ & evs & Hlog & Hst & _).
    destruct (send_body P r ch w) as [[[]|e] w1]; simpl in *; [|done].
    split; [by destruct Hr as [-> | ->]|].
    split; [lia|]. split; [lia|].
    rewrite Hlog, Ht, filter_app, length_app, Hst. simpl.
    split; [lia|]. split; [lia|]. split; [intros ?; lia|]. done.
  - (* TimerCreate *) settled.
  - (* TimerDaemon *)
    destruct (handle_of k (self w)); settled.
  - (* TimerStart *)
    destruct (handle_of k (self w)) as [t|]; [|settled].
    destruct (started_before t (log w)); [settled|]. simpl.
    rewrite !filter_app, length_app. simpl.
    destruct (cancelled_before t (log w)); rewrite ?length_app; simpl;
      rewrite ?app_nil_r; settled.
  - (* Say *)
    rewrite !filter_app, length_app. simpl. rewrite !app_nil_r. settled.
  - (* RunningFalse *) settled.
  - (* IfNoHandleReturn *)
    destruct (handle_of k (self w)); settled.
  - (* HandleCancel *)
    destruct (handle_of k (self w)) as [t|]; [|settled]. simpl.
    rewrite !filter_app, length_app. simpl. rewrite !app_nil_r.
    pose proof (length_filter (λ t', timer_id t' ≠ timer_id t) (timers w)).
    settled. intros _. apply ClientFacts.filter_timers_subseteq.
  - (* HandleClear *) settled.
  - (* IfNoChannelReturn *)
    destruct (channel (self w)); settled.
  - (* ChannelClose *)
    destruct (channel (self w)); simpl; rewrite ?filter_app, ?length_app;
      simpl; rewrite ?app_nil_r; settled.
  - (* ChannelClear *) settled.
  - (* Call *)
    destruct (armed_code c) as [-> ->]. settled.
Qed.

Lemma run_thread_stopped th w th' w' :
  running (self w) = false →
  run_thread P th w = Some (th', w') →
  running (self w') = false
  ∧ (armed_thread sends th' ≤ armed_thread sends th)%nat
  ∧ (armed_thread starts th' ≤ armed_thread starts th)%nat
  ∧ (timer_starts (log w') + armed_thread starts th'
     ≤ timer_starts (log w) + armed_thread starts th)%nat
  ∧ (length (timers w') + armed_thread starts th'
     ≤ length (timers w) + armed_thread starts th)%nat
  ∧ (armed_thread sends th' = armed_thread sends th →
     filter (λ e, is_any_rpc e = true) (log w')
     = filter (λ e, is_any_rpc e = true) (log w))
  ∧ (armed_thread starts th = 0%nat → timers w' ⊆ timers w).
Proof.
  intros Hrun Hstep. destruct th as [|[|o rest] outer]; simpl in Hstep; [done| |].
  - injection Hstep as <- <-. unfold armed_thread. simpl. settled.
  - pose proof (run_op_stopped o rest outer w Hrun) as H. cbv zeta in H.
    destruct (run_op P o rest outer w) as [th1 w1]. by injection Hstep as <- <-.
Qed.

Lemma winds_down_refl cfg : running (self (world cfg)) = false → winds_down cfg cfg.
Proof. intros H. unfold winds_down. settled. Qed.

Lemma winds_down_trans cfg1 cfg2 cfg3 :
  winds_down cfg1 cfg2 → winds_down cfg2 cfg3 → winds_down cfg1 cfg3.
Proof.
  intros (_ & A1 & A2 & A3 & A4 & A5 & A6) (B0 & B1 & B2 & B3 & B4 & B5 & B6).
  unfold winds_down. split; [done|]. split; [lia|]. split; [lia|].
  split; [lia|]. split; [lia|]. split.
  - intros Heq. rewrite B5 by lia. apply A5. lia.
  - intros Hz. etrans; [apply B6; lia|by apply A6].
Qed.

Lemma step_winds_down cfg cfg' :
  running (self (world cfg)) = false → step P cfg cfg' → winds_down cfg cfg'.
Proof.
  intros Hrun Hstep. unfold winds_down, armed_sends, armed_starts.
  destruct Hstep as [cfg t Hin|cfg i th th' w' Hi Hth|cfg]; simpl.
  - rewrite !sum_snoc.
    destruct (armed_loop_code (timer_callback t)) as [-> ->].
    pose proof (length_filter (λ t', timer_id t' ≠ timer_id t) (timers (world cfg))).
    settled. intros _. apply ClientFacts.filter_timers_subseteq.
  - destruct (run_thread_stopped th (world cfg) th' w' Hrun Hth)
      as (H0 & H1 & H2 & H3 & H4 & H5 & H6).
    pose proof (sum_insert (armed_thread sends) _ i th th' Hi).
    pose proof (sum_insert (armed_thread starts) _ i th th' Hi).
    split; [done|]. split; [lia|]. split; [lia|]. split; [lia|]. split; [lia|].
    split.
    + intros Heq. apply H5. lia.
    + intros Hz. apply H6. 
      assert (armed_thread starts th ≤ sum_list_with (armed_thread starts) (threads cfg))%nat; [|lia].
      clear -Hi. revert i Hi. induction (threads cfg) as [|a l IH]; intros [|i] Hi;
        simpl in *; try done.
      * injection Hi as ->. lia.
      * specialize (IH i Hi). lia.
  - rewrite !sum_snoc. unfold armed_thread. simpl. settled.
Qed.

Lemma steps_wind_down cfg cfg' :
  running (self (world cfg)) = false → steps P cfg cfg' → winds_down cfg cfg'.
Proof.
  intros Hrun Hsteps. induction Hsteps as [cfg|cfg1 cfg2 cfg3 H12 _ IH].
  - by apply winds_down_refl.
  - pose proof (step_winds_down _ _ Hrun H12) as H.
    apply (winds_down_trans _ _ _ H). apply IH. apply H.
Qed.

Lemma play_steps ms cfg cfg' : play P ms cfg = Some cfg' → steps P cfg cfg'.
Proof.
  revert cfg. induction ms as [|m ms IH]; intros cfg; simpl.
  - intros [= <-]. constructor.
  - destruct (play_move P m cfg) as [cfg1|] eqn:Hm; [|done].
    intros H. apply (steps_cons P cfg cfg1 cfg'); [|by apply IH].
    destruct m as [j|i|]; simpl in Hm.
    + destruct (timers (world cfg) !! j) as [t|] eqn:Hj; [|done].
      injection Hm as <-. apply step_fire. by apply (list_elem_of_lookup_2 _ j).
    + destruct (threads cfg !! i) as [th|] eqn:Hi; [|done].
      destruct (run_thread P th (world cfg)) as [[th' w']|] eqn:Hth; [|done].
      injection Hm as <-. by apply (step_run P cfg i th th' w').
    + injection Hm as <-. apply step_stop.
Qed.

Lemma steps_trans cfg1 cfg2 cfg3 :
  steps P cfg1 cfg2 → steps P cfg2 cfg3 → steps P cfg1 cfg3.
Proof.
  induction 1 as [|a b c Hab _ IH]; [done|].
  intros H. apply (steps_cons P a b cfg3 Hab). by apply IH.
Qed.

Lemma play_default ms cfg :
  match play P ms cfg with Some _ => true | None => false end = true →
  play P ms cfg = Some (default cfg (play P ms cfg)).
Proof. by destruct (play P ms cfg). Qed.

End Facts.
End SettleFacts.

Module OrderFacts.
Section Facts.
Context (P : Platform).
Implicit Types (w : World P) (th : thread) (cfg : config P) (k : task).

Lemma ahead_code_of k c :
  sum_list_with (ahead_op k) (code_of P c) = ahead_code k c.
Proof. destruct c; simpl; lia. Qed.

Lemma ahead_loop_code k k' :
  ahead_thread k [loop_code k'] = if bool_decide (k' = k) then 1%nat else 0%nat.
Proof. destruct k'; simpl; lia. Qed.

Lemma handle_of_set_handle k k' v c :
  handle_of k (set_handle k' v c) = if bool_decide (k = k') then v else handle_of k c.
Proof. by destruct k, k'. Qed.

Lemma pending_filter k t w :
  (length (filter (λ t', timer_callback t' = k)
             (filter (λ t', timer_id t' ≠ timer_id t) (timers w)))
   ≤ pending k w)%nat.
Proof.
  unfold pending. induction (timers w) as [|a l IH]; [done|].
  rewrite !filter_cons. destruct (decide (timer_id a ≠ timer_id t)).
  - rewrite !filter_cons. destruct (decide (timer_callback a = k)); simpl; lia.
  - destruct (decide (timer_callback a = k)); simpl; lia.
Qed.

Lemma pending_fired k t w :
  t ∈ timers w → timer_callback t = k →
  (S (length (filter (λ t', timer_callback t' = k)
                (filter (λ t', timer_id t' ≠ timer_id t) (timers w))))
   ≤ pending k w)%nat.
Proof.
  unfold pending. intros Hin Hk. induction (timers w) as [|a l IH]; [by apply elem_of_nil in Hin|].
  apply elem_of_cons in Hin as [<-|Hin].
  - rewrite filter_cons_False by (intros H; by apply H).
    rewrite filter_cons_True by done. simpl.
    pose proof (pending_filter k t {| self := self w; env := env w; store := store w;
                                     timers := l; timer_seq := timer_seq w; log := log w |}) as H.
    unfold pending in H. simpl in H. lia.
  - specialize (IH Hin). rewrite !filter_cons.
    destruct (decide (timer_id a ≠ timer_id t)).
    + rewrite !filter_cons. destruct (decide (timer_callback a = k)); simpl; lia.
    + destruct (decide (timer_callback a = k)); simpl; lia.
Qed.

(** One step of a thread: the timers of a task that are pending or may
    still be started do not become more. *)
Lemma run_op_order o rest outer w k :
  tidy (self w) →
  let th := (o :: rest) :: outer in
  let th' := (run_op P o rest outer w).1 in
  let w' := (run_op P o rest outer w).2 in
  tidy (self w')
  ∧ (pending k w' + ahead_thread k th' ≤ pending k w + ahead_thread k th)%nat.
Proof.
  intros Htidy th th' w'. subst th th' w'. unfold ahead_thread, pending.
  destruct o; simpl.
  - destruct (running (self w)); simpl; split; try done; lia.
  - destruct (time_time P (env w)) as [t e]. simpl. split; [done|lia].
  - destruct (running (self w)), (stub (self w)); simpl; split; try done; lia.
  - destruct (ThreadFacts.send_body_facts P r ch w) as (_ & _ & Ht & _ & Hh & _).
    destruct (send_body P r ch w) as [[[]|e] w1]; simpl in *.
    + split; [|rewrite Ht; lia]. intros k' t. rewrite Hh. apply Htidy.
    + split; [|rewrite Ht; lia]. intros k' t. rewrite Hh. apply Htidy.
  - split; [|lia]. intros k' t. rewrite handle_of_set_handle.
    case_bool_decide as Hk; [|apply Htidy]. by intros [= <-].
  - destruct (handle_of k0 (self w)); simpl; split; try done; lia.
  - destruct (handle_of k0 (self w)) as [t|] eqn:Hh; simpl; [|split; [done|lia]].
    destruct (started_before t (log w)); simpl; [split; [done|lia]|].
    split; [done|].
    destruct (cancelled_before t (log w)); simpl.
    + lia.
    + rewrite filter_app, length_app. simpl.
      rewrite filter_cons, filter_nil. pose proof (Htidy k0 t Hh) as Hcb.
      destruct (decide (timer_callback t = k)) as [Hk|Hk]; simpl;
        case_bool_decide; simpl; try lia. congruence.
  - split; [done|lia].
  - split; [|lia]. intros k' t.
    destruct k'; [apply (Htidy HeartbeatTask t)|apply (Htidy UpdateReportTask t)
                 |apply (Htidy StatsReportTask t)].
  - destruct (handle_of k0 (self w)); simpl; split; try done; lia.
  - destruct (handle_of k0 (self w)) as [t|]; simpl; [|split; [done|lia]].
    split; [done|].
    pose proof (pending_filter k t w) as H. unfold pending in H. lia.
  - split; [|lia]. intros k' t. simpl. rewrite handle_of_set_handle.
    case_bool_decide; [done|apply Htidy].
  - destruct (channel (self w)); simpl; split; try done; lia.
  - destruct (channel (self w)); simpl; split; try done; lia.
  - split; [|lia]. intros k' t. simpl.
    destruct k'; [apply (Htidy HeartbeatTask t)|apply (Htidy UpdateReportTask t)
                 |apply (Htidy StatsReportTask t)].
  - rewrite ahead_code_of. split; [done|lia].
Qed.

Lemma run_thread_order th w th' w' k :
  tidy (self w) → run_thread P th w = Some (th', w') →
  tidy (self w')
  ∧ (pending k w' + ahead_thread k th' ≤ pending k w + ahead_thread k th)%nat.
Proof.
  intros Htidy Hstep. destruct th as [|[|o rest] outer]; simpl in Hstep; [done| |].
  - injection Hstep as <- <-. split; [done|]. unfold ahead_thread. simpl. lia.
  - pose proof (run_op_order o rest outer w k Htidy) as H. cbv zeta in H.
    destruct (run_op P o rest outer w) as [th1 w1]. by injection Hstep as <- <-.
Qed.

Lemma step_in_order cfg cfg' : in_order cfg → step P cfg cfg' → in_order cfg'.
Proof.
  intros [Htidy Hone] Hstep.
  destruct Hstep as [cfg t Hin|cfg i th th' w' Hi Hth|cfg]; unfold in_order, ahead; simpl.
  - split; [done|]. intros k. specialize (Hone k). unfold ahead in Hone.
    rewrite SettleFacts.sum_snoc, ahead_loop_code.
    case_bool_decide as Hk.
    + pose proof (pending_fired k t (world cfg) Hin Hk) as H.
      unfold pending at 1. simpl. lia.
    + pose proof (pending_filter k t (world cfg)) as H.
      unfold pending at 1. simpl. lia.
  - split; [by apply (run_thread_order th (world cfg) th' w' HeartbeatTask)|].
    intros k. specialize (Hone k). unfold ahead in Hone.
    destruct (run_thread_order th (world cfg) th' w' k Htidy Hth) as [_ H].
    pose proof (SettleFacts.sum_insert (ahead_thread k) _ i th th' Hi). lia.
  - split; [done|]. intros k. specialize (Hone k). unfold ahead in Hone.
    rewrite SettleFacts.sum_snoc. unfold ahead_thread at 2. simpl. lia.
Qed.

Lemma steps_in_order cfg cfg' : in_order cfg → steps P cfg cfg' → in_order cfg'.
Proof.
  intros Hord Hsteps. induction Hsteps as [|cfg1 cfg2 cfg3 Hstep _ IH]; [done|].
  apply IH. by apply (step_in_order cfg1).
Qed.

Lemma start_in_order w :
  timers w = [] → tidy (self w) →
  in_order {| world := w; threads := [[start_heartbeat_code]] |}.
Proof.
  intros Hnone Htidy. split; [done|]. intros k. unfold pending, ahead. simpl.
  rewrite Hnone. simpl. unfold ahead_thread. simpl.
  destruct k; simpl; lia.
Qed.

End Facts.
End OrderFacts.

(** *** A thread left alone does what the method does *)

Module AloneFacts.
Section Facts.
Context (P : Platform).
Implicit Types (w : World P) (th : thread) (k : task) (r : report).

Lemma run_alone_done n w : run_alone P n [] w = ([], w).
Proof. by destruct n. Qed.

Lemma stop_alone w n :
  (30 ≤ n)%nat → run_alone P n [stop_code] w = ([], (stop P w).2).
Proof.
  intros Hn. do 30 (destruct n as [|n]; [lia|]). clear Hn.
  unfold stop, cancel_handle, Timer_cancel.
  unfold print, bind, ret, get_self, assign, emit. simpl.
  destruct (heartbeat_timer (self w)) as [t1|] eqn:H1; simpl; rewrite ?H1; simpl;
    (destruct (update_report_timer (self w)) as [t2|] eqn:H2; simpl;
     rewrite ?H2; simpl);
    (destruct (stats_report_timer (self w)) as [t3|] eqn:H3; simpl;
     rewrite ?H3; simpl);
    (destruct (channel (self w)) as [ch|] eqn:H4; simpl; rewrite ?H4; simpl);
    reflexivity.
Qed.

Lemma next_timer_unused k w :
  fresh_log w →
  started_before (next_timer k w) (log w) = false
  ∧ cancelled_before (next_timer k w) (log w) = false.
Proof. intros H. by apply H. Qed.

Lemma run_alone_add a b th w :
  run_alone P (a + b) th w
  = run_alone P b (run_alone P a th w).1 (run_alone P a th w).2.
Proof.
  revert th w. induction a as [|a IH]; intros th w; simpl; [done|].
  destruct (run_thread P th w) as [[th' w']|] eqn:Hth; [apply IH|].
  simpl. destruct b; simpl; [done|]. by rewrite Hth.
Qed.

Lemma run_alone_more a n th w w' :
  run_alone P a th w = ([], w') → (a ≤ n)%nat → run_alone P n th w = ([], w').
Proof.
  intros Ha Hn. replace n with (a + (n - a))%nat by lia.
  rewrite run_alone_add, Ha. simpl. apply run_alone_done.
Qed.

Lemma reaches_trans n1 n2 th1 w1 th2 w2 th3 w3 :
  reaches n1 th1 w1 th2 w2 → reaches n2 th2 w2 th3 w3 →
  reaches (n1 + n2) th1 w1 th3 w3.
Proof.
  intros (j1 & H1 & E1) (j2 & H2 & E2). exists (j1 + j2)%nat. split; [lia|].
  by rewrite run_alone_add, E1.
Qed.

Lemma reaches_step n th w th' w' th2 w2 :
  run_thread P th w = Some (th', w') → reaches n th' w' th2 w2 →
  reaches (S n) th w th2 w2.
Proof.
  intros Hth (j & Hj & E). exists (S j). split; [lia|]. simpl. by rewrite Hth.
Qed.

Lemma reaches_refl th w : reaches 0 th w th w.
Proof. by exists 0%nat. Qed.

Lemma reaches_alone n th w w' m :
  reaches n th w [] w' → (n ≤ m)%nat → run_alone P m th w = ([], w').
Proof. intros (j & Hj & E) Hm. apply (run_alone_more j); [done|lia]. Qed.

#[local] Opaque started_before cancelled_before.

Lemma schedule_reaches k w outer :
  fresh_log w →
  reaches 5 (code_of P (ScheduleCode k) :: outer) w outer (schedule P k w).2.
Proof.
  intros Hfresh. destruct (next_timer_unused k w Hfresh) as [Hs Hc].
  destruct (running (self w)) eqn:Hrun.
  - exists 5%nat. split; [lia|].
    destruct k; simpl;
      unfold _schedule_heartbeat, _schedule_update_report,
        _schedule_stats_report, Timer_start;
      unfold bind, ret, get_self, assign; simpl; rewrite Hrun; simpl;
      rewrite Hs, Hc; reflexivity.
  - exists 1%nat. split; [lia|].
    destruct k; simpl;
      unfold _schedule_heartbeat, _schedule_update_report,
        _schedule_stats_report;
      unfold bind, ret, get_self; simpl; by rewrite Hrun.
Qed.

#[local] Transparent started_before cancelled_before.

Lemma schedule_fresh k w : fresh_log w → fresh_log (schedule P k w).2.
Proof.
  intros Hfresh.
  assert (Hs : (schedule P k w).2 = w
               ∨ timer_seq (schedule P k w).2 = S (timer_seq w)
                 ∧ log (schedule P k w).2 = log w ++ [EvTimerStart (next_timer k w)]).
  { destruct k; simpl;
      unfold _schedule_heartbeat, _schedule_update_report,
        _schedule_stats_report, Timer_start;
      unfold bind, ret, get_self, assign; simpl;
      destruct (running (self w)); simpl; auto. }
  destruct Hs as [->|[Hq Hl]]; [done|].
  intros t Ht. rewrite Hq in Ht. destruct (Hfresh t ltac:(lia)) as [H1 H2].
  rewrite Hl. unfold started_before, cancelled_before in *.
  rewrite !existsb_app, H1, H2. simpl. rewrite orb_false_r.
  split; [|done]. apply bool_decide_eq_false. lia.
Qed.

Lemma send_body_fresh r ch w :
  fresh_log w → fresh_log (send_body P r ch w).2.
Proof.
  intros Hfresh t Ht.
  destruct (ThreadFacts.send_body_facts P r ch w)
    as (_ & _ & _ & Hq & _ & evs & Hlog & _ & Hev).
  rewrite Hq in Ht. destruct (Hfresh t Ht) as [H1 H2]. destruct (Hev t) as [H3 H4].
  rewrite Hlog. unfold started_before, cancelled_before in *.
  rewrite !existsb_app. by rewrite H1, H2, H3, H4.
Qed.

Lemma send_guarded r ch w :
  running (self w) = true → stub (self w) = Some ch →
  send P r w = send_body P r ch w.
Proof.
  intros Hrun Hstub. destruct r; simpl.
  - by apply ThreadFacts.send_heartbeat_guarded.
  - by apply ThreadFacts.send_update_report_guarded.
  - by apply ThreadFacts.send_stats_report_guarded.
Qed.

Lemma send_idle r w :
  running (self w) = false ∨ stub (self w) = None → send P r w = (Normal tt, w).
Proof.
  intros H. destruct r; simpl.
  - by apply ClientFacts.send_heartbeat_idle.
  - by apply SendFacts.send_report_idle.
  - by apply SendFacts.send_report_idle.
Qed.

Lemma send_returns r w : (send P r w).1 = Normal tt.
Proof.
  destruct r; simpl.
  - apply ClientFacts.send_heartbeat_returns.
  - apply ClientFacts.send_update_report_returns.
  - apply ClientFacts.send_stats_report_returns.
Qed.

Lemma send_fresh r w : fresh_log w → fresh_log (send P r w).2.
Proof.
  intros Hfresh. destruct (running (self w)) eqn:Hrun;
    [|by rewrite send_idle by auto].
  destruct (stub (self w)) as [ch|] eqn:Hstub; [|by rewrite send_idle by auto].
  rewrite (send_guarded r ch) by done. by apply send_body_fresh.
Qed.

Lemma send_reaches r w outer :
  reaches 3 (code_of P (SendCode r) :: outer) w outer (send P r w).2.
Proof.
  destruct (running (self w)) eqn:Hrun.
  2:{ exists 1%nat. split; [lia|]. rewrite send_idle by auto. simpl. by rewrite Hrun. }
  destruct (stub (self w)) as [ch|] eqn:Hstub.
  2:{ exists 1%nat. split; [lia|]. rewrite send_idle by auto. simpl.
      by rewrite Hrun, Hstub. }
  exists 3%nat. split; [lia|]. rewrite (send_guarded r ch) by done.
  simpl. rewrite Hrun, Hstub. simpl.
  pose proof (ThreadFacts.send_body_facts P r ch w) as [Hret _].
  by destruct (send_body P r ch w) as [[[]|e] w1].
Qed.

Lemma reaches_le n m th w th' w' :
  reaches n th w th' w' → (n ≤ m)%nat → reaches m th w th' w'.
Proof. intros (j & Hj & E) Hm. exists j. split; [lia|done]. Qed.

Lemma bind_send {A} r (k : unit → M P A) w :
  bind P (send P r) k w = k tt (send P r w).2.
Proof.
  unfold bind. pose proof (send_returns r w) as H.
  by destruct (send P r w) as [[[]|e] w1].
Qed.

(** [if self.running: self._schedule_...()] *)
Lemma reschedule_reaches k w outer :
  fresh_log w →
  reaches 8 (code_of P (RescheduleCode k) :: outer) w outer
    (if running (self w) then (schedule P k w).2 else w).
Proof.
  intros Hfresh. destruct (running (self w)) eqn:Hrun.
  - apply (reaches_step 7 _ _ ([Call (ScheduleCode k)] :: outer) w);
      [by simpl; rewrite Hrun|].
    apply (reaches_step 6 _ _ (code_of P (ScheduleCode k) :: [] :: outer) w); [done|].
    apply (reaches_trans 5 1 _ _ ([] :: outer) (schedule P k w).2);
      [by apply schedule_reaches|].
    apply (reaches_step 0 _ _ outer (schedule P k w).2); [done|apply reaches_refl].
  - apply (reaches_step 7 _ _ outer w); [by simpl; rewrite Hrun|].
    apply (reaches_le 0); [apply reaches_refl|lia].
Qed.

Lemma loop_by_parts k w :
  loop P k w =
    if running (self w) then
      let w0 := match k with
                | HeartbeatTask => with_env (time_time P (env w)).2 w
                | _ => w
                end in
      let r := match k with
               | HeartbeatTask =>
                   Beat (Qle_bool 300 ((time_time P (env w)).1
                                       - last_full_info_time (self w)))
               | _ => report_of k
               end in
      (Normal tt,
       if running (self (send P r w0).2) then (schedule P k (send P r w0).2).2
       else (send P r w0).2)
    else (Normal tt, w).
Proof.
  assert (Hsched : ∀ k' w', (schedule P k' w').1 = Normal tt).
  { intros k' w'. destruct k'; simpl;
      unfold _schedule_heartbeat, _schedule_update_report,
        _schedule_stats_report, Timer_start;
      unfold bind, ret, get_self, assign; simpl; by destruct (running (self w')). }
  destruct k; simpl;
    unfold _heartbeat_loop, _update_report_loop, _stats_report_loop,
      _heartbeat_loop_send, _update_report_loop_send, _stats_report_loop_send,
      _heartbeat_loop_reschedule, _update_report_loop_reschedule,
      _stats_report_loop_reschedule;
    unfold bind at 1 2; unfold get_self; simpl;
    destruct (running (self w)); simpl; try done.
  - unfold bind at 1. unfold from_env. destruct (time_time P (env w)) as [t e]. simpl.
    change (send_heartbeat P ?f) with (send P (Beat f)). rewrite bind_send.
    unfold ret, bind, get_self. simpl. unfold with_env. simpl.
    destruct (running (self _)); [|done].
    pose proof (Hsched HeartbeatTask) as H. simpl in H.
    apply injective_projections; [apply H|done].
  - change (send_update_report P) with (send P Updates). rewrite bind_send.
    unfold ret, bind, get_self. simpl.
    destruct (running (self _)); [|done].
    pose proof (Hsched UpdateReportTask) as H. simpl in H.
    apply injective_projections; [apply H|done].
  - change (send_stats_report P) with (send P Stats). rewrite bind_send.
    unfold ret, bind, get_self. simpl.
    destruct (running (self _)); [|done].
    pose proof (Hsched StatsReportTask) as H. simpl in H.
    apply injective_projections; [apply H|done].
Qed.

(** A callback left alone is its loop function. *)
Lemma loop_alone k w n :
  (16 ≤ n)%nat → fresh_log w →
  run_alone P n [loop_code k] w = ([], (loop P k w).2).
Proof.
  intros Hn Hfresh. apply (reaches_alone 16); [|done].
  rewrite loop_by_parts. destruct (running (self w)) eqn:Hrun.
  2:{ apply (reaches_step 15 _ _ [] w); [by destruct k; simpl; rewrite Hrun|].
      apply (reaches_le 0); [apply reaches_refl|lia]. }
  cbv zeta. simpl.
  set (w0 := match k with HeartbeatTask => _ | _ => w end).
  set (r := match k with HeartbeatTask => Beat _ | _ => report_of k end).
  assert (Hfresh0 : fresh_log w0) by (subst w0; by destruct k).
  assert (Hgo : reaches 3 [loop_code k] w
                  (code_of P (SendCode r) :: [Call (RescheduleCode k)] :: []) w0).
  { subst w0 r. destruct k.
    - apply (reaches_step 2 _ _ [[IncludeFullInfo; Call (RescheduleCode HeartbeatTask)]] w);
        [by simpl; rewrite Hrun|].
      apply (reaches_step 1 _ _
               [[Call (SendCode (Beat (Qle_bool 300 ((time_time P (env w)).1
                                                     - last_full_info_time (self w)))));
                 Call (RescheduleCode HeartbeatTask)]]
               (with_env (time_time P (env w)).2 w));
        [simpl; by destruct (time_time P (env w))|].
      eapply (reaches_step 0); [done|]. apply reaches_refl.
    - apply (reaches_step 2 _ _ [[Call (SendCode Updates);
                                  Call (RescheduleCode UpdateReportTask)]] w);
        [by simpl; rewrite Hrun|].
      eapply (reaches_step 1); [done|]. apply (reaches_le 0); [apply reaches_refl|lia].
    - apply (reaches_step 2 _ _ [[Call (SendCode Stats);
                                  Call (RescheduleCode StatsReportTask)]] w);
        [by simpl; rewrite Hrun|].
      eapply (reaches_step 1); [done|]. apply (reaches_le 0); [apply reaches_refl|lia]. }
  pose proof (send_fresh r w0 Hfresh0) as Hfresh1.
  apply (reaches_trans 3 13 _ _ _ _ _ _ Hgo).
  apply (reaches_trans 3 10 _ _ [[Call (RescheduleCode k)]] (send P r w0).2);
    [apply send_reaches|].
  eapply (reaches_step 9); [done|].
  apply (reaches_trans 8 1 _ _ [[]] _ _ _ (reschedule_reaches k _ [[]] Hfresh1)).
  eapply (reaches_step 0); [done|]. apply reaches_refl.
Qed.

Lemma schedule_returns k w : (schedule P k w).1 = Normal tt.
Proof.
  destruct k; simpl;
    unfold _schedule_heartbeat, _schedule_update_report,
      _schedule_stats_report, Timer_start;
    unfold bind, ret, get_self, assign; simpl; by destruct (running (self w)).
Qed.

Lemma print_fresh msg w : fresh_log w → fresh_log (print P msg w).2.
Proof.
  intros Hfresh t Ht. simpl in *. destruct (Hfresh t Ht) as [H1 H2].
  unfold started_before, cancelled_before in *.
  rewrite !existsb_app, H1, H2. done.
Qed.

Lemma start_reporting_eq k w :
  k ≠ HeartbeatTask →
  ∃ msg,
    code_of P (start_code k)
    = [IfNotRunningReturn; Say msg; Call (SendCode (report_of k)); Call (ScheduleCode k)]
    ∧ start_reporting P k w =
        (Normal tt,
         if running (self w)
         then (schedule P k (send P (report_of k) (print P msg w).2).2).2
         else w).
Proof.
  intros Hk. destruct k; [done| |]; simpl.
  - eexists. split; [reflexivity|].
    unfold start_update_reporting. unfold bind at 1. unfold get_self. simpl.
    destruct (running (self w)); [|done]. simpl.
    unfold bind at 1. simpl.
    change (send_update_report P) with (send P Updates). rewrite bind_send.
    apply injective_projections; [apply (schedule_returns UpdateReportTask)|done].
  - eexists. split; [reflexivity|].
    unfold start_stats_reporting. unfold bind at 1. unfold get_self. simpl.
    destruct (running (self w)); [|done]. simpl.
    unfold bind at 1. simpl.
    change (send_stats_report P) with (send P Stats). rewrite bind_send.
    apply injective_projections; [apply (schedule_returns StatsReportTask)|done].
Qed.

Lemma start_reporting_reaches k w outer :
  k ≠ HeartbeatTask → fresh_log w →
  reaches 13 (code_of P (start_code k) :: outer) w outer (start_reporting P k w).2.
Proof.
  intros Hk Hfresh. destruct (start_reporting_eq k w Hk) as (msg & -> & ->). simpl.
  destruct (running (self w)) eqn:Hrun.
  2:{ apply (reaches_step 12 _ _ outer w); [by simpl; rewrite Hrun|].
      apply (reaches_le 0); [apply reaches_refl|lia]. }
  eapply (reaches_step 12); [by simpl; rewrite Hrun|].
  eapply (reaches_step 11); [done|].
  eapply (reaches_step 10); [done|].
  pose proof (print_fresh msg w Hfresh) as Hf1.
  pose proof (send_fresh (report_of k) _ Hf1) as Hf2.
  eapply (reaches_trans 3 7); [apply send_reaches|].
  eapply (reaches_step 6); [done|].
  eapply (reaches_trans 5 1); [by apply schedule_reaches|].
  eapply (reaches_step 0); [done|]. apply reaches_refl.
Qed.

Lemma start_reporting_fresh k w : fresh_log w → fresh_log (start_reporting P k w).2.
Proof.
  intros Hfresh. destruct (decide (k = HeartbeatTask)) as [->|Hk]; [done|].
  destruct (start_reporting_eq k w Hk) as (msg & _ & ->). simpl.
  destruct (running (self w)); [|done].
  by apply schedule_fresh, send_fresh, print_fresh.
Qed.

Lemma bind_normal {A B} (m : M P A) (k : A → M P B) w a :
  (m w).1 = Normal a → bind P m k w = k a (m w).2.
Proof. unfold bind. destruct (m w) as [[a'|e] w1]; simpl; [|done]. by intros [= ->]. Qed.

Lemma start_reporting_returns k w : (start_reporting P k w).1 = Normal tt.
Proof.
  destruct (decide (k = HeartbeatTask)) as [->|Hk]; [done|].
  by destruct (start_reporting_eq k w Hk) as (msg & _ & ->).
Qed.

Lemma start_heartbeat_by_parts w :
  start_heartbeat P w =
    (Normal tt,
     if running (self w) then
       let w1 := (print P ("Starting heartbeat thread ("
                           +:+ pretty HEARTBEAT_INTERVAL_SECONDS
                           +:+ " second interval)...") w).2 in
       let w2 := (schedule P HeartbeatTask (send P (Beat true) w1).2).2 in
       (start_reporting P StatsReportTask (start_reporting P UpdateReportTask w2).2).2
     else w).
Proof.
  unfold start_heartbeat. unfold bind at 1. unfold get_self. simpl.
  destruct (running (self w)); [|done]. simpl.
  rewrite (bind_normal (print P _) _ w tt) by done.
  rewrite (bind_normal (send_heartbeat P true) _ _ tt)
    by apply ClientFacts.send_heartbeat_returns.
  rewrite (bind_normal (_schedule_heartbeat P) _ _ tt)
    by apply (schedule_returns HeartbeatTask).
  rewrite (bind_normal (start_update_reporting P) _ _ tt)
    by apply (start_reporting_returns UpdateReportTask).
  apply injective_projections; [apply (start_reporting_returns StatsReportTask)|done].
Qed.

(** The main thread left alone in [start_heartbeat] does what the
    method does. *)
Lemma start_heartbeat_alone w n :
  (41 ≤ n)%nat → fresh_log w →
  run_alone P n [start_heartbeat_code] w = ([], (start_heartbeat P w).2).
Proof.
  intros Hn Hfresh. apply (reaches_alone 41); [|done].
  rewrite start_heartbeat_by_parts. cbn [snd]. cbv zeta.
  destruct (running (self w)) eqn:Hrun.
  2:{ eapply reaches_step; [by simpl; rewrite Hrun|].
      apply (reaches_le 0); [apply reaches_refl|lia]. }
  eapply reaches_step; [by simpl; rewrite Hrun|].
  eapply reaches_step; [done|].
  eapply reaches_step; [done|].
  match goal with |- context [send P (Beat true) ?w0] => set (w1 := w0) end.
  assert (Hf1 : fresh_log w1) by (by apply print_fresh).
  pose proof (send_fresh (Beat true) w1 Hf1) as Hf2.
  pose proof (schedule_fresh HeartbeatTask _ Hf2) as Hf3.
  pose proof (start_reporting_fresh UpdateReportTask _ Hf3) as Hf4.
  eapply (reaches_trans 3); [apply send_reaches|].
  eapply reaches_step; [done|].
  eapply (reaches_trans 5); [by apply schedule_reaches|].
  eapply reaches_step; [done|].
  eapply (reaches_trans 13); [by apply (start_reporting_reaches UpdateReportTask)|].
  eapply reaches_step; [done|].
  eapply (reaches_trans 13); [by apply (start_reporting_reaches StatsReportTask)|].
  eapply reaches_step; [done|]. apply reaches_refl.
Qed.

End Facts.
End AloneFacts.

(** C3. When the response to a heartbeat has [alive = false], the
    [try] statement of [send_heartbeat] leaves the client stopped
    ([running] is false).  From then on, however the threads of the
    callbacks, of [start_heartbeat] and of [stop] are interleaved
    (at every test of [running], every use of a timer handle and every
    start of a timer; the [try] statement of a send is one step),
    [running] stays false, and a thread sends or starts a timer only
    where it was already past the test of [running] that guards the
    send or the start: the armed sends and starts only become fewer,
    no more timers are started, or pending, than starts were armed,
    and the stub is called only while an armed send is used up.  The
    callback of a timer that fires is not armed, nor is [stop], and
    each loop function called in such a world returns at once.  So when
    nothing is armed no stub is called and no timer is started any
    more.  The thread of a callback, left alone, does what its loop
    function does. *)
Theorem C3_alive_false_winds_down (P : Platform) (w : World P)
    (include_full_info : bool) (ch : Channel) (rq : HeartbeatRequest)
    (w1 : World P) (resp : HeartbeatResponse) (w2 : World P) :
  build_heartbeat_request P include_full_info w = (Normal rq, w1) →
  _call_with_auth P Heartbeat ch rq 10 w1 = (Normal resp, w2) →
  hb_alive resp = false →
  let w' := (send_heartbeat_body P include_full_info ch w).2 in
  running (self w') = false
  ∧ (∀ ths cfg',
       steps P {| world := w'; threads := ths |} cfg' →
       winds_down {| world := w'; threads := ths |} cfg'
       ∧ ∀ k, loop P k (world cfg') = (Normal tt, world cfg'))
  ∧ (∀ k, armed_thread sends [loop_code k] = 0%nat
          ∧ armed_thread starts [loop_code k] = 0%nat)
  ∧ armed_thread sends [stop_code] = 0%nat
  ∧ armed_thread starts [stop_code] = 0%nat
  ∧ (∀ ths cfg',
       armed_sends {| world := w'; threads := ths |} = 0%nat →
       armed_starts {| world := w'; threads := ths |} = 0%nat →
       steps P {| world := w'; threads := ths |} cfg' →
       filter (λ e, is_any_rpc e = true) (log (world cfg'))
       = filter (λ e, is_any_rpc e = true) (log w')
       ∧ (timer_starts (log (world cfg')) ≤ timer_starts (log w'))%nat
       ∧ timers (world cfg') ⊆ timers w')
  ∧ ∀ k (w0 : World P),
      fresh_log w0 → run_alone P 16 [loop_code k] w0 = ([], (loop P k w0).2).
Proof.
  intros Hbuild Hcall Halive w'.
  assert (Hstopped : running (self w') = false).
  { subst w'. rewrite ThreadFacts.send_heartbeat_body_eq.
    rewrite Hbuild, Hcall, ClientFacts.handle_heartbeat_response_eq.
    by rewrite Halive. }
  split; [done|]. split; [|split; [|split; [done|split; [done|split]]]].
  - intros ths cfg' Hsteps.
    pose proof (SettleFacts.steps_wind_down P {| world := w'; threads := ths |} cfg'
                  Hstopped Hsteps) as Hw.
    split; [done|]. intros k. apply ClientFacts.loop_stopped. apply Hw.
  - intros k. apply SettleFacts.armed_loop_code.
  - intros ths cfg' Hsends Hstarts Hsteps.
    destruct (SettleFacts.steps_wind_down P {| world := w'; threads := ths |} cfg'
                Hstopped Hsteps)
      as (_ & H1 & H2 & H3 & _ & H5 & H6). simpl in *.
    split; [apply H5; lia|]. split; [lia|]. by apply H6.
  - intros k w0 Hfresh. by apply AloneFacts.loop_alone.
Qed.

(** C3 at work: the server ends the session in its first answer. *)
Lemma C3_witness :
  running (self (send_heartbeat_body Script.platform false
                   (insecure_channel "10.0.0.1:50051") Script.world_session_ended).2)
  = false.
Proof.
  refine (proj1 (C3_alive_false_winds_down Script.platform
                   Script.world_session_ended false
                   (insecure_channel "10.0.0.1:50051") Script.ping
                   (build_heartbeat_request Script.platform false
                      Script.world_session_ended).2
                   {| hb_alive := false; hb_latency_ms := 12 |}
                   (_call_with_auth Script.platform Heartbeat
                      (insecure_channel "10.0.0.1:50051") Script.ping 10
                      (build_heartbeat_request Script.platform false
                         Script.world_session_ended).2).2
                   eq_refl eq_refl eq_refl)).
Defined.

(** X22. [start_heartbeat] in the main thread, the callbacks of the
    timers and [stop], interleaved at every test of [running], every
    use of a timer handle and every start of a timer (the [try]
    statement of a send is one step): for each of the three tasks, the
    timers that are pending and those that a thread may still start
    are together at most one.  The main thread, left alone, does what
    [start_heartbeat] does. *)
Theorem one_timer_per_task (P : Platform) (w : World P) (cfg : config P) :
  timers w = [] → tidy (self w) →
  steps P {| world := w; threads := [[start_heartbeat_code]] |} cfg →
  (∀ k, (pending k (world cfg) + ahead k cfg ≤ 1)%nat)
  ∧ (fresh_log w →
     run_alone P 41 [start_heartbeat_code] w = ([], (start_heartbeat P w).2)).
Proof.
  intros Hnone Htidy Hsteps. split.
  - apply (OrderFacts.steps_in_order P
             {| world := w; threads := [[start_heartbeat_code]] |}
             cfg (OrderFacts.start_in_order P w Hnone Htidy) Hsteps).
  - intros Hfresh. by apply AloneFacts.start_heartbeat_alone.
Qed.

(** X22 at work: the heartbeat timer fires while the main thread is
    still in [start_update_reporting]; when its callback has ended,
    one heartbeat timer is pending again. *)
Lemma one_timer_per_task_witness :
  (pending HeartbeatTask (world Late.underway)
   + ahead HeartbeatTask Late.underway ≤ 1)%nat.
Proof.
  refine (proj1 (one_timer_per_task Script.platform (world Late.starting) Late.underway
                   eq_refl _ _) HeartbeatTask).
  - intros k t. destruct k; discriminate.
  - apply (SettleFacts.play_steps _ Late.heartbeat_during_start).
    apply SettleFacts.play_default. by vm_compute.
Defined.

(** X23. [stop()] as a thread, left alone, does what the function
    [stop] does.  In the world it leaves, however the threads that are
    still running are interleaved (at every test of [running], every
    use of a timer handle and every start of a timer; the [try]
    statement of a send is one step): [running] stays false; the
    armed sends and starts only become fewer, and the pending timers
    are at most those [stop] left and one for each thread that was
    past its test of [running] before the start of a timer; the stub
    is called only by a thread that was past the guard of its send.
    When no thread is past such a test, every timer still pending was
    pending before [stop] and in none of the three handles, and no
    stub is called.  The callback of any timer that fires returns at
    once. *)
Theorem stop_winds_down (P : Platform) (w : World P) (ths : list thread)
    (cfg' : config P) :
  let w' := (stop P w).2 in
  let cfg := {| world := w'; threads := ths |} in
  steps P cfg cfg' →
  run_alone P 30 [stop_code] w = ([], w')
  ∧ running (self (world cfg')) = false
  ∧ (armed_sends cfg' ≤ armed_sends cfg)%nat
  ∧ (armed_starts cfg' ≤ armed_starts cfg)%nat
  ∧ (length (timers (world cfg')) + armed_starts cfg'
     ≤ length (timers w') + armed_starts cfg)%nat
  ∧ (armed_sends cfg = 0%nat →
     filter (λ e, is_any_rpc e = true) (log (world cfg'))
     = filter (λ e, is_any_rpc e = true) (log w))
  ∧ (armed_starts cfg = 0%nat →
     ∀ t, t ∈ timers (world cfg') → t ∈ timers w ∧ survives (held (self w)) t)
  ∧ ∀ k, loop P k (world cfg') = (Normal tt, world cfg').
Proof.
  intros w' cfg Hsteps.
  destruct (ClientFacts.stop_stops P w) as (w2 & Hstop & Hrun & _).
  assert (Hw2 : w' = w2) by (subst w'; by rewrite Hstop). subst w2.
  destruct (SettleFacts.steps_wind_down P cfg cfg' Hrun Hsteps)
    as (H0 & H1 & H2 & H3 & H4 & H5 & H6).
  split; [by apply AloneFacts.stop_alone|].
  do 4 (split; [done|]). split; [|split].
  - intros Hnone. rewrite H5 by lia. simpl.
    destruct (StopFacts.stop_log P w) as (evs & Hlog & Hrpc & _).
    subst w'. by rewrite Hlog, filter_app, Hrpc, app_nil_r.
  - intros Hnone t Ht. apply StopFacts.stop_timers. by apply (H6 Hnone).
  - intros k. by apply ClientFacts.loop_stopped.
Qed.

(** X23 at work: [stop] is called when the update report callback has
    passed its test of [running]; the callback starts its timer after
    [stop], and the client stays stopped. *)
Lemma stop_winds_down_witness :
  running (self (world Late.after_stop)) = false
  ∧ (length (timers (world Late.after_stop)) + armed_starts Late.after_stop
     ≤ length (timers (stop Script.platform (world Late.before_stop)).2)
       + armed_starts {| world := (stop Script.platform (world Late.before_stop)).2;
                         threads := threads Late.before_stop |})%nat.
Proof.
  assert (Hsteps : steps Script.platform
                     {| world := (stop Script.platform (world Late.before_stop)).2;
                        threads := threads Late.before_stop |}
                     Late.after_stop).
  { apply (SettleFacts.play_steps _ Late.after_the_answer).
    apply SettleFacts.play_default. by vm_compute. }
  destruct (stop_winds_down Script.platform (world Late.before_stop)
              (threads Late.before_stop) Late.after_stop Hsteps)
    as (_ & Hrun & _ & _ & Hlen & _).
  split; [exact Hrun|exact Hlen].
Defined.

(** C3 refuted: the update report callback has passed the test of
    [running] in [_schedule_update_report] when the heartbeat callback
    is told [alive = false]; the client is stopped, no timer is
    pending, and then the update report callback starts its next
    timer. *)
Lemma C3_timer_started_after_alive_false :
  steps Script.platform Late.both_due Late.at_the_answer
  ∧ running (self (world Late.at_the_answer)) = false
  ∧ last (log (world Late.at_the_answer))
    = Some (EvPrint "Server indicated session is not alive, reconnecting..." None)
  ∧ timers (world Late.at_the_answer) = []
  ∧ steps Script.platform Late.at_the_answer Late.rescheduled
  ∧ timers (world Late.rescheduled)
    = [{| timer_id := 2; timer_interval := 3600; timer_callback := UpdateReportTask |}]
  ∧ timer_starts (log (world Late.rescheduled))
    = S (timer_starts (log (world Late.at_the_answer))).
Proof.
  split.
  { apply (SettleFacts.play_steps _ Late.until_the_answer).
    apply SettleFacts.play_default. by vm_compute. }
  split; [by vm_compute|]. split; [by vm_compute|]. split; [by vm_compute|].
  split.
  { apply (SettleFacts.play_steps _ Late.after_the_answer).
    apply SettleFacts.play_default. by vm_compute. }
  split; by vm_compute.
Qed.

(** ** The add-on options *)

(** X28. [load_config] either exits with status 1 after printing one
    message, or returns, without printing, the object of the options
    file with the two TLS options added where the file does not set
    them: [grpc_tls_skip_verify = False] and [grpc_tls_ca_cert = ""].
    It returns only if the file holds a JSON object whose [server_url]
    and [enrollment_code] are set and not empty; nothing the file sets
    is changed. *)
Theorem load_config_returns_checked_options (fs : EnrollmentStore.filesystem) :
  match (Config.load_config fs).2 with
  | Config.Exited status => status = 1 ∧ length (Config.load_config fs).1 = 1%nat
  | Config.Returned config =>
      (Config.load_config fs).1 = []
      ∧ ∃ options mode,
          EnrollmentStore.fs_files fs !! Config.OPTIONS_PATH
          = Some {| EnrollmentStore.f_content := EnrollmentStore.Json (EnrollmentStore.JDict options);
                    EnrollmentStore.f_mode := mode |}
          ∧ truthy (get options "server_url") = true
          ∧ truthy (get options "enrollment_code") = true
          ∧ (∀ k v, options !! k = Some v → config !! k = Some v)
          ∧ get_or config "grpc_tls_skip_verify" PNone
            = get_or options "grpc_tls_skip_verify" (PBool false)
          ∧ get_or config "grpc_tls_ca_cert" PNone
            = get_or options "grpc_tls_ca_cert" (PStr "")
          ∧ (∀ k, is_Some (config !! k) →
                  is_Some (options !! k) ∨ k = "grpc_tls_skip_verify"
                  ∨ k = "grpc_tls_ca_cert")
  end.
Proof.
  unfold Config.load_config.
  destruct (negb (EnrollmentStore.os_path_exists _ fs)); [done|].
  unfold EnrollmentStore.read_json.
  destruct (EnrollmentStore.fs_files fs !! Config.OPTIONS_PATH)
    as [[[[options| |]|] mode]|] eqn:Hfile; try done.
  unfold Config.required_fields. rewrite !filter_cons, filter_nil.
  destruct (truthy (get options "server_url")) eqn:Hurl;
    destruct (truthy (get options "enrollment_code")) eqn:Hcode;
    simpl; try done.
  split; [done|]. exists options, mode. do 3 (split; [done|]).
  unfold Config.setdefault, get_or.
  destruct (options !! "grpc_tls_skip_verify") as [skip|] eqn:Hskip;
    destruct (options !! "grpc_tls_ca_cert") as [ca|] eqn:Hca; simpl;
    rewrite ?lookup_insert_ne, ?Hca by done; simpl;
    rewrite ?lookup_insert_eq, ?lookup_insert_ne, ?Hskip, ?Hca by done; simpl.
  - split_and!; auto.
  - split_and!; auto.
    + intros k v Hk. destruct (decide (k = "grpc_tls_ca_cert")) as [->|]; [congruence|].
      by rewrite lookup_insert_ne.
    + intros k. destruct (decide (k = "grpc_tls_ca_cert")) as [->|]; [auto|].
      rewrite lookup_insert_ne by done. auto.
  - split_and!; auto.
    + intros k v Hk. destruct (decide (k = "grpc_tls_skip_verify")) as [->|]; [congruence|].
      by rewrite lookup_insert_ne.
    + intros k. destruct (decide (k = "grpc_tls_skip_verify")) as [->|]; [auto|].
      rewrite lookup_insert_ne by done. auto.
  - split_and!; auto.
    + intros k v Hk.
      destruct (decide (k = "grpc_tls_ca_cert")) as [->|]; [congruence|].
      destruct (decide (k = "grpc_tls_skip_verify")) as [->|]; [congruence|].
      by rewrite !lookup_insert_ne.
    + by rewrite lookup_insert_eq.
    + intros k.
      destruct (decide (k = "grpc_tls_ca_cert")) as [->|]; [auto|].
      destruct (decide (k = "grpc_tls_skip_verify")) as [->|]; [auto|].
      rewrite !lookup_insert_ne by done. auto.
Qed.

(** ** The session client *)

Module SessionFacts.
Import EnrollmentStore SessionClient.

(** The record [enroll] builds from a response. *)
Lemma record_as_loaded (instance_id token url : pyval) :
  ({[ "instanceId" := instance_id; "token" := token; "grpcServerUrl" := url ]} : dict)
  = {[ "instanceId" := instance_id; "grpcServerUrl" := url; "token" := token ]}.
Proof.
  apply map_eq. intros k.
  destruct (decide (k = "instanceId")) as [->|]; [by simplify_map_eq|].
  destruct (decide (k = "token")) as [->|]; [by simplify_map_eq|].
  destruct (decide (k = "grpcServerUrl")) as [->|]; by simplify_map_eq.
Qed.

Section Facts.

Context (S : Server).
Implicit Types w : World S.

(** [enroll], by the answer of the server. *)
Lemma session_enroll_eq w :
  let ch := insecure_channel (server_url (self w)) in
  let rq := {| rq_code := enrollment_code (self w) |} in
  let reply := stub_Enroll S ch rq 10 (net w) in
  let said := out w ++ [Print ("Enrolling with gRPC server at "
                               +:+ server_url (self w) +:+ "...");
                        EnrollCall ch rq 10] in
  enroll S w =
    match reply.1 with
    | GrpcClient.RpcOk response =>
        if rs_success response then
          let d : dict := {[ "instanceId" := PStr (rs_instance_id response);
                             "token" := PStr (rs_token response);
                             "grpcServerUrl" := PStr (server_url (self w)) ]} in
          (true, {| self := set_enrollment_data (Some d) (self w);
                    net := reply.2;
                    files := save_enrollment_data d (files w);
                    out := said ++ [Print ("Enrolled successfully. Instance ID: "
                                           +:+ rs_instance_id response)] |})
        else
          (false, {| self := self w; net := reply.2; files := files w;
                     out := said ++ [Print ("Enrollment failed: "
                                            +:+ rs_error response)] |})
    | GrpcClient.RpcFail code details =>
        (false, {| self := self w; net := reply.2; files := files w;
                   out := said ++ [Print ("gRPC Enrollment error: "
                                          +:+ GrpcClient.rpc_error_text code details)] |})
    end.
Proof.
  intros ch rq reply said. subst ch rq reply said.
  unfold enroll, call_Enroll, _create_channel. simpl.
  destruct (stub_Enroll S _ _ 10 (net w)) as [[response|code details] n]; simpl.
  - destruct (rs_success response); simpl; unfold print, assign, on_files; simpl;
      by rewrite <- !app_assoc.
  - unfold print; simpl. by rewrite <- !app_assoc.
Qed.

End Facts.

End SessionFacts.

(** X29. [enroll] of the session client never raises and makes exactly
    one call: [Enroll] with the enrollment code, on an insecure channel
    to the client's server address, with a timeout of 10.  It returns
    [True] exactly when the server answered with [success]; then the
    record kept by the client holds the instance id and the token of
    the answer and the client's server address, and loading from the
    store gives back that same record.  When it returns [False] the
    client object and the files are as before. *)
Theorem session_enroll_effect (S : SessionClient.Server) (w : SessionClient.World S) :
  let c := SessionClient.self w in
  let ch := insecure_channel (SessionClient.server_url c) in
  let rq := {| SessionClient.rq_code := SessionClient.enrollment_code c |} in
  let reply := SessionClient.stub_Enroll S ch rq 10 (SessionClient.net w) in
  let ok := (SessionClient.enroll S w).1 in
  let w' := (SessionClient.enroll S w).2 in
  SessionClient.net w' = reply.2
  ∧ filter (λ e, SessionClient.is_call e = true) (SessionClient.out w')
    = filter (λ e, SessionClient.is_call e = true) (SessionClient.out w)
      ++ [SessionClient.EnrollCall ch rq 10]
  ∧ (ok = true ↔ ∃ response, reply.1 = GrpcClient.RpcOk response
                             ∧ SessionClient.rs_success response = true)
  ∧ (∀ response, reply.1 = GrpcClient.RpcOk response →
       SessionClient.rs_success response = true →
       let d : dict := {[ "instanceId" := PStr (SessionClient.rs_instance_id response);
                          "token" := PStr (SessionClient.rs_token response);
                          "grpcServerUrl" := PStr (SessionClient.server_url c) ]} in
       SessionClient.self w' = SessionClient.set_enrollment_data (Some d) c
       ∧ EnrollmentStore.load_enrollment_data (SessionClient.files w') = Some d)
  ∧ (ok = false →
       SessionClient.self w' = c ∧ SessionClient.files w' = SessionClient.files w).
Proof.
  intros c ch rq reply ok w'. subst ok w'.
  rewrite (SessionFacts.session_enroll_eq S w). fold c ch rq reply.
  destruct (reply.1) as [response|code details] eqn:Hreply.
  - destruct (SessionClient.rs_success response) eqn:Hok; simpl.
    + split; [done|]. split.
      { rewrite !filter_app. simpl. by rewrite app_nil_r. }
      split; [split; [by exists response|done]|].
      split; [|done].
      intros resp [= <-] _. split; [done|].
      rewrite StoreFacts.load_after_save.
      rewrite SessionFacts.record_as_loaded. f_equal.
    + split; [done|]. split.
      { rewrite !filter_app. simpl. by rewrite app_nil_r. }
      split; [split; [done|intros (resp & [= <-] & ?); congruence]|].
      split; [|done]. intros resp [= <-]. congruence.
  - simpl. split; [done|]. split.
    { rewrite !filter_app. simpl. by rewrite app_nil_r. }
    split; [split; [done|by intros (resp & [=] & _)]|].
    split; [|done]. by intros resp [=].
Qed.

(** X30. The credentials of an enrollment survive a restart.  After an
    [enroll] that returned [True], take any client object on the files
    that [enroll] left: [load_existing_enrollment] returns [True], and
    [connect_and_handshake] then returns without raising after exactly
    one call, a [Handshake] on an insecure channel to the address the
    enrolling client had, carrying the instance id and the token the
    server issued.  It returns [True], and sets [running] and the
    session id, exactly when the server answers with status "ok". *)
Theorem session_credentials_survive_restart (S : SessionClient.Server)
    (w w1 w2 : SessionClient.World S) (response : SessionClient.EnrollResponse) :
  SessionClient.enroll S w = (true, w1) →
  (SessionClient.stub_Enroll S (insecure_channel (SessionClient.server_url (SessionClient.self w)))
     {| SessionClient.rq_code := SessionClient.enrollment_code (SessionClient.self w) |}
     10 (SessionClient.net w)).1 = GrpcClient.RpcOk response →
  SessionClient.files w2 = SessionClient.files w1 →
  let w3 := (SessionClient.load_existing_enrollment S w2).2 in
  let ch := insecure_channel (SessionClient.server_url (SessionClient.self w)) in
  let rq := {| SessionClient.hq_addon_id := SessionClient.rs_instance_id response;
               SessionClient.hq_token := SessionClient.rs_token response |} in
  let reply := SessionClient.stub_Handshake S ch rq 10 (SessionClient.net w2) in
  let accepted :=
    match reply.1 with
    | GrpcClient.RpcOk answer => bool_decide (SessionClient.hs_status answer = "ok")
    | GrpcClient.RpcFail _ _ => false
    end in
  let w4 := (SessionClient.connect_and_handshake S w3).2 in
  (SessionClient.load_existing_enrollment S w2).1 = true
  ∧ (SessionClient.connect_and_handshake S w3).1 = GrpcClient.Normal accepted
  ∧ SessionClient.net w4 = reply.2
  ∧ filter (λ e, SessionClient.is_call e = true) (SessionClient.out w4)
    = filter (λ e, SessionClient.is_call e = true) (SessionClient.out w2)
      ++ [SessionClient.HandshakeCall ch rq 10]
  ∧ SessionClient.channel (SessionClient.self w4) = Some ch
  ∧ SessionClient.files w4 = SessionClient.files w2
  ∧ (if accepted
     then SessionClient.running (SessionClient.self w4) = true
          ∧ ∃ answer, reply.1 = GrpcClient.RpcOk answer
                      ∧ SessionClient.session_id (SessionClient.self w4)
                        = Some (SessionClient.hs_session_id answer)
     else SessionClient.running (SessionClient.self w4)
          = SessionClient.running (SessionClient.self w2)
          ∧ SessionClient.session_id (SessionClient.self w4)
            = SessionClient.session_id (SessionClient.self w2)).
Proof.
  intros Henroll Hreply Hfiles.
  rewrite (SessionFacts.session_enroll_eq S w) in Henroll. rewrite Hreply in Henroll.
  destruct (SessionClient.rs_success response); [|done].
  injection Henroll as <-.
  intros w3 ch rq reply accepted w4.
  assert (Hload : EnrollmentStore.load_enrollment_data (SessionClient.files w2)
                  = Some {[ "instanceId" := PStr (SessionClient.rs_instance_id response);
                            "grpcServerUrl" := PStr (SessionClient.server_url
                                                       (SessionClient.self w));
                            "token" := PStr (SessionClient.rs_token response) ]}).
  { rewrite Hfiles. simpl. by rewrite StoreFacts.load_after_save. }
  subst w4 w3. unfold SessionClient.load_existing_enrollment.
  rewrite Hload. simpl.
  split; [done|].
  unfold SessionClient.connect_and_handshake, dict_truthy. simpl.
  rewrite bool_decide_eq_false_2 by apply insert_non_empty. simpl.
  unfold get_or. simplify_map_eq. simpl.
  unfold SessionClient.call_Handshake. simpl.
  fold ch rq. fold reply.
  subst accepted.
  destruct reply as [[answer|code details] n] eqn:Hr; simpl.
  - destruct (bool_decide (SessionClient.hs_status answer = "ok")); simpl.
    + do 2 (split; [done|]). split.
      { rewrite !filter_app. simpl. by rewrite !app_nil_r. }
      do 3 (split; [done|]). by exists answer.
    + do 2 (split; [done|]). split.
      { rewrite !filter_app. simpl. by rewrite !app_nil_r. }
      done.
  - do 2 (split; [done|]). split.
    { rewrite !filter_app. simpl. by rewrite !app_nil_r. }
    done.
Qed.

(** X30 at work: a newcomer enrolls with [grpc.example:50051/]; a
    client for another address then loads the record and connects to
    the address enrolled with. *)
Lemma session_credentials_survive_restart_witness :
  SessionClient.channel
    (SessionClient.self
       (SessionClient.connect_and_handshake SessionClient.welcoming
          (SessionClient.load_existing_enrollment SessionClient.welcoming
             (SessionClient.Build_World SessionClient.welcoming
                (SessionClient.self (SessionClient.newcomer "other:1"))
                tt
                (SessionClient.files
                   (SessionClient.enroll SessionClient.welcoming
                      (SessionClient.newcomer "grpc.example:50051/")).2)
                [])).2).2)
  = Some (insecure_channel "grpc.example:50051").
Proof.
  pose proof (session_credentials_survive_restart SessionClient.welcoming
                (SessionClient.newcomer "grpc.example:50051/")
                (SessionClient.enroll SessionClient.welcoming
                   (SessionClient.newcomer "grpc.example:50051/")).2
                (SessionClient.Build_World SessionClient.welcoming
                   (SessionClient.self (SessionClient.newcomer "other:1"))
                   tt
                   (SessionClient.files
                      (SessionClient.enroll SessionClient.welcoming
                         (SessionClient.newcomer "grpc.example:50051/")).2)
                   [])
                {| SessionClient.rs_success := true;
                   SessionClient.rs_instance_id := "i-1";
                   SessionClient.rs_token := "t-1";
                   SessionClient.rs_error := "" |}
                eq_refl eq_refl eq_refl) as H.
  exact (proj1 (proj2 (proj2 (proj2 (proj2 H))))).
Defined.

(** ** The supervisor API *)

Module SupervisorFacts.
Import SupervisorApi.

Ltac runfold :=
  unfold http_get, http_post, raise_for_status, emit, lift in *;
  unfold try_request, bind, ret, raise in *.

Section Facts.

Context (H : Http).
Implicit Types (s : state H) (self : SupervisorClient).

Lemma get_data_without_token self path s :
  _token self = "" →
  _get_data H self path s =
    (inr VNone,
     {| net := net s;
        out := out s ++ [Print "Warning: SUPERVISOR_TOKEN not set, skipping supervisor API call"] |}).
Proof.
  intros Htok. unfold _get_data. by rewrite bool_decide_eq_true_2.
Qed.

(** [_get_data], for a client with a token. *)
Lemma get_data_eq self path s :
  _token self ≠ "" →
  let url := SUPERVISOR_URL +:+ path in
  let reply := requests_get H url (_headers self) 10 (net s) in
  let s1 := {| net := reply.2; out := out s ++ [Get url (_headers self) 10] |} in
  let failed e :=
    (inr VNone,
     {| net := net s1;
        out := out s1 ++ [PrintError ("Failed to fetch " +:+ path +:+ " from supervisor: ") e] |}) in
  let escaped (e : error) : (error + value) * state H :=
    match e with
    | RequestException _ => failed e
    | _ => (inl e, s1)
    end in
  _get_data H self path s =
    match reply.1 with
    | inl e => escaped e
    | inr response =>
        match status_error response with
        | Some text => failed (RequestException text)
        | None =>
            match json response with
            | inl e => escaped e
            | inr (VDict items) =>
                if is_ok (default VNone (lookup_key "result" items)) then
                  (inr (default (VDict []) (lookup_key "data" items)), s1)
                else
                  (inr VNone,
                   {| net := net s1;
                      out := out s1 ++
                        [PrintValue ("Supervisor API error for " +:+ path +:+ ": ")
                           (default (VStr "Unknown error") (lookup_key "message" items))] |})
            | inr _ => (inl AttributeError, s1)
            end
        end
    end.
Proof.
  intros Htok url reply s1 failed escaped. subst reply s1 failed escaped.
  unfold _get_data. rewrite bool_decide_eq_false_2 by done.
  runfold. simpl. fold url.
  destruct (requests_get H url (_headers self) 10 (net s)) as [[e|response] n1]; simpl.
  { by destruct e. }
  destruct (status_error response) as [text|]; simpl; [done|].
  destruct (json response) as [e|data]; simpl.
  { by destruct e. }
  destruct data; simpl; try done.
  by destruct (is_ok _).
Qed.

Lemma get_data_spec self path s :
  _token self ≠ "" →
  let url := SUPERVISOR_URL +:+ path in
  let headers := [("Authorization", "Bearer " +:+ _token self)] in
  let r := (_get_data H self path s).1 in
  let s' := (_get_data H self path s).2 in
  net s' = (requests_get H url headers 10 (net s)).2
  ∧ (∃ evs, out s' = out s ++ Get url headers 10 :: evs
            ∧ filter (λ e, is_request e = true) evs = [])
  ∧ (∀ text, r ≠ inl (RequestException text))
  ∧ (∀ v, r = inr v → v ≠ VNone →
       ∃ response items,
         (requests_get H url headers 10 (net s)).1 = inr response
         ∧ status_error response = None
         ∧ json response = inr (VDict items)
         ∧ lookup_key "result" items = Some (VStr "ok")
         ∧ v = default (VDict []) (lookup_key "data" items)).
Proof.
  intros Htok url headers r s'. subst r s'.
  pose proof (get_data_eq self path s Htok) as Heq.
  cbv zeta in Heq. fold url in Heq. change (_headers self) with headers in Heq.
  rewrite Heq. clear Heq.
  assert (Hone : ∀ ev, is_request ev = false →
            ∃ evs, (out s ++ [Get url headers 10]) ++ [ev]
                   = out s ++ Get url headers 10 :: evs
                   ∧ filter (λ e, is_request e = true) evs = []).
  { intros ev Hev. exists [ev]. rewrite <- app_assoc. split; [done|].
    rewrite filter_cons. by rewrite decide_False by (by rewrite Hev). }
  assert (Hnone : ∃ evs, out s ++ [Get url headers 10]
                         = out s ++ Get url headers 10 :: evs
                         ∧ filter (λ e, is_request e = true) evs = []).
  { by exists []. }
  assert (Hfail : ∀ (e : error + value),
            (e = inr VNone ∨ ∃ e', e = inl e' ∧ ∀ text, e' ≠ RequestException text) →
            (∀ text, e ≠ inl (RequestException text))
            ∧ ∀ v, e = inr v → v ≠ VNone →
                ∃ response items,
                  (requests_get H url headers 10 (net s)).1 = inr response
                  ∧ status_error response = None
                  ∧ json response = inr (VDict items)
                  ∧ lookup_key "result" items = Some (VStr "ok")
                  ∧ v = default (VDict []) (lookup_key "data" items)).
  { intros e [->|(e' & -> & He')].
    - split; [done|]. by intros v [= <-] Hv.
    - split; [|done]. intros text [= ->]. by apply (He' text). }
  destruct (requests_get H url headers 10 (net s)) as [[e|response] n1] eqn:Hreq;
    simpl in *.
  { destruct e; simpl; (split; [done|]); (split; [by auto|]);
      apply Hfail; eauto. }
  destruct (status_error response) as [text|] eqn:Hst; simpl.
  { split; [done|]. split; [by auto|]. apply Hfail; eauto. }
  destruct (json response) as [e|data] eqn:Hjson; simpl.
  { destruct e; simpl; (split; [done|]); (split; [by auto|]);
      apply Hfail; eauto. }
  destruct data as [| | | | | |items]; simpl;
    try (split; [done|]; split; [done|]; apply Hfail; eauto).
  destruct (lookup_key "result" items) as [result|] eqn:Hres; simpl.
  2:{ split; [done|]. split; [by auto|]. apply Hfail; eauto. }
  destruct (is_ok result) eqn:Hok; simpl.
  2:{ split; [done|]. split; [by auto|]. apply Hfail; eauto. }
  split; [done|]. split; [done|]. split; [done|].
  intros v [= <-] Hv. exists response, items.
  do 3 (split; [done|]). split; [|done].
  destruct result; try done. simpl in Hok. by apply bool_decide_eq_true in Hok as ->.
Qed.

(** The requests in what [_get_data] logs. *)
Lemma get_data_requests self path s :
  _token self ≠ "" →
  filter (λ e, is_request e = true) (out (_get_data H self path s).2)
  = filter (λ e, is_request e = true) (out s)
    ++ [Get (SUPERVISOR_URL +:+ path) (_headers self) 10].
Proof.
  intros Htok. destruct (get_data_spec self path s Htok) as (_ & (evs & -> & Hevs) & _).
  rewrite filter_app, filter_cons. rewrite decide_True by done. by rewrite Hevs.
Qed.

Lemma system_component_shape kind name info c :
  system_component kind name info = inr c →
  ∃ version version_latest b,
    c = component kind (VStr "") (VStr name) version version_latest (VBool b).
Proof.
  unfold system_component. destruct info; simpl; try done.
  intros [= <-]. by eexists _, _, _.
Qed.

Lemma addon_components_shape addons cs :
  addon_components addons = inr cs →
  length cs = length addons
  ∧ Forall (λ c, ∃ slug name version version_latest b,
               c = component "addon" slug name version version_latest (VBool b)) cs.
Proof.
  revert cs. induction addons as [|a addons IH]; intros cs; simpl.
  { intros [= <-]. by split. }
  destruct (addon_component a) as [e|c] eqn:Hc; [done|].
  destruct (addon_components addons) as [e|cs']; [done|].
  intros [= <-]. destruct (IH cs' eq_refl) as [Hlen Hall].
  split; [simpl; by rewrite Hlen|]. constructor; [|done].
  unfold addon_component in Hc. destruct a; simpl in Hc; try done.
  injection Hc as <-. by eexists _, _, _, _, _.
Qed.

Lemma addon_components_each (addons cs : list value) :
  addon_components addons = inr cs →
  Forall2 (λ addon c, addon_component addon = inr c) addons cs.
Proof.
  revert cs. induction addons as [|a addons IH]; intros cs; simpl.
  { intros [= <-]. constructor. }
  destruct (addon_component a) as [e|c] eqn:Hc; [done|].
  destruct (addon_components addons) as [e|cs']; [done|].
  intros [= <-]. constructor; [done|]. by apply IH.
Qed.

End Facts.
End SupervisorFacts.

Import SupervisorApi.

(** X24. A client without a token never sends a request: every method
    returns its fallback ([None], an empty list, [False], an error
    dictionary) after at most printing warnings, and the network is left
    untouched. *)
Theorem supervisor_without_token (H : Http) (self : SupervisorClient)
    (update_type addon_slug : string) (s : state H) :
  _token self = "" →
  let warned n :=
    {| net := net s;
       out := out s ++ replicate n
                (Print "Warning: SUPERVISOR_TOKEN not set, skipping supervisor API call") |} in
  get_info H self s = (inr VNone, warned 1%nat)
  ∧ get_core_info H self s = (inr VNone, warned 1%nat)
  ∧ get_os_info H self s = (inr VNone, warned 1%nat)
  ∧ get_addons H self s = (inr (VList []), warned 1%nat)
  ∧ get_update_components H self s = (inr [], warned 4%nat)
  ∧ get_available_updates H self s =
      (inr (VList []),
       {| net := net s;
          out := out s ++ [Print "Warning: SUPERVISOR_TOKEN not set, skipping available updates"] |})
  ∧ reload_updates H self s =
      (inr false,
       {| net := net s;
          out := out s ++ [Print "Warning: SUPERVISOR_TOKEN not set, cannot reload updates"] |})
  ∧ trigger_update H self update_type addon_slug s =
      (inr (outcome_dict false (VStr "SUPERVISOR_TOKEN not set") (VStr "")), s).
Proof.
  intros Htok warned. subst warned.
  unfold get_info, get_core_info, get_os_info, get_addons, get_update_components,
    get_core_info, get_os_info, get_addons, get_available_updates, reload_updates,
    trigger_update, system_components.
  unfold bind at 1 2 3 4 5 6 7 8 9 10.
  rewrite !(SupervisorFacts.get_data_without_token H self _ _ Htok).
  rewrite !bool_decide_eq_true_2 by done. simpl.
  SupervisorFacts.runfold. simpl.
  rewrite !(SupervisorFacts.get_data_without_token H self _ _ Htok). simpl.
  rewrite !(SupervisorFacts.get_data_without_token H self _ _ Htok). simpl.
  rewrite !(SupervisorFacts.get_data_without_token H self _ _ Htok). simpl.
  rewrite <- !app_assoc. simpl. done.
Qed.

(** X25. With a token, [_get_data] sends exactly one request: a GET to
    the supervisor URL followed by the path, with the bearer token and
    a timeout of 10.  It returns something other than [None] only if
    that request was answered without error status by a JSON object
    whose [result] is "ok", and then it returns the [data] of that
    object (an empty dictionary if it has none).  A RequestException
    never escapes. *)
Theorem get_data_returns_ok_data_only (H : Http) (self : SupervisorClient)
    (path : string) (s : state H) :
  _token self ≠ "" →
  let url := SUPERVISOR_URL +:+ path in
  let headers := [("Authorization", "Bearer " +:+ _token self)] in
  let r := (_get_data H self path s).1 in
  let s' := (_get_data H self path s).2 in
  net s' = (requests_get H url headers 10 (net s)).2
  ∧ (∃ evs, out s' = out s ++ Get url headers 10 :: evs
            ∧ filter (λ e, is_request e = true) evs = [])
  ∧ (∀ text, r ≠ inl (RequestException text))
  ∧ (∀ v, r = inr v → v ≠ VNone →
       ∃ response items,
         (requests_get H url headers 10 (net s)).1 = inr response
         ∧ status_error response = None
         ∧ json response = inr (VDict items)
         ∧ lookup_key "result" items = Some (VStr "ok")
         ∧ v = default (VDict []) (lookup_key "data" items)).
Proof. apply SupervisorFacts.get_data_spec. Qed.

(** X26. When [get_update_components] returns, its list is made of four
    parts in this order.  The first three are what the supervisor info,
    the core info and the OS info of this call give: no entry when the
    info is empty, else the one entry built from it.  The fourth has
    one entry per add-on of the list that [get_addons] returned in this
    call, in the order of that list, each built from its add-on.  Every
    entry has the six keys [component_type], [slug], [name], [version],
    [version_latest] and [update_available], in this order, and
    [update_available] is a boolean.  With a token, the requests made
    are four GETs: supervisor info, core info, OS info and add-ons, in
    this order. *)
Theorem update_components_shape (H : Http) (self : SupervisorClient) (s : state H)
    (components : list value) (s' : state H) :
  get_update_components H self s = (inr components, s') →
  let one kind name (l : list value) :=
    l = [] ∨ ∃ version version_latest b,
               l = [component kind (VStr "") (VStr name) version version_latest (VBool b)] in
  let of_info kind name (info : value) (l : list value) :=
    if truth info then ∃ c, system_component kind name info = inr c ∧ l = [c]
    else l = [] in
  (∃ c1 c2 c3 c4,
     components = c1 ++ c2 ++ c3 ++ c4
     ∧ one "supervisor" "Supervisor" c1
     ∧ one "core" "Home Assistant Core" c2
     ∧ one "os" "Home Assistant OS" c3
     ∧ Forall (λ c, ∃ slug name version version_latest b,
                  c = component "addon" slug name version version_latest (VBool b)) c4
     ∧ ∃ info1 s1 info2 s2 info3 s3 listed addons,
         _get_data H self "/supervisor/info" s = (inr info1, s1)
         ∧ get_core_info H self s1 = (inr info2, s2)
         ∧ get_os_info H self s2 = (inr info3, s3)
         ∧ get_addons H self s3 = (inr listed, s')
         ∧ iterate listed = inr addons
         ∧ of_info "supervisor" "Supervisor" info1 c1
         ∧ of_info "core" "Home Assistant Core" info2 c2
         ∧ of_info "os" "Home Assistant OS" info3 c3
         ∧ length c4 = length addons
         ∧ Forall2 (λ addon c, addon_component addon = inr c) addons c4)
  ∧ (_token self ≠ "" →
     filter (λ e, is_request e = true) (out s')
     = filter (λ e, is_request e = true) (out s)
       ++ map (λ path, Get (SUPERVISOR_URL +:+ path)
                         [("Authorization", "Bearer " +:+ _token self)] 10)
            ["/supervisor/info"; "/core/info"; "/os/info"; "/addons"]).
Proof.
  unfold get_update_components, get_core_info, get_os_info.
  intros Hrun.
  pose (one := λ (kind name : string) (l : list value),
          l = [] ∨ ∃ version version_latest b,
                     l = [component kind (VStr "") (VStr name) version version_latest
                            (VBool b)]).
  pose (of_info := λ (kind name : string) (info : value) (l : list value),
          if truth info then ∃ c, system_component kind name info = inr c ∧ l = [c]
          else l = []).
  assert (Hsys : ∀ kind name info (st : state H) l st',
            system_components H kind name info st = (inr l, st') →
            st' = st ∧ one kind name l ∧ of_info kind name info l).
  { intros kind name info st l st'. unfold system_components, of_info.
    destruct (truth info); [|intros [= <- <-]; split; [done|split; [by left|done]]].
    SupervisorFacts.runfold.
    destruct (system_component kind name info) as [e|c] eqn:Hc; [done|].
    intros [= <- <-]. split; [done|]. split; [|by exists c]. right.
    apply SupervisorFacts.system_component_shape in Hc as (v & vl & b & ->).
    by exists v, vl, b. }
  unfold bind at 1 in Hrun.
  pose proof (SupervisorFacts.get_data_requests H self "/supervisor/info" s) as Hr1.
  destruct (_get_data H self "/supervisor/info" s) as [[e|info1] s1] eqn:Hd1; [done|].
  unfold bind at 1 in Hrun.
  destruct (system_components H "supervisor" "Supervisor" info1 s1)
    as [[e|c1] s1'] eqn:H1; [done|].
  apply Hsys in H1 as (-> & Hc1 & Ho1).
  unfold bind at 1 in Hrun.
  pose proof (SupervisorFacts.get_data_requests H self "/core/info" s1) as Hr2.
  destruct (_get_data H self "/core/info" s1) as [[e|info2] s2] eqn:Hd2; [done|].
  unfold bind at 1 in Hrun.
  destruct (system_components H "core" "Home Assistant Core" info2 s2)
    as [[e|c2] s2'] eqn:H2; [done|].
  apply Hsys in H2 as (-> & Hc2 & Ho2).
  unfold bind at 1 in Hrun.
  pose proof (SupervisorFacts.get_data_requests H self "/os/info" s2) as Hr3.
  destruct (_get_data H self "/os/info" s2) as [[e|info3] s3] eqn:Hd3; [done|].
  unfold bind at 1 in Hrun.
  destruct (system_components H "os" "Home Assistant OS" info3 s3)
    as [[e|c3] s3'] eqn:H3; [done|].
  apply Hsys in H3 as (-> & Hc3 & Ho3).
  unfold bind at 1 in Hrun.
  assert (Hr4 : _token self ≠ "" →
                filter (λ e, is_request e = true) (out (get_addons H self s3).2)
                = filter (λ e, is_request e = true) (out s3)
                  ++ [Get (SUPERVISOR_URL +:+ "/addons")
                        [("Authorization", "Bearer " +:+ _token self)] 10]).
  { intros Htok.
    pose proof (SupervisorFacts.get_data_requests H self "/addons" s3) as Hr.
    unfold get_addons. SupervisorFacts.runfold.
    destruct (_get_data H self "/addons" s3) as [[e|data] s4]; [by apply Hr|].
    simpl in *. destruct (truth data); simpl; [|by apply Hr].
    destruct (get data "addons" (VList [])); by apply Hr. }
  destruct (get_addons H self s3) as [[e|listed] s4] eqn:Hga; [done|].
  assert (Hrest : ∃ addons c4,
            iterate listed = inr addons
            ∧ addon_components addons = inr c4 ∧ components = c1 ++ c2 ++ c3 ++ c4
            ∧ s' = s4).
  { SupervisorFacts.runfold.
    destruct (iterate listed) as [e|addons]; [done|]. simpl in Hrun.
    destruct (addon_components addons) as [e|c4] eqn:H4; [done|].
    injection Hrun as <- <-. by exists addons, c4. }
  destruct Hrest as (addons & c4 & Hit & H4 & -> & ->).
  pose proof (SupervisorFacts.addon_components_each addons c4 H4) as Heach.
  apply SupervisorFacts.addon_components_shape in H4 as [Hlen Hc4].
  split.
  { exists c1, c2, c3, c4. do 5 (split; [done|]).
    by exists info1, s1, info2, s2, info3, s3, listed, addons. }
  intros Htok. simpl in *.
  rewrite (Hr4 Htok), (Hr3 Htok), (Hr2 Htok), (Hr1 Htok).
  by rewrite <- !app_assoc.
Qed.

(** X27. With a token, [trigger_update] checks its arguments before it
    sends anything: for an update type other than "core", "os",
    "supervisor" and "addon", and for "addon" without a slug, it
    returns an error dictionary and nothing else happens.  Otherwise it
    sends exactly one request, a POST with a timeout of 60 to the update
    URL of the component, and it reports success exactly when that
    request was answered without error status by a JSON object whose
    [result] is "ok".  A RequestException never escapes. *)
Theorem trigger_update_one_post (H : Http) (self : SupervisorClient)
    (update_type addon_slug : string) (s : state H) :
  _token self ≠ "" →
  let headers := [("Authorization", "Bearer " +:+ _token self)] in
  let r := (trigger_update H self update_type addon_slug s).1 in
  let s' := (trigger_update H self update_type addon_slug s).2 in
  (∀ text, r ≠ inl (RequestException text))
  ∧ ((∃ url, update_url update_type addon_slug = inr url)
     ↔ update_type = "core" ∨ update_type = "os" ∨ update_type = "supervisor"
       ∨ update_type = "addon" ∧ addon_slug ≠ "")
  ∧ match update_url update_type addon_slug with
    | inl error => r = inr (outcome_dict false (VStr error) (VStr "")) ∧ s' = s
    | inr url =>
        net s' = (requests_post H url headers 60 (net s)).2
        ∧ filter (λ e, is_request e = true) (out s')
          = filter (λ e, is_request e = true) (out s) ++ [Post url headers 60]
        ∧ (r = inr (outcome_dict true (VStr "")
                      (VStr ("Update triggered for " +:+ update_type)))
           ↔ ∃ response items,
               (requests_post H url headers 60 (net s)).1 = inr response
               ∧ status_error response = None
               ∧ json response = inr (VDict items)
               ∧ lookup_key "result" items = Some (VStr "ok"))
    end.
Proof.
  intros Htok headers r s'. subst r s'.
  unfold trigger_update. rewrite bool_decide_eq_false_2 by done.
  split; [|split].
  - SupervisorFacts.runfold.
    destruct (update_url update_type addon_slug) as [err|url]; [done|]. simpl.
    destruct (requests_post H url _ 60 (net s)) as [[e|response] n1]; simpl.
    { by destruct e. }
    destruct (status_error response); simpl; [done|].
    destruct (json response) as [e|data]; simpl; [by destruct e|].
    destruct data; simpl; try done.
    destruct (is_ok _); simpl; [done|]. done.
  - unfold update_url.
    destruct (decide (update_type = "core")) as [E1|E1];
      [rewrite bool_decide_eq_true_2 by done; split; [auto|by eexists]|].
    rewrite bool_decide_eq_false_2 by done.
    destruct (decide (update_type = "os")) as [E2|E2];
      [rewrite bool_decide_eq_true_2 by done; split; [auto|by eexists]|].
    rewrite bool_decide_eq_false_2 by done.
    destruct (decide (update_type = "supervisor")) as [E3|E3];
      [rewrite bool_decide_eq_true_2 by done; split; [auto|by eexists]|].
    rewrite bool_decide_eq_false_2 by done.
    destruct (decide (update_type = "addon")) as [E4|E4].
    + rewrite bool_decide_eq_true_2 by done.
      destruct (decide (addon_slug = "")) as [E5|E5].
      * rewrite bool_decide_eq_true_2 by done.
        split; [by intros [? [=]]|]. by intros [?|[?|[?|[_ ?]]]].
      * rewrite bool_decide_eq_false_2 by done. split; [auto 10|by eexists].
    + rewrite bool_decide_eq_false_2 by done.
      split; [by intros [? [=]]|]. by intros [?|[?|[?|[? _]]]].
  - destruct (update_url update_type addon_slug) as [err|url]; [done|].
    SupervisorFacts.runfold. simpl. change (_headers self) with headers.
    destruct (requests_post H url headers 60 (net s)) as [[e|response] n1]; simpl.
    { destruct e; simpl; (split; [done|]);
        rewrite <- ?app_assoc, !filter_app; simpl; (split; [done|]);
        (split; [done|by intros (? & ? & [=] & _)]). }
    split; [by destruct (status_error response), (json response) as [[]|[]];
            simpl; try destruct (is_ok _)|].
    split.
    { destruct (status_error response), (json response) as [[]|[]]; simpl;
        try destruct (is_ok _); simpl;
        by rewrite <- ?app_assoc, !filter_app. }
    destruct (status_error response) as [text|] eqn:Hst; simpl.
    { split; [done|]. intros (resp & items & [= <-] & Hst' & _). congruence. }
    destruct (json response) as [e|data] eqn:Hjson; simpl.
    { destruct e; simpl; (split; [done|]);
        intros (resp & items & [= <-] & _ & Hj & _); congruence. }
    destruct data as [| | | | | |items]; simpl;
      try (split; [done|];
           intros (resp & items & [= <-] & _ & Hj & _); congruence).
    destruct (lookup_key "result" items) as [result|] eqn:Hres; simpl.
    2:{ split; [done|].
        intros (resp & items' & [= <-] & _ & Hj & Hr). rewrite Hjson in Hj.
        injection Hj as <-. congruence. }
    destruct (is_ok result) eqn:Hok; simpl.
    + split; [|done]. intros _. exists response, items.
      do 3 (split; [done|]). destruct result; try done. simpl in Hok.
      by apply bool_decide_eq_true in Hok as ->.
    + split; [done|].
      intros (resp & items' & [= <-] & _ & Hj & Hr). rewrite Hjson in Hj.
      injection Hj as <-. rewrite Hres in Hr. injection Hr as ->. done.
Qed.

(** X24 at work: the update components of a client without a token. *)
Lemma supervisor_without_token_witness :
  get_update_components agreeable {| _token := "" |} (Build_state agreeable tt [])
  = (inr [],
     Build_state agreeable tt
       (replicate 4
          (Print "Warning: SUPERVISOR_TOKEN not set, skipping supervisor API call"))).
Proof.
  pose proof (supervisor_without_token agreeable {| _token := "" |} "core" ""
                (Build_state agreeable tt []) eq_refl) as H.
  simpl in H. exact (proj1 (proj2 (proj2 (proj2 (proj2 H))))).
Defined.

(** X25 at work: the core info of a supervisor that answers. *)
Lemma get_data_returns_ok_data_only_witness :
  ∃ evs,
    out (_get_data agreeable {| _token := "t" |} "/core/info"
           (Build_state agreeable tt [])).2
    = Get "http://supervisor/core/info" [("Authorization", "Bearer t")] 10 :: evs
    ∧ filter (λ e, is_request e = true) evs = [].
Proof.
  pose proof (get_data_returns_ok_data_only agreeable {| _token := "t" |} "/core/info"
                (Build_state agreeable tt []) ltac:(discriminate)) as H.
  simpl in H. exact (proj1 (proj2 H)).
Defined.

(** X26 at work: a supervisor that reports version 1 everywhere and no
    add-on. *)
Lemma update_components_shape_witness :
  filter (λ e, is_request e = true)
    (out (get_update_components agreeable {| _token := "t" |}
            (Build_state agreeable tt [])).2)
  = map (λ path, Get (SUPERVISOR_URL +:+ path) [("Authorization", "Bearer t")] 10)
      ["/supervisor/info"; "/core/info"; "/os/info"; "/addons"].
Proof.
  pose proof (update_components_shape agreeable {| _token := "t" |}
                (Build_state agreeable tt [])
                [ component "supervisor" (VStr "") (VStr "Supervisor") (VStr "1")
                    (VStr "") VNone;
                  component "core" (VStr "") (VStr "Home Assistant Core") (VStr "1")
                    (VStr "") VNone;
                  component "os" (VStr "") (VStr "Home Assistant OS") (VStr "1")
                    (VStr "") VNone ]
                (get_update_components agreeable {| _token := "t" |}
                   (Build_state agreeable tt [])).2
                eq_refl) as H.
  simpl in H. exact (proj2 H ltac:(discriminate)).
Defined.

(** X27 at work: an update of the add-on [core_ssh]. *)
Lemma trigger_update_one_post_witness :
  (trigger_update agreeable {| _token := "t" |} "addon" "core_ssh"
     (Build_state agreeable tt [])).1
  = inr (outcome_dict true (VStr "") (VStr "Update triggered for addon")).
Proof.
  pose proof (trigger_update_one_post agreeable {| _token := "t" |} "addon" "core_ssh"
                (Build_state agreeable tt []) ltac:(discriminate)) as H.
  simpl in H. destruct H as (_ & _ & _ & _ & Hok).
  apply Hok. eexists _, _. repeat split; reflexivity.
Defined.
